(* ===== verification/_CoqProject ===== *)
-Q . S2P
Prelude.v
Crc.v
Huffman.v
Reconst.v
BitIO.v
HuffCode.v
LzTree.v
Tokens.v
Writer.v
Reader.v
Compress.v
Decompress.v
Roundtrip.v
GoStr.v
GoFloat.v
Helpers.v
Mid.v
Proposal.v
Words.v
Transfer.v
Message.v
MessageFormat.v
Catalog.v
MessageText.v
Session.v
Handshake.v
Exchange.v
Delivery.v
SessionSafety.v
Robust.v
Station.v
SessionTurn.v
WholeExchange.v
FileSys.v
Mailbox.v
MailboxProps.v
MailboxDelivery.v
MailboxStation.v
DiskExchange.v
Bufio.v
Transport.v
TransportProps.v
AX25Linux.v
AX25LinuxProps.v
Kenwood.v
Telnet.v
ArdopFrame.v
ArdopWire.v
ArdopTNC.v
ArdopSafety.v
ArdopConn.v
ArdopBroadcast.v
ArdopBeacon.v
Agwpe.v
AgwpeProps.v
AgwpeDemux.v
AgwpeListen.v
AgwpeDial.v
Dialers.v
ArdopDial.v
Rigctld.v
Hamlib.v
