(* ===== verification/Prelude.v ===== *)
(** Verification of wl2k-go, a Winlink 2000 client library in Go.

    * The program

    A Winlink client exchanges e-mail over radio. A session ([src/fbb]) runs the
    B2F protocol on a connection: the two stations identify themselves, propose
    messages to each other, answer the proposals and transfer what was accepted,
    compressed by package lzhuf. The session gets its messages from a mailbox and
    hands it the received ones; [src/mailbox] keeps them as files. The connection
    comes from one of the transports ([src/transport]): TCP with a login, the
    ARDOP sound card modem, AX.25 packet radio through an AGWPE modem, a Kenwood
    TNC or the Linux kernel. [src/rigcontrol] drives the radio itself.

    * Conventions of the model

    A Go function is a Rocq function with the same name where Rocq allows it.
    Integers are [Z], wrapped to their width where the code can overflow; slices
    and strings are lists of bytes; panics are an outcome ([res], below), errors
    are values. Methods that change a struct take it and return it, in a state
    monad where a protocol threads it through many calls ([sess] in Session.v,
    [host] in ArdopTNC.v, [radio] in Agwpe.v). A connection is the bytes, or the
    pieces, or the frames still to come, and what has been written; goroutines run
    between the steps of the caller, and what a select may choose is a parameter.
    Libraries outside of the repository are type classes: MD5, gzip, character
    sets, date formats, net/url, the operating system.

    * The files and what they show

    Prelude.v, GoStr.v, GoFloat.v, Bufio.v and FileSys.v model what the code uses
    of the language and its standard library: outcomes, machine integers, loops
    with their invariant rules; strings, numbers and UTF-8; float64 and how it is
    printed; buffered readers over a stream that arrives in pieces; paths and
    files.

    Package lzhuf. Crc.v: the table-driven CRC16 is polynomial division and
    detects every change of one byte. Huffman.v, Reconst.v: the adaptive Huffman
    tree, its update and rebuild, keep a well-formed, ordered tree. BitIO.v,
    HuffCode.v: bits, codes of characters and positions, and their decoders.
    LzTree.v: the 256 search trees of the dictionary; insertion and deletion
    return, register exactly the position given and record a true match. Tokens.v,
    Writer.v, Reader.v: the tokens both sides agree on, the Writer and the Reader
    with all their methods. Compress.v, Decompress.v, Roundtrip.v: what is written
    in any slices is read back unchanged with any buffer sizes, and reading ends;
    the compressed bytes do not depend on the slices.

    Package fbb. Helpers.v: lines and errors. Mid.v, Words.v, Message.v,
    MessageFormat.v: identifiers, headers, the message format and its round trip.
    MessageText.v: the body and the text form of a message; the lines of a body end in
    CRLF whatever they ended in, long ones are cut, and that is read back. Proposal.v, Transfer.v:
    proposals, answers, their order, the binary transfer and its checksums.
    Session.v, Handshake.v: the session and its handshake, in which both sides
    come to agree; the secure login. Exchange.v, Delivery.v: a turn of an exchange
    delivers exactly the accepted messages. Station.v: what a session may expect
    of a mailbox that does not fail, as the class [StationMailbox] over the
    interface [MBoxHandler] of the code, and a mailbox in memory that implements
    it. SessionTurn.v, WholeExchange.v: two stations, each with any such mailbox,
    run whole exchanges on nothing but each other's output: both end without an
    error, and what was sent, received and counted is exactly what the other side
    wanted, whatever the number of messages. SessionSafety.v: whatever the remote
    sends, proposals are answered soundly, nothing is reported as sent that was
    not confirmed, and every exchange ends. Robust.v: every switch of the
    robust mode of the connection during an exchange, and the bytes written by
    then; status updates stay within bounds.

    Package catalog. Catalog.v: position reports; the position printed is within
    rounding of the position given, and the message that carries it is valid.

    Package mailbox. Mailbox.v: [DirHandler] on a file system that may refuse a
    path or stop a write. MailboxProps.v: it implements a finite map from
    directory and MID to message; received messages are read back; what goes wrong
    when a write fails or a MID is a path. MailboxDelivery.v: it implements the
    interface of the session, and a turn of an exchange leaves the accepted
    messages in the inbox. MailboxStation.v: on a system that does not fail it
    implements [StationMailbox]. DiskExchange.v: so a whole exchange between two
    directories leaves the files of the messages in the other inbox, nothing on
    offer, and all other files of the inbox as they were.

    Transports. Transport.v, TransportProps.v: URLs, the table of dialers, AX.25
    addresses; the route dialed is the one the URL names. AX25Linux.v,
    AX25LinuxProps.v: the bindings to the AX.25 stack of Linux, with a ledger of
    the descriptors that are opened, bound, connected and closed, from which it follows
    what a dial that fails does to its socket; dials that expire end; the set of
    descriptors for select is exact. Kenwood.v, Telnet.v: the dialogues with a
    Kenwood TNC and with a telnet gateway. ArdopFrame.v, ArdopWire.v: frames,
    commands and checksum of the ARDOP protocol; a stream of frames is decoded as
    these frames; messages are well typed. ArdopTNC.v, ArdopSafety.v, ArdopConn.v:
    the driver, its connections and listeners; operations one after another do not
    panic, but for a read into a buffer that is too small and a listener that is closed
    twice; reads come in order, a failed dial restores the bandwidth. ArdopBroadcast.v: the
    broadcaster; the loop that edits the list of receivers in place is a partition,
    and every receiver gets what is sent after it registered. ArdopBeacon.v: the beacon as a state
    machine, the writer, opening. Agwpe.v, AgwpeProps.v: frames, demultiplexer,
    port and connection of the AGWPE protocol; round trip and flow control.
    AgwpeDemux.v: the demux again, as the interleaved steps of the goroutines,
    callers and readers that share it: frames are delivered exactly, and a reader
    that stops blocks every other user. AgwpeListen.v: listeners; every call is
    accounted for. AgwpeDial.v: a dial that may be cancelled, as the steps of its
    goroutines. Dialers.v: [DialURL] of the modems. ArdopDial.v: the dial of an
    ARDOP modem with a context, as the steps of its goroutine and its caller
    between the messages of the modem; run alone it is the dial of Dialers.v;
    where a caller waits for ever is stated. Rigctld.v, Hamlib.v: the client of
    rigctld and the bindings to libhamlib; a command is sent at most three times, and
    a rig is opened from an address exactly when it names one.

    * Bounds and fuel

    Loops without a structural bound take fuel and return [NoFuel] when it is used
    up. Where the fuel is fixed by the definition it is one more than the number
    of bytes, lines or frames still to come, each round taking one at least; that
    it suffices is part of the theorems (exchange_terminates,
    telnet_login_terminates, decode_terminates, lzhuf_roundtrip). A dial on the
    Linux stack takes as much fuel as its context has time (dial_ends). Where the
    code can loop for ever the theorem says so for all fuel (reader_never_ends,
    kenwood_close_spins). The round trip of lzhuf is for at most 3867 bytes: up to
    there no Huffman code is longer than the 16 bits [putCode] takes; the code
    does not check this for longer messages.

    * Not modelled

    Deadlines (they show as errors of reads and writes where the code looks at
    them), logging, and the moments at which tickers fire; the JSON form of an
    attachment; memory that C code allocates; stubs for builds without the C libraries, and
    the constants of their headers. Goroutines are interleaved freely where the
    file says that it models steps (AgwpeDemux.v, AgwpeListen.v, AgwpeDial.v,
    ArdopBeacon.v, ArdopDial.v); elsewhere they run between the steps of one caller.
    So two operations of the ARDOP driver do not overlap, nor do its [Close] and the
    frame its control loop is at; its writer, which panics when the connection
    fails, is a function in ArdopBeacon.v. A refused AGWPE connection is recorded, not
    closed, in AgwpeListen.v. *)
From stdpp Require Export base list numbers option.
From Stdlib Require Export ZArith Lia.

(** This file: the outcome monad of the Go model, fixed-width integers, Go
    arrays and slices as lists of [Z], and the loop combinators with their
    invariant rules. *)
#[global] Set Default Proof Using "Type".
#[global] Open Scope Z_scope.

(** ** Outcomes

    A Go function returns a value, panics (index out of range, explicit
    [panic], slice bounds), or has not returned yet within the fuel the model
    gives to a loop without a structural bound.  Go's error values are ordinary
    results, not outcomes. *)
Inductive res (A : Type) : Type :=
| Ok (a : A)
| Panic
| NoFuel.
Arguments Ok {A} a.
Arguments Panic {A}.
Arguments NoFuel {A}.

#[export] Instance res_ret : MRet res := fun A a => Ok a.
#[export] Instance res_bind : MBind res := fun A B f m =>
  match m with Ok a => f a | Panic => Panic | NoFuel => NoFuel end.
#[export] Instance res_fmap : FMap res := fun A B f m =>
  match m with Ok a => Ok (f a) | Panic => Panic | NoFuel => NoFuel end.

#[export] Instance res_eq_dec {A} `{EqDecision A} : EqDecision (res A).
Proof. solve_decision. Defined.

(** ** Machine integers *)
Definition u8 (x : Z) : Z := x mod 2 ^ 8.
Definition u16 (x : Z) : Z := x mod 2 ^ 16.
Definition u32 (x : Z) : Z := x mod 2 ^ 32.
Definition u64 (x : Z) : Z := x mod 2 ^ 64.
Definition i32 (x : Z) : Z := (x + 2 ^ 31) mod 2 ^ 32 - 2 ^ 31.

(** ** Go arrays and slices *)
Definition zlen {A} (l : list A) : Z := Z.of_nat (length l).

(** [a[i]]: panics outside of [0, len(a)). *)
Definition idx {A} (l : list A) (i : Z) : res A :=
  if i <? 0 then Panic
  else match l !! Z.to_nat i with Some x => Ok x | None => Panic end.

(** [a[i] = v]: panics outside of [0, len(a)). *)
Definition upd {A} (l : list A) (i : Z) (v : A) : res (list A) :=
  if (i <? 0) || (zlen l <=? i) then Panic
  else Ok (<[Z.to_nat i := v]> l).

(** The total reads and writes the proofs compute with. *)
Definition get (l : list Z) (i : Z) : Z := nth (Z.to_nat i) l 0.
Definition set (l : list Z) (i v : Z) : list Z := <[Z.to_nat i := v]> l.

(** ** Loops *)

(** [for i := lo; i < lo+n; i++ { body }] *)
Fixpoint for_n {S} (n : nat) (lo : Z) (body : Z -> S -> res S) (s : S) : res S :=
  match n with
  | O => Ok s
  | Datatypes.S n => s' ← body lo s; for_n n (lo + 1) body s'
  end.

Definition for_range {S} (lo hi : Z) (body : Z -> S -> res S) (s : S) : res S :=
  for_n (Z.to_nat (hi - lo)) lo body s.

(** [for { body }]: the body continues with [inl] and breaks with [inr]. *)
Fixpoint loop {S R} (fuel : nat) (body : S -> res (S + R)) (s : S) : res R :=
  match fuel with
  | O => NoFuel
  | Datatypes.S fuel =>
      r ← body s;
      match r with inl s' => loop fuel body s' | inr r => Ok r end
  end.

(** ** Lemmas *)
Create HintDb go.
Create Rewrite HintDb go.

Lemma bind_Ok {A B} (a : A) (f : A -> res B) : (Ok a ≫= f) = f a.
Proof. reflexivity. Qed.

Lemma u64_small x : 0 <= x < 2 ^ 64 -> u64 x = x.
Proof. intros. unfold u64. by apply Z.mod_small. Qed.

Lemma u8_range x : 0 <= u8 x < 256.
Proof. unfold u8. apply (Z.mod_pos_bound x 256). lia. Qed.

Lemma u8_small x : 0 <= x < 256 -> u8 x = x.
Proof. intros. unfold u8. by apply Z.mod_small. Qed.

Lemma i32_small x : - 2 ^ 31 <= x < 2 ^ 31 -> i32 x = x.
Proof. intros. unfold i32. rewrite Z.mod_small; lia. Qed.

Lemma zlen_nonneg {A} (l : list A) : 0 <= zlen l.
Proof. unfold zlen. lia. Qed.

Lemma zlen_app {A} (l k : list A) : zlen (l ++ k) = zlen l + zlen k.
Proof. unfold zlen. rewrite length_app. lia. Qed.

Lemma zlen_nil {A} : zlen (@nil A) = 0.
Proof. reflexivity. Qed.

Lemma zlen_cons {A} (x : A) l : zlen (x :: l) = 1 + zlen l.
Proof. unfold zlen. cbn [length]. lia. Qed.

Lemma zlen_set l i v : zlen (set l i v) = zlen l.
Proof. unfold zlen, set. by rewrite length_insert. Qed.

Lemma idx_get l i : 0 <= i < zlen l -> idx l i = Ok (get l i).
Proof.
  unfold zlen. intros [H1 H2]. unfold idx, get.
  destruct (Z.ltb_spec i 0); [lia|].
  destruct (lookup_lt_is_Some_2 l (Z.to_nat i)) as [x Hx]; [lia|].
  rewrite Hx. by rewrite (nth_lookup_Some _ _ 0 x Hx).
Qed.

Lemma upd_set l i v : 0 <= i < zlen l -> upd l i v = Ok (set l i v).
Proof.
  intros [H1 H2]. unfold upd.
  destruct (Z.ltb_spec i 0); [lia|]. destruct (Z.leb_spec (zlen l) i); [lia|done].
Qed.

Lemma idx_bind {B} l i (f : Z -> res B) :
  0 <= i < zlen l -> (idx l i ≫= f) = f (get l i).
Proof. intros. by rewrite idx_get. Qed.

Lemma upd_bind {B} l i v (f : list Z -> res B) :
  0 <= i < zlen l -> (upd l i v ≫= f) = f (set l i v).
Proof. intros. by rewrite upd_set. Qed.

Lemma get_set_eq l i v : 0 <= i < zlen l -> get (set l i v) i = v.
Proof.
  unfold zlen, get, set. intros. rewrite nth_lookup.
  rewrite list_lookup_insert_eq by lia. done.
Qed.

Lemma get_set_ne l i j v : 0 <= i -> 0 <= j -> i <> j -> get (set l i v) j = get l j.
Proof.
  unfold get, set. intros. rewrite !nth_lookup.
  rewrite list_lookup_insert_ne by lia. done.
Qed.

Lemma get_set l i j v :
  0 <= i < zlen l -> 0 <= j ->
  get (set l i v) j = if j =? i then v else get l j.
Proof.
  intros. destruct (Z.eqb_spec j i) as [->|].
  - by apply get_set_eq.
  - by apply get_set_ne; lia.
Qed.

Lemma get_lookup l i x : 0 <= i -> l !! Z.to_nat i = Some x -> get l i = x.
Proof. unfold get. intros ? Hx. by apply nth_lookup_Some. Qed.

Lemma lookup_get l i : 0 <= i < zlen l -> l !! Z.to_nat i = Some (get l i).
Proof.
  unfold zlen. intros. destruct (lookup_lt_is_Some_2 l (Z.to_nat i)) as [x Hx]; [lia|].
  rewrite Hx. f_equal. symmetry. apply get_lookup; [lia|done].
Qed.

Lemma list_eq_get l k :
  zlen l = zlen k -> (forall i, 0 <= i < zlen l -> get l i = get k i) -> l = k.
Proof.
  intros Hl H. apply list_eq. intros i. destruct (decide (i < length l)%nat) as [Hi|Hi].
  - specialize (H (Z.of_nat i)). unfold zlen in *. pose proof (lookup_get l (Z.of_nat i)) as H1.
    pose proof (lookup_get k (Z.of_nat i)) as H2. unfold zlen in *. rewrite Nat2Z.id in *.
    rewrite H1, H2, H; [done|lia..].
  - rewrite !lookup_ge_None_2; [done|unfold zlen in *; lia..].
Qed.

(** Invariant rule of the counted loop. *)
Lemma for_n_inv {S} (I : Z -> S -> Prop) n lo body s :
  (forall i s, lo <= i < lo + Z.of_nat n -> I i s ->
     exists s', body i s = Ok s' /\ I (i + 1) s') ->
  I lo s -> exists s', for_n n lo body s = Ok s' /\ I (lo + Z.of_nat n) s'.
Proof.
  revert lo s. induction n as [|n IH]; intros lo s Hb HI; cbn [for_n].
  - exists s. by rewrite Z.add_0_r.
  - destruct (Hb lo s) as (s1 & -> & H1); [lia|done|]. cbn.
    destruct (IH (lo + 1) s1) as (s2 & -> & H2); [intros; apply Hb; auto with lia|done|].
    exists s2. split; [done|]. by replace (lo + _) with (lo + 1 + Z.of_nat n) by lia.
Qed.

Lemma for_range_inv {S} (I : Z -> S -> Prop) lo hi body s :
  lo <= hi ->
  (forall i s, lo <= i < hi -> I i s -> exists s', body i s = Ok s' /\ I (i + 1) s') ->
  I lo s -> exists s', for_range lo hi body s = Ok s' /\ I hi s'.
Proof.
  intros Hle Hb HI. unfold for_range.
  destruct (for_n_inv I (Z.to_nat (hi - lo)) lo body s) as (s' & H1 & H2); [|done|].
  - intros i s0 Hi. apply Hb. lia.
  - exists s'. split; [done|]. by replace hi with (lo + Z.of_nat (Z.to_nat (hi - lo))) by lia.
Qed.

(** Total-correctness rule of the unbounded loop: an invariant, a measure that
    decreases at every iteration and is below the fuel. *)
Lemma loop_inv {S R} (I : S -> Prop) (m : S -> nat) (Q : R -> Prop) fuel body s :
  (forall s, I s -> exists r, body s = Ok r /\
     match r with inl s' => I s' /\ (m s' < m s)%nat | inr r => Q r end) ->
  I s -> (m s < fuel)%nat -> exists r, loop fuel body s = Ok r /\ Q r.
Proof.
  intros Hb. revert s. induction fuel as [|fuel IH]; intros s HI Hm; [lia|]. cbn [loop].
  destruct (Hb s HI) as ([s'|r] & -> & H); cbn; [|by exists r].
  destruct H as [H1 H2]. apply IH; [done|lia].
Qed.

#[export] Hint Rewrite @bind_Ok @zlen_app @zlen_nil @zlen_cons zlen_set : go.
#[export] Hint Resolve zlen_nonneg u8_range : go.
