(* ===== verification/Crc.v ===== *)
(** The CRC of [src/lzhuf/crc.go]: the table-driven checksum of the compressed
    data, its equivalence with the bitwise division by the polynomial
    x^16+x^12+x^5+1, and what it detects. *)
From S2P Require Import Prelude.

(** ** Operations *)
Definition crc16tab : list Z := concat
[[ 0x0000; 0x1021; 0x2042; 0x3063; 0x4084; 0x50a5; 0x60c6; 0x70e7 ];
  [ 0x8108; 0x9129; 0xa14a; 0xb16b; 0xc18c; 0xd1ad; 0xe1ce; 0xf1ef ];
  [ 0x1231; 0x0210; 0x3273; 0x2252; 0x52b5; 0x4294; 0x72f7; 0x62d6 ];
  [ 0x9339; 0x8318; 0xb37b; 0xa35a; 0xd3bd; 0xc39c; 0xf3ff; 0xe3de ];
  [ 0x2462; 0x3443; 0x0420; 0x1401; 0x64e6; 0x74c7; 0x44a4; 0x5485 ];
  [ 0xa56a; 0xb54b; 0x8528; 0x9509; 0xe5ee; 0xf5cf; 0xc5ac; 0xd58d ];
  [ 0x3653; 0x2672; 0x1611; 0x0630; 0x76d7; 0x66f6; 0x5695; 0x46b4 ];
  [ 0xb75b; 0xa77a; 0x9719; 0x8738; 0xf7df; 0xe7fe; 0xd79d; 0xc7bc ];
  [ 0x48c4; 0x58e5; 0x6886; 0x78a7; 0x0840; 0x1861; 0x2802; 0x3823 ];
  [ 0xc9cc; 0xd9ed; 0xe98e; 0xf9af; 0x8948; 0x9969; 0xa90a; 0xb92b ];
  [ 0x5af5; 0x4ad4; 0x7ab7; 0x6a96; 0x1a71; 0x0a50; 0x3a33; 0x2a12 ];
  [ 0xdbfd; 0xcbdc; 0xfbbf; 0xeb9e; 0x9b79; 0x8b58; 0xbb3b; 0xab1a ];
  [ 0x6ca6; 0x7c87; 0x4ce4; 0x5cc5; 0x2c22; 0x3c03; 0x0c60; 0x1c41 ];
  [ 0xedae; 0xfd8f; 0xcdec; 0xddcd; 0xad2a; 0xbd0b; 0x8d68; 0x9d49 ];
  [ 0x7e97; 0x6eb6; 0x5ed5; 0x4ef4; 0x3e13; 0x2e32; 0x1e51; 0x0e70 ];
  [ 0xff9f; 0xefbe; 0xdfdd; 0xcffc; 0xbf1b; 0xaf3a; 0x9f59; 0x8f78 ];
  [ 0x9188; 0x81a9; 0xb1ca; 0xa1eb; 0xd10c; 0xc12d; 0xf14e; 0xe16f ];
  [ 0x1080; 0x00a1; 0x30c2; 0x20e3; 0x5004; 0x4025; 0x7046; 0x6067 ];
  [ 0x83b9; 0x9398; 0xa3fb; 0xb3da; 0xc33d; 0xd31c; 0xe37f; 0xf35e ];
  [ 0x02b1; 0x1290; 0x22f3; 0x32d2; 0x4235; 0x5214; 0x6277; 0x7256 ];
  [ 0xb5ea; 0xa5cb; 0x95a8; 0x8589; 0xf56e; 0xe54f; 0xd52c; 0xc50d ];
  [ 0x34e2; 0x24c3; 0x14a0; 0x0481; 0x7466; 0x6447; 0x5424; 0x4405 ];
  [ 0xa7db; 0xb7fa; 0x8799; 0x97b8; 0xe75f; 0xf77e; 0xc71d; 0xd73c ];
  [ 0x26d3; 0x36f2; 0x0691; 0x16b0; 0x6657; 0x7676; 0x4615; 0x5634 ];
  [ 0xd94c; 0xc96d; 0xf90e; 0xe92f; 0x99c8; 0x89e9; 0xb98a; 0xa9ab ];
  [ 0x5844; 0x4865; 0x7806; 0x6827; 0x18c0; 0x08e1; 0x3882; 0x28a3 ];
  [ 0xcb7d; 0xdb5c; 0xeb3f; 0xfb1e; 0x8bf9; 0x9bd8; 0xabbb; 0xbb9a ];
  [ 0x4a75; 0x5a54; 0x6a37; 0x7a16; 0x0af1; 0x1ad0; 0x2ab3; 0x3a92 ];
  [ 0xfd2e; 0xed0f; 0xdd6c; 0xcd4d; 0xbdaa; 0xad8b; 0x9de8; 0x8dc9 ];
  [ 0x7c26; 0x6c07; 0x5c64; 0x4c45; 0x3ca2; 0x2c83; 0x1ce0; 0x0cc1 ];
  [ 0xef1f; 0xff3e; 0xcf5d; 0xdf7c; 0xaf9b; 0xbfba; 0x8fd9; 0x9ff8 ];
  [ 0x6e17; 0x7e36; 0x4e55; 0x5e74; 0x2e93; 0x3eb2; 0x0ed1; 0x1ef0 ]].

(** [((sum << 8) & 0xff00) ^ crc16tab[(sum>>8)&0xff] ^ crc16(cp)] on uint16. *)
Definition udpCRC16 (cp sum : Z) : Z :=
  Z.lxor (Z.lxor (Z.land (u16 (Z.shiftl sum 8)) 0xff00)
                 (get crc16tab (Z.land (Z.shiftr sum 8) 0xff))) (u16 cp).

(** [crcWriter.Write]: the running sum over the written bytes. *)
Definition crcw_write (sum : Z) (p : list Z) : Z := foldl (fun s c => udpCRC16 c s) sum p.

(** [crcWriter.Sum] *)
Definition crcw_sum (sum : Z) : Z := crcw_write sum [0; 0].

(** [crc] *)
Definition crc (p : list Z) : Z := crcw_write 0 (p ++ [0; 0]).

(** ** Reference definition: the shift register

    One bit of the message enters at the low end, the polynomial 0x1021 is
    subtracted when a bit leaves at the high end. *)
Definition reg_bit (s : Z) (b : bool) : Z :=
  Z.lxor (Z.lxor (u16 (Z.shiftl s 1)) (Z.b2z b)) (if Z.testbit s 15 then 0x1021 else 0).

(** The bits of a byte, most significant first. *)
Fixpoint bitsof (x hi : Z) (n : nat) : list bool :=
  match n with O => [] | S n => Z.testbit x hi :: bitsof x (hi - 1) n end.

Definition reg_bits (s : Z) (bs : list bool) : Z := foldl reg_bit s bs.
Definition reg_bytes (s : Z) (p : list Z) : Z := foldl (fun s c => reg_bits s (bitsof c 7 8)) s p.

Definition byte (c : Z) : Prop := 0 <= c < 256.
Definition bytes (p : list Z) : Prop := Forall byte p.
Definition word16 (s : Z) : Prop := 0 <= s < 65536.

(** ** Lemmas *)
Lemma crcw_write_app s p q : crcw_write s (p ++ q) = crcw_write (crcw_write s p) q.
Proof. apply foldl_app. Qed.

(** [crc] of a message is what [crcWriter] sums up over any chunking of it. *)
Lemma crc_crcw p : crc p = crcw_sum (crcw_write 0 p).
Proof. apply crcw_write_app. Qed.

Lemma word16_lxor a b : word16 a -> word16 b -> word16 (Z.lxor a b).
Proof.
  unfold word16. intros [Ha1 Ha2] [Hb1 Hb2]. split; [by apply Z.lxor_nonneg|].
  destruct (Z.eq_dec (Z.lxor a b) 0) as [->|Hz]; [lia|].
  assert (0 < Z.lxor a b) by (pose proof (Z.lxor_nonneg a b); lia).
  apply (Z.log2_lt_pow2 _ 16); [done|].
  pose proof (Z.log2_lxor a b Ha1 Hb1).
  assert (forall x, 0 <= x < 65536 -> Z.log2 x < 16).
  { intros x Hx. destruct (Z.eq_dec x 0) as [->|]; [done|]. apply Z.log2_lt_pow2; lia. }
  pose proof (H1 a). pose proof (H1 b). lia.
Qed.

Lemma word16_u16 x : word16 (u16 x).
Proof. unfold u16, word16. apply (Z.mod_pos_bound x 65536). lia. Qed.

Lemma land_lxor a b m : Z.land (Z.lxor a b) m = Z.lxor (Z.land a m) (Z.land b m).
Proof.
  apply Z.bits_inj'. intros n Hn. rewrite !Z.land_spec, !Z.lxor_spec, !Z.land_spec.
  by destruct (Z.testbit a n), (Z.testbit b n), (Z.testbit m n).
Qed.

Lemma u16_lxor a b : u16 (Z.lxor a b) = Z.lxor (u16 a) (u16 b).
Proof. unfold u16. rewrite <- !Z.land_ones by lia. apply land_lxor. Qed.

Lemma lxor4 a b c d : Z.lxor (Z.lxor a b) (Z.lxor c d) = Z.lxor (Z.lxor a c) (Z.lxor b d).
Proof. rewrite !Z.lxor_assoc. f_equal. rewrite <- !Z.lxor_assoc. f_equal. apply Z.lxor_comm. Qed.

(** The register is linear: the sum of two runs is the run on the sum. *)
Lemma reg_bit_lxor s t a b :
  reg_bit (Z.lxor s t) (xorb a b) = Z.lxor (reg_bit s a) (reg_bit t b).
Proof.
  unfold reg_bit. rewrite Z.shiftl_lxor, u16_lxor, Z.lxor_spec.
  rewrite (lxor4 (Z.lxor (u16 (Z.shiftl s 1)) (Z.b2z a))), (lxor4 (u16 (Z.shiftl s 1))).
  f_equal; [f_equal; by destruct a, b|by destruct (Z.testbit s 15), (Z.testbit t 15)].
Qed.

Lemma reg_bits_lxor s t a b : length a = length b ->
  reg_bits (Z.lxor s t) (zip_with xorb a b) = Z.lxor (reg_bits s a) (reg_bits t b).
Proof.
  revert s t b. induction a as [|x a IH]; intros s t [|y b] H; try discriminate; [done|].
  cbn [zip_with reg_bits foldl]. rewrite reg_bit_lxor. apply IH. cbn in H. lia.
Qed.

Lemma length_bitsof x hi n : length (bitsof x hi n) = n.
Proof. revert hi. induction n; intros; cbn [bitsof length]; auto. Qed.

Lemma zip_false a : zip_with xorb a (replicate (length a) false) = a.
Proof. induction a as [|[] a IH]; cbn; f_equal; auto. Qed.

Definition zeros8 : list bool := replicate 8 false.

(** The three contributions to a byte step, checked by enumeration. *)
Lemma reg_high h : byte h -> reg_bits (Z.shiftl h 8) zeros8 = get crc16tab h.
Proof.
  intros Hh. assert (forallb (fun h => reg_bits (Z.shiftl h 8) zeros8 =? get crc16tab h) (seqZ 0 256) = true) as H
    by (vm_compute; reflexivity).
  rewrite forallb_forall in H. apply Z.eqb_eq, H, list_elem_of_In, elem_of_seqZ. unfold byte in Hh. lia.
Qed.

Lemma reg_low l : byte l -> reg_bits l zeros8 = Z.shiftl l 8.
Proof.
  intros Hh. assert (forallb (fun l => reg_bits l zeros8 =? Z.shiftl l 8) (seqZ 0 256) = true) as H
    by (vm_compute; reflexivity).
  rewrite forallb_forall in H. apply Z.eqb_eq, H, list_elem_of_In, elem_of_seqZ. unfold byte in Hh. lia.
Qed.

Lemma reg_data c : byte c -> reg_bits 0 (bitsof c 7 8) = c.
Proof.
  intros Hh. assert (forallb (fun c => reg_bits 0 (bitsof c 7 8) =? c) (seqZ 0 256) = true) as H
    by (vm_compute; reflexivity).
  rewrite forallb_forall in H. apply Z.eqb_eq, H, list_elem_of_In, elem_of_seqZ. unfold byte in Hh. lia.
Qed.

(** A 16-bit word is the sum of its two bytes. *)
Lemma word_split s : word16 s ->
  exists h l, byte h /\ byte l /\ s = Z.lxor (Z.shiftl h 8) l /\
    Z.land (Z.shiftr s 8) 0xff = h /\ Z.land (u16 (Z.shiftl s 8)) 0xff00 = Z.shiftl l 8.
Proof.
  intros Hs. exists (s / 256), (s mod 256). unfold word16, byte in *.
  pose proof (Z.mod_pos_bound s 256 ltac:(lia)). pose proof (Z.div_mod s 256 ltac:(lia)).
  assert (0 <= s / 256 < 256) by (split; [apply Z.div_pos; lia|apply Z.div_lt_upper_bound; lia]).
  split; [lia|]. split; [lia|].
  change 256 with (2 ^ 8) in *. rewrite <- (Z.shiftr_div_pow2 s 8), <- (Z.land_ones s 8) in * by lia.
  change 0xff with (Z.ones 8). change 0xff00 with (Z.shiftl (Z.ones 8) 8).
  split_and!.
  - apply Z.bits_inj'. intros n Hn. rewrite Z.lxor_spec, Z.shiftl_spec, Z.land_spec by lia.
    destruct (Z.lt_ge_cases n 8).
    + rewrite (Z.testbit_neg_r _ (n - 8)), Z.ones_spec_low by lia. by destruct (Z.testbit s n).
    + rewrite Z.shiftr_spec, Z.ones_spec_high by lia. replace (n - 8 + 8) with n by lia.
      by destruct (Z.testbit s n).
  - rewrite Z.land_ones by lia. apply Z.mod_small. lia.
  - unfold u16. rewrite <- Z.land_ones by lia. apply Z.bits_inj'. intros n Hn.
    rewrite !Z.land_spec, !Z.shiftl_spec, Z.land_spec by lia.
    destruct (Z.lt_ge_cases n 8); [by rewrite !(Z.testbit_neg_r _ (n - 8)) by lia|].
    destruct (Z.lt_ge_cases n 16).
    + rewrite !Z.ones_spec_low by lia. by destruct (Z.testbit s (n - 8)).
    + rewrite (Z.ones_spec_high 8) by lia. by rewrite !andb_false_r.
Qed.

(** One table step is eight register steps. *)
Lemma udpCRC16_reg c s : byte c -> word16 s -> udpCRC16 c s = reg_bits s (bitsof c 7 8).
Proof.
  intros Hc Hs. destruct (word_split s Hs) as (h & l & Hh & Hl & Es & Eh & El).
  unfold udpCRC16. rewrite Eh, El.
  replace (u16 c) with c by (unfold u16; rewrite Z.mod_small; unfold byte in Hc; lia).
  transitivity (reg_bits (Z.lxor s 0) (zip_with xorb zeros8 (bitsof c 7 8))).
  - rewrite reg_bits_lxor by done. rewrite reg_data by done. f_equal. rewrite Es.
    change zeros8 with (zip_with xorb zeros8 zeros8) at 1.
    rewrite reg_bits_lxor, reg_high, reg_low by done. apply Z.lxor_comm.
  - by rewrite Z.lxor_0_r.
Qed.

Lemma word16_udp c s : byte c -> word16 s -> word16 (udpCRC16 c s).
Proof.
  intros Hc Hs. unfold udpCRC16.
  destruct (word_split s Hs) as (h & l & Hh & Hl & Es & Eh & El).
  apply word16_lxor; [|apply word16_u16]. rewrite Eh, El. apply word16_lxor.
  - unfold byte, word16 in *. rewrite Z.shiftl_mul_pow2 by lia. lia.
  - rewrite <- reg_high by done.
    assert (H : forallb (fun h => (0 <=? reg_bits (Z.shiftl h 8) zeros8) && (reg_bits (Z.shiftl h 8) zeros8 <? 65536)) (seqZ 0 256) = true)
      by (vm_compute; reflexivity).
    rewrite forallb_forall in H. specialize (H h). unfold word16. unfold byte in Hh.
    assert (In h (seqZ 0 256)) by (apply list_elem_of_In, elem_of_seqZ; lia).
    specialize (H H0). lia.
Qed.

Lemma crcw_write_reg s p : bytes p -> word16 s -> crcw_write s p = reg_bytes s p /\ word16 (crcw_write s p).
Proof.
  intros Hp. revert s. induction Hp as [|c p Hc Hp IH]; intros s Hs; [done|].
  cbn [crcw_write reg_bytes foldl]. rewrite <- udpCRC16_reg by done. apply IH, word16_udp; done.
Qed.

(** Table steps from different sums stay different. *)
Lemma udp_inj_sum c s t : byte c -> word16 s -> word16 t -> udpCRC16 c s = udpCRC16 c t -> s = t.
Proof.
  intros Hc Hs Ht E.
  destruct (word_split s Hs) as (h & l & Hh & Hl & Es & Eh & El).
  destruct (word_split t Ht) as (h' & l' & Hh' & Hl' & Et & Eh' & El').
  unfold udpCRC16 in E. rewrite Eh, El, Eh', El' in E.
  apply (f_equal (fun x => Z.lxor x (u16 c))) in E. rewrite !Z.lxor_assoc, Z.lxor_nilpotent, !Z.lxor_0_r in E.
  (* the low byte of the table entry determines its index *)
  assert (El2 : Z.land (get crc16tab h) 0xff = Z.land (get crc16tab h') 0xff).
  { apply (f_equal (fun x => Z.land x 0xff)) in E. rewrite !land_lxor in E.
    assert (forall x, Z.land (Z.shiftl x 8) 0xff = 0) as Hz.
    { intros x. change 0xff with (Z.ones 8). rewrite Z.land_ones, Z.shiftl_mul_pow2 by lia.
      by apply Z.mod_mul. }
    by rewrite !Hz, !Z.lxor_0_l in E. }
  assert (h = h') as <-.
  { assert (Hn : NoDup ((fun h => Z.land (get crc16tab h) 0xff) <$> seqZ 0 256)).
    { apply (bool_decide_unpack (NoDup _)). vm_compute. exact I. }
    unfold byte in *.
    assert (L : forall x, 0 <= x < 256 ->
      ((fun h => Z.land (get crc16tab h) 0xff) <$> seqZ 0 256) !! Z.to_nat x
      = Some (Z.land (get crc16tab x) 0xff)).
    { intros x Hx. rewrite list_lookup_fmap, (lookup_seqZ_lt 0 256) by lia.
      rewrite Z2Nat.id by lia. done. }
    pose proof (L h Hh) as L1. rewrite El2 in L1.
    pose proof (NoDup_lookup _ _ _ _ Hn L1 (L h' Hh')). lia. }
  apply (f_equal (fun x => Z.lxor x (get crc16tab h))) in E.
  rewrite !Z.lxor_assoc, Z.lxor_nilpotent, !Z.lxor_0_r in E.
  assert (l = l') as <-; [|congruence].
  rewrite !Z.shiftl_mul_pow2 in E by lia. lia.
Qed.

Lemma udp_inj_byte c d s : byte c -> byte d -> udpCRC16 c s = udpCRC16 d s -> c = d.
Proof.
  intros Hc Hd E. unfold udpCRC16 in E. set (x := Z.lxor (Z.land _ _) _) in E.
  apply (f_equal (Z.lxor x)) in E. rewrite <- !Z.lxor_assoc, Z.lxor_nilpotent, !Z.lxor_0_l in E.
  unfold u16, byte in *. rewrite !Z.mod_small in E; lia.
Qed.

Lemma crcw_inj p s t : bytes p -> word16 s -> word16 t -> crcw_write s p = crcw_write t p -> s = t.
Proof.
  intros Hp. revert s t. induction Hp as [|c p Hc Hp IH]; intros s t Hs Ht E; [done|].
  apply IH in E; auto using word16_udp. by apply udp_inj_sum in E.
Qed.

(** ** Properties *)

(** C40. The table-driven checksum is the remainder of the division of the message,
    followed by two zero bytes, by the generator polynomial, computed bit by
    bit by the shift register. *)
Theorem crc_is_polynomial_division (p : list Z) :
  bytes p -> crc p = reg_bytes 0 (p ++ [0; 0]) /\ word16 (crc p).
Proof.
  intros Hp. apply crcw_write_reg; [|unfold word16; lia].
  apply Forall_app. split; [done|]. repeat constructor; unfold byte; lia.
Qed.

Lemma crc_is_polynomial_division_witness :
  bytes [0x31; 0x32] /\ crc [0x31; 0x32] = reg_bytes 0 ([0x31; 0x32] ++ [0; 0])
  /\ word16 (crc [0x31; 0x32]).
Proof.
  assert (H : bytes [0x31; 0x32]) by (repeat constructor; unfold byte; lia).
  split; [exact H|]. exact (crc_is_polynomial_division [0x31; 0x32] H).
Defined.

(** Corrupting any one byte of a message changes its checksum. *)
Theorem crc_detects_byte_error (p q : list Z) (c d : Z) :
  bytes p -> bytes q -> byte c -> byte d -> c <> d ->
  crc (p ++ c :: q) <> crc (p ++ d :: q).
Proof.
  intros Hp Hq Hc Hd Hne E. apply Hne. unfold crc in E.
  rewrite <- !app_assoc, !(crcw_write_app 0 p) in E. cbn [app crcw_write foldl] in E.
  fold (crcw_write 0 p) in E.
  destruct (crcw_write_reg 0 p Hp) as [_ Hw]; [unfold word16; lia|].
  apply (crcw_inj (q ++ [0; 0])) in E; auto using word16_udp.
  - by apply udp_inj_byte in E.
  - apply Forall_app. split; [done|]. repeat constructor; unfold byte; lia.
Qed.

Lemma crc_detects_byte_error_witness :
  crc ([1; 2] ++ 3 :: [4]) <> crc ([1; 2] ++ 7 :: [4]).
Proof.
  apply (crc_detects_byte_error [1; 2] [4] 3 7);
    try (repeat constructor; unfold byte; lia); try (unfold byte; lia); lia.
Defined.
