(* ===== verification/Huffman.v ===== *)
(** The adaptive Huffman tables of [src/lzhuf/lzhuf.go]: their construction
    ([newLZHUFF]), the tree update after every coded symbol ([update]) and the
    rebuild when the frequencies saturate ([reconst]).

    The Go struct [lzhuf] holds the Huffman tables and the dictionary of the
    LZSS matcher side by side; [huff] is the Huffman half (freq, prnt, son), the
    dictionary half is in LzTree. *)
From S2P Require Import Prelude.

(** ** Constants *)
Definition _N : Z := 2048.
Definition _F : Z := 60.
Definition _NIL : Z := _N.
Definition _Threshold : Z := 2.
Definition _NumChar : Z := 256 - _Threshold + _F.
Definition _T : Z := _NumChar * 2 - 1.
Definition _R : Z := _T - 1.
Definition _MaxFreq : Z := 0x8000.

(** ** State *)
Record huff := mkHuff { freq : list Z; prnt : list Z; son : list Z }.

(** ** Operations *)

(** The Huffman part of [newLZHUFF]. *)
Definition newHuff_leaf (i : Z) (z : huff) : res huff :=
  f ← upd z.(freq) i 1;
  s ← upd z.(son) i (i + _T);
  p ← upd z.(prnt) (i + _T) i;
  mret (mkHuff f p s).

Definition newHuff_node (j : Z) (iz : Z * huff) : res (Z * huff) :=
  let '(i, z) := iz in
  a ← idx z.(freq) i;
  b ← idx z.(freq) (i + 1);
  f ← upd z.(freq) j (u64 (a + b));
  s ← upd z.(son) j i;
  p ← upd z.(prnt) i j;
  p ← upd p (i + 1) j;
  mret (i + 2, mkHuff f p s).

Definition newHuff : res huff :=
  let z := mkHuff (replicate 628 0) (replicate 941 0) (replicate 627 0) in
  z ← for_range 0 _NumChar newHuff_leaf z;
  iz ← for_range _NumChar (_R + 1) newHuff_node (0, z);
  let z := snd iz in
  f ← upd z.(freq) _T 0xffff;
  p ← upd z.(prnt) _R 0;
  mret (mkHuff f p z.(son)).

(** First loop of [reconst]: the leaves move to the front, halved. *)
Definition reconst_collect (i : Z) (jz : Z * huff) : res (Z * huff) :=
  let '(j, z) := jz in
  s ← idx z.(son) i;
  if _T <=? s then
    fi ← idx z.(freq) i;
    f ← upd z.(freq) j (u64 (fi + 1) / 2);
    s ← upd z.(son) j s;
    mret (j + 1, mkHuff f z.(prnt) s)
  else mret (j, z).

(** [copy(a[k+1:], a[k:k+last])] with [k + last = j], then [a[k] = v]. *)
Definition shift_in (l : list Z) (k j v : Z) : list Z :=
  take (Z.to_nat k) l ++ v :: take (Z.to_nat (j - k)) (drop (Z.to_nat k) l)
    ++ drop (Z.to_nat (j + 1)) l.

(** Second loop of [reconst]: join the nodes [i] and [i+1] and insert their
    parent at its place in the frequency order. *)
Definition reconst_join (j : Z) (iz : Z * huff) : res (Z * huff) :=
  let '(i, z) := iz in
  a ← idx z.(freq) i;
  b ← idx z.(freq) (i + 1);
  f ← upd z.(freq) j (u64 (a + b));
  first ← idx f j;
  k ← loop (Z.to_nat _T) (fun k =>
        fk ← idx f (k - 1);
        mret (if first <? fk then inl (k - 1) else inr k)) j;
  mret (i + 2, mkHuff (shift_in f k j first) z.(prnt) (shift_in z.(son) k j i)).

(** Third loop of [reconst]: the parent pointers. *)
Definition reconst_connect (i : Z) (z : huff) : res huff :=
  k ← idx z.(son) i;
  p ← (if _T <=? k then upd z.(prnt) k i
       else p ← upd z.(prnt) (k + 1) i; upd p k i);
  mret (mkHuff z.(freq) p z.(son)).

Definition reconst (z : huff) : res huff :=
  jz ← for_range 0 _T reconst_collect (0, z);
  iz ← for_range _NumChar _T reconst_join (0, snd jz);
  for_range 0 _T reconst_connect (snd iz).

(** [if c = z.prnt[c]; c == 0 { break }] *)
Definition next_node (z : huff) (c : Z) : res ((Z * huff) + huff) :=
  mret (if c =? 0 then inr z else inl (c, z)).

(** The exchange of node [c], whose counter became [k], with node [l]. *)
Definition exchange (z : huff) (f : list Z) (c l k : Z) : res ((Z * huff) + huff) :=
  fl ← idx f l;
  f ← upd f c fl;
  f ← upd f l k;
  i ← idx z.(son) c;
  p ← upd z.(prnt) i l;
  p ← (if i <? _T then upd p (i + 1) l else mret p);
  j ← idx z.(son) l;
  s ← upd z.(son) l i;
  p ← upd p j c;
  p ← (if j <? _T then upd p (j + 1) c else mret p);
  s ← upd s c j;
  c' ← idx p l;
  next_node (mkHuff f p s) c'.

(** One iteration of the loop of [update]. *)
Definition update_step (cz : Z * huff) : res ((Z * huff) + huff) :=
  let '(c, z) := cz in
  fc ← idx z.(freq) c;
  let k := u64 (fc + 1) in
  f ← upd z.(freq) c k;
  f1 ← idx f (c + 1);
  if (k <=? f1) || (zlen f <=? c + 2) then
    c' ← idx z.(prnt) c;
    next_node (mkHuff f z.(prnt) z.(son)) c'
  else
    l ← loop (Z.to_nat _T) (fun l =>
          fl ← idx f (l + 1);
          mret (if fl <? k then inl (l + 1) else inr l)) (c + 1);
    exchange z f c l k.

Definition update (z : huff) (c : Z) : res huff :=
  fr ← idx z.(freq) _R;
  z ← (if fr =? _MaxFreq then reconst z else mret z);
  c ← idx z.(prnt) (c + _T);
  loop (S (Z.to_nat _T)) update_step (c, z).

(** ** Invariant *)

(** The values [son] may hold: the code of a leaf, or the even index of the
    first of two sibling nodes. *)
Definition is_code (k : Z) : Prop :=
  _T <= k < _T + _NumChar \/ (0 <= k < _R /\ k mod 2 = 0).

Record shape (z : huff) : Prop := {
  sh_freq : zlen z.(freq) = _T + 1;
  sh_prnt : zlen z.(prnt) = _T + _NumChar;
  sh_son : zlen z.(son) = _T;
  sh_code i : 0 <= i < _T -> is_code (get z.(son) i);
  sh_down i : 0 <= i < _T -> get z.(prnt) (get z.(son) i) = i;
  sh_down2 i : 0 <= i < _T -> get z.(son) i < _T -> get z.(prnt) (get z.(son) i + 1) = i;
  sh_up k : is_code k -> 0 <= get z.(prnt) k < _T /\ get z.(son) (get z.(prnt) k) = k;
  sh_order i : 0 <= i < _T -> get z.(son) i < _T -> get z.(son) i + 1 < i;
  sh_root : get z.(prnt) _R = 0 }.

(** The frequencies, with [q] the node whose own counter still misses the
    symbol being counted ([-1]: none). *)
Record freqs (z : huff) (q : Z) : Prop := {
  fr_sorted i j : 0 <= i <= j -> j < _T -> get z.(freq) i <= get z.(freq) j;
  fr_pos i : 0 <= i < _T -> 1 <= get z.(freq) i;
  fr_sum i : 0 <= i < _T -> get z.(son) i < _T ->
    get z.(freq) i + (if i =? q then 1 else 0)
    = get z.(freq) (get z.(son) i) + get z.(freq) (get z.(son) i + 1);
  fr_sentinel : get z.(freq) _T = 0xffff }.

Record huff_ok (z : huff) : Prop := {
  ok_shape : shape z;
  ok_freqs : freqs z (-1);
  ok_bound : get z.(freq) _R <= _MaxFreq }.

(** ** Automation *)
Ltac consts := unfold is_code, _MaxFreq, _R, _T, _NumChar, _NIL, _N, _F, _Threshold in *.
Ltac clia := consts; lia.

(** Side conditions of array accesses. *)
Ltac zl := rewrite ?zlen_set; consts; lia.

(** Evaluate array reads and writes whose index is in range. *)
Ltac arr := repeat first
  [ rewrite idx_bind by zl
  | rewrite upd_bind by zl
  | rewrite bind_Ok ].

(** ** The tree update *)

Section shape_facts.
Context {z : huff} (Hs : shape z).

Lemma son_range i : 0 <= i < _T -> 0 <= get z.(son) i < _T + _NumChar.
Proof using Hs. intros Hi. destruct (sh_code z Hs i Hi); clia. Qed.

Lemma parity k : 0 <= k < _R -> exists e, (e = k \/ e = k - 1) /\ 0 <= e < _R /\ e mod 2 = 0.
Proof.
  intros Hk. exists (k - k mod 2).
  pose proof (Z.mod_pos_bound k 2 ltac:(lia)). rewrite Zminus_mod_idemp_r.
  rewrite Z.sub_diag, Z.mod_0_l by lia. pose proof (Z.div_mod k 2 ltac:(lia)). clia.
Qed.

(** Every node but the root has a parent above it. *)
Lemma parent_spec k : 0 <= k < _R ->
  k < get z.(prnt) k < _T /\ get z.(son) (get z.(prnt) k) < _T /\
  (get z.(son) (get z.(prnt) k) = k \/ get z.(son) (get z.(prnt) k) + 1 = k).
Proof using Hs.
  intros Hk. destruct (parity k Hk) as (e & He & He1 & He2).
  destruct (sh_up z Hs e) as [Hp Hsp]; [clia|].
  assert (get z.(prnt) k = get z.(prnt) e) as ->.
  { destruct He as [->| ->]; [done|].
    pose proof (sh_down2 z Hs _ Hp) as H2. rewrite Hsp in H2.
    replace (k - 1 + 1) with k in H2 by lia. apply H2. clia. }
  pose proof (sh_order z Hs _ Hp) as Ho. rewrite Hsp in *. consts. lia.
Qed.

Lemma leaf_spec c : 0 <= c < _NumChar ->
  0 <= get z.(prnt) (c + _T) < _R /\ get z.(son) (get z.(prnt) (c + _T)) = c + _T.
Proof using Hs.
  intros Hc. destruct (sh_up z Hs (c + _T)) as [Hp Hsp]; [clia|]. split; [|done].
  enough (get z.(prnt) (c + _T) <> _R) by clia. intros E. rewrite E in Hsp.
  (* the root is not a leaf: 624 is a code, and its parent is above it *)
  pose proof (parent_spec (_R - 1) ltac:(clia)) as (H1 & H2 & H3).
  replace (get z.(prnt) (_R - 1)) with _R in * by clia. clia.
Qed.
End shape_facts.

(** Incrementing the pending node in place. *)
Lemma bump_freqs z c p :
  shape z -> freqs z c -> 0 <= c < _T ->
  (c = _R /\ p = -1 \/ c < _R /\ p = get z.(prnt) c) ->
  get z.(freq) c + 1 <= get z.(freq) (c + 1) ->
  freqs (mkHuff (set z.(freq) c (get z.(freq) c + 1)) z.(prnt) z.(son)) p.
Proof.
  intros Hs Hf Hc Hp Hle. pose proof (sh_freq z Hs) as Hl.
  assert (G : forall i, 0 <= i -> get (set z.(freq) c (get z.(freq) c + 1)) i
     = get z.(freq) i + (if i =? c then 1 else 0)).
  { intros i Hi. rewrite get_set by clia. destruct (Z.eqb_spec i c); subst; lia. }
  split; cbn [freq prnt son].
  - intros i j Hi Hj. rewrite !G by lia. pose proof (fr_sorted z c Hf i j Hi Hj).
    destruct (Z.eqb_spec i c), (Z.eqb_spec j c); subst; try lia.
    pose proof (fr_sorted z c Hf (c + 1) j). lia.
  - intros i Hi. rewrite G by lia. pose proof (fr_pos z c Hf i Hi). destruct (i =? c); lia.
  - intros i Hi Hi2. pose proof (son_range Hs i Hi). rewrite !G by lia.
    pose proof (fr_sum z c Hf i Hi Hi2) as E. pose proof (sh_order z Hs i Hi Hi2) as Ho.
    destruct (Z.eqb_spec i p) as [->|Hip].
    + destruct Hp as [[_ ->]|[Hc' ->]]; [lia|].
      pose proof (parent_spec Hs c ltac:(clia)) as (P1 & _ & P3).
      destruct (Z.eqb_spec (get z.(prnt) c) c); [lia|].
      destruct P3 as [P3|P3]; rewrite P3 in *.
      * rewrite Z.eqb_refl. destruct (Z.eqb_spec (c + 1) c); lia.
      * rewrite Z.eqb_refl. destruct (Z.eqb_spec (get (son z) (get (prnt z) c)) c); lia.
    + assert (get z.(son) i <> c /\ get z.(son) i + 1 <> c) as [N1 N2].
      { split; intros E'; apply Hip.
        - destruct Hp as [[-> _]|[_ ->]]; [consts; lia|]. rewrite <- E'. by rewrite (sh_down z Hs).
        - destruct Hp as [[-> _]|[_ ->]]; [consts; lia|]. rewrite <- E'. by rewrite (sh_down2 z Hs). }
      apply Z.eqb_neq in N1, N2. rewrite N1, N2. destruct (i =? c); lia.
  - rewrite G by clia. rewrite (fr_sentinel z c Hf). destruct (Z.eqb_spec _T c); clia.
Qed.

(** [z.prnt[i] = l; if i < _T { z.prnt[i+1] = l }] *)
Definition link (p : list Z) (i l : Z) : list Z :=
  if i <? _T then set (set p i l) (i + 1) l else set p i l.

Lemma zlen_link p i l : zlen (link p i l) = zlen p.
Proof. unfold link. destruct (i <? _T); by rewrite !zlen_set. Qed.

Lemma get_link p i l x :
  zlen p = _T + _NumChar -> 0 <= i < _T + _NumChar -> 0 <= x ->
  get (link p i l) x = if (x =? i) || ((i <? _T) && (x =? i + 1)) then l else get p x.
Proof.
  intros Hp Hi Hx. unfold link. destruct (Z.ltb_spec i _T); cbn [andb].
  - rewrite !get_set by (rewrite ?zlen_set; clia). by destruct (x =? i), (x =? i + 1).
  - rewrite get_set by clia. by destruct (x =? i).
Qed.

Lemma link_run p i l :
  zlen p = _T + _NumChar -> 0 <= i < _T + _NumChar ->
  (p ← upd p i l; if i <? _T then upd p (i + 1) l else mret p) = Ok (link p i l).
Proof.
  intros Hp Hi. rewrite upd_set by lia. rewrite bind_Ok. unfold link.
  destruct (Z.ltb_spec i _T); [|done]. by rewrite upd_set by (rewrite ?zlen_set; clia).
Qed.

Definition swap_prnt (z : huff) (c l : Z) : list Z :=
  link (link z.(prnt) (get z.(son) c) l) (get z.(son) l) c.
Definition swap_son (z : huff) (c l : Z) : list Z :=
  set (set z.(son) l (get z.(son) c)) c (get z.(son) l).

(** A key of [prnt] under the code [k]: [k] itself, or [k+1] for a pair. *)
Definition under (k x : Z) : bool := (x =? k) || ((k <? _T) && (x =? k + 1)).

Lemma under_code k k' : is_code k -> is_code k' -> under k k' = (k' =? k).
Proof.
  unfold under. intros H H'. destruct (Z.eqb_spec k' k); [done|].
  destruct (Z.ltb_spec k _T), (Z.eqb_spec k' (k + 1)); cbn; [|done..]. exfalso. subst.
  destruct H as [H|[H E]], H' as [H'|[H' E']]; consts; try lia.
  rewrite Z.add_mod, E in E' by lia. done.
Qed.

Lemma under_code1 k k' : is_code k -> is_code k' -> k' < _T -> under k (k' + 1) = (k' =? k).
Proof.
  unfold under. intros H H' Hk. destruct (Z.eqb_spec k' k) as [->|].
  { rewrite Z.eqb_refl. apply Z.ltb_lt in Hk. rewrite Hk. by rewrite orb_true_r. }
  destruct (Z.eqb_spec (k' + 1) k), (Z.eqb_spec (k' + 1) (k + 1)); [lia|..]; [|lia|];
    [|by rewrite andb_false_r]. exfalso.
  destruct H as [H|[H E]], H' as [H'|[H' E']]; consts; try lia. subst.
  rewrite Z.add_mod, E' in E by lia. done.
Qed.

Section swap.
Context {z : huff} (c l : Z) (Hs : shape z) (Hc : 0 <= c) (Hcl : c < l) (Hl : l < _T).
Abbreviation i := (get z.(son) c).
Abbreviation j := (get z.(son) l).

Lemma codes_ne : i <> j.
Proof using Hs Hc Hcl Hl.
  intros E. pose proof (sh_down z Hs c) as H1. pose proof (sh_down z Hs l) as H2.
  rewrite E in H1. lia.
Qed.

Lemma get_swap_prnt x : 0 <= x ->
  get (swap_prnt z c l) x = if under j x then c else if under i x then l else get z.(prnt) x.
Proof using Hs Hc Hcl Hl.
  intros Hx. pose proof (sh_prnt z Hs). pose proof (son_range Hs c). pose proof (son_range Hs l).
  unfold swap_prnt. rewrite get_link by (rewrite ?zlen_link; lia).
  by rewrite get_link by lia.
Qed.

Lemma get_swap_son x : 0 <= x < _T ->
  get (swap_son z c l) x = if x =? c then j else if x =? l then i else get z.(son) x.
Proof using Hs Hc Hcl Hl.
  intros Hx. pose proof (sh_son z Hs). unfold swap_son.
  rewrite get_set by (rewrite ?zlen_set; lia). by rewrite get_set by lia.
Qed.

(** Exchanging the subtrees of two nodes keeps the two directions of the tree
    inverse of each other. *)
Lemma swap_shape f : (j < _T -> j + 1 < c) -> zlen f = _T + 1 ->
  shape (mkHuff f (swap_prnt z c l) (swap_son z c l)).
Proof using Hs Hc Hcl Hl.
  intros Hj Hf. pose proof codes_ne as Hne.
  pose proof (sh_code z Hs c ltac:(lia)) as Ci. pose proof (sh_code z Hs l ltac:(lia)) as Cj.
  split; cbn [freq prnt son]; try done.
  - unfold swap_prnt. rewrite !zlen_link. apply (sh_prnt z Hs).
  - unfold swap_son. rewrite !zlen_set. apply (sh_son z Hs).
  - intros x Hx. rewrite get_swap_son by lia. pose proof (sh_code z Hs x Hx).
    destruct (x =? c), (x =? l); done.
  - intros x Hx. rewrite get_swap_son by lia. pose proof (sh_code z Hs x Hx) as Cx.
    pose proof (son_range Hs x Hx). pose proof (son_range Hs c). pose proof (son_range Hs l).
    destruct (Z.eqb_spec x c) as [->|Nc]; [|destruct (Z.eqb_spec x l) as [->|Nl]];
      rewrite get_swap_prnt, !under_code by (assumption || lia).
    + by rewrite Z.eqb_refl.
    + rewrite Z.eqb_refl. by destruct (Z.eqb_spec i j).
    + pose proof (sh_down z Hs x). pose proof (sh_down z Hs c). pose proof (sh_down z Hs l).
      destruct (Z.eqb_spec (get z.(son) x) j) as [E|]; [rewrite E in *; lia|].
      destruct (Z.eqb_spec (get z.(son) x) i) as [E|]; [rewrite E in *; lia|]. auto.
  - intros x Hx. rewrite get_swap_son by lia. pose proof (sh_code z Hs x Hx) as Cx.
    pose proof (son_range Hs x Hx). pose proof (son_range Hs c). pose proof (son_range Hs l).
    destruct (Z.eqb_spec x c) as [->|Nc]; [|destruct (Z.eqb_spec x l) as [->|Nl]]; intros Hlt;
      rewrite get_swap_prnt, !under_code1 by (assumption || lia).
    + by rewrite Z.eqb_refl.
    + rewrite Z.eqb_refl. by destruct (Z.eqb_spec i j).
    + pose proof (sh_down z Hs x). pose proof (sh_down z Hs c). pose proof (sh_down z Hs l).
      destruct (Z.eqb_spec (get z.(son) x) j) as [E|]; [rewrite E in *; lia|].
      destruct (Z.eqb_spec (get z.(son) x) i) as [E|]; [rewrite E in *; lia|].
      by apply (sh_down2 z Hs).
  - intros k Hk. rewrite get_swap_prnt, !under_code by (assumption || clia).
    destruct (sh_up z Hs k Hk) as [U1 U2].
    destruct (Z.eqb_spec k j) as [->|]; [|destruct (Z.eqb_spec k i) as [->|]].
    + split; [lia|]. rewrite get_swap_son, Z.eqb_refl by lia. done.
    + split; [lia|]. rewrite get_swap_son, Z.eqb_refl by lia. by destruct (Z.eqb_spec l c); [lia|].
    + split; [lia|]. rewrite get_swap_son by lia.
      destruct (Z.eqb_spec (get z.(prnt) k) c) as [E|]; [congruence|].
      destruct (Z.eqb_spec (get z.(prnt) k) l) as [E|]; [congruence|done].
  - intros x Hx. rewrite get_swap_son by lia. pose proof (sh_order z Hs x Hx).
    pose proof (sh_order z Hs c).
    destruct (Z.eqb_spec x c), (Z.eqb_spec x l); subst; lia.
  - rewrite get_swap_prnt by clia. unfold under.
    pose proof (sh_order z Hs c). pose proof (sh_order z Hs l).
    destruct (Z.eqb_spec _R j), (Z.eqb_spec _R (j + 1)), (Z.ltb_spec j _T),
      (Z.eqb_spec _R i), (Z.eqb_spec _R (i + 1)), (Z.ltb_spec i _T); cbn;
      try (apply (sh_root z Hs)); clia.
Qed.
End swap.

(** The frequencies after a swap of the pending node [c] with the last node [l]
    of the same frequency: the count moves to [l], and [l]'s parent is pending. *)
Lemma swap_freqs z c l :
  shape z -> freqs z c -> 0 <= c -> c < l -> l < _R ->
  get z.(freq) l = get z.(freq) c -> get z.(freq) c < get z.(freq) (l + 1) ->
  freqs (mkHuff (set (set z.(freq) c (get z.(freq) c)) l (get z.(freq) c + 1))
                (swap_prnt z c l) (swap_son z c l)) (get z.(prnt) l).
Proof.
  intros Hs Hf Hc Hcl Hl El Hgt. pose proof (sh_freq z Hs) as Hlen.
  assert (G : forall x, 0 <= x ->
    get (set (set z.(freq) c (get z.(freq) c)) l (get z.(freq) c + 1)) x
    = get z.(freq) x + (if x =? l then 1 else 0)).
  { intros x Hx. rewrite !get_set by (rewrite ?zlen_set; clia).
    destruct (Z.eqb_spec x l), (Z.eqb_spec x c); subst; lia. }
  pose proof (parent_spec Hs l ltac:(lia)) as (P1 & P2 & P3).
  split; cbn [freq prnt son].
  - intros x y Hx Hy. rewrite !G by lia. pose proof (fr_sorted z c Hf x y Hx Hy).
    destruct (Z.eqb_spec x l), (Z.eqb_spec y l); subst; try lia.
    pose proof (fr_sorted z c Hf (l + 1) y). lia.
  - intros x Hx. rewrite G by lia. pose proof (fr_pos z c Hf x Hx). destruct (x =? l); lia.
  - intros x Hx. rewrite get_swap_son by (done || clia). intros Hlt.
    pose proof (fr_sum z c Hf x Hx). pose proof (fr_sum z c Hf c). pose proof (fr_sum z c Hf l).
    pose proof (sh_order z Hs x Hx). pose proof (sh_order z Hs c). pose proof (sh_order z Hs l).
    pose proof (son_range Hs x Hx). pose proof (son_range Hs c). pose proof (son_range Hs l).
    rewrite !Z.eqb_refl in *.
    destruct (Z.eqb_spec l c); [lia|].
    destruct (Z.eqb_spec x c) as [->|Nc]; [|destruct (Z.eqb_spec x l) as [->|Nl]].
    + (* c now carries the children of l *)
      rewrite !G by lia. destruct (Z.eqb_spec c (get z.(prnt) l)); [lia|].
      destruct (Z.eqb_spec c l), (Z.eqb_spec (get (son z) l) l), (Z.eqb_spec (get (son z) l + 1) l); lia.
    + rewrite !G by lia. rewrite Z.eqb_refl.
      destruct (Z.eqb_spec l (get z.(prnt) l)), (Z.eqb_spec (get (son z) c) l),
        (Z.eqb_spec (get (son z) c + 1) l); lia.
    + rewrite !G by lia. apply Z.eqb_neq in Nl as Nl'. rewrite Nl'.
      destruct (Z.eqb_spec x (get z.(prnt) l)) as [->|Np].
      * destruct P3 as [P3|P3]; rewrite P3 in *;
          rewrite !Z.eqb_refl; [destruct (Z.eqb_spec (l + 1) l)|
            destruct (Z.eqb_spec (get (son z) (get (prnt z) l)) l)]; lia.
      * destruct (Z.eqb_spec (get z.(son) x) l) as [E|].
        { exfalso. apply Np. rewrite <- E. by rewrite (sh_down z Hs). }
        destruct (Z.eqb_spec (get z.(son) x + 1) l) as [E|]; [|lia].
        exfalso. apply Np. rewrite <- E. by rewrite (sh_down2 z Hs).
  - rewrite G by clia. rewrite (fr_sentinel z c Hf). destruct (Z.eqb_spec _T l); clia.
Qed.

(** The search for the last node of the frequency block of [c]. *)
Lemma leader_search f k c hi :
  0 <= c -> c < hi -> zlen f = _T + 1 -> hi <= _T -> k <= get f hi -> get f c < k ->
  exists l, loop (Z.to_nat _T) (fun l => fl ← idx f (l + 1);
              mret (if fl <? k then inl (l + 1) else inr l)) c = Ok l /\
    c <= l < hi /\ get f l < k <= get f (l + 1).
Proof.
  intros Hc Hhi Hf Hhi2 Hk Hlt.
  apply (loop_inv (fun l => c <= l < hi /\ get f l < k) (fun l => Z.to_nat (hi - l - 1))
    (fun l => c <= l < hi /\ get f l < k <= get f (l + 1))); [|lia|lia].
  intros l [Hl1 Hl2]. rewrite idx_bind by lia. unfold mret, res_ret.
  eexists. split; [done|]. destruct (Z.ltb_spec (get f (l + 1)) k); [|lia].
  assert (l + 1 <> hi) by (intros E; rewrite E in *; lia). lia.
Qed.

(** The loop invariant of [update]: a well-formed tree whose node [q] still has
    to count the symbol. *)
Record pending (z : huff) (q : Z) : Prop := {
  pd_shape : shape z;
  pd_freqs : freqs z q;
  pd_range : 0 <= q < _T;
  pd_bound : get z.(freq) _R + 1 <= _MaxFreq }.

Lemma pending_above z q : pending z q -> q < _R ->
  get z.(freq) q < get z.(freq) (get z.(prnt) q) /\ q < get z.(prnt) q < _T.
Proof.
  intros [Hs Hf Hq _] Hr. pose proof (parent_spec Hs q ltac:(lia)) as (P1 & P2 & P3).
  pose proof (fr_sum z q Hf (get z.(prnt) q) ltac:(lia) P2) as E.
  pose proof (sh_order z Hs (get z.(prnt) q) ltac:(lia) P2).
  pose proof (son_range Hs (get z.(prnt) q) ltac:(lia)).
  pose proof (fr_pos z q Hf (get z.(son) (get z.(prnt) q))).
  pose proof (fr_pos z q Hf (get z.(son) (get z.(prnt) q) + 1)).
  destruct (Z.eqb_spec (get z.(prnt) q) q); [lia|]. destruct P3 as [P3|P3]; rewrite P3 in *; lia.
Qed.

Definition counted (n : Z) (z : huff) : Prop := huff_ok z /\ get z.(freq) _R = n + 1.

Lemma set_shape z f : shape z -> zlen f = zlen z.(freq) -> shape (mkHuff f z.(prnt) z.(son)).
Proof. intros [] ?. split; cbn [freq prnt son]; auto. congruence. Qed.

(** [exchange] computes the swapped tables and moves on to the parent of [l]. *)
Lemma exchange_run z f c l k :
  shape z -> zlen f = _T + 1 -> 0 <= c -> c < l -> l < _R ->
  (get z.(son) l < _T -> get z.(son) l + 1 < c) ->
  exchange z f c l k
  = Ok (inl (get z.(prnt) l,
      mkHuff (set (set f c (get f l)) l k) (swap_prnt z c l) (swap_son z c l))).
Proof.
  intros Hs Hf Hc Hcl Hl Hj.
  pose proof (sh_prnt z Hs). pose proof (sh_son z Hs).
  pose proof (parent_spec Hs l ltac:(lia)) as (P1 & _ & _).
  pose proof (son_range Hs c ltac:(clia)). pose proof (son_range Hs l ltac:(clia)).
  unfold exchange. rewrite idx_bind by clia. rewrite upd_bind by clia.
  rewrite upd_bind by zl. rewrite idx_bind by clia.
  pose proof (link_run (prnt z) (get z.(son) c) l ltac:(lia) ltac:(lia)) as L1.
  rewrite upd_bind in L1 by clia. rewrite upd_bind by clia. rewrite L1, bind_Ok.
  rewrite idx_bind by clia. rewrite upd_bind by clia.
  pose proof (link_run (link (prnt z) (get z.(son) c) l) (get z.(son) l) c
    ltac:(rewrite zlen_link; lia) ltac:(lia)) as L2.
  rewrite upd_bind in L2 by (rewrite zlen_link; clia).
  rewrite upd_bind by (rewrite zlen_link; clia). rewrite L2, bind_Ok.
  rewrite upd_bind by zl. rewrite idx_bind by (rewrite !zlen_link; clia).
  change (link (link _ _ _) _ _) with (swap_prnt z c l).
  change (set (set (son z) _ _) _ _) with (swap_son z c l).
  assert (get (swap_prnt z c l) l = get z.(prnt) l) as ->.
  { rewrite get_swap_prnt by (done || clia). unfold under. pose proof (sh_order z Hs c).
    destruct (Z.eqb_spec l (get (son z) l)), (Z.eqb_spec l (get (son z) c)),
      (Z.ltb_spec (get (son z) l) _T), (Z.ltb_spec (get (son z) c) _T),
      (Z.eqb_spec l (get (son z) l + 1)), (Z.eqb_spec l (get (son z) c + 1)); cbn; clia. }
  unfold next_node. destruct (Z.eqb_spec (get z.(prnt) l) 0); [lia|done].
Qed.

(** What an iteration of [update] at node [q] has to establish. *)
Definition step_post (n q : Z) (r : (Z * huff) + huff) : Prop :=
  match r with
  | inl (q', z') => pending z' q' /\ get z'.(freq) _R = n /\ q < q'
  | inr z' => counted n z'
  end.

(** The iteration at the root completes the count. *)
Lemma step_root z n : pending z _R -> get z.(freq) _R = n ->
  counted n (mkHuff (set z.(freq) _R (n + 1)) z.(prnt) z.(son)).
Proof.
  intros [Hs Hf _ Hb] <-. pose proof (sh_freq z Hs).
  pose proof (fr_sentinel z _R Hf) as Hsent.
  split; [split|]; cbn [freq]; rewrite ?get_set_eq by clia; try lia.
  - apply set_shape; [done|]. by rewrite zlen_set.
  - apply bump_freqs; auto; [clia|]. replace (_R + 1) with _T by clia. clia.
Qed.

(** The iteration at a node whose new count keeps the order. *)
Lemma step_bump z q n :
  pending z q -> q < _R -> get z.(freq) _R = n ->
  get z.(freq) q + 1 <= get z.(freq) (q + 1) ->
  step_post n q (inl (get z.(prnt) q,
    mkHuff (set z.(freq) q (get z.(freq) q + 1)) z.(prnt) z.(son))).
Proof.
  intros Hp Hq Hn Hle. destruct (pending_above z q Hp Hq) as [A1 A2].
  destruct Hp as [Hs Hf Hq' Hb]. pose proof (sh_freq z Hs).
  split; [split|]; cbn [freq]; rewrite ?get_set_ne by clia; try lia.
  - apply set_shape; [done|]. by rewrite zlen_set.
  - apply bump_freqs; auto.
Qed.

(** The iteration that exchanges the node with the leader of its block. *)
Lemma step_swap z q l n :
  pending z q -> get z.(freq) _R = n -> q < l -> l < get z.(prnt) q -> q < _R ->
  get z.(freq) l < get z.(freq) q + 1 <= get z.(freq) (l + 1) ->
  exists r, exchange z (set z.(freq) q (get z.(freq) q + 1)) q l (get z.(freq) q + 1) = Ok r
    /\ step_post n q r.
Proof.
  intros Hp Hn Hql Hlp Hq Hl. destruct (pending_above z q Hp Hq) as [A1 A2].
  destruct Hp as [Hs Hf Hq' Hb]. pose proof (sh_freq z Hs) as Hlen.
  pose proof (fr_sorted z q Hf q l ltac:(lia) ltac:(lia)).
  assert (El : get z.(freq) l = get z.(freq) q) by lia.
  assert (Hlr : l < _R) by clia.
  pose proof (parent_spec Hs l ltac:(lia)) as (P1 & _ & _).
  assert (Hj : get z.(son) l < _T -> get z.(son) l + 1 < q).
  { intros Hlt. pose proof (fr_sum z q Hf l ltac:(lia) Hlt) as E.
    destruct (Z.eqb_spec l q); [lia|]. pose proof (sh_order z Hs l ltac:(lia) Hlt).
    pose proof (son_range Hs l ltac:(lia)). pose proof (fr_pos z q Hf (get z.(son) l)).
    destruct (Z.lt_ge_cases (get z.(son) l + 1) q); [done|].
    pose proof (fr_sorted z q Hf q (get z.(son) l + 1)). lia. }
  rewrite exchange_run by (rewrite ?zlen_set; done || lia).
  eexists. split; [done|]. rewrite get_set_ne by lia. rewrite El.
  assert (forall a b, set (set z.(freq) q a) q b = set z.(freq) q b) as ->.
  { intros. unfold set. by rewrite list_insert_insert_eq. }
  split; [split|]; cbn [freq]; rewrite ?get_set_ne by clia; try lia.
  - apply swap_shape; auto with lia. by rewrite !zlen_set.
  - apply swap_freqs; auto with lia.
Qed.

Lemma update_step_ok z q n :
  pending z q -> get z.(freq) _R = n ->
  exists r, update_step (q, z) = Ok r /\ step_post n q r.
Proof.
  intros Hp Hn. pose proof Hp as [Hs Hf Hq Hb].
  pose proof (sh_freq z Hs). pose proof (sh_prnt z Hs).
  pose proof (fr_sorted z q Hf q _R ltac:(clia) ltac:(clia)).
  pose proof (fr_pos z q Hf q Hq).
  unfold update_step. cbv beta iota. rewrite idx_bind by clia. cbv zeta beta.
  rewrite u64_small by clia. rewrite upd_bind by clia.
  rewrite idx_bind by zl. rewrite get_set_ne by clia. rewrite zlen_set.
  destruct (Z.eq_dec q _R) as [->|Hr].
  { replace (_R + 1) with _T by clia. rewrite (fr_sentinel z _R Hf).
    destruct (Z.leb_spec (get z.(freq) _R + 1) 0xffff); [|clia]. cbn [orb].
    rewrite idx_bind by clia. rewrite (sh_root z Hs).
    eexists. split; [done|]. cbn [step_post Z.eqb]. rewrite Hn. by apply step_root. }
  assert (Hr' : q < _R) by clia. destruct (pending_above z q Hp Hr') as [A1 A2].
  destruct (Z.leb_spec (zlen (freq z)) (q + 2)); [clia|]. rewrite orb_false_r.
  destruct (Z.leb_spec (get z.(freq) q + 1) (get z.(freq) (q + 1))) as [Hle|Hgt].
  - rewrite idx_bind by clia. unfold next_node.
    destruct (Z.eqb_spec (get z.(prnt) q) 0); [lia|].
    eexists. split; [done|]. by apply step_bump.
  - assert (q + 1 <> get z.(prnt) q) by (intros E; rewrite <- E in A1; lia).
    destruct (leader_search (set z.(freq) q (get z.(freq) q + 1)) (get z.(freq) q + 1)
      (q + 1) (get z.(prnt) q)) as (l & -> & Hl & Hl2);
      rewrite ?zlen_set, ?get_set_ne by clia; try lia.
    rewrite bind_Ok. rewrite !get_set_ne in Hl2 by clia. apply step_swap; auto with lia.
Qed.

(** [update] on a tree that still has room for one more symbol. *)
Lemma update_loop_ok z c :
  huff_ok z -> 0 <= c < _NumChar -> get z.(freq) _R < _MaxFreq ->
  exists z', (c ← idx z.(prnt) (c + _T); loop (S (Z.to_nat _T)) update_step (c, z)) = Ok z'
    /\ counted (get z.(freq) _R) z'.
Proof.
  intros [Hs Hf Hb] Hc Hlt. pose proof (sh_prnt z Hs). rewrite idx_bind by clia.
  destruct (leaf_spec Hs c Hc) as [L1 L2].
  apply (loop_inv (fun '(q, z') => pending z' q /\ get z'.(freq) _R = get z.(freq) _R)
    (fun '(q, _) => Z.to_nat (_T - q)) (counted (get z.(freq) _R))).
  - intros [q z'] [Hp Hn]. destruct (update_step_ok z' q _ Hp Hn) as ([[q' z'']|z''] & -> & Hr);
      (eexists; split; [done|]); [|done].
    destruct Hr as (H1 & H2 & H3). destruct Hp. split; [done|]. clia.
  - split; [|done]. split; [done| |clia|clia]. destruct Hf as [F1 F2 F3 F4]. split; auto.
    intros i Hi Hi2. rewrite <- F3 by done. destruct (Z.eqb_spec i (get (prnt z) (c + _T))); [|destruct (Z.eqb_spec i (-1)); lia].
    subst i. clia.
  - clia.
Qed.
