(* ===== verification/Reconst.v ===== *)
(** The rebuild of the Huffman tree ([reconst] of [src/lzhuf/lzhuf.go]): it
    terminates without an index error and yields a well-formed tree whose root
    frequency is about half of the old one. *)
From S2P Require Import Prelude Huffman.

(** ** Sums over index ranges *)
Fixpoint rsum (g : Z -> Z) (a : Z) (n : nat) : Z :=
  match n with O => 0 | S n => g a + rsum g (a + 1) n end.

Lemma rsum_split g a n m : rsum g a (n + m) = rsum g a n + rsum g (a + Z.of_nat n) m.
Proof.
  revert a. induction n as [|n IH]; intros a; cbn [rsum Nat.add].
  - by rewrite Z.add_0_r.
  - rewrite IH. replace (a + 1 + Z.of_nat n) with (a + Z.of_nat (S n)) by lia. lia.
Qed.

Lemma rsum_snoc g a n : rsum g a (S n) = rsum g a n + g (a + Z.of_nat n).
Proof. replace (S n) with (n + 1)%nat by lia. rewrite rsum_split. cbn. lia. Qed.

Lemma rsum_ext g h a b n :
  (forall t, 0 <= t < Z.of_nat n -> g (a + t) = h (b + t)) -> rsum g a n = rsum h b n.
Proof.
  revert a b. induction n as [|n IH]; intros a b H; [done|]. cbn [rsum]. f_equal.
  - specialize (H 0). rewrite !Z.add_0_r in H. apply H. lia.
  - apply IH. intros t Ht. specialize (H (t + 1)). 
    replace (a + 1 + t) with (a + (t + 1)) by lia.
    replace (b + 1 + t) with (b + (t + 1)) by lia. apply H. lia.
Qed.

Lemma rsum_nonneg g a n : (forall t, a <= t < a + Z.of_nat n -> 0 <= g t) -> 0 <= rsum g a n.
Proof.
  revert a. induction n as [|n IH]; intros a H; cbn [rsum]; [done|].
  pose proof (H a). pose proof (IH (a + 1)) as H2.
  enough (0 <= rsum g (a + 1) n) by lia. apply H2. intros. apply H. lia.
Qed.

Lemma rsum_list (g : Z -> Z) (l : list Z) :
  rsum (fun x => g (get l x)) 0 (length l) = foldr Z.add 0 (g <$> l).
Proof.
  induction l as [|x l IH]; [done|]. cbn [length rsum fmap list_fmap foldr]. f_equal.
  rewrite <- IH. apply rsum_ext. intros t Ht. unfold get.
  replace (Z.to_nat (0 + 1 + t)) with (S (Z.to_nat (0 + t))) by lia. done.
Qed.

(** ** The codes in [son] *)
Definition codes : list Z := seqZ _T _NumChar ++ ((fun x => 2 * x) <$> seqZ 0 313).

Lemma elem_codes k : k ∈ codes <-> is_code k.
Proof.
  unfold codes. rewrite elem_of_app, elem_of_seqZ, list_elem_of_fmap. split.
  - intros [H|(y & -> & Hy)]; [left; clia|]. apply elem_of_seqZ in Hy. right.
    split; [clia|]. rewrite Z.mul_comm. apply Z.mod_mul. lia.
  - intros [H|[H E]]; [left; clia|right]. exists (k / 2).
    pose proof (Z.div_mod k 2 ltac:(lia)). split; [lia|]. apply elem_of_seqZ. clia.
Qed.

Lemma NoDup_codes : NoDup codes.
Proof. apply (bool_decide_unpack (NoDup codes)). vm_compute. exact I. Qed.

Lemma length_codes : length codes = Z.to_nat _T.
Proof. reflexivity. Qed.

Definition inj_on (l : list Z) (n : Z) : Prop :=
  forall x y, 0 <= x < n -> 0 <= y < n -> get l x = get l y -> x = y.

Lemma inj_NoDup l : inj_on l (zlen l) -> NoDup l.
Proof.
  intros H. apply NoDup_alt. intros i j x Hi Hj.
  pose proof (lookup_lt_Some _ _ _ Hi). pose proof (lookup_lt_Some _ _ _ Hj).
  enough (Z.of_nat i = Z.of_nat j) by lia. apply H; [unfold zlen; lia..|].
  by rewrite (get_lookup l _ x), (get_lookup l _ x) by (rewrite ?Nat2Z.id; done || lia).
Qed.

Lemma elem_get l x : x ∈ l -> exists i, 0 <= i < zlen l /\ get l i = x.
Proof.
  intros [i Hi]%list_elem_of_lookup. exists (Z.of_nat i).
  pose proof (lookup_lt_Some _ _ _ Hi). unfold zlen. split; [lia|].
  apply get_lookup; [lia|]. by rewrite Nat2Z.id.
Qed.

(** [627] distinct codes are all the codes. *)
Lemma sons_perm l :
  zlen l = _T -> (forall i, 0 <= i < _T -> is_code (get l i)) -> inj_on l _T -> l ≡ₚ codes.
Proof.
  intros Hl Hc Hi. rewrite <- Hl in Hi. apply inj_NoDup in Hi.
  apply submseteq_length_Permutation.
  - apply NoDup_submseteq; [done|]. intros x Hx. apply elem_codes.
    apply elem_get in Hx as (i & Hr & <-). apply Hc. lia.
  - rewrite length_codes. unfold zlen in Hl. lia.
Qed.

Lemma shape_perm z : shape z -> z.(son) ≡ₚ codes.
Proof.
  intros Hs. apply sons_perm; [apply (sh_son z Hs)|apply (sh_code z Hs)|].
  intros x y Hx Hy E. rewrite <- (sh_down z Hs x Hx), <- (sh_down z Hs y Hy). by rewrite E.
Qed.

Lemma sum_perm (g : Z -> Z) l k : l ≡ₚ k -> foldr Z.add 0 (g <$> l) = foldr Z.add 0 (g <$> k).
Proof. intros H. induction H; cbn; lia. Qed.

Lemma sum_shape (g : Z -> Z) z : shape z ->
  rsum (fun x => g (get z.(son) x)) 0 (Z.to_nat _T) = foldr Z.add 0 (g <$> codes).
Proof.
  intros Hs. rewrite <- (sum_perm g _ _ (shape_perm z Hs)), <- rsum_list.
  pose proof (sh_son z Hs) as Hl. unfold zlen in Hl.
  by replace (length (son z)) with (Z.to_nat _T) by lia.
Qed.

Definition leaf (s : Z) : bool := _T <=? s.

(** There are as many leaves as characters. *)
Lemma leaf_count z : shape z ->
  rsum (fun x => if leaf (get z.(son) x) then 1 else 0) 0 (Z.to_nat _T) = _NumChar.
Proof.
  intros Hs. rewrite (sum_shape (fun s => if leaf s then 1 else 0) z Hs).
  vm_compute. reflexivity.
Qed.

Lemma rsum_add g h a n : rsum (fun x => g x + h x) a n = rsum g a n + rsum h a n.
Proof. revert a. induction n as [|n IH]; intros a; cbn [rsum]; rewrite ?IH; lia. Qed.

(** Summing over sibling pairs is summing over all nodes but the root. *)
Lemma pair_sum (f : Z -> Z) n a :
  foldr Z.add 0 ((fun k => f k + f (k + 1)) <$> ((fun x => 2 * x) <$> seqZ a (Z.of_nat n)))
  = rsum f (2 * a) (2 * n).
Proof.
  revert a. induction n as [|n IH]; intros a; [by rewrite seqZ_nil by lia|].
  rewrite seqZ_cons by lia. cbn [fmap list_fmap foldr].
  replace (Z.pred (Z.of_nat (S n))) with (Z.of_nat n) by lia. rewrite IH.
  replace (2 * S n)%nat with (S (S (2 * n))) by lia. cbn [rsum].
  replace (2 * Z.succ a) with (2 * a + 1 + 1) by lia. lia.
Qed.

(** The root counts every leaf. *)
Lemma leaf_sum z : shape z -> freqs z (-1) ->
  rsum (fun x => if leaf (get z.(son) x) then get z.(freq) x else 0) 0 (Z.to_nat _T)
  = get z.(freq) _R.
Proof.
  intros Hs Hf.
  set (h := fun k => if leaf k then 0 else get z.(freq) k + get z.(freq) (k + 1)).
  assert (E1 : rsum (fun x => get z.(freq) x) 0 (Z.to_nat _T)
    = rsum (fun x => if leaf (get z.(son) x) then get z.(freq) x else 0) 0 (Z.to_nat _T)
      + rsum (fun x => h (get z.(son) x)) 0 (Z.to_nat _T)).
  { rewrite <- rsum_add. apply rsum_ext. intros t Ht. unfold h, leaf.
    destruct (Z.leb_spec _T (get z.(son) (0 + t))); [lia|].
    rewrite <- (fr_sum z (-1) Hf) by lia. destruct (Z.eqb_spec (0 + t) (-1)); lia. }
  assert (E2 : rsum (fun x => h (get z.(son) x)) 0 (Z.to_nat _T)
    = rsum (fun x => get z.(freq) x) 0 (Z.to_nat _R)).
  { rewrite (sum_shape h z Hs). unfold codes. rewrite fmap_app, foldr_app.
    change 313 with (Z.of_nat 313).
    assert (H2 : h <$> ((fun x => 2 * x) <$> seqZ 0 (Z.of_nat 313))
      = (fun k => get z.(freq) k + get z.(freq) (k + 1)) <$> ((fun x => 2 * x) <$> seqZ 0 (Z.of_nat 313))).
    { apply list_fmap_ext. intros i x Hx. apply list_elem_of_lookup_2, list_elem_of_fmap in Hx.
      destruct Hx as (y & -> & Hy%elem_of_seqZ). unfold h, leaf.
      destruct (Z.leb_spec _T (2 * y)); [clia|done]. }
    rewrite H2, (pair_sum (get z.(freq))).
    assert (H3 : forall s n, _T <= s -> foldr Z.add (rsum (get z.(freq)) (2 * 0) (2 * 313))
      (h <$> seqZ s (Z.of_nat n)) = rsum (get z.(freq)) (2 * 0) (2 * 313)).
    { intros s n. revert s. induction n as [|n IH]; intros s Hlt; [by rewrite seqZ_nil by lia|].
      rewrite seqZ_cons by lia. cbn [fmap list_fmap foldr].
      replace (Z.pred (Z.of_nat (S n))) with (Z.of_nat n) by lia. rewrite IH by lia.
      unfold h, leaf. destruct (Z.leb_spec _T s); lia. }
    rewrite <- (H3 _T 314%nat) by lia. reflexivity. }
  replace (Z.to_nat _T) with (S (Z.to_nat _R)) in E1 by clia.
  rewrite rsum_snoc in E1 at 1. replace (0 + Z.of_nat (Z.to_nat _R)) with _R in E1 by clia.
  replace (S (Z.to_nat _R)) with (Z.to_nat _T) in E1 by clia. lia.
Qed.

(** ** Collecting the leaves *)
Section collect.
Context (z0 : huff) (Hs : shape z0) (Hf : freqs z0 (-1)) (Hb : get z0.(freq) _R <= _MaxFreq).

Definition nleaf (i : Z) : Z := rsum (fun x => if leaf (get z0.(son) x) then 1 else 0) 0 (Z.to_nat i).

(** After [i] rounds the first [j] entries are the leaves found so far, in
    order ([g] says where they come from), and the entries from [i] on are
    untouched. *)
Record collected (i : Z) (jz : Z * huff) : Prop := {
  co_j : 0 <= jz.1 <= i /\ jz.1 = nleaf i;
  co_prnt : jz.2.(prnt) = z0.(prnt);
  co_lenf : zlen jz.2.(freq) = _T + 1;
  co_lens : zlen jz.2.(son) = _T;
  co_rest x : i <= x -> get jz.2.(son) x = get z0.(son) x /\ get jz.2.(freq) x = get z0.(freq) x;
  co_src : exists g, (forall x, 0 <= x < jz.1 -> 0 <= g x < i /\ _T <= get z0.(son) (g x) /\
      get jz.2.(son) x = get z0.(son) (g x) /\ get jz.2.(freq) x = (get z0.(freq) (g x) + 1) / 2) /\
    (forall x y, 0 <= x < y -> y < jz.1 -> g x < g y);
  co_sum : 2 * rsum (get jz.2.(freq)) 0 (Z.to_nat jz.1)
    <= rsum (fun x => if leaf (get z0.(son) x) then get z0.(freq) x else 0) 0 (Z.to_nat i) + nleaf i }.

Lemma nleaf_succ i : 0 <= i -> nleaf (i + 1) = nleaf i + (if leaf (get z0.(son) i) then 1 else 0).
Proof.
  intros Hi. unfold nleaf. replace (Z.to_nat (i + 1)) with (S (Z.to_nat i)) by lia.
  rewrite rsum_snoc. by replace (0 + Z.of_nat (Z.to_nat i)) with i by lia.
Qed.

Lemma collect_step i jz : 0 <= i < _T -> collected i jz ->
  exists jz', reconst_collect i jz = Ok jz' /\ collected (i + 1) jz'.
Proof using Hs Hf Hb.
  destruct jz as [j z]. intros Hi [[Hj En] Hp Hlf Hls Hr (g & Hg & Hmono) Hsum]. cbn [fst snd] in *.
  pose proof (Hr i ltac:(lia)) as [R1 R2]. pose proof (nleaf_succ i ltac:(lia)) as Hn.
  unfold reconst_collect. rewrite idx_bind by lia. rewrite R1. unfold leaf in *.
  assert (Hw : forall G, rsum G 0 (Z.to_nat (i + 1)) = rsum G 0 (Z.to_nat i) + G i).
  { intros G. replace (Z.to_nat (i + 1)) with (S (Z.to_nat i)) by lia. rewrite rsum_snoc.
    by replace (0 + Z.of_nat (Z.to_nat i)) with i by lia. }
  destruct (Z.leb_spec _T (get z0.(son) i)) as [Hlt|Hlt].
  - rewrite idx_bind by lia. rewrite upd_bind by lia. rewrite upd_bind by lia.
    rewrite R2. pose proof (fr_pos z0 (-1) Hf i Hi).
    pose proof (fr_sorted z0 (-1) Hf i _R ltac:(clia) ltac:(clia)).
    rewrite u64_small by clia.
    eexists. split; [done|]. split; cbn [fst snd freq prnt son].
    + lia.
    + done.
    + rewrite zlen_set; lia.
    + rewrite zlen_set; lia.
    + intros x Hx. rewrite !get_set_ne by lia. apply Hr. lia.
    + exists (fun x => if x =? j then i else g x). split.
      * intros x Hx. rewrite !get_set by lia.
        destruct (Z.eqb_spec x j); [split_and!; lia || done|].
        destruct (Hg x ltac:(lia)) as (?&?&?&?). auto with lia.
      * intros x y Hx Hy. destruct (Z.eqb_spec x j), (Z.eqb_spec y j); try lia.
        { pose proof (Hg x ltac:(lia)). lia. } { apply Hmono; lia. }
    + replace (Z.to_nat (j + 1)) with (S (Z.to_nat j)) by lia. rewrite rsum_snoc.
      replace (0 + Z.of_nat (Z.to_nat j)) with j by lia. rewrite get_set_eq by lia.
      rewrite (rsum_ext _ (get (freq z)) 0 0).
      2:{ intros t Ht. apply get_set_ne; lia. }
      rewrite Hw. unfold leaf. destruct (Z.leb_spec _T (get z0.(son) i)); [|lia].
      pose proof (Z.mul_div_le (get (freq z0) i + 1) 2). lia.
  - eexists. split; [done|]. split; cbn [fst snd freq prnt son]; try done.
    + lia.
    + intros x Hx. apply Hr. lia.
    + exists g. split; [|done]. intros x Hx. destruct (Hg x Hx) as (?&?&?&?). auto with lia.
    + rewrite Hw. unfold leaf. destruct (Z.leb_spec _T (get z0.(son) i)); lia.
Qed.
End collect.

(** ** Joining the nodes *)

(** The state of the second loop: the first [j] nodes are in frequency order,
    the nodes below [i] have a parent among them. *)
Record joined (total j : Z) (iz : Z * huff) : Prop := {
  jo_i : iz.1 = 2 * (j - _NumChar);
  jo_lenf : zlen iz.2.(freq) = _T + 1;
  jo_lens : zlen iz.2.(son) = _T;
  jo_sorted x y : 0 <= x <= y -> y < j -> get iz.2.(freq) x <= get iz.2.(freq) y;
  jo_pos x : 0 <= x < j -> 1 <= get iz.2.(freq) x;
  jo_code x : 0 <= x < j -> is_code (get iz.2.(son) x);
  jo_node x : 0 <= x < j -> get iz.2.(son) x < _T ->
    get iz.2.(son) x < iz.1 /\ get iz.2.(son) x + 1 < x /\
    get iz.2.(freq) x = get iz.2.(freq) (get iz.2.(son) x) + get iz.2.(freq) (get iz.2.(son) x + 1);
  jo_inj : inj_on iz.2.(son) j;
  jo_sum : rsum (get iz.2.(freq)) iz.1 (Z.to_nat (j - iz.1)) = total;
  jo_sentinel : get iz.2.(freq) _T = 0xffff }.

Lemma collected_joined z0 jz : shape z0 -> freqs z0 (-1) -> get z0.(freq) _R <= _MaxFreq ->
  collected z0 _T jz ->
  exists total, 2 * total <= _MaxFreq + _NumChar /\ joined total _NumChar (0, jz.2).
Proof.
  intros Hs Hf Hb [[Hj En] Hp Hlf Hls Hr (g & Hg & Hmono) Hsum].
  unfold nleaf in En. rewrite leaf_count in En by done.
  unfold nleaf in Hsum. rewrite leaf_count, leaf_sum in Hsum by done. rewrite En in *.
  exists (rsum (get jz.2.(freq)) 0 (Z.to_nat _NumChar)). split; [lia|].
  split; cbn [fst snd]; try done.
  - intros x y Hx Hy. destruct (Z.eq_dec x y) as [->|]; [lia|].
    destruct (Hg x ltac:(lia)) as (?&?&?& ->). destruct (Hg y ltac:(lia)) as (?&?&?& ->).
    apply Z.div_le_mono; [lia|]. pose proof (Hmono x y ltac:(lia) ltac:(lia)).
    pose proof (fr_sorted z0 (-1) Hf (g x) (g y)). lia.
  - intros x Hx. destruct (Hg x ltac:(lia)) as (?&?&?& ->).
    pose proof (fr_pos z0 (-1) Hf (g x)). apply Z.div_le_lower_bound; lia.
  - intros x Hx. destruct (Hg x ltac:(lia)) as (?&?& -> &_). by apply (sh_code z0 Hs).
  - intros x Hx. destruct (Hg x ltac:(lia)) as (?&?& -> &_). lia.
  - intros x y Hx Hy E. destruct (Hg x ltac:(lia)) as (?&?&E1&_), (Hg y ltac:(lia)) as (?&?&E2&_).
    assert (g x = g y).
    { rewrite <- (sh_down z0 Hs (g x)), <- (sh_down z0 Hs (g y)) by lia. congruence. }
    destruct (Z.lt_trichotomy x y) as [?|[?|?]]; [|done|].
    + pose proof (Hmono x y). lia.
    + pose proof (Hmono y x). lia.
  - destruct (Hr _T ltac:(lia)) as [_ ->]. apply (fr_sentinel z0 _ Hf).
Qed.

Lemma zlen_shift_in l k j v : 0 <= k <= j -> j < zlen l -> zlen (shift_in l k j v) = zlen l.
Proof.
  unfold shift_in, zlen. intros. rewrite length_app, length_cons, length_app.
  rewrite !length_take, !length_drop. lia.
Qed.

Lemma get_shift_in l k j v x : 0 <= k <= j -> j < zlen l -> 0 <= x ->
  get (shift_in l k j v) x
  = if x <? k then get l x else if x =? k then v else if x <=? j then get l (x - 1) else get l x.
Proof.
  unfold shift_in, zlen, get. intros Hk Hj Hx. rewrite !nth_lookup.
  destruct (Z.ltb_spec x k).
  - rewrite lookup_app_l by (rewrite length_take; lia). by rewrite lookup_take_lt by lia.
  - rewrite lookup_app_r by (rewrite length_take; lia). rewrite length_take.
    destruct (Z.eqb_spec x k) as [->|].
    + by replace (Z.to_nat k - _)%nat with 0%nat by lia.
    + replace (Z.to_nat x - _)%nat with (S (Z.to_nat (x - k - 1))) by lia. rewrite lookup_cons.
      destruct (Z.leb_spec x j).
      * rewrite lookup_app_l by (rewrite length_take, length_drop; lia).
        rewrite lookup_take_lt, lookup_drop by lia. do 2 f_equal. lia.
      * rewrite lookup_app_r by (rewrite length_take, length_drop; lia).
        rewrite length_take, length_drop, lookup_drop. do 2 f_equal. lia.
Qed.

(** The place of the new node: after every node that is not heavier. *)
Lemma place_search f v i j :
  0 <= i -> i + 2 <= j -> j < _T -> zlen f = _T + 1 -> v = get f j ->
  (forall x, 0 <= x < i + 2 -> get f x <= v) ->
  exists k, loop (Z.to_nat _T) (fun k => fk ← idx f (k - 1);
      mret (if v <? fk then inl (k - 1) else inr k)) j = Ok k /\
    i + 2 <= k <= j /\ get f (k - 1) <= v /\ (forall x, k <= x < j -> v < get f x).
Proof.
  intros Hi Hij Hj Hf Ev Hle.
  apply (loop_inv (fun k => i + 2 <= k <= j /\ forall x, k <= x < j -> v < get f x)
    (fun k => Z.to_nat k) (fun k => i + 2 <= k <= j /\ get f (k - 1) <= v /\
       forall x, k <= x < j -> v < get f x)); [|split; [lia|intros; lia]|clia].
  intros k [Hk1 Hk2]. rewrite idx_bind by clia. eexists. split; [done|].
  destruct (Z.ltb_spec v (get f (k - 1))); [|auto].
  assert (k <> i + 2) by (intros ->; pose proof (Hle (i + 2 - 1)); lia).
  split; [split; [lia|]|lia]. intros x Hx. destruct (Z.eq_dec x (k - 1)) as [->|]; [lia|apply Hk2; lia].
Qed.

Section join.
Context (total : Z) (Htot : 2 * total <= _MaxFreq + _NumChar).

(** The two lightest free nodes together weigh at most everything. *)
Lemma join_weight j i z : _NumChar <= j < _T -> joined total j (i, z) ->
  0 <= i /\ i + 2 <= j /\ get z.(freq) i + get z.(freq) (i + 1) <= total.
Proof.
  intros Hj [Ei _ _ _ Hpos _ _ _ Hsum _]. cbn [fst snd] in *.
  split; [clia|]. split; [clia|]. rewrite <- Hsum.
  replace (Z.to_nat (j - i)) with (S (S (Z.to_nat (j - i - 2)))) by clia. cbn [rsum].
  enough (0 <= rsum (get (freq z)) (i + 1 + 1) (Z.to_nat (j - i - 2))) by lia.
  apply rsum_nonneg. intros t Ht. pose proof (Hpos t). clia.
Qed.

(** Inserting the joint node [v] at its place [k]. *)
Section insert.
Context (j i k v : Z) (z : huff) (f : list Z).
Context (Hj : _NumChar <= j < _T) (Hjo : joined total j (i, z)).
Context (Ev : v = get z.(freq) i + get z.(freq) (i + 1)) (Ef : f = set z.(freq) j v).
Context (Hk : i + 2 <= k <= j) (Hle : get f (k - 1) <= v).
Context (Hgt : forall x, k <= x < j -> v < get f x).

Abbreviation z' := (mkHuff (shift_in f k j v) z.(prnt) (shift_in z.(son) k j i)).

Lemma ins_i : 0 <= i /\ i + 2 <= j /\ i = 2 * (j - _NumChar).
Proof using Hj Hjo.
  destruct (join_weight j i z Hj Hjo) as (W0 & W1 & W2). destruct Hjo as [Ei]. cbn in Ei. lia.
Qed.

Lemma ins_old x : 0 <= x < j -> get f x = get z.(freq) x.
Proof using Hj Ef Hjo. intros Hx. rewrite Ef. apply get_set_ne; lia. Qed.

Lemma ins_lenf : zlen f = _T + 1.
Proof using Ef Hjo. rewrite Ef, zlen_set. apply (jo_lenf _ _ _ Hjo). Qed.

Lemma ins_freq x : 0 <= x -> get z'.(freq) x = if x <? k then get f x
  else if x =? k then v else if x <=? j then get f (x - 1) else get f x.
Proof using Hj Ef Hjo Hk.
  intros Hx. pose proof ins_lenf. pose proof ins_i. apply get_shift_in; clia.
Qed.

Lemma ins_son x : 0 <= x -> get z'.(son) x = if x <? k then get z.(son) x
  else if x =? k then i else if x <=? j then get z.(son) (x - 1) else get z.(son) x.
Proof using Hj Ef Hjo Hk.
  intros Hx. pose proof (jo_lens _ _ _ Hjo). pose proof ins_i. apply get_shift_in; cbn in *; clia.
Qed.

Lemma ins_low x : 0 <= x < i + 2 -> get z'.(freq) x = get z.(freq) x.
Proof using Hj Ef Hjo Hk.
  intros Hx. pose proof ins_i. rewrite ins_freq by lia.
  destruct (Z.ltb_spec x k); [|lia]. apply ins_old. lia.
Qed.

Lemma ins_sorted x y : 0 <= x <= y -> y < j + 1 -> get z'.(freq) x <= get z'.(freq) y.
Proof using Hj Ef Hjo Hk Hle Hgt.
  intros Hx Hy. pose proof ins_i. rewrite !ins_freq by lia.
  assert (S : forall a b, 0 <= a <= b -> b < j -> get f a <= get f b).
  { intros a b Ha Hb. rewrite !ins_old by lia. by apply (jo_sorted _ _ _ Hjo). }
  destruct (Z.ltb_spec x k), (Z.ltb_spec y k), (Z.eqb_spec x k), (Z.eqb_spec y k),
    (Z.leb_spec x j), (Z.leb_spec y j); try lia; try (apply S; lia).
  - pose proof (S x (k - 1)). lia.
  - pose proof (Hgt (y - 1)). lia.
Qed.

Lemma ins_node x : 0 <= x < j + 1 -> get z'.(son) x < _T ->
  get z'.(son) x < i + 2 /\ get z'.(son) x + 1 < x /\
  get z'.(freq) x = get z'.(freq) (get z'.(son) x) + get z'.(freq) (get z'.(son) x + 1).
Proof using Hj Ef Hjo Hk Ev.
  intros Hx. pose proof ins_i as (I1 & I2 & I3). rewrite (ins_freq x), ins_son by lia.
  destruct (Z.ltb_spec x k), (Z.eqb_spec x k), (Z.leb_spec x j); try lia; intros Hlt.
  - destruct (jo_node _ _ _ Hjo x ltac:(lia) Hlt) as (N1 & N2 & N3).
    pose proof (jo_code _ _ _ Hjo x ltac:(lia)) as Hcx. cbn [fst snd] in *.
    rewrite !ins_low by clia. rewrite ins_old by lia. lia.
  - rewrite !ins_low by lia. lia.
  - destruct (jo_node _ _ _ Hjo (x - 1) ltac:(lia) Hlt) as (N1 & N2 & N3).
    pose proof (jo_code _ _ _ Hjo (x - 1) ltac:(lia)) as Hcx. cbn [fst snd] in *.
    rewrite !ins_low by clia. rewrite ins_old by lia. lia.
Qed.

Lemma ins_inj : inj_on z'.(son) (j + 1).
Proof using Hj Ef Hjo Hk.
  pose proof ins_i as (I1 & I2 & I3). pose proof (jo_inj _ _ _ Hjo) as Hinj.
  assert (Hi' : forall x, 0 <= x < j -> get z.(son) x <> i).
  { intros x Hx E. destruct (jo_node _ _ _ Hjo x Hx) as (N1 & _); cbn in *; clia. }
  intros x y Hx Hy. rewrite !ins_son by lia.
  destruct (Z.ltb_spec x k), (Z.eqb_spec x k), (Z.leb_spec x j), (Z.ltb_spec y k),
    (Z.eqb_spec y k), (Z.leb_spec y j); try lia; intros E;
    try (exfalso; eapply Hi'; [|exact E]; lia);
    try (exfalso; eapply Hi'; [|exact (eq_sym E)]; lia);
    apply Hinj in E; lia.
Qed.

Lemma ins_sum : rsum (get z'.(freq)) (i + 2) (Z.to_nat (j + 1 - (i + 2))) = total.
Proof using Hj Ef Hjo Hk Ev.
  pose proof ins_i as (I1 & I2 & I3). rewrite <- (jo_sum _ _ _ Hjo). cbn [fst snd].
  replace (Z.to_nat (j - i)) with (S (S (Z.to_nat (k - i - 2) + Z.to_nat (j - k)))) by lia.
  cbn [rsum]. replace (i + 1 + 1) with (i + 2) by lia.
  replace (Z.to_nat (j + 1 - (i + 2))) with (Z.to_nat (k - i - 2) + S (Z.to_nat (j - k)))%nat by lia.
  rewrite !rsum_split. cbn [rsum].
  replace (i + 2 + Z.of_nat (Z.to_nat (k - i - 2))) with k by lia.
  rewrite (rsum_ext (get z'.(freq)) (get (freq z)) (i + 2) (i + 2)).
  2:{ intros t Ht. rewrite ins_freq by lia.
      destruct (Z.ltb_spec (i + 2 + t) k); [|lia]. apply ins_old. lia. }
  rewrite (rsum_ext (get z'.(freq)) (get (freq z)) (k + 1) k).
  2:{ intros t Ht. rewrite ins_freq by lia.
      destruct (Z.ltb_spec (k + 1 + t) k), (Z.eqb_spec (k + 1 + t) k),
        (Z.leb_spec (k + 1 + t) j); try lia.
      replace (k + 1 + t - 1) with (k + t) by lia. apply ins_old. lia. }
  rewrite ins_freq by lia. rewrite Z.ltb_irrefl, Z.eqb_refl. lia.
Qed.

Lemma join_insert : joined total (j + 1) (i + 2, z').
Proof using Hj Ef Hjo Hk Ev Hle Hgt.
  pose proof ins_i as (I1 & I2 & I3). pose proof ins_lenf. pose proof (jo_lens _ _ _ Hjo).
  split; cbn [fst snd]; auto using ins_sorted, ins_node, ins_inj, ins_sum.
  - lia.
  - cbn. rewrite zlen_shift_in; clia.
  - cbn in *. rewrite zlen_shift_in; clia.
  - intros x Hx. pose proof (jo_pos _ _ _ Hjo) as Hp. cbn [fst snd] in Hp.
    pose proof (Hp i). pose proof (Hp (i + 1)). rewrite ins_freq by lia.
    destruct (Z.ltb_spec x k), (Z.eqb_spec x k), (Z.leb_spec x j); try lia;
      rewrite ins_old by lia; apply Hp; lia.
  - intros x Hx. rewrite ins_son by lia.
    destruct (Z.ltb_spec x k), (Z.eqb_spec x k), (Z.leb_spec x j); try lia;
      try (apply (jo_code _ _ _ Hjo); lia).
    right. split; [clia|]. rewrite I3, Z.mul_comm. by apply Z.mod_mul.
  - rewrite ins_freq by clia.
    destruct (Z.ltb_spec _T k), (Z.eqb_spec _T k), (Z.leb_spec _T j); try clia.
    rewrite Ef, get_set_ne by clia. apply (jo_sentinel _ _ _ Hjo).
Qed.
End insert.

Lemma join_step j iz : _NumChar <= j < _T -> joined total j iz ->
  exists iz', reconst_join j iz = Ok iz' /\ joined total (j + 1) iz' /\ iz'.2.(prnt) = iz.2.(prnt).
Proof using Htot.
  destruct iz as [i z]. intros Hj Hjo. destruct (join_weight j i z Hj Hjo) as (W0 & W1 & W2).
  pose proof (jo_lenf _ _ _ Hjo) as Hlf. pose proof (jo_pos _ _ _ Hjo) as Hpos.
  pose proof (jo_sorted _ _ _ Hjo) as Hsort. cbn [fst snd] in *.
  pose proof (Hpos i ltac:(lia)). pose proof (Hpos (i + 1) ltac:(lia)).
  unfold reconst_join. rewrite idx_bind by clia. rewrite idx_bind by clia.
  rewrite u64_small by clia. rewrite upd_bind by clia. rewrite idx_bind by zl.
  rewrite get_set_eq by clia.
  destruct (place_search (set z.(freq) j (get z.(freq) i + get z.(freq) (i + 1)))
    (get z.(freq) i + get z.(freq) (i + 1)) i j) as (k & -> & K1 & K2 & K3);
    rewrite ?zlen_set, ?get_set_eq by clia; try done; try lia.
  { intros x Hx. rewrite get_set_ne by clia. pose proof (Hsort x (i + 1)). lia. }
  rewrite bind_Ok. eexists. split; [done|]. split; [|done]. by eapply join_insert.
Qed.
End join.

(** ** Connecting the parents *)
Section connect.
Context (z1 : huff) (total : Z) (Hjo : joined total _T (_R, z1)).
Context (Hlp : zlen z1.(prnt) = _T + _NumChar) (Hroot : get z1.(prnt) _R = 0).

Record connected (i : Z) (z : huff) : Prop := {
  cn_same : z.(freq) = z1.(freq) /\ z.(son) = z1.(son);
  cn_len : zlen z.(prnt) = _T + _NumChar;
  cn_root : get z.(prnt) _R = 0;
  cn_done x : 0 <= x < i -> get z.(prnt) (get z1.(son) x) = x /\
    (get z1.(son) x < _T -> get z.(prnt) (get z1.(son) x + 1) = x) }.

Lemma connect_step i z : 0 <= i < _T -> connected i z ->
  exists z', reconst_connect i z = Ok z' /\ connected (i + 1) z'.
Proof using Hjo.
  intros Hi [[Ef Es] Hl Hr Hd]. pose proof (jo_lens _ _ _ Hjo) as Hls.
  pose proof (jo_code _ _ _ Hjo) as Hcode. pose proof (jo_node _ _ _ Hjo) as Hnode.
  pose proof (jo_inj _ _ _ Hjo) as Hinj. cbn [fst snd] in *.
  pose proof (Hcode i Hi) as Ci.
  assert (E : reconst_connect i z = Ok (mkHuff z.(freq) (link z.(prnt) (get z1.(son) i) i) z.(son))).
  { unfold reconst_connect. rewrite Es, idx_bind by lia. unfold link.
    destruct (Z.leb_spec _T (get z1.(son) i)), (Z.ltb_spec (get z1.(son) i) _T); try lia.
    - rewrite upd_bind by clia. done.
    - rewrite upd_bind by clia. rewrite upd_bind by zl. unfold mret, res_ret, set.
      by rewrite list_insert_insert_ne by clia. }
  rewrite E. eexists. split; [done|].
  assert (G : forall x, 0 <= x -> get (link z.(prnt) (get z1.(son) i) i) x
    = if under (get z1.(son) i) x then i else get z.(prnt) x).
  { intros x Hx. by apply get_link; [lia|clia|]. }
  split; cbn [freq prnt son]; [done|by rewrite zlen_link| |].
  - rewrite G by clia. unfold under. pose proof (Hnode i Hi).
    destruct (Z.eqb_spec _R (get z1.(son) i)), (Z.ltb_spec (get z1.(son) i) _T),
      (Z.eqb_spec _R (get z1.(son) i + 1)); cbn; try done; clia.
  - intros x Hx. pose proof (Hcode x ltac:(lia)) as Cx.
    rewrite G, under_code by (done || clia). split.
    + destruct (Z.eqb_spec (get z1.(son) x) (get z1.(son) i)) as [E'|].
      * by apply Hinj in E'; lia.
      * apply Hd. assert (x <> i) by congruence. lia.
    + intros Hlt. rewrite G, under_code1 by (done || clia).
      destruct (Z.eqb_spec (get z1.(son) x) (get z1.(son) i)) as [E'|].
      * by apply Hinj in E'; lia.
      * apply Hd; [|done]. assert (x <> i) by congruence. lia.
Qed.

Lemma connected_ok z : connected _T z -> 2 * total <= _MaxFreq + _NumChar ->
  huff_ok z /\ get z.(freq) _R = total.
Proof using Hjo.
  intros [[Ef Es] Hl Hr Hd] Htot. destruct z as [f p s]. cbn [freq prnt son] in *. subst f s.
  destruct Hjo as [_ Hlf Hls Hsort Hpos Hcode Hnode Hinj Hsum Hsent]. cbn [fst snd] in *.
  assert (Et : get z1.(freq) _R = total).
  { rewrite <- Hsum. replace (Z.to_nat (_T - _R)) with 1%nat by clia. cbn. lia. }
  split; [|done]. split.
  - split; cbn [freq prnt son]; try done.
    + intros i Hi. by apply Hd.
    + intros i Hi. by apply Hd.
    + intros k Hk. apply elem_codes in Hk. rewrite <- (sons_perm z1.(son) Hls Hcode Hinj) in Hk.
      apply elem_get in Hk as (i & Hi & <-). rewrite Hls in Hi.
      destruct (Hd i Hi) as [-> _]. done.
    + intros i Hi Hlt. by apply (Hnode i Hi).
  - split; cbn [freq son]; try done.
    intros i Hi Hlt. destruct (Hnode i Hi Hlt) as (_ & _ & E).
    destruct (Z.eqb_spec i (-1)); lia.
  - cbn [freq]. clia.
Qed.
End connect.

Lemma reconst_ok z : huff_ok z ->
  exists z', reconst z = Ok z' /\ huff_ok z' /\ 2 * get z'.(freq) _R <= _MaxFreq + _NumChar.
Proof.
  intros [Hs Hf Hb]. unfold reconst.
  destruct (for_range_inv (collected z) 0 _T reconst_collect (0, z)) as (jz & -> & Hc).
  { clia. }
  { intros. by apply collect_step. }
  { split; cbn [fst snd]; try apply Hs; try done. by exists id; split; intros; lia. }
  rewrite bind_Ok. destruct (collected_joined z jz Hs Hf Hb Hc) as (total & Htot & Hj).
  destruct (for_range_inv (fun j iz => joined total j iz /\ iz.2.(prnt) = z.(prnt))
    _NumChar _T reconst_join (0, jz.2)) as (iz & -> & Hj2 & Hp).
  { clia. }
  { intros j iz Hj' [H1 H2]. destruct (join_step total Htot j iz Hj' H1) as (iz' & -> & ? & E).
    exists iz'. by rewrite E. }
  { split; [done|]. apply (co_prnt _ _ _ Hc). }
  rewrite bind_Ok. assert (Hi : iz = (_R, iz.2)).
  { destruct iz as [i z1]. pose proof (jo_i _ _ _ Hj2) as E. cbn in *. f_equal. clia. }
  rewrite Hi in Hj2.
  destruct (for_range_inv (connected iz.2) 0 _T reconst_connect iz.2) as (z3 & -> & Hc3).
  { clia. }
  { intros. by eapply connect_step. }
  { split; [done| | |intros; lia]; rewrite Hp; apply Hs. }
  destruct (connected_ok _ _ Hj2 z3 Hc3 Htot) as [H1 H2].
  exists z3. rewrite H2. auto.
Qed.

(** ** The initial tree *)
Definition huff0 : huff := Eval vm_compute in
  match newHuff with Ok z => z | _ => mkHuff [] [] [] end.

Lemma newHuff_run : newHuff = Ok huff0.
Proof. vm_compute. reflexivity. Qed.

Definition rangeb (n : Z) (P : Z -> bool) : bool := forallb P (seqZ 0 n).

Lemma rangeb_spec n P i : rangeb n P = true -> 0 <= i < n -> P i = true.
Proof.
  unfold rangeb. intros H Hi. rewrite forallb_forall in H. apply H.
  apply list_elem_of_In, elem_of_seqZ. lia.
Qed.

Definition is_codeb (k : Z) : bool :=
  ((_T <=? k) && (k <? _T + _NumChar)) || ((0 <=? k) && (k <? _R) && (k mod 2 =? 0)).

Lemma is_codeb_spec k : is_codeb k = true <-> is_code k.
Proof. unfold is_codeb, is_code. rewrite orb_true_iff, !andb_true_iff. lia. Qed.

(** Decision procedure for the parts of the invariant that quantify over nodes. *)
Definition nodesb (z : huff) (i : Z) : bool :=
  let s := get z.(son) i in
  is_codeb s && (get z.(prnt) s =? i) && (1 <=? get z.(freq) i)
  && ((i =? 0) || (get z.(freq) (i - 1) <=? get z.(freq) i))
  && ((_T <=? s) || ((get z.(prnt) (s + 1) =? i) && (s + 1 <? i)
     && (get z.(freq) i =? get z.(freq) s + get z.(freq) (s + 1)))).

Lemma nodesb_spec z i : nodesb z i = true ->
  is_code (get z.(son) i) /\ get z.(prnt) (get z.(son) i) = i /\ 1 <= get z.(freq) i /\
  (i <> 0 -> get z.(freq) (i - 1) <= get z.(freq) i) /\
  (get z.(son) i < _T -> get z.(prnt) (get z.(son) i + 1) = i /\ get z.(son) i + 1 < i /\
    get z.(freq) i = get z.(freq) (get z.(son) i) + get z.(freq) (get z.(son) i + 1)).
Proof.
  unfold nodesb. rewrite !andb_true_iff, !orb_true_iff, !andb_true_iff.
  intros ((((H1 & H2) & H3) & H4) & H5). apply is_codeb_spec in H1.
  split; [done|]. split; [lia|]. split; [lia|]. split; lia.
Qed.

Lemma huff0_nodes i : 0 <= i < _T -> nodesb huff0 i = true.
Proof. apply rangeb_spec. vm_compute. reflexivity. Qed.

Lemma huff0_sorted i n : 0 <= i -> i + Z.of_nat n < _T ->
  get huff0.(freq) i <= get huff0.(freq) (i + Z.of_nat n).
Proof.
  intros Hi. induction n as [|n IH]; intros Hn; [rewrite Z.add_0_r; lia|].
  pose proof (nodesb_spec _ _ (huff0_nodes (i + Z.of_nat (S n)) ltac:(lia))) as (_&_&_&H&_).
  replace (i + Z.of_nat (S n) - 1) with (i + Z.of_nat n) in H by lia. lia.
Qed.

Lemma huff0_ok : huff_ok huff0 /\ get huff0.(freq) _R = _NumChar.
Proof.
  assert (N := fun i Hi => nodesb_spec huff0 i (huff0_nodes i Hi)).
  assert (Hlen : zlen (son huff0) = _T) by reflexivity.
  split; [split|reflexivity].
  - split; try reflexivity; try (intros i Hi; by apply (N i Hi)).
    intros k Hk. apply elem_codes in Hk. rewrite <- (sons_perm (son huff0)) in Hk.
    + apply elem_get in Hk as (i & Hi & <-). rewrite Hlen in Hi.
        destruct (N i Hi) as (_ & -> & _). done.
    + done.
    + intros i Hi. by apply (N i Hi).
    + intros x y Hx Hy E. destruct (N x Hx) as (_ & <- & _), (N y Hy) as (_ & <- & _).
        by rewrite E.
  - split; try reflexivity.
    + intros i j Hi Hj. replace j with (i + Z.of_nat (Z.to_nat (j - i))) by lia.
      apply huff0_sorted; lia.
    + intros i Hi. by apply (N i Hi).
    + intros i Hi Hlt. destruct (N i Hi) as (_&_&_&_&H). destruct (Z.eqb_spec i (-1)); lia.
  - vm_compute. discriminate.
Qed.

(** ** The operations keep the invariant *)

(** [update] returns, without an index error, a well-formed tree. *)
Lemma update_ok z c : huff_ok z -> 0 <= c < _NumChar ->
  exists z', update z c = Ok z' /\ huff_ok z' /\
    (get z.(freq) _R < _MaxFreq -> get z'.(freq) _R = get z.(freq) _R + 1).
Proof.
  intros Hz Hc. pose proof (sh_freq z (ok_shape z Hz)). pose proof (ok_bound z Hz).
  unfold update. rewrite idx_bind by clia. destruct (Z.eqb_spec (get z.(freq) _R) _MaxFreq).
  - destruct (reconst_ok z Hz) as (z1 & -> & Hz1 & Hlt). rewrite bind_Ok.
    destruct (update_loop_ok z1 c Hz1 Hc) as (z2 & -> & Hz2 & _); [clia|].
    exists z2. split; [done|]. split; [done|clia].
  - rewrite bind_Ok. destruct (update_loop_ok z c Hz Hc) as (z2 & -> & Hz2 & E); [clia|].
    exists z2. auto.
Qed.
