(* ===== verification/BitIO.v ===== *)
(** Bit-level input and output of the compressor: [putCode] and [encodeEnd] of
    [src/lzhuf/writer.go] on one side, the [bitReader] of
    [src/lzhuf/bit_reader.go] over a buffered, checksummed source on the other.
    Both are related to the plain list of bits they stand for. *)
From S2P Require Import Prelude Crc.

(** ** Writing *)
Record bitw := mkBitw { bbuf : list Z; putbuf : Z; putlen : Z }.

(** [c << uint(n)] on uint: a negative count becomes a huge one. *)
Definition shl64 (c n : Z) : Z := if n <? 0 then 0 else u64 (Z.shiftl c n).

(** [putCode]: output the [l] high bits of the 16-bit code [c]. *)
Definition putCode (w : bitw) (l c : Z) : bitw :=
  let pb := Z.lor w.(putbuf) (Z.shiftr c w.(putlen)) in
  let pl := u8 (w.(putlen) + u8 l) in
  if pl <? 8 then mkBitw w.(bbuf) pb pl
  else
    let buf := w.(bbuf) ++ [u8 (Z.shiftr pb 8)] in
    let pl := u8 (pl - 8) in
    if 8 <=? pl then
      let buf := buf ++ [u8 pb] in
      let pl := u8 (pl - 8) in
      mkBitw buf (shl64 c (l - pl)) pl
    else mkBitw buf (shl64 pb 8) pl.

(** [encodeEnd]: flush the last, partial byte. *)
Definition encodeEnd (w : bitw) : bitw :=
  if w.(putlen) =? 0 then w
  else mkBitw (w.(bbuf) ++ [u8 (Z.shiftr w.(putbuf) 8)]) w.(putbuf) w.(putlen).

(** ** Reading *)
Inductive rerror := EOF | UnexpectedEOF.

(** The source of the bit reader: [rsrc] has not been fetched from the
    underlying reader, [rbuf] is in the buffer of the bufio.Reader, [rcrc] is
    the sum of the crcWriter the TeeReader copies every fetched byte to. *)
Record bitr := mkBitr {
  rsrc : list Z; rbuf : list Z; rcrc : Z; rn : Z; rbits : Z; rerr : option rerror }.

Definition bufio_size : nat := Z.to_nat 4096.

(** [bufio.Reader.ReadByte] over the TeeReader. *)
Definition ReadByte (r : bitr) : (option Z) * bitr :=
  let r := match r.(rbuf) with
           | [] => let p := take bufio_size r.(rsrc) in
                   mkBitr (drop bufio_size r.(rsrc)) p (crcw_write r.(rcrc) p)
                     r.(rn) r.(rbits) r.(rerr)
           | _ => r
           end in
  match r.(rbuf) with
  | [] => (None, r)
  | b :: bs => (Some b, mkBitr r.(rsrc) bs r.(rcrc) r.(rn) r.(rbits) r.(rerr))
  end.

(** The loop of [ReadBits64]: fetch bytes until the register holds enough bits,
    then take them from its top.  io.EOF of the source becomes
    io.ErrUnexpectedEOF. *)
Definition ReadBits64_body (bits : Z) (r : bitr) : res (bitr + Z * bitr) :=
  if r.(rbits) <? bits then
    match ReadByte r with
    | (None, r) => mret (inr (0, mkBitr r.(rsrc) r.(rbuf) r.(rcrc) r.(rn) r.(rbits) (Some UnexpectedEOF)))
    | (Some b, r) =>
        mret (inl (mkBitr r.(rsrc) r.(rbuf) r.(rcrc)
          (Z.lor (u64 (Z.shiftl r.(rn) 8)) b) (r.(rbits) + 8) r.(rerr)))
    end
  else
    mret (inr (Z.land (Z.shiftr r.(rn) (r.(rbits) - bits)) (Z.shiftl 1 bits - 1),
               mkBitr r.(rsrc) r.(rbuf) r.(rcrc) r.(rn) (r.(rbits) - bits) r.(rerr))).

Definition ReadBits64 (bits : Z) (r : bitr) : res (Z * bitr) :=
  loop (S (Z.to_nat bits)) (ReadBits64_body bits) r.

(** ** The bits written and the bits to be read *)
Definition bytebits (l : list Z) : list bool := l ≫= (fun b => bitsof b 7 8).

Definition wstream (w : bitw) : list bool :=
  bytebits w.(bbuf) ++ bitsof w.(putbuf) 15 (Z.to_nat w.(putlen)).

Definition rstream (r : bitr) : list bool :=
  bitsof r.(rn) (r.(rbits) - 1) (Z.to_nat r.(rbits)) ++ bytebits (r.(rbuf) ++ r.(rsrc)).

(** The value of a list of bits, most significant first. *)
Definition bits2Z (bs : list bool) : Z := foldl (fun a b => 2 * a + Z.b2z b) 0 bs.

Record wok (w : bitw) : Prop := {
  wk_len : 0 <= w.(putlen) < 8;
  wk_nonneg : 0 <= w.(putbuf);
  wk_low k : 0 <= k < 16 - w.(putlen) -> Z.testbit w.(putbuf) k = false }.

(** ** Lemmas *)
Lemma bitsof_ext x y hi hj n :
  (forall k, 0 <= k < Z.of_nat n -> Z.testbit x (hi - k) = Z.testbit y (hj - k)) ->
  bitsof x hi n = bitsof y hj n.
Proof.
  revert hi hj. induction n as [|n IH]; intros hi hj H; [done|]. cbn [bitsof]. f_equal.
  - specialize (H 0). rewrite !Z.sub_0_r in H. apply H. lia.
  - apply IH. intros k Hk. specialize (H (k + 1)).
    replace (hi - 1 - k) with (hi - (k + 1)) by lia.
    replace (hj - 1 - k) with (hj - (k + 1)) by lia. apply H. lia.
Qed.

Lemma bitsof_split x hi n m : bitsof x hi (n + m) = bitsof x hi n ++ bitsof x (hi - Z.of_nat n) m.
Proof.
  revert hi. induction n as [|n IH]; intros hi; cbn [bitsof Nat.add app]; [by rewrite Z.sub_0_r|].
  rewrite IH. by replace (hi - 1 - Z.of_nat n) with (hi - Z.of_nat (S n)) by lia.
Qed.

Lemma u8_testbit x k : 0 <= k < 8 -> Z.testbit (u8 x) k = Z.testbit x k.
Proof. intros Hk. unfold u8. by rewrite Z.mod_pow2_bits_low by lia. Qed.

Lemma u64_testbit x k : 0 <= k < 64 -> Z.testbit (u64 x) k = Z.testbit x k.
Proof. intros Hk. unfold u64. by rewrite Z.mod_pow2_bits_low by lia. Qed.

Lemma bytebits_app l k : bytebits (l ++ k) = bytebits l ++ bytebits k.
Proof. apply bind_app. Qed.

Lemma bytebits_one b : bytebits [b] = bitsof b 7 8.
Proof. apply app_nil_r. Qed.

Lemma length_bytebits l : length (bytebits l) = (8 * length l)%nat.
Proof.
  unfold bytebits. induction l as [|b l IH]; [done|].
  rewrite bind_cons, length_app, IH, length_bitsof. cbn [length]. lia.
Qed.

Lemma top_byte x : bytebits [u8 (Z.shiftr x 8)] = bitsof x 15 8.
Proof.
  rewrite bytebits_one. apply bitsof_ext. intros k Hk.
  rewrite u8_testbit, Z.shiftr_spec by lia. f_equal. lia.
Qed.

Lemma low_byte x : bytebits [u8 x] = bitsof x 7 8.
Proof. rewrite bytebits_one. apply bitsof_ext. intros k Hk. by rewrite u8_testbit by lia. Qed.

Lemma shl64_testbit c n k : 0 <= n -> 0 <= k < 64 -> Z.testbit (shl64 c n) k = Z.testbit c (k - n).
Proof.
  intros Hn Hk. unfold shl64. destruct (Z.ltb_spec n 0); [lia|].
  rewrite u64_testbit by lia. apply Z.shiftl_spec. lia.
Qed.

Lemma shl64_nonneg c n : 0 <= shl64 c n.
Proof. unfold shl64, u64. destruct (n <? 0); [lia|]. apply Z.mod_pos_bound. lia. Qed.

Lemma testbit_high x n k : 0 <= x < 2 ^ n -> 0 <= n -> n <= k -> Z.testbit x k = false.
Proof. intros Hx Hn Hk. rewrite <- (Z.mod_small x (2 ^ n)) by lia. by apply Z.mod_pow2_bits_high. Qed.

(** A code: [l] significant bits at the top of a 16-bit word. *)
Record code16 (l c : Z) : Prop := {
  c16_len : 0 < l <= 16;
  c16_range : 0 <= c < 2 ^ 16;
  c16_low k : 0 <= k < 16 - l -> Z.testbit c k = false }.

Section put.
Context (w : bitw) (l c : Z) (Hw : wok w) (Hc : code16 l c).
Abbreviation pb := (Z.lor w.(putbuf) (Z.shiftr c w.(putlen))).

(** The merged word holds the pending bits followed by the code. *)
Lemma merged_bits n : (Z.to_nat w.(putlen) + n <= 16)%nat ->
  bitsof pb 15 (Z.to_nat w.(putlen) + n)
  = bitsof w.(putbuf) 15 (Z.to_nat w.(putlen)) ++ bitsof c 15 n.
Proof using Hw Hc.
  intros Hn. destruct Hw as [W1 W2 W3], Hc as [C1 C2 C3]. rewrite bitsof_split. f_equal.
  - apply bitsof_ext. intros k Hk. rewrite Z.lor_spec, Z.shiftr_spec by lia.
    rewrite (testbit_high c 16) by lia. apply orb_false_r.
  - apply bitsof_ext. intros k Hk. rewrite Z.lor_spec, Z.shiftr_spec by lia.
    rewrite W3 by lia. cbn. f_equal. lia.
Qed.

Lemma merged_low k : 0 <= k < 16 - (w.(putlen) + l) -> Z.testbit pb k = false.
Proof using Hw Hc.
  intros Hk. destruct Hw as [W1 W2 W3], Hc as [C1 C2 C3].
  rewrite Z.lor_spec, Z.shiftr_spec by lia. rewrite W3, C3 by lia. done.
Qed.

Lemma merged_nonneg : 0 <= pb.
Proof using Hw Hc.
  destruct Hw, Hc. apply Z.lor_nonneg. split; [done|]. apply Z.shiftr_nonneg. lia.
Qed.

(** [putCode] appends exactly the [l] bits of the code to the stream. *)
Lemma putCode_ok : wok (putCode w l c) /\
  wstream (putCode w l c) = wstream w ++ bitsof c 15 (Z.to_nat l).
Proof using Hw Hc.
  pose proof Hw as [W1 W2 W3]. pose proof Hc as [C1 C2 C3]. pose proof merged_nonneg as Hn.
  unfold putCode, wstream. rewrite (u8_small l), (u8_small (putlen w + l)) by lia.
  destruct (Z.ltb_spec (putlen w + l) 8) as [H8|H8].
  - cbn [bbuf putbuf putlen]. split.
    + split; cbn [putbuf putlen]; [lia|done|]. intros k Hk. apply merged_low. lia.
    + rewrite <- app_assoc. f_equal. rewrite <- merged_bits by lia. f_equal. lia.
  - rewrite (u8_small (putlen w + l - 8)) by lia.
    destruct (Z.leb_spec 8 (putlen w + l - 8)) as [H16|H16].
    + rewrite (u8_small (putlen w + l - 8 - 8)) by lia. cbn [bbuf putbuf putlen].
      split.
      * split; cbn [putbuf putlen]; [lia|apply shl64_nonneg|].
        intros k Hk. rewrite shl64_testbit by lia.
        destruct (Z.lt_ge_cases k (16 - putlen w)); [apply Z.testbit_neg_r; lia|apply C3; lia].
      * rewrite !bytebits_app, top_byte, low_byte, <- !app_assoc. f_equal.
        rewrite (app_assoc (bitsof pb 15 8)). change 7 with (15 - Z.of_nat 8). rewrite <- bitsof_split.
        replace (8 + 8)%nat with (Z.to_nat (putlen w) + (16 - Z.to_nat (putlen w)))%nat by lia.
        rewrite merged_bits, <- app_assoc by lia. f_equal.
        replace (Z.to_nat l) with (16 - Z.to_nat (putlen w) + Z.to_nat (putlen w + l - 8 - 8))%nat by lia.
        rewrite bitsof_split. f_equal. apply bitsof_ext. intros k Hk.
        rewrite shl64_testbit by lia. f_equal. lia.
    + cbn [bbuf putbuf putlen]. split.
      * split; cbn [putbuf putlen]; [lia|apply shl64_nonneg|].
        intros k Hk. rewrite shl64_testbit by lia.
        destruct (Z.lt_ge_cases k 8); [apply Z.testbit_neg_r; lia|]. apply merged_low. lia.
      * rewrite bytebits_app, top_byte, <- !app_assoc. f_equal.
        rewrite <- merged_bits by lia.
        replace (Z.to_nat (putlen w) + Z.to_nat l)%nat with (8 + Z.to_nat (putlen w + l - 8))%nat by lia.
        rewrite bitsof_split. f_equal. apply bitsof_ext. intros k Hk.
        rewrite shl64_testbit by lia. f_equal. lia.
Qed.
End put.

(** [encodeEnd] pads the stream to a whole number of bytes. *)
Lemma encodeEnd_ok w : wok w ->
  exists pad, bytebits (encodeEnd w).(bbuf) = wstream w ++ pad /\ (length pad < 8)%nat.
Proof.
  intros [W1 W2 W3]. unfold encodeEnd, wstream. destruct (Z.eqb_spec (putlen w) 0) as [E|E].
  - exists []. rewrite E. cbn. rewrite !app_nil_r. split; [done|lia].
  - exists (bitsof (putbuf w) (15 - putlen w) (8 - Z.to_nat (putlen w))).
    cbn [bbuf]. rewrite length_bitsof. split; [|lia].
    rewrite bytebits_app, top_byte, <- app_assoc. f_equal.
    replace 8%nat with (Z.to_nat (putlen w) + (8 - Z.to_nat (putlen w)))%nat at 1 by lia.
    rewrite bitsof_split. do 2 f_equal. lia.
Qed.

(** ** The reader *)
Lemma bits2Z_snoc bs b : bits2Z (bs ++ [b]) = 2 * bits2Z bs + Z.b2z b.
Proof. unfold bits2Z. by rewrite foldl_app. Qed.

Lemma bits2Z_bitsof x h n : 0 <= h + 1 - Z.of_nat n ->
  bits2Z (bitsof x h n) = Z.shiftr x (h + 1 - Z.of_nat n) mod 2 ^ Z.of_nat n.
Proof.
  induction n as [|n IH]; intros Hh; [by rewrite Z.mod_1_r|].
  replace (S n) with (n + 1)%nat at 1 by lia. rewrite bitsof_split. cbn [bitsof].
  rewrite bits2Z_snoc, IH by lia.
  replace (h + 1 - Z.of_nat (S n)) with (h - Z.of_nat n) by lia.
  replace (h + 1 - Z.of_nat n) with (h - Z.of_nat n + 1) by lia.
  rewrite <- Z.shiftr_shiftr by lia. set (y := Z.shiftr x (h - Z.of_nat n)).
  assert (Z.testbit x (h - Z.of_nat n) = Z.testbit y 0) as ->.
  { unfold y. rewrite Z.shiftr_spec by lia. f_equal. }
  rewrite Z.bit0_mod, Z.shiftr_div_pow2 by lia. change (2 ^ 1) with 2.
  replace (Z.of_nat (S n)) with (1 + Z.of_nat n) by lia. rewrite Z.pow_add_r by lia.
  rewrite Z.rem_mul_r by lia. change (2 ^ 1) with 2. lia.
Qed.

(** The reader state: fewer than 64 bits in the register, no error, and a
    checksum over the part of the payload fetched so far. *)
Record rok (payload : list Z) (r : bitr) : Prop := {
  ro_bits : 0 <= r.(rbits) < 8;
  ro_err : r.(rerr) = None;
  ro_bytes : bytes (r.(rbuf) ++ r.(rsrc));
  ro_crc : exists fetched, fetched ++ r.(rsrc) = payload /\ r.(rcrc) = crcw_write 0 fetched }.

Lemma bufio_take (b : Z) l : take bufio_size (b :: l) = b :: take (pred bufio_size) l.
Proof. reflexivity. Qed.

Lemma bufio_drop (b : Z) l : drop bufio_size (b :: l) = drop (pred bufio_size) l.
Proof. reflexivity. Qed.

Lemma ReadByte_ok P r b rest :
  bytes (r.(rbuf) ++ r.(rsrc)) -> r.(rbuf) ++ r.(rsrc) = b :: rest ->
  (exists fetched, fetched ++ r.(rsrc) = P /\ r.(rcrc) = crcw_write 0 fetched) ->
  exists r', ReadByte r = (Some b, r') /\ r'.(rbuf) ++ r'.(rsrc) = rest /\ byte b /\ bytes rest /\
    r'.(rn) = r.(rn) /\ r'.(rbits) = r.(rbits) /\ r'.(rerr) = r.(rerr) /\
    (exists fetched, fetched ++ r'.(rsrc) = P /\ r'.(rcrc) = crcw_write 0 fetched).
Proof.
  intros Hb E (fe & Ef & Ec). rewrite E in Hb. apply Forall_cons_1 in Hb as [Hb Hr].
  destruct r as [src buf c n bits err]. cbn [rsrc rbuf rcrc rn rbits rerr] in *.
  unfold ReadByte. cbn [rsrc rbuf rcrc rn rbits rerr].
  destruct buf as [|b' buf]; cbn [rsrc rbuf rcrc rn rbits rerr app] in *.
  - rewrite E. rewrite bufio_take, bufio_drop. eexists. split; [done|].
    cbn [rsrc rbuf rcrc rn rbits rerr]. rewrite take_drop. do 6 (split; [done|]).
    exists (fe ++ b :: take (pred bufio_size) rest). subst.
    split; [|apply eq_sym, crcw_write_app].
    rewrite <- app_assoc. cbn [app]. by rewrite take_drop.
  - injection E as <- E. eexists. split; [done|]. cbn. do 6 (split; [done|]). by exists fe.
Qed.

Lemma rstream_length r : 0 <= r.(rbits) ->
  Z.of_nat (length (rstream r)) = r.(rbits) + 8 * zlen (r.(rbuf) ++ r.(rsrc)).
Proof.
  intros H. unfold rstream, zlen. rewrite length_app, length_bitsof, length_bytebits. lia.
Qed.

(** Appending a byte to the bit register. *)
Lemma push_byte n k b : 0 <= k -> k + 8 <= 64 -> byte b ->
  bitsof (Z.lor (u64 (Z.shiftl n 8)) b) (k + 8 - 1) (Z.to_nat (k + 8))
  = bitsof n (k - 1) (Z.to_nat k) ++ bitsof b 7 8.
Proof.
  intros Hk Hk2 Hb. replace (Z.to_nat (k + 8)) with (Z.to_nat k + 8)%nat by lia.
  rewrite bitsof_split. f_equal; apply bitsof_ext; intros t Ht; rewrite Z.lor_spec.
  - rewrite u64_testbit, Z.shiftl_spec, (testbit_high b 8) by (unfold byte in Hb; lia).
    rewrite orb_false_r. f_equal. lia.
  - rewrite u64_testbit, Z.shiftl_spec, Z.testbit_neg_r by lia. cbn. f_equal. lia.
Qed.

(** The register while [ReadBits64 k] fetches: the stream is untouched. *)
Record filling (P : list Z) (k : Z) (stream : list bool) (r : bitr) : Prop := {
  fl_bits : 0 <= r.(rbits) /\ (r.(rbits) < 8 \/ r.(rbits) - 8 < k);
  fl_err : r.(rerr) = None;
  fl_bytes : bytes (r.(rbuf) ++ r.(rsrc));
  fl_crc : exists fetched, fetched ++ r.(rsrc) = P /\ r.(rcrc) = crcw_write 0 fetched;
  fl_stream : rstream r = stream }.

Lemma fill_step P r k bs rest :
  0 < k <= 56 -> length bs = Z.to_nat k -> filling P k (bs ++ rest) r -> r.(rbits) < k ->
  exists r', ReadBits64_body k r = Ok (inl r') /\ filling P k (bs ++ rest) r' /\
    r'.(rbits) = r.(rbits) + 8.
Proof.
  intros Hk Hl [I1 I3 I4 I5 I6] Hlt. unfold ReadBits64_body.
  destruct (Z.ltb_spec (rbits r) k); [|lia].
  destruct (r.(rbuf) ++ r.(rsrc)) as [|b tl] eqn:E.
  { exfalso. pose proof (rstream_length r ltac:(lia)) as Hlen. rewrite I6, length_app, E in Hlen.
    unfold zlen in Hlen. cbn in Hlen. lia. }
  rewrite <- E in I4. destruct (ReadByte_ok P r b tl I4 E I5)
    as (r' & -> & E1 & Hb & Ht & E2 & E3 & E4 & E5).
  eexists. split; [done|]. cbn [rbits]. rewrite E3. split; [|done].
  split; cbn [rsrc rbuf rcrc rn rbits rerr]; rewrite ?E1, ?E2, ?E3, ?E4; auto; [lia|].
  rewrite <- I6. unfold rstream. cbn [rsrc rbuf rcrc rn rbits rerr].
  rewrite push_byte by (done || lia). rewrite E, E1, <- app_assoc. f_equal.
Qed.

Lemma take_step P r k bs rest :
  0 < k <= 56 -> length bs = Z.to_nat k -> filling P k (bs ++ rest) r -> k <= r.(rbits) ->
  exists r', ReadBits64_body k r = Ok (inr (bits2Z bs, r')) /\ rok P r' /\ rstream r' = rest.
Proof.
  intros Hk Hl [I1 I3 I4 I5 I6] Hge. unfold ReadBits64_body.
  destruct (Z.ltb_spec (rbits r) k); [lia|]. unfold rstream in *.
  replace (Z.to_nat (rbits r)) with (Z.to_nat k + Z.to_nat (rbits r - k))%nat in I6 by lia.
  rewrite bitsof_split, <- app_assoc in I6. apply app_inj_1 in I6 as [Eb Er];
    [|by rewrite length_bitsof].
  eexists. split; [|split].
  - rewrite <- Eb, bits2Z_bitsof by lia. rewrite Z2Nat.id by lia.
    replace (rbits r - 1 + 1 - k) with (rbits r - k) by lia.
    rewrite Z.shiftl_1_l, Z.sub_1_r, <- Z.ones_equiv, Z.land_ones by lia. done.
  - split; cbn [rsrc rbuf rcrc rn rbits rerr]; auto; lia.
  - cbn [rsrc rbuf rcrc rn rbits rerr]. rewrite <- Er. do 2 f_equal. lia.
Qed.

(** [ReadBits64] takes the next [bits] bits of the stream. *)
Lemma ReadBits64_ok P r k bs rest :
  rok P r -> 0 < k <= 56 -> rstream r = bs ++ rest -> length bs = Z.to_nat k ->
  exists r', ReadBits64 k r = Ok (bits2Z bs, r') /\ rok P r' /\ rstream r' = rest.
Proof.
  intros [R1 R2 R3 R4] Hk Hs Hl. unfold ReadBits64.
  destruct (loop_inv (filling P k (bs ++ rest)) (fun r => Z.to_nat (k - r.(rbits)))
    (fun '(v, r') => v = bits2Z bs /\ rok P r' /\ rstream r' = rest)
    (S (Z.to_nat k)) (ReadBits64_body k) r) as ([v r'] & -> & -> & H1 & H2).
  - clear r R1 R2 R3 R4 Hs. intros r Hf. destruct (Z.lt_ge_cases (rbits r) k) as [Hlt|Hge].
    + destruct (fill_step P r k bs rest Hk Hl Hf Hlt) as (r' & -> & H1 & H2).
      eexists. split; [done|]. split; [done|lia].
    + destruct (take_step P r k bs rest Hk Hl Hf Hge) as (r' & -> & H1 & H2).
      eexists. split; [done|]. done.
  - split; auto; lia.
  - lia.
  - exists r'. auto.
Qed.
