(* ===== verification/HuffCode.v ===== *)
(** Coding of characters and match positions: [encodeChar] and
    [encodePosition] of [src/lzhuf/writer.go], [decodeChar] and
    [decodePosition] of [src/lzhuf/reader.go], with the position tables of
    [src/lzhuf/lzhuf.go]. *)
From S2P Require Import Prelude Crc BitIO Huffman Reconst.

(** ** Position tables *)
Definition pCode : list Z :=
[ 0x00; 0x20; 0x30; 0x40; 0x50; 0x58; 0x60; 0x68;
  0x70; 0x78; 0x80; 0x88; 0x90; 0x94; 0x98; 0x9C;
  0xA0; 0xA4; 0xA8; 0xAC; 0xB0; 0xB4; 0xB8; 0xBC;
  0xC0; 0xC2; 0xC4; 0xC6; 0xC8; 0xCA; 0xCC; 0xCE;
  0xD0; 0xD2; 0xD4; 0xD6; 0xD8; 0xDA; 0xDC; 0xDE;
  0xE0; 0xE2; 0xE4; 0xE6; 0xE8; 0xEA; 0xEC; 0xEE;
  0xF0; 0xF1; 0xF2; 0xF3; 0xF4; 0xF5; 0xF6; 0xF7;
  0xF8; 0xF9; 0xFA; 0xFB; 0xFC; 0xFD; 0xFE; 0xFF ].
Definition pLen : list Z :=
[ 0x03; 0x04; 0x04; 0x04; 0x05; 0x05; 0x05; 0x05;
  0x05; 0x05; 0x05; 0x05; 0x06; 0x06; 0x06; 0x06;
  0x06; 0x06; 0x06; 0x06; 0x06; 0x06; 0x06; 0x06;
  0x07; 0x07; 0x07; 0x07; 0x07; 0x07; 0x07; 0x07;
  0x07; 0x07; 0x07; 0x07; 0x07; 0x07; 0x07; 0x07;
  0x07; 0x07; 0x07; 0x07; 0x07; 0x07; 0x07; 0x07;
  0x08; 0x08; 0x08; 0x08; 0x08; 0x08; 0x08; 0x08;
  0x08; 0x08; 0x08; 0x08; 0x08; 0x08; 0x08; 0x08 ].
Definition dCode : list Z :=
[ 0; 0; 0; 0; 0; 0; 0; 0;
  0; 0; 0; 0; 0; 0; 0; 0;
  0; 0; 0; 0; 0; 0; 0; 0;
  0; 0; 0; 0; 0; 0; 0; 0;
  0x01; 0x01; 0x01; 0x01; 0x01; 0x01; 0x01; 0x01;
  0x01; 0x01; 0x01; 0x01; 0x01; 0x01; 0x01; 0x01;
  0x02; 0x02; 0x02; 0x02; 0x02; 0x02; 0x02; 0x02;
  0x02; 0x02; 0x02; 0x02; 0x02; 0x02; 0x02; 0x02;
  0x03; 0x03; 0x03; 0x03; 0x03; 0x03; 0x03; 0x03;
  0x03; 0x03; 0x03; 0x03; 0x03; 0x03; 0x03; 0x03;
  0x04; 0x04; 0x04; 0x04; 0x04; 0x04; 0x04; 0x04;
  0x05; 0x05; 0x05; 0x05; 0x05; 0x05; 0x05; 0x05;
  0x06; 0x06; 0x06; 0x06; 0x06; 0x06; 0x06; 0x06;
  0x07; 0x07; 0x07; 0x07; 0x07; 0x07; 0x07; 0x07;
  0x08; 0x08; 0x08; 0x08; 0x08; 0x08; 0x08; 0x08;
  0x09; 0x09; 0x09; 0x09; 0x09; 0x09; 0x09; 0x09;
  0x0A; 0x0A; 0x0A; 0x0A; 0x0A; 0x0A; 0x0A; 0x0A;
  0x0B; 0x0B; 0x0B; 0x0B; 0x0B; 0x0B; 0x0B; 0x0B;
  0x0C; 0x0C; 0x0C; 0x0C; 0x0D; 0x0D; 0x0D; 0x0D;
  0x0E; 0x0E; 0x0E; 0x0E; 0x0F; 0x0F; 0x0F; 0x0F;
  0x10; 0x10; 0x10; 0x10; 0x11; 0x11; 0x11; 0x11;
  0x12; 0x12; 0x12; 0x12; 0x13; 0x13; 0x13; 0x13;
  0x14; 0x14; 0x14; 0x14; 0x15; 0x15; 0x15; 0x15;
  0x16; 0x16; 0x16; 0x16; 0x17; 0x17; 0x17; 0x17;
  0x18; 0x18; 0x19; 0x19; 0x1A; 0x1A; 0x1B; 0x1B;
  0x1C; 0x1C; 0x1D; 0x1D; 0x1E; 0x1E; 0x1F; 0x1F;
  0x20; 0x20; 0x21; 0x21; 0x22; 0x22; 0x23; 0x23;
  0x24; 0x24; 0x25; 0x25; 0x26; 0x26; 0x27; 0x27;
  0x28; 0x28; 0x29; 0x29; 0x2A; 0x2A; 0x2B; 0x2B;
  0x2C; 0x2C; 0x2D; 0x2D; 0x2E; 0x2E; 0x2F; 0x2F;
  0x30; 0x31; 0x32; 0x33; 0x34; 0x35; 0x36; 0x37;
  0x38; 0x39; 0x3A; 0x3B; 0x3C; 0x3D; 0x3E; 0x3F ].
Definition dLen : list Z :=
[ 0x03; 0x03; 0x03; 0x03; 0x03; 0x03; 0x03; 0x03;
  0x03; 0x03; 0x03; 0x03; 0x03; 0x03; 0x03; 0x03;
  0x03; 0x03; 0x03; 0x03; 0x03; 0x03; 0x03; 0x03;
  0x03; 0x03; 0x03; 0x03; 0x03; 0x03; 0x03; 0x03;
  0x04; 0x04; 0x04; 0x04; 0x04; 0x04; 0x04; 0x04;
  0x04; 0x04; 0x04; 0x04; 0x04; 0x04; 0x04; 0x04;
  0x04; 0x04; 0x04; 0x04; 0x04; 0x04; 0x04; 0x04;
  0x04; 0x04; 0x04; 0x04; 0x04; 0x04; 0x04; 0x04;
  0x04; 0x04; 0x04; 0x04; 0x04; 0x04; 0x04; 0x04;
  0x04; 0x04; 0x04; 0x04; 0x04; 0x04; 0x04; 0x04;
  0x05; 0x05; 0x05; 0x05; 0x05; 0x05; 0x05; 0x05;
  0x05; 0x05; 0x05; 0x05; 0x05; 0x05; 0x05; 0x05;
  0x05; 0x05; 0x05; 0x05; 0x05; 0x05; 0x05; 0x05;
  0x05; 0x05; 0x05; 0x05; 0x05; 0x05; 0x05; 0x05;
  0x05; 0x05; 0x05; 0x05; 0x05; 0x05; 0x05; 0x05;
  0x05; 0x05; 0x05; 0x05; 0x05; 0x05; 0x05; 0x05;
  0x05; 0x05; 0x05; 0x05; 0x05; 0x05; 0x05; 0x05;
  0x05; 0x05; 0x05; 0x05; 0x05; 0x05; 0x05; 0x05;
  0x06; 0x06; 0x06; 0x06; 0x06; 0x06; 0x06; 0x06;
  0x06; 0x06; 0x06; 0x06; 0x06; 0x06; 0x06; 0x06;
  0x06; 0x06; 0x06; 0x06; 0x06; 0x06; 0x06; 0x06;
  0x06; 0x06; 0x06; 0x06; 0x06; 0x06; 0x06; 0x06;
  0x06; 0x06; 0x06; 0x06; 0x06; 0x06; 0x06; 0x06;
  0x06; 0x06; 0x06; 0x06; 0x06; 0x06; 0x06; 0x06;
  0x07; 0x07; 0x07; 0x07; 0x07; 0x07; 0x07; 0x07;
  0x07; 0x07; 0x07; 0x07; 0x07; 0x07; 0x07; 0x07;
  0x07; 0x07; 0x07; 0x07; 0x07; 0x07; 0x07; 0x07;
  0x07; 0x07; 0x07; 0x07; 0x07; 0x07; 0x07; 0x07;
  0x07; 0x07; 0x07; 0x07; 0x07; 0x07; 0x07; 0x07;
  0x07; 0x07; 0x07; 0x07; 0x07; 0x07; 0x07; 0x07;
  0x08; 0x08; 0x08; 0x08; 0x08; 0x08; 0x08; 0x08;
  0x08; 0x08; 0x08; 0x08; 0x08; 0x08; 0x08; 0x08 ].

(** ** Encoding *)

(** One step of the walk from the leaf to the root in [encodeChar]. *)
Definition climb (z : huff) (ijk : Z * Z * Z) : res ((Z * Z * Z) + (Z * Z)) :=
  let '(i, j, k) := ijk in
  let i := Z.shiftr i 1 in
  let j := j + 1 in
  let i := if Z.land k 1 =? 0 then i else u64 (i + 0x8000) in
  k ← idx z.(prnt) k;
  mret (if k =? _R then inr (j, i) else inl (i, j, k)).

Definition encodeChar (z : huff) (w : bitw) (c : Z) : res (huff * bitw) :=
  k ← idx z.(prnt) (c + _T);
  ji ← loop (Z.to_nat _T) (climb z) (0, 0, k);
  let w := putCode w (fst ji) (snd ji) in
  z ← update z c;
  mret (z, w).

Definition encodePosition (w : bitw) (c : Z) : res bitw :=
  let i := Z.shiftr c 6 in
  l ← idx pLen i;
  p ← idx pCode i;
  let w := putCode w l (u64 (Z.shiftl p 8)) in
  mret (putCode w 6 (u64 (Z.shiftl (Z.land c 0x3f) 10))).

(** ** Decoding *)
Definition getBit (r : bitr) : res (Z * bitr) := ReadBits64 1 r.
Definition getByte (r : bitr) : res (Z * bitr) := ReadBits64 8 r.

(** One step of the walk from the root to the leaf in [decodeChar]. *)
Definition descend (z : huff) (cr : Z * bitr) : res ((Z * bitr) + (Z * bitr)) :=
  let '(c, r) := cr in
  if c <? _T then
    br ← getBit r;
    c ← idx z.(son) (c + fst br);
    mret (inl (c, snd br))
  else mret (inr (c, r)).

Definition decodeChar (z : huff) (r : bitr) : res (Z * huff * bitr) :=
  c ← idx z.(son) _R;
  cr ← loop (S (Z.to_nat _T)) (descend z) (c, r);
  let c := fst cr - _T in
  z ← update z c;
  mret (c, z, snd cr).

(** [i = (i << 1) + uint(d.getBit())] *)
Definition low_bit (_ : Z) (ir : Z * bitr) : res (Z * bitr) :=
  br ← getBit (snd ir);
  mret (u64 (Z.shiftl (fst ir) 1 + fst br), snd br).

Definition decodePosition (r : bitr) : res (Z * bitr) :=
  ir ← getByte r;
  d ← idx dCode (fst ir);
  j ← idx dLen (fst ir);
  let c := Z.shiftl d 6 in
  ir ← for_range 0 (j - 2) low_bit ir;
  mret (Z.lor c (Z.land (fst ir) 0x3f), snd ir).

(** ** The code of a character: the parities of the nodes on its path *)
Inductive path (z : huff) : Z -> list bool -> Prop :=
| path_root : path z _R []
| path_up k bs : 0 <= k < _R -> path z (get z.(prnt) k) bs -> path z k (bs ++ [Z.odd k]).

Definition cbits (z : huff) (c : Z) (bs : list bool) : Prop := path z (get z.(prnt) (c + _T)) bs.

(** ** Lemmas *)
Lemma path_exists z k : shape z -> 0 <= k < _T -> exists bs, path z k bs.
Proof.
  intros Hs. remember (Z.to_nat (_T - k)) as n eqn:E. revert k E.
  induction n as [n IH] using lt_wf_ind. intros k -> Hk.
  destruct (Z.eq_dec k _R) as [->|]; [eexists; constructor|].
  pose proof (parent_spec Hs k ltac:(clia)) as (P & _).
  destruct (IH (Z.to_nat (_T - get z.(prnt) k)) ltac:(lia) (get z.(prnt) k)) as [bs Hb]; [done|lia|].
  exists (bs ++ [Z.odd k]). constructor; [clia|done].
Qed.

Lemma path_inv z k bs : path z k bs ->
  (k = _R /\ bs = []) \/
  (0 <= k < _R /\ exists bs', bs = bs' ++ [Z.odd k] /\ path z (get z.(prnt) k) bs').
Proof. intros []; [by left|right; eauto]. Qed.

Lemma land1_odd k : (Z.land k 1 =? 0) = negb (Z.odd k).
Proof.
  change 1 with (Z.ones 1). rewrite Z.land_ones by lia. change (2 ^ 1) with 2.
  rewrite Zmod_odd. by destruct (Z.odd k).
Qed.

(** Putting a bit on top of a 16-bit code. *)
Lemma push_top i j (b : bool) : 0 <= j -> j + 1 <= 16 -> 0 <= i < 2 ^ 16 ->
  (forall k, 0 <= k < 16 - j -> Z.testbit i k = false) ->
  let i' := if b then u64 (Z.shiftr i 1 + 0x8000) else Z.shiftr i 1 in
  code16 (j + 1) i' /\ bitsof i' 15 (S (Z.to_nat j)) = b :: bitsof i 15 (Z.to_nat j).
Proof.
  intros Hj Hj2 Hi Hlow i'. set (x := Z.shiftr i 1).
  assert (Hx : 0 <= x < 2 ^ 15).
  { unfold x. rewrite Z.shiftr_div_pow2 by lia. split; [apply Z.div_pos; lia|apply Z.div_lt_upper_bound; lia]. }
  assert (Hx1 : forall k, 0 <= k -> Z.testbit x k = Z.testbit i (k + 1)).
  { intros k Hk. unfold x. apply Z.shiftr_spec. lia. }
  assert (B : 0 <= i' < 2 ^ 16 /\ Z.testbit i' 15 = b /\ forall k, 0 <= k < 15 -> Z.testbit i' k = Z.testbit x k).
  { unfold i'. fold x. destruct b.
    - rewrite u64_small by lia. split; [lia|]. split.
      + apply Z.testbit_true; [lia|]. rewrite <- (Z.div_unique (x + 0x8000) (2 ^ 15) 1 x) by lia. done.
      + intros k Hk. rewrite <- (Z.mod_pow2_bits_low (x + 0x8000) 15) by lia.
        rewrite <- (Z.mod_unique (x + 0x8000) (2 ^ 15) 1 x) by lia. done.
    - split; [lia|]. split; [|done]. apply (testbit_high x 15); lia. }
  destruct B as (B1 & B2 & B3). split.
  - split; [lia|done|]. intros k Hk. rewrite B3, Hx1, Hlow by lia. done.
  - cbn [bitsof]. rewrite B2. f_equal. apply bitsof_ext. intros k Hk. rewrite B3, Hx1 by lia. f_equal. lia.
Qed.

(** The walk up the tree collects the code of the leaf. *)
Lemma climb_ok z k bs : shape z -> 0 <= k < _R -> path z k bs -> (length bs <= 16)%nat ->
  exists i, loop (Z.to_nat _T) (climb z) (0, 0, k) = Ok (Z.of_nat (length bs), i) /\
    code16 (Z.of_nat (length bs)) i /\ bitsof i 15 (length bs) = bs.
Proof.
  intros Hs Hk Hp Hlen.
  destruct (loop_inv
    (fun '(i, j, k) => 0 <= k < _R /\ 0 <= j /\ 0 <= i < 2 ^ 16 /\
       (forall t, 0 <= t < 16 - j -> Z.testbit i t = false) /\
       exists b1, path z k b1 /\ bs = b1 ++ bitsof i 15 (Z.to_nat j))
    (fun '(_, _, k) => Z.to_nat (_R - k))
    (fun '(j, i) => j = Z.of_nat (length bs) /\ code16 j i /\ bitsof i 15 (Z.to_nat j) = bs)
    (Z.to_nat _T) (climb z) (0, 0, k)) as ([j i] & E & -> & H1 & H2).
  - intros [[i j] k'] (I1 & I2 & I3 & I4 & b1 & I5 & I6).
    apply path_inv in I5 as [[-> _]|(_ & b2 & -> & I5)]; [clia|].
    pose proof (sh_prnt z Hs). unfold climb. rewrite idx_bind by clia. rewrite land1_odd.
    pose proof (parent_spec Hs k' I1) as (P & _).
    rewrite I6 in Hlen. rewrite !length_app, length_bitsof in Hlen. cbn [length] in Hlen.
    destruct (push_top i j (Z.odd k') I2 ltac:(lia) I3 I4) as [C1 C2]. cbv zeta in C1, C2.
    replace (if negb (Z.odd k') then _ else _) with
      (if Z.odd k' then u64 (Z.shiftr i 1 + 0x8000) else Z.shiftr i 1) by (by destruct (Z.odd k')).
    eexists. split; [done|].
    rewrite <- app_assoc in I6. cbn [app] in I6. rewrite <- C2 in I6.
    replace (S (Z.to_nat j)) with (Z.to_nat (j + 1)) in * by lia.
    destruct (Z.eqb_spec (get z.(prnt) k') _R) as [E|E].
    + rewrite E in I5. apply path_inv in I5 as [[_ ->]|[? _]]; [|lia]. cbn [app] in I6.
      split_and!; [|done|done]. rewrite I6, length_bitsof. lia.
    + split; [|lia]. destruct C1 as [C3 C4 C5]. split_and!; try done; try clia. by exists b2.
  - split_and!; try done; try lia; [intros; apply Z.testbit_0_l|]. exists bs. by rewrite app_nil_r.
  - clia.
  - exists i. rewrite Nat2Z.id in H2. auto.
Qed.

Lemma encodeChar_ok z w c bs :
  huff_ok z -> wok w -> 0 <= c < _NumChar -> cbits z c bs -> (length bs <= 16)%nat ->
  exists z' w', encodeChar z w c = Ok (z', w') /\ update z c = Ok z' /\ huff_ok z' /\ wok w' /\
    wstream w' = wstream w ++ bs.
Proof.
  intros Hz Hw Hc Hb Hl. pose proof (ok_shape z Hz) as Hs. pose proof (sh_prnt z Hs).
  destruct (leaf_spec Hs c Hc) as [L1 _].
  destruct (climb_ok z _ bs Hs L1 Hb Hl) as (i & E & C1 & C2).
  destruct (update_ok z c Hz Hc) as (z' & Eu & Hz' & _).
  destruct (putCode_ok w _ i Hw C1) as [P1 P2]. rewrite Nat2Z.id, C2 in P2.
  exists z', (putCode w (Z.of_nat (length bs)) i). split; [|done].
  unfold encodeChar. rewrite idx_bind by clia. rewrite E, bind_Ok. cbn [fst snd].
  by rewrite Eu.
Qed.

(** Following a path downwards. *)
Inductive down (z : huff) : Z -> list bool -> Z -> Prop :=
| down_nil k : down z k [] k
| down_cons v b bs k : 0 <= v < _T -> get z.(son) v < _T ->
    down z (get z.(son) v + Z.b2z b) bs k -> down z v (b :: bs) k.

Lemma down_snoc z v bs u b : down z v bs u -> 0 <= u < _T -> get z.(son) u < _T ->
  down z v (bs ++ [b]) (get z.(son) u + Z.b2z b).
Proof. induction 1; intros; cbn [app]; constructor; auto using down. Qed.

Lemma path_down z k bs : shape z -> path z k bs -> 0 <= k < _T -> down z _R bs k.
Proof.
  intros Hs. induction 1 as [|k bs Hk Hp IH]; intros _; [constructor|].
  pose proof (parent_spec Hs k Hk) as (P1 & P2 & P3).
  pose proof (sh_code z Hs (get z.(prnt) k) ltac:(lia)) as Hcode.
  replace k with (get z.(son) (get z.(prnt) k) + Z.b2z (Z.odd k)) at 2.
  { apply down_snoc; auto; [apply IH|]; lia. }
  destruct Hcode as [Hcode|[_ Hcode]]; [lia|]. rewrite Zmod_odd in Hcode.
  destruct (Z.odd (get z.(son) (get z.(prnt) k))) eqn:Eo; [done|].
  destruct P3 as [P3|P3].
  - rewrite P3 in *. rewrite Eo. cbn. lia.
  - rewrite <- P3 at 2. rewrite Z.odd_add, Eo. cbn. lia.
Qed.

Lemma b2z_bits2Z b : bits2Z [b] = Z.b2z b.
Proof. by destruct b. Qed.

(** The walk down the tree consumes exactly the code of the leaf. *)
Lemma descend_ok P z r k bs rest :
  shape z -> rok P r -> 0 <= k < _T -> _T <= get z.(son) k ->
  down z _R bs k -> rstream r = bs ++ rest ->
  exists r', loop (S (Z.to_nat _T)) (descend z) (get z.(son) _R, r) = Ok (get z.(son) k, r') /\
    rok P r' /\ rstream r' = rest.
Proof.
  intros Hs Hr Hk Hleaf Hd Hst.
  destruct (loop_inv
    (fun '(c, r) => exists v bs, 0 <= v < _T /\ c = get z.(son) v /\ down z v bs k /\
       rok P r /\ rstream r = bs ++ rest)
    (fun '(c, _) => if c <? _T then S (Z.to_nat (get z.(prnt) c)) else O)
    (fun '(c, r') => c = get z.(son) k /\ rok P r' /\ rstream r' = rest)
    (S (Z.to_nat _T)) (descend z) (get z.(son) _R, r)) as ([c r'] & E & -> & H1 & H2).
  - intros [c r1] (v & bs1 & Hv & -> & Hd1 & Hr1 & Hst1). unfold descend. cbn [fst snd].
    pose proof (sh_down z Hs v Hv) as Ev.
    destruct (Z.ltb_spec (get z.(son) v) _T) as [Hlt|Hge].
    + inversion Hd1 as [|? b bs2 ? _ _ Hd2]; subst; [lia|].
      destruct (ReadBits64_ok P r1 1 [b] (bs2 ++ rest) Hr1 ltac:(lia) Hst1 eq_refl) as (r2 & E & R1 & R2).
      unfold getBit. rewrite E, bind_Ok. cbn [fst snd]. rewrite b2z_bits2Z.
      pose proof (sh_son z Hs). pose proof (sh_code z Hs v Hv). pose proof (sh_order z Hs v Hv Hlt).
      assert (0 <= Z.b2z b <= 1) by (destruct b; cbn; lia).
      rewrite idx_bind by clia. eexists. split; [done|]. split.
      * exists (get z.(son) v + Z.b2z b), bs2. split_and!; auto; clia.
      * rewrite Ev. pose proof (sh_down z Hs (get z.(son) v + Z.b2z b) ltac:(clia)) as Ew.
        destruct (Z.ltb_spec (get z.(son) (get z.(son) v + Z.b2z b)) _T); [|lia].
        rewrite Ew. clia.
    + eexists. split; [done|].
      inversion Hd1; subst; [|lia]. done.
  - exists _R, bs. split_and!; auto; clia.
  - pose proof (sh_down z Hs _R ltac:(clia)) as Er. rewrite Er.
    destruct (get z.(son) _R <? _T); clia.
  - exists r'. auto.
Qed.

Lemma decodeChar_ok P z r c bs rest :
  huff_ok z -> rok P r -> 0 <= c < _NumChar -> cbits z c bs -> rstream r = bs ++ rest ->
  exists z' r', decodeChar z r = Ok (c, z', r') /\ update z c = Ok z' /\ huff_ok z' /\
    rok P r' /\ rstream r' = rest.
Proof.
  intros Hz Hr Hc Hb Hst. pose proof (ok_shape z Hz) as Hs. pose proof (sh_son z Hs).
  destruct (leaf_spec Hs c Hc) as [L1 L2].
  destruct (update_ok z c Hz Hc) as (z' & Eu & Hz' & _).
  destruct (descend_ok P z r (get z.(prnt) (c + _T)) bs rest) as (r' & E & R1 & R2); auto.
  { clia. } { rewrite L2. clia. } { apply path_down; auto. clia. }
  exists z', r'. split; [|done]. unfold decodeChar. rewrite idx_bind by clia.
  rewrite E, bind_Ok. cbn [fst snd]. rewrite L2. replace (c + _T - _T) with c by lia. by rewrite Eu.
Qed.

(** ** Positions *)

(** The code of a match position: up to 8 bits for its upper six bits by table
    lookup, its lower six bits verbatim. *)
Definition posbits (p : Z) : list bool :=
  bitsof (Z.shiftl (get pCode (Z.shiftr p 6)) 8) 15 (Z.to_nat (get pLen (Z.shiftr p 6)))
  ++ bitsof (Z.shiftl (Z.land p 0x3f) 10) 15 6.

Definition posb (p : Z) : bool :=
  let bs := posbits p in
  let i := bits2Z (take 8 bs) in
  let j := get dLen i - 2 in
  (8 <=? zlen bs) && (0 <=? i) && (i <? 256) && (0 <=? j) && (zlen bs =? 8 + j)
  && (Z.lor (Z.shiftl (get dCode i) 6)
        (Z.land (foldl (fun a b => u64 (Z.shiftl a 1 + Z.b2z b)) i (drop 8 bs)) 0x3f) =? p).

Lemma posb_all p : 0 <= p < _N -> posb p = true.
Proof. apply rangeb_spec. vm_compute. reflexivity. Qed.

(** Both tables entries of a position are codes of at most 16 bits. *)
Definition poscode (p : Z) : bool :=
  let i := Z.shiftr p 6 in
  let c := Z.shiftl (get pCode i) 8 in
  let l := get pLen i in
  let c2 := Z.shiftl (Z.land p 0x3f) 10 in
  (0 <=? i) && (i <? 64) && (0 <? l) && (l <=? 16) && (0 <=? c) && (c <? 65536)
  && forallb (fun k => negb (Z.testbit c k)) (seqZ 0 (16 - l))
  && (0 <=? c2) && (c2 <? 65536) && forallb (fun k => negb (Z.testbit c2 k)) (seqZ 0 10).

Lemma poscode_all p : 0 <= p < _N -> poscode p = true.
Proof. apply rangeb_spec. vm_compute. reflexivity. Qed.

Lemma forallb_low c n : forallb (fun k => negb (Z.testbit c k)) (seqZ 0 n) = true ->
  forall k, 0 <= k < n -> Z.testbit c k = false.
Proof.
  intros H k Hk. rewrite forallb_forall in H. apply negb_true_iff, H, list_elem_of_In, elem_of_seqZ. lia.
Qed.

Lemma encodePosition_ok w p : wok w -> 0 <= p < _N ->
  exists w', encodePosition w p = Ok w' /\ wok w' /\ wstream w' = wstream w ++ posbits p.
Proof.
  intros Hw Hp. pose proof (poscode_all p Hp) as H. unfold poscode in H.
  rewrite !andb_true_iff in H.
  destruct H as (((((((((H1 & H2) & H3) & H4) & H5) & H6) & H7) & H8) & H9) & H10).
  pose proof (forallb_low _ _ H7) as L1. pose proof (forallb_low _ _ H10) as L2.
  unfold encodePosition. rewrite idx_bind by (change (zlen pLen) with 64; lia).
  rewrite idx_bind by (change (zlen pCode) with 64; lia). rewrite !u64_small by lia.
  destruct (putCode_ok w (get pLen (Z.shiftr p 6)) (Z.shiftl (get pCode (Z.shiftr p 6)) 8) Hw)
    as [W1 S1]; [split; auto; lia|].
  edestruct (putCode_ok _ 6 (Z.shiftl (Z.land p 0x3f) 10) W1) as [W2 S2]; [split; auto; lia|].
  eexists. split; [done|]. split; [done|]. rewrite S2, S1, <- app_assoc. done.
Qed.

(** Reading bits verbatim. *)
Lemma low_bits_ok P i r bs rest lo :
  rok P r -> rstream r = bs ++ rest ->
  exists r', for_n (length bs) lo low_bit (i, r)
    = Ok (foldl (fun a b => u64 (Z.shiftl a 1 + Z.b2z b)) i bs, r') /\ rok P r' /\ rstream r' = rest.
Proof.
  revert i r lo. induction bs as [|b bs IH]; intros i r lo Hr Hst; cbn [for_n length foldl].
  - by exists r.
  - destruct (ReadBits64_ok P r 1 [b] (bs ++ rest) Hr ltac:(lia) Hst eq_refl) as (r' & E & R1 & R2).
    assert (low_bit lo (i, r) = Ok (u64 (Z.shiftl i 1 + Z.b2z b), r')) as ->.
    { unfold low_bit, getBit. cbn [fst snd]. rewrite E, bind_Ok. cbn [fst snd].
      by rewrite b2z_bits2Z. }
    rewrite bind_Ok. apply IH; done.
Qed.

Lemma decodePosition_ok P r p rest :
  rok P r -> 0 <= p < _N -> rstream r = posbits p ++ rest ->
  exists r', decodePosition r = Ok (p, r') /\ rok P r' /\ rstream r' = rest.
Proof.
  intros Hr Hp Hst. pose proof (posb_all p Hp) as H. unfold posb in H. cbv zeta in H.
  rewrite !andb_true_iff in H. destruct H as (((((H1 & H2) & H3) & H4) & H5) & H6).
  unfold zlen in *. rewrite <- (take_drop 8 (posbits p)), <- app_assoc in Hst.
  destruct (ReadBits64_ok P r 8 _ _ Hr ltac:(lia) Hst) as (r1 & E & R1 & R2).
  { rewrite length_take. lia. }
  unfold decodePosition, getByte. rewrite E, bind_Ok. cbn [fst snd].
  rewrite idx_bind by (change (zlen dCode) with 256; lia).
  rewrite idx_bind by (change (zlen dLen) with 256; lia). cbv zeta. unfold for_range.
  replace (Z.to_nat _) with (length (drop 8 (posbits p))) by (rewrite length_drop; lia).
  destruct (low_bits_ok P (bits2Z (take 8 (posbits p))) r1 _ rest 0 R1 R2) as (r2 & -> & R3 & R4).
  rewrite bind_Ok. cbn [fst snd]. apply Z.eqb_eq in H6. rewrite H6. by exists r2.
Qed.

(** ** Length of the codes *)

(** The least weight of the root above a node of weight [a], with a parent of
    weight [b], at depth [n]: a Fibonacci sequence. *)
Fixpoint root_weight (n : nat) (a b : Z) : Z :=
  match n with O => a | S n => root_weight n b (a + b) end.

Lemma root_weight_mono n a b a' b' : a <= a' -> b <= b' -> root_weight n a b <= root_weight n a' b'.
Proof. revert a b a' b'. induction n as [|n IH]; intros; cbn; [done|]. apply IH; lia. Qed.

Lemma root_weight_le n m : (n <= m)%nat ->
  forall a b, 0 <= a <= b -> root_weight n a b <= root_weight m a b.
Proof.
  intros H. induction H as [|m H IH]; [lia|]. intros a b Hab.
  etrans; [apply IH; lia|]. cbn [root_weight]. apply root_weight_mono; lia.
Qed.

(** The brother of a node weighs at least as much as the node's children. *)
Lemma uncle_weight z k : shape z -> freqs z (-1) -> 0 <= k < _R -> get z.(prnt) k < _R ->
  get z.(freq) k + get z.(freq) (get z.(prnt) k) <= get z.(freq) (get z.(prnt) (get z.(prnt) k)).
Proof.
  intros Hs Hf Hk Hp. pose proof (parent_spec Hs k Hk) as (P1 & P2 & P3).
  set (p := get z.(prnt) k) in *.
  pose proof (parent_spec Hs p ltac:(lia)) as (Q1 & Q2 & Q3).
  set (q := get z.(prnt) p) in *.
  pose proof (fr_sum z (-1) Hf q ltac:(lia) Q2) as E. destruct (Z.eqb_spec q (-1)); [lia|].
  pose proof (sh_order z Hs p ltac:(lia) P2) as Ho.
  pose proof (sh_order z Hs q ltac:(lia) Q2) as Hoq.
  pose proof (sh_code z Hs p ltac:(lia)) as [Cp|[Cp Ep]]; [lia|].
  pose proof (sh_code z Hs q ltac:(lia)) as [Cq|[Cq Eq]]; [lia|].
  set (s := get z.(son) p) in *. set (e := get z.(son) q) in *.
  assert (s + 1 < e).
  { pose proof (Z.div_mod s 2 ltac:(lia)). pose proof (Z.div_mod e 2 ltac:(lia)). lia. }
  pose proof (fr_sorted z (-1) Hf k e ltac:(lia) ltac:(lia)).
  pose proof (fr_sorted z (-1) Hf k (e + 1) ltac:(lia) ltac:(lia)).
  destruct Q3 as [Q3|Q3]; rewrite Q3 in *; lia.
Qed.

Lemma path_weight z k bs : shape z -> freqs z (-1) -> path z k bs -> k < _R ->
  root_weight (length bs) (get z.(freq) k) (get z.(freq) (get z.(prnt) k)) <= get z.(freq) _R
  \/ get z.(prnt) k = _R.
Proof.
  intros Hs Hf. induction 1 as [|k bs Hk Hp IH]; intros Hlt; [lia|].
  destruct (Z.eq_dec (get z.(prnt) k) _R) as [->|Hn]; [by right|left].
  pose proof (parent_spec Hs k Hk) as (P1 & _ & _).
  rewrite length_app. cbn [length]. replace (length bs + 1)%nat with (S (length bs)) by lia.
  cbn [root_weight].
  pose proof (uncle_weight z k Hs Hf Hk ltac:(clia)) as U.
  destruct IH as [IH|IH]; [clia| |].
  - etrans; [|exact IH]. apply root_weight_mono; lia.
  - rewrite IH in U. apply path_inv in Hp as [[E _]|(_ & bs' & -> & Hp)]; [done|].
    rewrite IH in Hp. apply path_inv in Hp as [[_ ->]|[? _]]; [|lia]. cbn. lia.
Qed.

(** While the root counts fewer than 4181 symbols every code fits in 16 bits. *)
Lemma short_codes z c bs : huff_ok z -> 0 <= c < _NumChar -> cbits z c bs ->
  get z.(freq) _R < 4181 -> (length bs <= 16)%nat.
Proof.
  intros [Hs Hf _] Hc Hp Hw. destruct (leaf_spec Hs c Hc) as [L1 _].
  destruct (path_weight z _ bs Hs Hf Hp) as [H|H]; [lia| |].
  - destruct (Nat.le_gt_cases (length bs) 16) as [|Hgt]; [done|exfalso].
    set (k := get z.(prnt) (c + _T)) in *.
    pose proof (parent_spec Hs k ltac:(lia)) as (P1 & P2 & P3).
    pose proof (fr_pos z (-1) Hf k ltac:(clia)).
    assert (2 <= get z.(freq) (get z.(prnt) k)).
    { pose proof (fr_sum z (-1) Hf (get z.(prnt) k) ltac:(lia) P2) as E.
      destruct (Z.eqb_spec (get z.(prnt) k) (-1)); [lia|].
      pose proof (sh_order z Hs (get z.(prnt) k) ltac:(lia) P2).
      pose proof (son_range Hs (get z.(prnt) k) ltac:(lia)).
      pose proof (fr_pos z (-1) Hf (get z.(son) (get z.(prnt) k)) ltac:(lia)).
      pose proof (fr_pos z (-1) Hf (get z.(son) (get z.(prnt) k) + 1) ltac:(lia)). lia. }
    pose proof (root_weight_mono (length bs) 1 2 (get z.(freq) k) (get z.(freq) (get z.(prnt) k))).
    pose proof (root_weight_le 17 (length bs) ltac:(lia) 1 2 ltac:(lia)).
    change (root_weight 17 1 2) with 4181 in *. lia.
  - apply path_inv in Hp as [[_ ->]|(_ & bs' & -> & Hp)]; [cbn; lia|].
    rewrite H in Hp. apply path_inv in Hp as [[_ ->]|[? _]]; [|lia]. cbn. lia.
Qed.
