(* ===== verification/LzTree.v ===== *)
(** The dictionary of the LZSS matcher in [src/lzhuf/lzhuf.go]: 256 binary
    search trees over the positions of the ring buffer, threaded through the
    arrays dad, lson and rson, with [InitTree], [InsertNode] and [DeleteNode]. *)
From S2P Require Import Prelude Huffman.

(** ** State: the dictionary half of the struct [lzhuf] *)
Record lz := mkLz {
  dad : list Z; lson : list Z; rson : list Z;
  textBuf : list Z; matchLength : Z; matchPosition : Z }.

Definition set_dad (z : lz) d := mkLz d z.(lson) z.(rson) z.(textBuf) z.(matchLength) z.(matchPosition).
Definition set_lson (z : lz) l := mkLz z.(dad) l z.(rson) z.(textBuf) z.(matchLength) z.(matchPosition).
Definition set_rson (z : lz) r := mkLz z.(dad) z.(lson) r z.(textBuf) z.(matchLength) z.(matchPosition).
Definition set_text (z : lz) t := mkLz z.(dad) z.(lson) z.(rson) t z.(matchLength) z.(matchPosition).
Definition set_match (z : lz) l p := mkLz z.(dad) z.(lson) z.(rson) z.(textBuf) l p.

(** [z.dad[i] = v] and its siblings *)
Definition put_dad (z : lz) (i v : Z) : res lz := d ← upd z.(dad) i v; mret (set_dad z d).
Definition put_lson (z : lz) (i v : Z) : res lz := d ← upd z.(lson) i v; mret (set_lson z d).
Definition put_rson (z : lz) (i v : Z) : res lz := d ← upd z.(rson) i v; mret (set_rson z d).

(** ** Operations *)

(** The zero value of the struct. *)
Definition zeroLz : lz :=
  mkLz (replicate 2049 0) (replicate 2049 0) (replicate 2305 0) (replicate 2107 0) 0 0.

Definition InitTree (z : lz) : res lz :=
  z ← for_range (_N + 1) (_N + 256 + 1) (fun i z => put_rson z i _NIL) z;
  for_range 0 _N (fun i z => put_dad z i _NIL) z.

(** [if z.rson[z.dad[p]] == p { z.rson[z.dad[p]] = q } else { z.lson[z.dad[p]] = q }] *)
Definition relink (z : lz) (p q : Z) : res lz :=
  d ← idx z.(dad) p;
  c ← idx z.(rson) d;
  if c =? p then put_rson z d q else put_lson z d q.

(** [for z.rson[q] != _NIL { q = z.rson[q] }] *)
Definition rightmost (z : lz) (q : Z) : res Z :=
  loop (S (Z.to_nat _N)) (fun q =>
    c ← idx z.(rson) q;
    mret (if c =? _NIL then inr q else inl c)) q.

(** The default case of [DeleteNode]: both children are present. *)
Definition delete_both (z : lz) (p : Z) : res (lz * Z) :=
  q ← idx z.(lson) p;
  c ← idx z.(rson) q;
  zq ← (if c =? _NIL then mret (z, q)
        else
          q ← rightmost z q;
          dq ← idx z.(dad) q;
          lq ← idx z.(lson) q;
          z ← put_rson z dq lq;
          z ← put_dad z lq dq;
          lp ← idx z.(lson) p;
          z ← put_lson z q lp;
          z ← put_dad z lp q;
          mret (z, q));
  let '(z, q) := zq in
  rp ← idx z.(rson) p;
  z ← put_rson z q rp;
  z ← put_dad z rp q;
  mret (z, q).

Definition DeleteNode (z : lz) (p : Z) : res lz :=
  dp ← idx z.(dad) p;
  if dp =? _NIL then mret z
  else
    rp ← idx z.(rson) p;
    lp ← idx z.(lson) p;
    zq ← (if rp =? _NIL then mret (z, lp)
          else if lp =? _NIL then mret (z, rp)
          else delete_both z p);
    let '(z, q) := zq in
    dp ← idx z.(dad) p;
    z ← put_dad z q dp;
    z ← relink z p q;
    put_dad z p _NIL.

(** The comparison loop of [InsertNode]: the length of the common prefix of the
    texts at [r] and [p] (from the second byte on) and the last difference. *)
Definition compare_step (z : lz) (r p : Z) (ic : Z * Z) : res ((Z * Z) + (Z * Z)) :=
  let '(i, cmp) := ic in
  if i <? _F then
    a ← idx z.(textBuf) (r + i);
    b ← idx z.(textBuf) (p + i);
    mret (if a - b =? 0 then inl (i + 1, a - b) else inr (i, a - b))
  else mret (inr (i, cmp)).

Definition compare (z : lz) (r p cmp : Z) : res (Z * Z) :=
  loop (Z.to_nat _F) (compare_step z r p) (1, cmp).

(** [((r - p) & (_N - 1)) - 1] *)
Definition distance (r p : Z) : Z := Z.land (r - p) (_N - 1) - 1.

(** The bookkeeping of the best match; the flag tells a full-length match. *)
Definition record_match (z : lz) (r p i : Z) : lz * bool :=
  if _Threshold <? i then
    let better := z.(matchLength) <? i in
    let z := if better then set_match z i (distance r p) else z in
    if better && (_F <=? z.(matchLength)) then (z, true)
    else if i =? z.(matchLength) then
      let c := distance r p in
      ((if c <? z.(matchPosition) then set_match z z.(matchLength) c else z), false)
    else (z, false)
  else (z, false).

(** Go down to the child of [p] on the side of [cmp], or hang [r] there. *)
Definition go_down (z : lz) (r p cmp : Z) : res (Z + lz) :=
  if 0 <=? cmp then
    q ← idx z.(rson) p;
    if q =? _NIL then z ← put_rson z p r; z ← put_dad z r p; mret (inr z) else mret (inl q)
  else
    q ← idx z.(lson) p;
    if q =? _NIL then z ← put_lson z p r; z ← put_dad z r p; mret (inr z) else mret (inl q).

(** One iteration of the loop of [InsertNode]; it ends with [None] when [r] has
    been hung into the tree and with [Some p] when [r] matches all of [p]. *)
Definition insert_step (r : Z) (s : Z * Z * lz) : res ((Z * Z * lz) + (lz * option Z)) :=
  let '(p, cmp, z) := s in
  n ← go_down z r p cmp;
  match n with
  | inr z => mret (inr (z, None))
  | inl p =>
      ic ← compare z r p cmp;
      let '(z, full) := record_match z r p (fst ic) in
      mret (if full : bool then inr (z, Some p) else inl (p, snd ic, z))
  end.

(** The end of [InsertNode]: [r] takes the place of [p]. *)
Definition replace_node (z : lz) (r p : Z) : res lz :=
  dp ← idx z.(dad) p;
  z ← put_dad z r dp;
  lp ← idx z.(lson) p;
  z ← put_lson z r lp;
  rp ← idx z.(rson) p;
  z ← put_rson z r rp;
  z ← put_dad z lp r;
  z ← put_dad z rp r;
  z ← relink z p r;
  put_dad z p _NIL.

Definition InsertNode (z : lz) (r : Z) : res lz :=
  k0 ← idx z.(textBuf) r;
  z ← put_rson z r _NIL;
  z ← put_lson z r _NIL;
  let z := set_match z 0 z.(matchPosition) in
  zp ← loop (S (S (Z.to_nat _N))) (insert_step r) (_N + 1 + k0, 1, z);
  match zp with
  | (z, None) => mret z
  | (z, Some p) => replace_node z r p
  end.

(** ** The forest, as functions *)
Definition root (d : Z) : Prop := _N + 1 <= d <= _N + 256.
Definition reg (D : Z -> Z) (x : Z) : Prop := 0 <= x < _N /\ D x <> _NIL.

(** Children: [true] is the right, [false] the left side; roots only have a
    right child. *)
Definition okd (D : Z -> Z) (b : bool) (d : Z) : Prop := reg D d \/ (b = true /\ root d).

Record forest (cls : Z -> Z) (D : Z -> Z) (C : bool -> Z -> Z) : Prop := {
  f_down b d : okd D b d -> C b d = _NIL \/ (reg D (C b d) /\ D (C b d) = d);
  f_ne d : reg D d -> C true d = C false d -> C true d = _NIL;
  f_up q : reg D q -> exists b, okd D b (D q) /\ C b (D q) = q;
  f_rank : exists rank : Z -> Z, forall q, reg D q -> rank (D q) < rank q;
  f_cls q : reg D q -> cls q = cls (D q);
  f_root d : root d -> cls d = d - (_N + 1) }.

Definition upf (f : Z -> Z) (i v x : Z) : Z := if x =? i then v else f x.
Definition upc (C : bool -> Z -> Z) (b : bool) (i v : Z) (b' : bool) (x : Z) : Z :=
  if eqb b' b && (x =? i) then v else C b' x.

Lemma upf_eq f i v : upf f i v i = v.
Proof. unfold upf. by rewrite Z.eqb_refl. Qed.
Lemma upf_ne f i v x : x <> i -> upf f i v x = f x.
Proof. unfold upf. intros. destruct (Z.eqb_spec x i); [lia|done]. Qed.
Lemma upc_eq C b i v : upc C b i v b i = v.
Proof. unfold upc. rewrite eqb_reflx, Z.eqb_refl. done. Qed.
Lemma upc_ne C b i v b' x : (b', x) <> (b, i) -> upc C b i v b' x = C b' x.
Proof.
  unfold upc. intros H. destruct (eqb b' b) eqn:E, (Z.eqb_spec x i); cbn; try done.
  apply eqb_prop in E. congruence.
Qed.

(** ** Operations on forests *)
Section forest_ops.
Context {cls D : Z -> Z} {C : bool -> Z -> Z} (H : forest cls D C).

Lemma root_not_reg d : root d -> ~ reg D d.
Proof. unfold root, reg. clia. Qed.

Lemma okd_range b d : okd D b d -> 0 <= d <= _N + 256 /\ d <> _NIL.
Proof. unfold okd, root, reg. intros [?|?]; clia. Qed.

(** A node is linked from one place only. *)
Lemma link_unique b d b' d' : okd D b d -> okd D b' d' -> C b d = C b' d' -> C b d <> _NIL ->
  d = d' /\ b = b'.
Proof using H.
  intros Hb Hb' E Hn. destruct (f_down _ _ _ H b d Hb) as [?|[R1 E1]]; [done|].
  destruct (f_down _ _ _ H b' d' Hb') as [?|[R2 E2]]; [congruence|].
  assert (d = d') as <- by congruence. split; [done|].
  destruct Hb as [Hd|[-> Hr]], Hb' as [Hd'|[-> Hr']]; try done;
    try (by exfalso; eapply root_not_reg).
  destruct b, b'; try done; exfalso; apply Hn; [|rewrite E; symmetry in E];
    apply (f_ne _ _ _ H d Hd) in E; done.
Qed.

Lemma rank_ne q : reg D q -> D q <> q.
Proof using H. intros Hq E. destruct (f_rank _ _ _ H) as [rank Hr]. specialize (Hr q Hq). rewrite E in Hr. lia. Qed.

Lemma up_okd q : reg D q -> okd D true (D q).
Proof using H.
  intros Hq. destruct (f_up _ _ _ H q Hq) as (b & [?|[_ ?]] & _); [by left|by right].
Qed.

Lemma up_range q : reg D q -> 0 <= D q <= _N + 256 /\ D q <> _NIL.
Proof using H. intros Hq. eapply okd_range, up_okd, Hq. Qed.

(** The side of the parent a node hangs on, as the code finds it. *)
Definition side (p : Z) : bool := C true (D p) =? p.

Lemma side_spec p : reg D p -> okd D (side p) (D p) /\ C (side p) (D p) = p.
Proof using H.
  intros Hp. destruct (f_up _ _ _ H p Hp) as (b & Hb & E). unfold side.
  destruct (Z.eqb_spec (C true (D p)) p) as [E'|E'].
  - split; [|done]. destruct Hb as [?|[-> ?]]; [by left|by right].
  - destruct b; [done|]. split; [|done]. destruct Hb as [?|[? ?]]; [by left|done].
Qed.

(** Hanging a new node at a free place. *)
Lemma forest_hang b p r :
  okd D b p -> C b p = _NIL -> 0 <= r < _N -> D r = _NIL ->
  forest (upf cls r (cls p)) (upf D r p) (upc (upc (upc C true r _NIL) false r _NIL) b p r).
Proof using H.
  intros Hp Hc Hr Hd. set (C0 := upc (upc C true r _NIL) false r _NIL).
  assert (Hpr : p <> r) by (intros ->; destruct Hp as [[? ?]|[_ ?]]; unfold root in *; clia).
  pose proof (okd_range b p Hp) as [Hp1 Hp2].
  assert (Rg : forall x, reg (upf D r p) x <-> reg D x \/ x = r).
  { intros x. unfold reg, upf. destruct (Z.eqb_spec x r) as [->|]; [|tauto]. split; auto. }
  assert (Nr : forall x, reg D x -> x <> r) by (intros x [_ ?] ->; done).
  assert (C0r : forall b', C0 b' r = _NIL).
  { intros []; unfold C0; [rewrite upc_ne by congruence|]; apply upc_eq. }
  assert (C0n : forall b' x, x <> r -> C0 b' x = C b' x).
  { intros b' x Hx. unfold C0. rewrite !upc_ne by congruence. done. }
  assert (Nc : forall b' d, okd D b' d -> C b' d <> r).
  { intros b' d Hd' E. destruct (f_down _ _ _ H b' d Hd') as [?|[Hx _]]; [clia|].
    rewrite E in Hx. by apply Nr in Hx. }
  assert (Ok : forall b' d, okd (upf D r p) b' d -> okd D b' d \/ d = r).
  { intros b' d [Hx|Hx]; [apply Rg in Hx as [?| ->]; [left; by left|by right]|left; by right]. }
  split.
  - intros b' d Hd'. destruct (decide ((b', d) = (b, p))) as [[= -> ->]|Hne].
    { right. rewrite upc_eq, upf_eq. split; [apply Rg; by right|done]. }
    rewrite upc_ne by done. apply Ok in Hd' as [Hd'| ->]; [|left; apply C0r].
    assert (d <> r).
    { intros ->. destruct Hd' as [?|[_ ?]]; [by apply Nr in H0|unfold root in *; clia]. }
    rewrite C0n by done. destruct (f_down _ _ _ H b' d Hd') as [?|[H1 H2]]; [by left|right].
    split; [apply Rg; by left|]. by rewrite upf_ne by auto.
  - intros d Hd'. apply Rg in Hd' as [Hd'| ->].
    + pose proof (Nr d Hd') as Hdr. pose proof (f_ne _ _ _ H d Hd') as Hne.
      destruct (decide (d = p)) as [->|].
      * intros E. exfalso. destruct b; rewrite upc_eq, upc_ne, C0n in E by congruence.
        -- by apply (Nc false p (or_introl Hd')).
        -- by apply (Nc true p (or_introl Hd')).
      * rewrite !upc_ne by congruence. by rewrite !C0n by done.
    + rewrite !upc_ne by congruence. by rewrite !C0r.
  - intros q Hq. apply Rg in Hq as [Hq| ->].
    + pose proof (Nr q Hq). rewrite upf_ne by done. destruct (f_up _ _ _ H q Hq) as (b' & Hb' & E).
      exists b'. assert (D q <> r).
      { intros E'. rewrite E' in Hb'. destruct Hb' as [Hb'|[_ ?]]; [by apply Nr in Hb'|unfold root in *; clia]. }
      split; [destruct Hb' as [?|?]; [left; apply Rg; by left|by right]|].
      rewrite upc_ne; [by rewrite C0n|]. intros [= -> E']. rewrite E', Hc in E. destruct Hq. clia.
    + rewrite upf_eq. exists b. rewrite upc_eq. split; [|done].
      destruct Hp as [?|?]; [left; apply Rg; by left|by right].
  - destruct (f_rank _ _ _ H) as [rank Hk]. exists (upf rank r (rank p + 1)). intros q Hq.
    apply Rg in Hq as [Hq| ->].
    + pose proof (Nr q Hq). rewrite (upf_ne D), (upf_ne rank r _ q) by done. specialize (Hk q Hq).
      destruct (decide (D q = r)) as [E|]; [|by rewrite upf_ne].
      exfalso. destruct (up_okd q Hq) as [Hx|[_ ?]]; [rewrite E in Hx; by apply Nr in Hx|unfold root in *; clia].
    + rewrite (upf_eq D), upf_eq, upf_ne by done. lia.
  - intros q Hq. apply Rg in Hq as [Hq| ->].
    + pose proof (Nr q Hq). rewrite (upf_ne D), (upf_ne cls r _ q) by done.
      rewrite (f_cls _ _ _ H q Hq). rewrite upf_ne; [done|].
      intros E. destruct (up_okd q Hq) as [Hx|[_ ?]]; [rewrite E in Hx; by apply Nr in Hx|unfold root in *; clia].
    + by rewrite (upf_eq D), upf_eq, upf_ne by done.
  - intros d Hd'. rewrite upf_ne; [by apply (f_root _ _ _ H)|unfold root in *; clia].
Qed.

(** Removing a node with at most one child. *)
Section cut.
Context (b : bool) (p : Z) (Hp : reg D p) (Hc : C b p = _NIL).
Abbreviation q := (C (negb b) p).
Abbreviation D' := (upf (upf D q (D p)) p _NIL).
Abbreviation C' := (upc C (side p) (D p) q).

Lemma cut_q : q = _NIL \/ (reg D q /\ D q = p /\ q <> p).
Proof using H Hp.
  destruct (f_down _ _ _ H (negb b) p (or_introl Hp)) as [?|[H1 H2]]; [by left|right].
  split_and!; auto. intros E. rewrite E in H2. by apply rank_ne in Hp.
Qed.

Lemma cut_reg x : reg D' x <-> reg D x /\ x <> p.
Proof using H Hp.
  pose proof (up_range p Hp). destruct cut_q as [Eq|(Hq & Eq & Nq)]; unfold reg, upf in *;
    destruct (Z.eqb_spec x p) as [Exp|], (Z.eqb_spec x q) as [Ex|]; split; try rewrite Ex in *; clia.
Qed.

Lemma cut_D x : reg D x -> x <> p -> x <> q -> D' x = D x.
Proof. intros. by rewrite !upf_ne. Qed.

Lemma cut_okd b' d : okd D' b' d -> okd D b' d /\ d <> p.
Proof using H Hp.
  intros [Hd|[-> Hd]]; [apply cut_reg in Hd as [? ?]; split; [by left|done]|].
  split; [by right|]. intros ->. by apply (root_not_reg p) in Hd.
Qed.

(** The only child that is [p] is the one at [side p] of its parent. *)
Lemma cut_other b' d : okd D b' d -> (b', d) <> (side p, D p) -> C b' d <> p.
Proof using H Hp.
  intros Hd Hne E. destruct (side_spec p Hp) as [S1 S2].
  destruct (link_unique b' d (side p) (D p)) as [-> ->]; auto; [congruence|].
  rewrite E. destruct Hp. clia.
Qed.

Lemma forest_cut : forest cls D' C'.
Proof using H Hp Hc.
  destruct (side_spec p Hp) as [S1 S2]. pose proof (rank_ne p Hp) as Hpp. split.
  - intros b' d Hd. apply cut_okd in Hd as [Hd Hdp].
    destruct (decide ((b', d) = (side p, D p))) as [[= -> ->]|Hne].
    + rewrite upc_eq. destruct cut_q as [?|(Hq & Eq & Nq)]; [by left|right].
      split; [by apply cut_reg|]. rewrite (upf_ne _ p) by done. apply upf_eq.
    + rewrite upc_ne by done. pose proof (cut_other b' d Hd Hne) as Ho.
      destruct (f_down _ _ _ H b' d Hd) as [?|[H1 H2]]; [by left|right].
      split; [by apply cut_reg|]. rewrite cut_D; auto. intros E. rewrite E in *.
      destruct cut_q as [Eq|(Hq & Eq & Nq)]; [rewrite Eq in H1; destruct H1; clia|congruence].
  - intros d Hd. apply cut_reg in Hd as [Hd Hdp].
    destruct (decide (d = D p)) as [->|]; [|rewrite !upc_ne by congruence; by apply (f_ne _ _ _ H)].
    intros E. destruct cut_q as [Eq|(Hq & Eq & Nq)].
    { destruct (side p); rewrite upc_eq in *; [done|congruence]. }
    exfalso. destruct (side p) eqn:Es; rewrite upc_eq, upc_ne in E by congruence;
      [symmetry in E|]; destruct (link_unique (negb (side p)) (D p) (negb b) p) as [? _];
      rewrite ?Es; cbn [negb]; auto; try (by left); rewrite E; destruct Hq; clia.
  - intros x Hx. apply cut_reg in Hx as [Hx Hxp]. destruct (decide (x = q)) as [->|Hxq].
    + exists (side p). rewrite (upf_ne _ p), upf_eq by done. rewrite upc_eq. split; [|done].
      destruct S1 as [S1|S1]; [left; apply cut_reg; auto|by right].
    + rewrite cut_D by done. destruct (f_up _ _ _ H x Hx) as (b' & Hb & E). exists b'.
      assert (Hdp : D x <> p).
      { intros E'. rewrite E' in E. destruct b', b; cbn [negb] in *; try congruence; rewrite Hc in E;
          destruct Hx; clia. }
      split; [destruct Hb as [?|?]; [left; by apply cut_reg|by right]|].
      rewrite upc_ne; [done|]. intros [= E1 E2]. rewrite E1, E2 in E. congruence.
  - destruct (f_rank _ _ _ H) as [rank Hr]. exists rank. intros x Hx.
    apply cut_reg in Hx as [Hx Hxp]. rewrite (upf_ne _ p) by done.
    destruct (decide (x = q)) as [->|]; [|rewrite upf_ne by done; auto].
    rewrite upf_eq. destruct cut_q as [Eq|(Hq & Eq & Nq)]; [rewrite Eq in Hx; destruct Hx; clia|].
    pose proof (Hr q Hq). pose proof (Hr p Hp). rewrite Eq in *. lia.
  - intros x Hx. apply cut_reg in Hx as [Hx Hxp]. rewrite (upf_ne _ p) by done.
    destruct (decide (x = q)) as [->|]; [|rewrite upf_ne by done; by apply (f_cls _ _ _ H)].
    rewrite upf_eq. destruct cut_q as [Eq|(Hq & Eq & Nq)]; [rewrite Eq in Hx; destruct Hx; clia|].
    rewrite (f_cls _ _ _ H q Hq), Eq. by apply (f_cls _ _ _ H).
  - apply (f_root _ _ _ H).
Qed.
End cut.

(** Putting a new node in the place of an old one. *)
Section replace.
Context (p r : Z) (Hp : reg D p) (Hr : 0 <= r < _N) (Hd : D r = _NIL).
Abbreviation D' := (upf (upf (upf (upf D r (D p)) (C false p) r) (C true p) r) p _NIL).
Abbreviation C' := (upc (upc (upc C false r (C false p)) true r (C true p)) (side p) (D p) r).

Lemma rep_ne : r <> p.
Proof using Hp Hd. intros E. rewrite <- E in Hp. by destruct Hp. Qed.

Lemma rep_child b : C b p = _NIL \/ (reg D (C b p) /\ D (C b p) = p /\ C b p <> p /\ C b p <> r).
Proof using H Hp Hd.
  destruct (f_down _ _ _ H b p (or_introl Hp)) as [?|[H1 H2]]; [by left|right].
  split_and!; auto.
  - intros E. rewrite E in H2. by apply rank_ne in Hp.
  - intros E. rewrite E in H1. by destruct H1.
Qed.

Lemma rep_D x : 0 <= x < _N -> D' x = if x =? p then _NIL else
  if (x =? C true p) || (x =? C false p) then r else if x =? r then D p else D x.
Proof. intros Hx. unfold upf. by destruct (x =? p), (x =? C true p), (x =? C false p). Qed.

Lemma rep_reg x : reg D' x <-> (reg D x /\ x <> p) \/ x = r.
Proof using H Hp Hr Hd.
  pose proof (up_range p Hp). pose proof rep_ne. pose proof (rep_child true) as Ht.
  pose proof (rep_child false) as Hf. unfold reg in *. split.
  - intros [Hx Hn]. rewrite rep_D in Hn by done.
    destruct (Z.eqb_spec x p), (Z.eqb_spec x (C true p)), (Z.eqb_spec x (C false p)), (Z.eqb_spec x r);
      subst; cbn in Hn; try done; try (by right); left; clia.
  - intros [[[Hx Hn] Hxp]| ->]; (split; [done|]); rewrite rep_D by done.
    + destruct (Z.eqb_spec x p), ((x =? C true p) || (x =? C false p)), (x =? r); clia.
    + destruct (Z.eqb_spec r p), ((r =? C true p) || (r =? C false p)); [done..|clia|].
      rewrite Z.eqb_refl. clia.
Qed.

(** [p]'s children hang below [r]; every other node keeps its parent. *)
Lemma rep_moved b x : x = C b p -> reg D x -> D' x = r.
Proof using H Hp Hr Hd.
  intros E Hx. destruct (rep_child b) as [E'|(_ & _ & Hn & _)]; [destruct Hx; clia|].
  rewrite rep_D by apply Hx. destruct (Z.eqb_spec x p); [congruence|].
  destruct b; rewrite <- E, Z.eqb_refl, ?orb_true_r; done.
Qed.

Lemma rep_kept x : reg D x -> x <> p -> D x <> p -> D' x = D x.
Proof using H Hp Hr Hd.
  intros Hx Hxp Hdx. rewrite rep_D by apply Hx. pose proof (rep_child true). pose proof (rep_child false).
  destruct (Z.eqb_spec x p), (Z.eqb_spec x (C true p)), (Z.eqb_spec x (C false p)), (Z.eqb_spec x r);
    cbn; try done; destruct Hx; subst; exfalso; intuition congruence || clia.
Qed.

Lemma rep_new : D' r = D p.
Proof using H Hp Hr Hd.
  rewrite rep_D by done. pose proof rep_ne. pose proof (rep_child true). pose proof (rep_child false).
  destruct (Z.eqb_spec r p), (Z.eqb_spec r (C true p)), (Z.eqb_spec r (C false p));
    rewrite ?Z.eqb_refl; cbn; try done; exfalso; subst; clia || intuition congruence.
Qed.

Lemma rep_C b x : okd D b x -> x <> p -> (b, x) <> (side p, D p) -> x <> r -> C' b x = C b x.
Proof. intros. rewrite !upc_ne by congruence. done. Qed.

Lemma rep_Cr b : C' b r = C b p.
Proof using H Hp Hd Hr.
  assert (D p <> r).
  { intros E. destruct (up_okd p Hp) as [[_ Hx]|[_ Hx]]; [congruence|rewrite E in Hx; unfold root in *; clia]. }
  rewrite upc_ne by congruence. destruct b; [apply upc_eq|rewrite upc_ne by congruence; apply upc_eq].
Qed.

Lemma rep_okd b d : okd D' b d -> (okd D b d /\ d <> p /\ d <> r) \/ d = r.
Proof using H Hp Hr Hd.
  intros [Hx|[-> Hx]].
  - apply rep_reg in Hx as [[Hx Hxp]| ->]; [left|by right].
    split; [by left|]. split; [done|]. intros ->. by destruct Hx.
  - left. split; [by right|]. split; intros ->; [destruct Hp|]; unfold root in *; clia.
Qed.

Lemma rep_okd_2 b d : okd D b d -> d <> p -> okd D' b d.
Proof using H Hp Hr Hd. intros [Hx|Hx] Hn; [left; apply rep_reg; auto|by right]. Qed.

Lemma rep_down b d : okd D' b d -> C' b d = _NIL \/ (reg D' (C' b d) /\ D' (C' b d) = d).
Proof using H Hp Hr Hd.
  intros Hx. apply rep_okd in Hx as [(Hx & Hxp & Hxr)| ->].
  - destruct (decide ((b, d) = (side p, D p))) as [[= -> ->]|Hne].
    + right. rewrite upc_eq. split; [apply rep_reg; by right|apply rep_new].
    + rewrite rep_C by done. pose proof (cut_other p Hp b d Hx Hne) as Ho.
      destruct (f_down _ _ _ H b d Hx) as [?|[H1 H2]]; [by left|right].
      split; [apply rep_reg; by left|]. rewrite rep_kept; [done|done|done|congruence].
  - rewrite rep_Cr. destruct (rep_child b) as [?|(H1 & H2 & H3 & H4)]; [by left|right].
    split; [apply rep_reg; by left|]. by eapply rep_moved.
Qed.

Lemma rep_up x : reg D' x -> exists b, okd D' b (D' x) /\ C' b (D' x) = x.
Proof using H Hp Hr Hd.
  destruct (side_spec p Hp) as [S1 S2]. pose proof (rank_ne p Hp) as Hpp.
  intros Hx. apply rep_reg in Hx as [[Hx Hxp]| ->].
  - destruct (f_up _ _ _ H x Hx) as (b & Hb & E). destruct (decide (D x = p)) as [Ed|Ed].
    + rewrite Ed in E. rewrite (rep_moved b) by auto. exists b. rewrite rep_Cr.
      split; [left; apply rep_reg; by right|done].
    + rewrite rep_kept by done. exists b. split; [by apply rep_okd_2|].
      rewrite rep_C; auto.
      * intros [= E1 E2]. rewrite E1, E2 in E. congruence.
      * intros Er. rewrite Er in Hb. destruct Hb as [[_ ?]|[_ ?]]; [done|unfold root in *; clia].
  - rewrite rep_new. exists (side p). rewrite upc_eq. split; [by apply rep_okd_2|done].
Qed.

Lemma forest_replace : forest (upf cls r (cls p)) D' C'.
Proof using H Hp Hr Hd.
  destruct (side_spec p Hp) as [S1 S2]. pose proof (rank_ne p Hp) as Hpp.
  assert (Dr : forall x, reg D x -> D x <> r).
  { intros x Hx E. destruct (up_okd x Hx) as [[_ ?]|[_ ?]]; [congruence|rewrite E in *; unfold root in *; clia]. }
  assert (Nr : forall x, reg D x -> x <> r) by (intros x [_ ?] ->; done).
  split; [apply rep_down| |apply rep_up| | |].
  - intros d Hx. apply rep_reg in Hx as [[Hx Hxp]| ->].
    + pose proof (Nr d Hx). destruct (decide (d = D p)) as [->|].
      * intros E. exfalso. destruct (side p) eqn:Es; rewrite upc_eq in E; rewrite !upc_ne in E by congruence;
          [|symmetry in E];
          (destruct (f_down _ _ _ H (negb (side p)) (D p) (or_introl Hx)) as [E'|[Hy _]]; rewrite Es in *; cbn [negb] in *;
           rewrite <- E in *; [clia|by destruct Hy]).
      * rewrite !upc_ne by congruence. by apply (f_ne _ _ _ H).
    + rewrite !rep_Cr. by apply (f_ne _ _ _ H).
  - destruct (f_rank _ _ _ H) as [rank Hk]. exists (upf rank r (rank p)). intros x Hx.
    apply rep_reg in Hx as [[Hx Hxp]| ->].
    + rewrite (upf_ne rank r _ x) by auto. destruct (decide (D x = p)) as [Ed|Ed].
      * destruct (f_up _ _ _ H x Hx) as (b & Hb & E). rewrite Ed in E.
        rewrite (rep_moved b), upf_eq by auto. rewrite <- Ed. auto.
      * rewrite rep_kept, upf_ne by auto. auto.
    + rewrite rep_new, upf_eq, upf_ne by auto. auto.
  - intros x Hx. apply rep_reg in Hx as [[Hx Hxp]| ->].
    + rewrite (upf_ne cls r _ x) by auto. destruct (decide (D x = p)) as [Ed|Ed].
      * destruct (f_up _ _ _ H x Hx) as (b & Hb & E). rewrite Ed in E.
        rewrite (rep_moved b), upf_eq by auto. rewrite <- Ed. by apply (f_cls _ _ _ H).
      * rewrite rep_kept, upf_ne by auto. by apply (f_cls _ _ _ H).
    + rewrite rep_new, upf_eq, upf_ne by auto. by apply (f_cls _ _ _ H).
  - intros d Hx. rewrite upf_ne; [by apply (f_root _ _ _ H)|unfold root in *; clia].
Qed.
End replace.
End forest_ops.

(** The forest only looks at the entries of registered nodes and roots. *)
Lemma forest_ext cls cls' D D' C C' :
  forest cls D C -> (forall x, 0 <= x < _N -> D' x = D x) ->
  (forall b x, okd D b x -> C' b x = C b x) ->
  (forall x, 0 <= x < _N \/ root x -> cls' x = cls x) -> forest cls' D' C'.
Proof.
  intros H ED EC Ec. assert (Rg : forall x, reg D' x <-> reg D x).
  { intros x. unfold reg. split; intros [? ?]; rewrite ED in *; auto. }
  assert (Ok : forall b x, okd D' b x <-> okd D b x).
  { intros b x. unfold okd. by rewrite Rg. }
  assert (V : forall x, reg D x -> 0 <= x < _N \/ root x) by (intros x [? _]; by left).
  split.
  - intros b d Hd. apply Ok in Hd. rewrite EC by done.
    destruct (f_down _ _ _ H b d Hd) as [?|[H1 H2]]; [by left|right].
    split; [by apply Rg|]. rewrite ED; [done|apply H1].
  - intros d Hd. apply Rg in Hd. rewrite !EC by (by left). by apply (f_ne _ _ _ H).
  - intros q Hq. apply Rg in Hq. rewrite ED by apply Hq.
    destruct (f_up _ _ _ H q Hq) as (b & Hb & E). exists b. rewrite EC by done. by rewrite Ok.
  - destruct (f_rank _ _ _ H) as [rank Hr]. exists rank. intros q Hq. apply Rg in Hq.
    rewrite ED by apply Hq. auto.
  - intros q Hq. apply Rg in Hq. rewrite ED by apply Hq.
    rewrite !Ec; [by apply (f_cls _ _ _ H)|..|by apply V].
    destruct (up_okd H q Hq) as [Hx|[_ Hx]]; [by apply V|by right].
  - intros d Hd. rewrite Ec by (by right). by apply (f_root _ _ _ H).
Qed.

(** ** Counting the nodes above a rank *)
Definition above (rank : Z -> Z) (t : Z) : nat :=
  length (filter (fun x => t < rank x) (seqZ 0 _N)).

Lemma above_le rank t : (above rank t <= Z.to_nat _N)%nat.
Proof. unfold above. etrans; [apply length_filter|]. by rewrite length_seqZ. Qed.

Lemma filter_length_lt {A} (P Q : A -> Prop) `{!forall x, Decision (P x), !forall x, Decision (Q x)} l x :
  (forall y, Q y -> P y) -> x ∈ l -> P x -> ~ Q x -> (length (filter Q l) < length (filter P l))%nat.
Proof.
  intros HQP Hx HP HQ. induction l as [|y l IH]; [by apply elem_of_nil in Hx|].
  assert (Hle : forall k : list A, (length (filter Q k) <= length (filter P k))%nat).
  { intros k. induction k as [|a k IHk]; [done|]. rewrite !filter_cons.
    destruct (decide (Q a)), (decide (P a)); cbn; try lia. by exfalso; auto. }
  rewrite !filter_cons. apply elem_of_cons in Hx as [->|Hx].
  - destruct (decide (P y)), (decide (Q y)); try done. cbn. specialize (Hle l). lia.
  - specialize (IH Hx). destruct (decide (Q y)), (decide (P y)); cbn; try lia. by exfalso; auto.
Qed.

Lemma above_lt rank t x : 0 <= x < _N -> t < rank x -> (above rank (rank x) < above rank t)%nat.
Proof.
  intros Hx Ht. unfold above. apply (filter_length_lt _ _ _ x); [lia| |done|lia].
  apply elem_of_seqZ. lia.
Qed.

(** ** The arrays represent functions *)
Record rep (D : Z -> Z) (C : bool -> Z -> Z) (T : list Z) (ml mp : Z) (z : lz) : Prop := {
  r_ld : zlen z.(dad) = _N + 1;
  r_ll : zlen z.(lson) = _N + 1;
  r_lr : zlen z.(rson) = _N + 257;
  r_D x : 0 <= x <= _N -> get z.(dad) x = D x;
  r_L x : 0 <= x <= _N -> get z.(lson) x = C false x;
  r_R x : 0 <= x <= _N + 256 -> get z.(rson) x = C true x;
  r_T : z.(textBuf) = T;
  r_ml : z.(matchLength) = ml;
  r_mp : z.(matchPosition) = mp }.

Section rep_ops.
Context {D : Z -> Z} {C : bool -> Z -> Z} {T : list Z} {ml mp : Z} {z : lz} (H : rep D C T ml mp z).
Context {B : Type}.

Lemma dad_bind i (k : Z -> res B) : 0 <= i <= _N -> (idx z.(dad) i ≫= k) = k (D i).
Proof using H. intros Hi. rewrite idx_bind by (rewrite (r_ld _ _ _ _ _ _ H); lia). by rewrite (r_D _ _ _ _ _ _ H). Qed.
Lemma lson_bind i (k : Z -> res B) : 0 <= i <= _N -> (idx z.(lson) i ≫= k) = k (C false i).
Proof using H. intros Hi. rewrite idx_bind by (rewrite (r_ll _ _ _ _ _ _ H); lia). by rewrite (r_L _ _ _ _ _ _ H). Qed.
Lemma rson_bind i (k : Z -> res B) : 0 <= i <= _N + 256 -> (idx z.(rson) i ≫= k) = k (C true i).
Proof using H. intros Hi. rewrite idx_bind by (rewrite (r_lr _ _ _ _ _ _ H); lia). by rewrite (r_R _ _ _ _ _ _ H). Qed.

Lemma put_dad_rep i v : 0 <= i <= _N -> exists z', put_dad z i v = Ok z' /\ rep (upf D i v) C T ml mp z'.
Proof using H.
  intros Hi. unfold put_dad. rewrite upd_bind by (rewrite (r_ld _ _ _ _ _ _ H); lia).
  eexists; split; [done|]. destruct H. split; cbn [set_dad dad lson rson textBuf matchLength matchPosition]; auto.
  - by rewrite zlen_set.
  - intros x Hx. rewrite get_set by lia. unfold upf. by destruct (x =? i); auto.
Qed.
Lemma put_lson_rep i v : 0 <= i <= _N -> exists z', put_lson z i v = Ok z' /\ rep D (upc C false i v) T ml mp z'.
Proof using H.
  intros Hi. unfold put_lson. rewrite upd_bind by (rewrite (r_ll _ _ _ _ _ _ H); lia).
  eexists; split; [done|]. destruct H. split; cbn [set_lson dad lson rson textBuf matchLength matchPosition]; auto.
  - by rewrite zlen_set.
  - intros x Hx. rewrite get_set by lia. unfold upc. cbn [eqb andb]. by destruct (x =? i); auto.
Qed.
Lemma put_rson_rep i v : 0 <= i <= _N + 256 -> exists z', put_rson z i v = Ok z' /\ rep D (upc C true i v) T ml mp z'.
Proof using H.
  intros Hi. unfold put_rson. rewrite upd_bind by (rewrite (r_lr _ _ _ _ _ _ H); lia).
  eexists; split; [done|]. destruct H. split; cbn [set_rson dad lson rson textBuf matchLength matchPosition]; auto.
  - by rewrite zlen_set.
  - intros x Hx. rewrite get_set by lia. unfold upc. cbn [eqb andb]. by destruct (x =? i); auto.
Qed.

(** [relink] redirects the link to [p] of its parent. *)
Lemma relink_rep p q :
  0 <= p <= _N -> 0 <= D p <= _N + 256 -> (C true (D p) <> p -> D p <= _N) ->
  exists z', relink z p q = Ok z' /\ rep D (upc C (C true (D p) =? p) (D p) q) T ml mp z'.
Proof using H.
  intros Hp Hd Hs. unfold relink. rewrite idx_bind by (rewrite (r_ld _ _ _ _ _ _ H); lia).
  rewrite (r_D _ _ _ _ _ _ H) by done. rewrite idx_bind by (rewrite (r_lr _ _ _ _ _ _ H); lia).
  rewrite (r_R _ _ _ _ _ _ H) by done.
  destruct (Z.eqb_spec (C true (D p)) p); [by apply put_rson_rep|apply put_lson_rep; lia].
Qed.
End rep_ops.

(** Runs one store of a straight-line sequence. *)
Ltac store L R :=
  let z := fresh "z" in let E := fresh "E" in let R' := fresh "R" in
  edestruct (L _ _ _ _ _ _ R) as (z & E & R'); [..|rewrite E, ?bind_Ok; clear E R; rename R' into R].

(** ** The dictionary invariant

    [cls] gives the first byte of the string at every node: the tree it is in. *)
Definition dict (cls : Z -> Z) (T : list Z) (ml mp : Z) (D : Z -> Z) (z : lz) : Prop :=
  exists C, rep D C T ml mp z /\ forest cls D C.

Lemma dict_weaken cls T ml mp D D' z :
  dict cls T ml mp D z -> (forall x, 0 <= x <= _N -> D' x = D x) -> dict cls T ml mp D' z.
Proof.
  intros (C & R & F) E. exists C. split.
  - destruct R; split; auto. intros. rewrite E; auto.
  - eapply forest_ext; [exact F|..]; auto. intros. apply E. lia.
Qed.

Lemma replace_node_ok cls T ml mp D C C0 z p r :
  rep D C0 T ml mp z -> forest cls D C -> reg D p -> 0 <= r < _N -> D r = _NIL ->
  (forall b x, 0 <= x <= _N + 256 -> x <> r -> C0 b x = C b x) ->
  exists z' D', replace_node z r p = Ok z' /\ dict (upf cls r (cls p)) T ml mp D' z' /\
    (forall x, reg D' x <-> (reg D x /\ x <> p) \/ x = r).
Proof.
  intros R F Hp Hr Hd HC. pose proof (up_range F p Hp) as Hup. pose proof (side_spec F p Hp) as [S1 S2].
  assert (Hpr : p <> r) by (intros ->; destruct Hp; clia).
  assert (Hdr : D p <> r).
  { intros E. rewrite E in S1. destruct S1 as [[_ ?]|[_ ?]]; [done|unfold root in *; clia]. }
  assert (Hlp : 0 <= C false p <= _N).
  { destruct (f_down _ _ _ F false p (or_introl Hp)) as [->|[[? _] _]]; clia. }
  assert (Hrp : 0 <= C true p <= _N).
  { destruct (f_down _ _ _ F true p (or_introl Hp)) as [->|[[? _] _]]; clia. }
  assert (Pp : 0 <= p < _N) by apply Hp.
  assert (El : C0 false p = C false p) by (apply HC; lia).
  assert (Er : C0 true p = C true p) by (apply HC; lia).
  unfold replace_node. rewrite (dad_bind R) by lia. store @put_dad_rep R; [lia|].
  rewrite (lson_bind R) by lia. rewrite El. store @put_lson_rep R; [lia|].
  rewrite (rson_bind R) by lia. rewrite upc_ne by congruence. rewrite Er. store @put_rson_rep R; [lia|].
  store @put_dad_rep R; [lia|]. store @put_dad_rep R; [lia|].
  pose proof (rank_ne F p Hp) as Hpp.
  assert (Nl : C false p <> p) by (destruct (rep_child F p r Hp Hd false) as [->|]; clia).
  assert (Nr : C true p <> p) by (destruct (rep_child F p r Hp Hd true) as [->|]; clia).
  edestruct (relink_rep R p r) as (zz & Ez & R').
  { lia. }
  { rewrite !upf_ne by done. lia. }
  { rewrite !upf_ne by done. rewrite !upc_ne by congruence. rewrite HC by lia.
    intros E. unfold side in S1. destruct (Z.eqb_spec (C true (D p)) p); [done|].
    destruct S1 as [[? _]|[? _]]; [lia|done]. }
  rewrite Ez, bind_Ok. clear Ez R. rewrite !(upf_ne _ _ _ p) in R' by done.
  rewrite (upc_ne _ true r _ true (D p)), (upc_ne _ false r), HC in R' by (congruence || lia).
  fold (side (D := D) (C := C) p) in R'. store @put_dad_rep R'; [lia|].
  eexists _, _. split; [done|]. split; [|by apply (rep_reg F p r Hp Hr Hd)].
  eexists. split; [exact R'|]. eapply forest_ext; [exact (forest_replace F p r Hp Hr Hd)|done| |done].
  intros b x Hx. pose proof (okd_range b x Hx) as [? ?]. unfold upc.
  destruct (_ && _); [done|]. destruct (eqb b true && (x =? r)) eqn:E1; [done|].
  destruct (eqb b false && (x =? r)) eqn:E2; [done|]. apply HC; [lia|]. intros ->.
  rewrite Z.eqb_refl in *. by destruct b.
Qed.

(** The rightmost node of the subtree of [q0], found within the fuel. *)
Lemma rightmost_ok cls T ml mp D C z rank q0 :
  rep D C T ml mp z -> forest cls D C -> (forall q, reg D q -> rank (D q) < rank q) ->
  reg D q0 -> C true q0 <> _NIL ->
  exists q, rightmost z q0 = Ok q /\ reg D q /\ C true q = _NIL /\ cls q = cls q0 /\
    reg D (D q) /\ C true (D q) = q /\ rank q0 <= rank (D q) /\ rank q0 < rank q.
Proof.
  intros R F Hk Hq0 Hn. unfold rightmost.
  apply (loop_inv (fun q => reg D q /\ cls q = cls q0 /\
           (q = q0 \/ (reg D (D q) /\ C true (D q) = q /\ rank q0 <= rank (D q) /\ rank q0 < rank q)))
         (fun q => above rank (rank q))).
  - intros q (Hq & Hc & Hd). destruct (Hq) as [Pq _]. rewrite (rson_bind R) by lia. eexists; split; [done|].
    destruct (Z.eqb_spec (C true q) _NIL) as [E|E].
    + destruct Hd as [->|(? & ? & ? & ?)]; [done|]. split_and!; done.
    + destruct (f_down _ _ _ F true q (or_introl Hq)) as [?|[H1 H2]]; [done|].
      pose proof (Hk _ H1) as Hlt. rewrite H2 in Hlt. split; [|apply above_lt; [apply H1|done]].
      split_and!; [done|rewrite (f_cls _ _ _ F _ H1), H2; done|right; rewrite H2].
      assert (rank q0 <= rank q) by (destruct Hd as [->|(_ & _ & ? & ?)]; lia).
      split_and!; [done|done|lia|lia].
  - split_and!; auto.
  - pose proof (above_le rank (rank q0)). lia.
Qed.

(** Pointwise comparison of updated functions. *)
Ltac upf_cases :=
  unfold upf; repeat (match goal with |- context [?a =? ?b] =>
    destruct (Z.eqb_spec a b); [try subst; try congruence|] end); try congruence.

(** ** DeleteNode *)
Section delete.
Context {cls : Z -> Z} {T : list Z} {ml mp : Z} {D : Z -> Z} {C : bool -> Z -> Z} {z : lz}.
Context (R : rep D C T ml mp z) (F : forest cls D C) (p : Z) (Hp : reg D p).

Lemma delete_finish D1 C1 z1 q :
  rep D1 C1 T ml mp z1 -> 0 <= q <= _N -> q <> p -> D1 p = D p -> C1 true (D p) = C true (D p) ->
  exists z', (dp ← idx z1.(dad) p; z ← put_dad z1 q dp; z ← relink z p q; put_dad z p _NIL) = Ok z' /\
    rep (upf (upf D1 q (D p)) p _NIL) (upc C1 (side (D := D) (C := C) p) (D p) q) T ml mp z'.
Proof using F Hp.
  intros R1 Hq Hn Ed Ec. assert (Pp : 0 <= p < _N) by apply Hp. pose proof (up_range F p Hp) as [? ?].
  destruct (side_spec F p Hp) as [S1 _]. rewrite (dad_bind R1) by lia. rewrite Ed.
  store @put_dad_rep R1; [lia|]. edestruct (relink_rep R1 p q) as (z2 & E & R2).
  { lia. }
  { rewrite upf_ne, Ed by done. lia. }
  { rewrite upf_ne, Ed, Ec by done. unfold side in S1. intros ?. destruct (Z.eqb_spec (C true (D p)) p); [done|].
    destruct S1 as [[? _]|[? _]]; [lia|done]. }
  rewrite E, bind_Ok. rewrite upf_ne, Ed, Ec in R2 by done. store @put_dad_rep R2; [lia|]. eauto.
Qed.

Lemma child_range b : 0 <= C b p <= _N.
Proof using F Hp. destruct (f_down _ _ _ F b p (or_introl Hp)) as [->|[[? _] _]]; clia. Qed.

Lemma child_ne b : C b p <> p.
Proof using F Hp.
  destruct (f_down _ _ _ F b p (or_introl Hp)) as [->|[_ E]]; [destruct Hp; clia|].
  intros E'. rewrite E' in E. by apply (rank_ne F) in Hp.
Qed.

Lemma delete_cut b : C b p = _NIL ->
  exists z' D', (dp ← idx z.(dad) p; z ← put_dad z (C (negb b) p) dp;
                 z ← relink z p (C (negb b) p); put_dad z p _NIL) = Ok z' /\
    dict cls T ml mp D' z' /\ (forall x, reg D' x <-> reg D x /\ x <> p).
Proof using R F Hp.
  intros Hc. destruct (delete_finish D C z (C (negb b) p)) as (z' & E & R'); auto using child_range, child_ne.
  exists z', (upf (upf D (C (negb b) p) (D p)) p _NIL). split; [exact E|].
  split; [|apply (cut_reg F b p Hp)].
  exists (upc C (side (D := D) (C := C) p) (D p) (C (negb b) p)).
  split; [exact R'|by apply (forest_cut F b p Hp)].
Qed.

(** The node that takes the place of a node with two children. *)
Section both.
Context (Hl : C false p <> _NIL) (Hr : C true p <> _NIL).

Lemma both_l : reg D (C false p) /\ D (C false p) = p.
Proof using F Hp Hl. by destruct (f_down _ _ _ F false p (or_introl Hp)). Qed.
Lemma both_r : reg D (C true p) /\ D (C true p) = p.
Proof using F Hp Hr. by destruct (f_down _ _ _ F true p (or_introl Hp)). Qed.
Lemma both_ne : C true p <> C false p.
Proof using F Hp Hl Hr. intros E. by apply Hr, (f_ne _ _ _ F p Hp). Qed.

Lemma both_replace q (Hq : reg D q) :
  C true q = _NIL -> q <> p -> cls q = cls p ->
  let D' := upf (upf D (C false q) (D q)) q _NIL in
  let C' := upc C (side (D := D) (C := C) q) (D q) (C false q) in
  let D'' := upf (upf (upf (upf D' q (D' p)) (C' false p) q) (C' true p) q) p _NIL in
  let C'' := upc (upc (upc C' false q (C' false p)) true q (C' true p))
                 (side (D := D') (C := C') p) (D' p) q in
  forest cls D'' C'' /\ (forall x, reg D'' x <-> reg D x /\ x <> p).
Proof using F Hp.
  intros Hc Hn Hcl D' C' D'' C''. assert (Rg : forall x, reg D' x <-> reg D x /\ x <> q) by apply (cut_reg F true q Hq).
  assert (F' : forest cls D' C') by apply (forest_cut F true q Hq Hc).
  assert (Hp' : reg D' p) by (apply Rg; auto). assert (Hq' : D' q = _NIL) by apply upf_eq.
  assert (Pq : 0 <= q < _N) by apply Hq. split.
  - eapply forest_ext; [exact (forest_replace F' p q Hp' Pq Hq')|done|done|].
    intros x Hx. unfold upf. destruct (Z.eqb_spec x q) as [->|]; congruence.
  - intros x. pose proof (rep_reg F' p q Hp' Pq Hq' x) as E. fold D'' in E. rewrite E, Rg.
    split; [intros [[[? ?] ?]| ->]; auto|]. intros [? ?]. destruct (decide (x = q)); auto.
Qed.

(** What a branch of [delete_both] has to establish. *)
Definition both_done (zq : res (lz * Z)) : Prop :=
  exists z1 q z' D', zq = Ok (z1, q) /\
    (dp ← idx z1.(dad) p; z ← put_dad z1 q dp; z ← relink z p q; put_dad z p _NIL) = Ok z' /\
    dict cls T ml mp D' z' /\ (forall x, reg D' x <-> reg D x /\ x <> p).

Lemma both_transport D2 C2 Df Cf z1 q z' :
  forest cls D2 C2 /\ (forall x, reg D2 x <-> reg D x /\ x <> p) -> rep Df Cf T ml mp z' ->
  (dp ← idx z1.(dad) p; z ← put_dad z1 q dp; z ← relink z p q; put_dad z p _NIL) = Ok z' ->
  (forall x, 0 <= x < _N -> Df x = D2 x) -> (forall b x, x <> p -> Cf b x = C2 b x) ->
  both_done (Ok (z1, q)).
Proof using F Hp.
  intros [F2 Rg] R' E ED EC. exists z1, q, z', Df. split; [done|]. split; [exact E|]. split.
  - exists Cf. split; [done|]. eapply forest_ext; [exact F2|done| |done].
    intros b x Hx. apply EC. intros ->. destruct Hx as [Hx|[_ Hx]]; [by apply Rg in Hx as [_ ?]|].
    by apply (root_not_reg (D := D) p) in Hx.
  - intros x. rewrite <- Rg. unfold reg. split; intros [? ?]; rewrite ?ED in * by done; auto.
Qed.

(** The parent of [p] is not below it. *)
Lemma parent_ne b : D p <> C b p /\ (forall b', reg D (C b p) -> C b' (C b p) <> p).
Proof using F Hp.
  destruct (f_rank _ _ _ F) as [rank Hk]. pose proof (Hk _ Hp) as K2. pose proof (up_range F p Hp).
  destruct (f_down _ _ _ F b p (or_introl Hp)) as [->|[Hc Ec]]; [split; [clia|intros ? [? ?]; clia]|].
  pose proof (Hk _ Hc) as K1. rewrite Ec in K1. split; [intros E; rewrite E in K2; lia|].
  intros b' _ E. destruct (f_down _ _ _ F b' (C b p) (or_introl Hc)) as [E'|[_ E']]; [destruct Hp; clia|].
  rewrite E in E'. rewrite E' in K2. lia.
Qed.

Lemma both_left : C true (C false p) = _NIL ->
  both_done (rp ← idx z.(rson) p; z ← put_rson z (C false p) rp; z ← put_dad z rp (C false p); mret (z, C false p)).
Proof using R F Hp Hl Hr.
  intros Ec. pose proof both_l as [Rl El]. pose proof both_ne as Hne.
  pose proof (up_range F p Hp) as [? ?]. pose proof (rank_ne F p Hp). destruct (parent_ne false) as [Nd Nlq].
  specialize (Nlq false Rl).
  pose proof (child_range true). pose proof (child_range false). pose proof (child_ne true) as Nr. pose proof (child_ne false) as Nl.
  assert (Pp : 0 <= p < _N) by apply Hp.
  pose proof (both_replace (C false p) Rl Ec Nl) as F2. cbv zeta in F2.
  assert (Sq : side (D := D) (C := C) (C false p) = false).
  { unfold side. rewrite El. by apply Z.eqb_neq. }
  rewrite Sq, El, upc_eq, (upc_ne C false p _ true), !(upf_ne _ _ _ p) in F2 by congruence.
  rewrite (rson_bind R) by lia. store @put_rson_rep R; [lia|]. store @put_dad_rep R; [lia|].
  destruct (delete_finish _ _ _ (C false p) R) as (z' & E & R'); [lia|done|..].
  { by rewrite upf_ne. }
  { by rewrite upc_ne by congruence. }
  eapply both_transport; [apply F2|exact R'|exact E|..].
  { by rewrite (f_cls _ _ _ F _ Rl), El. }
  - intros x Hx. destruct (f_down _ _ _ F false (C false p) (or_introl Rl)) as [Eq|[Hq Eq]].
    + rewrite Eq. unfold upf. repeat case_match; clia.
    + pose proof (rank_ne F _ Rl). unfold upf. repeat case_match; rewrite ?Z.eqb_eq, ?Z.eqb_neq in *; congruence.
  - intros b x Hx. unfold side. rewrite !(upf_ne _ _ _ p), (upc_ne C false p _ true) by congruence.
    unfold upc. destruct b; cbn [eqb andb]; repeat case_match; rewrite ?Z.eqb_eq, ?Z.eqb_neq in *; congruence.
Qed.

Lemma both_deep : C true (C false p) <> _NIL ->
  both_done (zq ← (q ← rightmost z (C false p); dq ← idx z.(dad) q; lq ← idx z.(lson) q;
                   z ← put_rson z dq lq; z ← put_dad z lq dq;
                   lp ← idx z.(lson) p; z ← put_lson z q lp; z ← put_dad z lp q; mret (z, q));
             let '(z, q) := zq in
             rp ← idx z.(rson) p; z ← put_rson z q rp; z ← put_dad z rp q; mret (z, q)).
Proof using R F Hp Hl Hr.
  intros Ec. pose proof both_l as [Rl El]. pose proof both_r as [Rr Er]. destruct (f_rank _ _ _ F) as [rank Hk].
  pose proof (up_range F p Hp) as [? ?]. pose proof (rank_ne F p Hp).
  pose proof (child_range true). pose proof (child_range false). pose proof (child_ne true) as Nr. pose proof (child_ne false) as Nl.
  assert (Pp : 0 <= p < _N) by apply Hp.
  pose proof (Hk _ Hp) as K1. pose proof (Hk _ Rl) as K2. rewrite El in K2.
  destruct (rightmost_ok _ _ _ _ _ _ _ rank _ R F Hk Rl Ec) as (q & -> & Hq & Cq & Clq & Hdq & Edq & K3 & K4).
  rewrite bind_Ok. assert (Pq : 0 <= q < _N) by apply Hq. assert (Pd : 0 <= D q < _N) by apply Hdq.
  assert (q <> p /\ q <> C false p /\ D q <> p /\ D p <> q /\ D p <> D q) as (N1 & N2 & N3 & N4 & N5).
  { split_and!; intros E'; rewrite ?E' in *; lia. }
  assert (N6 : q <> C true p) by congruence.
  assert (Nlq : C false q <> p).
  { intros E. destruct (f_down _ _ _ F false q (or_introl Hq)) as [?|[_ ?]]; [clia|congruence]. }
  assert (Plq : 0 <= C false q <= _N).
  { destruct (f_down _ _ _ F false q (or_introl Hq)) as [->|[[? _] _]]; clia. }
  pose proof (both_replace q Hq Cq N1) as F2. cbv zeta in F2.
  assert (Sq : side (D := D) (C := C) q = true) by (unfold side; by apply Z.eqb_eq).
  rewrite Sq, !(upc_ne C true (D q) _ _ p), !(upf_ne _ _ _ p) in F2 by congruence.
  rewrite (dad_bind R), (lson_bind R) by lia. store @put_rson_rep R; [lia|]. store @put_dad_rep R; [lia|].
  rewrite (lson_bind R), upc_ne by (congruence || lia). store @put_lson_rep R; [lia|]. store @put_dad_rep R; [lia|].
  rewrite (rson_bind R), !upc_ne by (congruence || lia).
  store @put_rson_rep R; [lia|]. store @put_dad_rep R; [lia|].
  destruct (delete_finish _ _ _ q R) as (z' & E & R'); [lia|done|..].
  { by rewrite !upf_ne by congruence. }
  { by rewrite !upc_ne by congruence. }
  eapply both_transport; [apply F2|exact R'|exact E|..].
  { by rewrite Clq, (f_cls _ _ _ F _ Rl), El. }
  - intros x Hx. unfold upf. repeat case_match; rewrite ?Z.eqb_eq, ?Z.eqb_neq in *; congruence.
  - intros b x Hx. unfold side. by rewrite !(upf_ne _ _ _ p), (upc_ne C true (D q) _ true) by congruence.
Qed.

Lemma delete_both_ok : both_done (delete_both z p).
Proof using R F Hp Hl Hr.
  pose proof (child_range true). pose proof (child_range false). assert (Pp : 0 <= p < _N) by apply Hp.
  unfold delete_both. rewrite (lson_bind R), (rson_bind R) by lia.
  destruct (Z.eqb_spec (C true (C false p)) _NIL) as [Ec|Ec]; [by apply both_left|by apply both_deep].
Qed.
End both.
End delete.

(** [DeleteNode] takes exactly the node [p] out of the dictionary. *)
Lemma DeleteNode_ok cls T ml mp D z p :
  dict cls T ml mp D z -> 0 <= p < _N ->
  exists z' D', DeleteNode z p = Ok z' /\ dict cls T ml mp D' z' /\
    (forall x, reg D' x <-> reg D x /\ x <> p).
Proof.
  intros (C & R & F) Pp. unfold DeleteNode. rewrite (dad_bind R) by lia.
  destruct (Z.eqb_spec (D p) _NIL) as [Ed|Ed].
  { exists z, D. split; [done|]. split; [by exists C|]. intros x. split; [|by intros [? _]].
    intros Hx. split; [done|]. intros ->. by destruct Hx. }
  assert (Hp : reg D p) by done. rewrite (rson_bind R), (lson_bind R) by lia.
  destruct (Z.eqb_spec (C true p) _NIL) as [Er|Er]; [|destruct (Z.eqb_spec (C false p) _NIL) as [El|El]].
  - apply (delete_cut R F p Hp true Er).
  - apply (delete_cut R F p Hp false El).
  - destruct (delete_both_ok R F p Hp El Er) as (z1 & q & z' & D' & -> & E & ? & ?).
    rewrite bind_Ok. by exists z', D'.
Qed.

(** ** InsertNode *)

(** What the recorded match says: some string [p] of the dictionary starts with
    the same byte and agrees with the text at [r] on [ml] bytes. *)
Definition match_at (cls : Z -> Z) (D : Z -> Z) (T : list Z) (r ml mp p : Z) : Prop :=
  reg D p /\ cls p = get T r /\ _Threshold < ml <= _F /\ mp = distance r p /\
  (forall k, 1 <= k < ml -> get T (r + k) = get T (p + k)).
Definition matched cls D T r ml mp : Prop := ml = 0 \/ exists p, match_at cls D T r ml mp p.

Section insert.
Context {cls : Z -> Z} {T : list Z} {D : Z -> Z} {C : bool -> Z -> Z}.
Context (F : forest cls D C) (LT : zlen T = _N + _F - 1) (r : Z) (Pr : 0 <= r < _N) (Hd : D r = _NIL).
Abbreviation C0 := (upc (upc C true r _NIL) false r _NIL).

Lemma compare_ok ml mp z p cmp :
  rep D C0 T ml mp z -> 0 <= p < _N ->
  exists i c, compare z r p cmp = Ok (i, c) /\ 1 <= i <= _F /\
    (forall k, 1 <= k < i -> get T (r + k) = get T (p + k)).
Proof using LT Pr.
  intros R Pp. unfold compare.
  destruct (loop_inv (fun ic : Z * Z => 1 <= ic.1 <= _F /\
              (forall k, 1 <= k < ic.1 -> get T (r + k) = get T (p + k)))
           (fun ic => Z.to_nat (_F - ic.1))
           (fun ic => 1 <= ic.1 <= _F /\ (forall k, 1 <= k < ic.1 -> get T (r + k) = get T (p + k)))
           (Z.to_nat _F) (compare_step z r p) (1, cmp)) as ([i c] & E & H1 & H2).
  - intros [i c] [Hi Hk]. cbn [fst] in *. unfold compare_step.
    destruct (Z.ltb_spec i _F) as [Hf|Hf]; [|eexists; by split].
    rewrite (r_T _ _ _ _ _ _ R). rewrite !idx_bind by (rewrite LT; clia). eexists; split; [done|].
    destruct (Z.eqb_spec (get T (r + i) - get T (p + i)) 0) as [E|E]; cbn [fst]; [|by split].
    split; [|lia]. split; [lia|]. intros k Hk'. destruct (decide (k = i)) as [->|]; [lia|]. apply Hk. lia.
  - split; [cbn [fst]; clia|]. cbn [fst]. lia.
  - cbn [fst]; clia.
  - by exists i, c.
Qed.

Lemma record_match_ok ml mp z p i :
  rep D C0 T ml mp z -> matched cls D T r ml mp -> reg D p -> cls p = get T r -> 1 <= i <= _F ->
  (forall k, 1 <= k < i -> get T (r + k) = get T (p + k)) ->
  exists ml' mp', rep D C0 T ml' mp' (record_match z r p i).1 /\ matched cls D T r ml' mp'.
Proof.
  intros R M Hp Hc Hi Hk. pose proof (r_ml _ _ _ _ _ _ R) as El. pose proof (r_mp _ _ _ _ _ _ R) as Em.
  assert (New : forall l, _Threshold < l -> l = i -> rep D C0 T l (distance r p) (set_match z l (distance r p)) /\
                  matched cls D T r l (distance r p)).
  { intros l Ht ->. split; [destruct R; by split|]. right. exists p. split_and!; auto; lia. }
  unfold record_match. destruct (Z.ltb_spec _Threshold i); [|by eauto].
  destruct (Z.ltb_spec (matchLength z) i) as [Hl|Hl]; cbn [andb matchLength set_match].
  - assert (G : exists ml' mp', rep D C0 T ml' mp' (set_match z i (distance r p)) /\ matched cls D T r ml' mp').
    { eexists _, _. apply New; auto. }
    destruct (_F <=? i); [done|]. rewrite Z.eqb_refl. cbn [matchPosition set_match].
    by rewrite Z.ltb_irrefl.
  - destruct (Z.eqb_spec i (matchLength z)) as [E|E]; [|by eauto].
    destruct (distance r p <? matchPosition z); [|by eauto].
    eexists _, _. apply New; auto. lia.
Qed.

Lemma go_down_ok ml mp z p cmp :
  rep D C0 T ml mp z -> okd D true p -> (cmp < 0 -> reg D p) ->
  let b := 0 <=? cmp in
  if C b p =? _NIL then exists z', go_down z r p cmp = Ok (inr z') /\ rep (upf D r p) (upc C0 b p r) T ml mp z'
  else go_down z r p cmp = Ok (inl (C b p)).
Proof using Pr Hd.
  intros R Hp Hs b. pose proof (okd_range _ _ Hp) as [? ?]. unfold go_down.
  assert (p <> r) by (intros ->; destruct Hp as [[_ ?]|[_ ?]]; [done|unfold root in *; clia]).
  assert (E0 : forall b', C0 b' p = C b' p) by (intros; rewrite !upc_ne by congruence; done).
  fold b. destruct b eqn:Eb.
  - rewrite (rson_bind R), E0 by lia. destruct (Z.eqb_spec (C true p) _NIL); [|done].
    store @put_rson_rep R; [lia|]. store @put_dad_rep R; [lia|]. eauto.
  - assert (0 <= p < _N) by (apply Hs; unfold b in Eb; lia).
    rewrite (lson_bind R), E0 by lia. destruct (Z.eqb_spec (C false p) _NIL); [|done].
    store @put_lson_rep R; [lia|]. store @put_dad_rep R; [lia|]. eauto.
Qed.

Definition insert_inv (s : Z * Z * lz) : Prop :=
  let '(p, cmp, z) := s in
  exists ml mp, rep D C0 T ml mp z /\ matched cls D T r ml mp /\ okd D true p /\
    (cmp < 0 -> reg D p) /\ cls p = get T r.

Definition insert_post (s : lz * option Z) : Prop :=
  exists ml mp, matched cls D T r ml mp /\
  match s with
  | (z, None) => exists b p, rep (upf D r p) (upc C0 b p r) T ml mp z /\ okd D b p /\
                   C b p = _NIL /\ cls p = get T r
  | (z, Some p) => rep D C0 T ml mp z /\ reg D p /\ cls p = get T r
  end.

Lemma insert_step_ok rank s :
  (forall q, reg D q -> rank (D q) < rank q) -> insert_inv s ->
  exists x, insert_step r s = Ok x /\
    match x with
    | inl s' => insert_inv s' /\ (above rank (rank s'.1.1) < above rank (rank s.1.1))%nat
    | inr t => insert_post t
    end.
Proof using F LT Pr Hd.
  intros Hk. destruct s as [[p cmp] z]. intros (ml & mp & R & M & Hp & Hs & Hc). unfold insert_step.
  pose proof (go_down_ok ml mp z p cmp R Hp Hs) as G. cbv zeta in G.
  assert (Hb : okd D (0 <=? cmp) p).
  { destruct (Z.leb_spec 0 cmp); [done|left; auto]. }
  destruct (Z.eqb_spec (C (0 <=? cmp) p) _NIL) as [E|E].
  - destruct G as (z' & -> & R'). rewrite bind_Ok. eexists; split; [done|]. exists ml, mp. eauto 10.
  - rewrite G, bind_Ok. destruct (f_down _ _ _ F _ _ Hb) as [?|[Hq Eq]]; [done|].
    destruct (compare_ok ml mp z (C (0 <=? cmp) p) cmp R) as (i & c & -> & Hi & Hm); [apply Hq|].
    rewrite bind_Ok. cbn [fst snd].
    assert (Hcq : cls (C (0 <=? cmp) p) = get T r) by (rewrite (f_cls _ _ _ F _ Hq), Eq; done).
    destruct (record_match_ok ml mp z _ i R M Hq Hcq Hi Hm) as (ml' & mp' & R' & M').
    destruct (record_match _ _ _ _) as [z' full]. cbn [fst] in R'. eexists; split; [done|].
    destruct full; [by exists ml', mp'|]. split.
    + exists ml', mp'. split_and!; auto. by left.
    + cbn [fst]. apply above_lt; [apply Hq|]. rewrite <- Eq at 1. auto.
Qed.
End insert.

(** [InsertNode] always returns; it records a match of the dictionary, and adds
    [r] (in the place of a string it matches in full, if there is one). *)
Lemma InsertNode_ok cls T ml mp D z r :
  dict cls T ml mp D z -> zlen T = _N + _F - 1 -> 0 <= get T r < 256 -> 0 <= r < _N -> D r = _NIL ->
  exists z' D' ml' mp', InsertNode z r = Ok z' /\ dict (upf cls r (get T r)) T ml' mp' D' z' /\
    matched cls D T r ml' mp' /\ reg D' r /\ (forall x, reg D' x -> reg D x \/ x = r).
Proof.
  intros (C & R & F) LT Ht Pr Hd. unfold InsertNode.
  rewrite (r_T _ _ _ _ _ _ R), idx_bind by (rewrite LT; clia).
  store @put_rson_rep R; [lia|]. store @put_lson_rep R; [lia|].
  match goal with |- context [set_match ?z 0 ?p] => set (zz := set_match z 0 p) end.
  assert (R' : rep D (upc (upc C true r _NIL) false r _NIL) T 0 mp zz) by (destruct R; by split).
  destruct (f_rank _ _ _ F) as [rank Hk].
  assert (Hroot : root (_N + 1 + get T r)) by (unfold root; lia).
  destruct (loop_inv (insert_inv (cls := cls) (T := T) (D := D) (C := C) r)
              (fun s => above rank (rank s.1.1)) (insert_post (cls := cls) (T := T) (D := D) (C := C) r)
              (S (S (Z.to_nat _N))) (insert_step r) (_N + 1 + get T r, 1, zz)) as ([z' o] & -> & Q).
  - intros s Hs. by apply (insert_step_ok F LT r Pr Hd rank).
  - exists 0, mp. split_and!; auto; [by left|by right|lia|]. rewrite (f_root _ _ _ F) by done. lia.
  - pose proof (above_le rank (rank (_N + 1 + get T r, 1, zz).1.1)). lia.
  - rewrite bind_Ok. destruct Q as (ml' & mp' & M & Q). destruct o as [p|].
    + destruct Q as (Rz & Hp & Hc).
      destruct (replace_node_ok cls T ml' mp' D C _ z' p r Rz F Hp Pr Hd) as (z2 & D' & -> & Dc & Rg).
      { intros b x _ Hx. by rewrite !upc_ne by congruence. }
      rewrite Hc in Dc. eexists _, D', ml', mp'. split; [done|]. split_and!; auto.
      * apply Rg. by right.
      * intros x Hx. apply Rg in Hx as [[? _]|?]; auto.
    + destruct Q as (b & p & Rz & Hp & En & Hc). exists z', (upf D r p), ml', mp'. split; [done|].
      pose proof (forest_hang F b p r Hp En Pr Hd) as F'. rewrite Hc in F'. pose proof (okd_range _ _ Hp).
      split_and!; auto; [by eexists|..].
      * split; [done|]. rewrite upf_eq. clia.
      * intros x [? Hx]. unfold upf in Hx. destruct (Z.eqb_spec x r); [by right|by left].
Qed.

(** ** InitTree *)
Lemma InitTree_ok z cls :
  zlen z.(dad) = _N + 1 -> zlen z.(lson) = _N + 1 -> zlen z.(rson) = _N + 257 ->
  (forall d, root d -> cls d = d - (_N + 1)) ->
  exists z', InitTree z = Ok z' /\
    dict cls z.(textBuf) z.(matchLength) z.(matchPosition) (get z'.(dad)) z' /\
    (forall x, 0 <= x < _N -> get z'.(dad) x = _NIL).
Proof.
  intros Ld Ll Lr Hc. unfold InitTree.
  set (Cz := fun (z : lz) (b : bool) => get (if b then z.(rson) else z.(lson))).
  set (ok := fun z' => rep (get z'.(dad)) (Cz z') z.(textBuf) z.(matchLength) z.(matchPosition) z').
  destruct (for_range_inv (fun i z' => ok z' /\ forall d, _N + 1 <= d < i -> get z'.(rson) d = _NIL)
              (_N + 1) (_N + 256 + 1) (fun i z => put_rson z i _NIL) z) as (z1 & -> & O1 & H1).
  { lia. }
  { intros i z' Hi [O1 H1]. unfold put_rson. rewrite upd_bind by (rewrite (r_lr _ _ _ _ _ _ O1); clia).
    eexists; split; [done|]. cbn [set_rson rson]. pose proof (r_lr _ _ _ _ _ _ O1). split.
    - destruct O1. split; cbn [set_rson dad lson rson textBuf matchLength matchPosition]; auto. by rewrite zlen_set.
    - intros d Hd. rewrite get_set by clia. destruct (Z.eqb_spec d i); [done|]. apply H1. lia. }
  { split; [by split|]. lia. }
  rewrite bind_Ok.
  destruct (for_range_inv (fun i z' => ok z' /\ z'.(rson) = z1.(rson) /\ forall d, 0 <= d < i -> get z'.(dad) d = _NIL)
              0 _N (fun i z => put_dad z i _NIL) z1) as (z2 & -> & O2 & E2 & H2).
  { clia. }
  { intros i z' Hi (O2 & E2 & H2). unfold put_dad. rewrite upd_bind by (rewrite (r_ld _ _ _ _ _ _ O2); lia).
    eexists; split; [done|]. cbn [set_dad rson dad]. pose proof (r_ld _ _ _ _ _ _ O2). split_and!; auto.
    - destruct O2. split; cbn [set_dad dad lson rson textBuf matchLength matchPosition]; auto. by rewrite zlen_set.
    - intros d Hd. rewrite get_set by lia. destruct (Z.eqb_spec d i); [done|]. apply H2. lia. }
  { split_and!; auto. lia. }
  exists z2. split; [done|]. split; [|done]. exists (Cz z2). split; [exact O2|].
  assert (Nr : forall x, ~ reg (get z2.(dad)) x) by (intros x [? Hx]; rewrite H2 in Hx by done; done).
  split; try (intros ? Hq; by apply Nr in Hq); auto.
  - intros b d [Hd|[-> Hd]]; [by apply Nr in Hd|]. left. cbn. rewrite E2. apply H1. unfold root in Hd. lia.
  - exists id. intros q Hq. by apply Nr in Hq.
Qed.
