(* ===== verification/Tokens.v ===== *)
(** The tokens both sides of the compressor agree on: literals and copies, what
    they say about the text, and the bits the adaptive Huffman coder gives them. *)
From S2P Require Import Prelude Huffman Reconst Crc BitIO HuffCode.

Inductive token := Lit (c : Z) | Copy (len pos : Z).

#[export] Instance token_eq_dec : EqDecision token.
Proof. solve_decision. Defined.

(** The symbol of a token in the Huffman tree, and the position bits after it. *)
Definition sym (t : token) : Z :=
  match t with Lit c => c | Copy len _ => 255 - _Threshold + len end.
Definition tail_bits (t : token) : list bool :=
  match t with Lit _ => [] | Copy _ pos => posbits pos end.

(** How many bytes a token stands for. *)
Definition tlen (t : token) : Z := match t with Lit _ => 1 | Copy len _ => len end.

(** The text, as a function of the position; spaces come before its start. *)
Definition text (data : list Z) (i : Z) : Z := if i <? 0 then 32 else get data i.

(** [t] describes the text at [n].  A copy may overlap the bytes it produces. *)
Definition says (X : Z -> Z) (n : Z) (t : token) : Prop :=
  match t with
  | Lit c => 0 <= c < 256 /\ X n = c
  | Copy len pos => _Threshold < len <= _F /\ 0 <= pos < _N - _F /\ - _F <= n - pos - 1 /\
      forall k, 0 <= k < len -> X (n + k) = X (n + k - pos - 1)
  end.

(** The tokens describe the text from [n] up to [n']. *)
Inductive covers (X : Z -> Z) : Z -> list token -> Z -> Prop :=
| covers_nil n : covers X n [] n
| covers_cons n t ts n' : says X n t -> covers X (n + tlen t) ts n' -> covers X n (t :: ts) n'.

(** [run z ts bs m z']: from the tree [z], the tokens [ts] are coded as [bs] and
    lead to the tree [z']; the longest Huffman code used has [m] bits. *)
Inductive run : huff -> list token -> list bool -> nat -> huff -> Prop :=
| run_nil z : run z [] [] 0 z
| run_cons z t ts cb bs m z1 z2 :
    cbits z (sym t) cb -> update z (sym t) = Ok z1 -> run z1 ts bs m z2 ->
    run z (t :: ts) (cb ++ tail_bits t ++ bs) (length cb `max` m) z2.

Lemma says_sym X n t : says X n t -> 0 <= sym t < _NumChar.
Proof. destruct t; cbn; clia. Qed.

Lemma says_tlen X n t : says X n t -> 0 < tlen t.
Proof. destruct t; cbn; clia. Qed.

Lemma covers_snoc X n ts n' t : covers X n ts n' -> says X n' t -> covers X n (ts ++ [t]) (n' + tlen t).
Proof.
  intros H Ht. induction H as [n|n u ts n' Hu H IH]; cbn [app].
  - constructor; [done|constructor].
  - constructor; [done|by apply IH].
Qed.

Lemma covers_le X n ts n' : covers X n ts n' -> n + zlen ts <= n'.
Proof.
  induction 1 as [n|n t ts n' Ht H IH]; rewrite ?zlen_nil, ?zlen_cons; [lia|].
  apply says_tlen in Ht. lia.
Qed.

Lemma run_snoc z ts bs m z1 t cb z2 :
  run z ts bs m z1 -> cbits z1 (sym t) cb -> update z1 (sym t) = Ok z2 ->
  run z (ts ++ [t]) (bs ++ cb ++ tail_bits t) (m `max` length cb) z2.
Proof.
  intros H Hc Hu. induction H as [z|z u ts cb' bs m z3 z4 Hc' Hu' H IH]; cbn [app].
  - replace (0 `max` length cb)%nat with (length cb `max` 0)%nat by lia.
    replace (cb ++ tail_bits t) with (cb ++ tail_bits t ++ []) by (by rewrite app_nil_r).
    econstructor; [done..|constructor].
  - rewrite <- !app_assoc. rewrite <- Nat.max_assoc. econstructor; [done..|]. by apply IH.
Qed.

(** The codes stay within 16 bits for the first 3867 symbols. *)
Lemma run_short z ts bs m z' : run z ts bs m z' -> huff_ok z ->
  Forall (fun t => 0 <= sym t < _NumChar) ts -> get z.(freq) _R + zlen ts <= 4181 -> (m <= 16)%nat.
Proof.
  induction 1 as [z|z t ts cb bs m z1 z2 Hc Hu H IH]; intros Hz Hf Hw; [lia|].
  apply Forall_cons_1 in Hf as [Ht Hf]. rewrite zlen_cons in Hw. pose proof (zlen_nonneg ts).
  destruct (update_ok z (sym t) Hz Ht) as (z1' & Eu & Hz1 & Hr). rewrite Hu in Eu. injection Eu as <-.
  apply Nat.max_lub; [apply (short_codes z (sym t)); auto; lia|]. apply IH; auto. rewrite Hr by clia. lia.
Qed.

Lemma covers_syms X n ts n' : covers X n ts n' -> Forall (fun t => 0 <= sym t < _NumChar) ts.
Proof. induction 1; constructor; eauto using says_sym. Qed.

(** A coded text is at most 22 bits a token longer than its longest codes. *)
Lemma tail_bits_short X n t : says X n t -> zlen (tail_bits t) <= 22.
Proof.
  destruct t as [c|len pos]; [cbn; intros; unfold zlen; cbn; lia|]. intros (_ & Hp & _). cbn [tail_bits].
  pose proof (poscode_all pos ltac:(clia)) as H. unfold poscode in H. rewrite !andb_true_iff in H.
  unfold posbits. rewrite zlen_app. unfold zlen. rewrite !length_bitsof. lia.
Qed.

Lemma run_length X z ts bs m z' n n' : run z ts bs m z' -> covers X n ts n' ->
  zlen bs <= zlen ts * (Z.of_nat m + 22).
Proof.
  intros H. revert n. induction H as [z|z t ts cb bs m z1 z2 Hc Hu H IH]; intros n Hn; [done|].
  inversion Hn as [|? ? ? ? Ht Hts]; subst. specialize (IH _ Hts). apply tail_bits_short in Ht.
  rewrite !zlen_app, zlen_cons. pose proof (zlen_nonneg ts). unfold zlen in *. nia.
Qed.
