(* ===== verification/Writer.v ===== *)
(** The compressor of [src/lzhuf/writer.go]: the state of a Writer and its
    methods, and what the bytes it produces say about the data written.

    The compressed bits go to a bytes.Buffer, whose writes do not fail, so the
    sticky error of the Writer stays nil; the destination the header and the
    buffer are copied to on [Close] is a byte sink that accepts all of it. *)
From S2P Require Import Prelude Huffman Reconst Crc BitIO HuffCode LzTree Tokens.

(** ** State *)
Record writer := mkWriter {
  w_crc16 : bool;          (* crc16 *)
  w_h : huff;              (* z: the Huffman half *)
  w_z : lz;                (* z: the dictionary half *)
  w_out : bitw;            (* buf, putbuf, putlen *)
  w_len : Z; w_r : Z; w_s : Z;
  lastMatchLength : Z;
  preFilled : bool;
  fileSize : Z }.

Definition set_z (w : writer) (z : lz) : writer :=
  mkWriter w.(w_crc16) w.(w_h) z w.(w_out) w.(w_len) w.(w_r) w.(w_s)
    w.(lastMatchLength) w.(preFilled) w.(fileSize).
Definition set_last (w : writer) (n : Z) : writer :=
  mkWriter w.(w_crc16) w.(w_h) w.(w_z) w.(w_out) w.(w_len) w.(w_r) w.(w_s)
    n w.(preFilled) w.(fileSize).
Definition set_len (w : writer) (n : Z) : writer :=
  mkWriter w.(w_crc16) w.(w_h) w.(w_z) w.(w_out) n w.(w_r) w.(w_s)
    w.(lastMatchLength) w.(preFilled) w.(fileSize).
Definition set_coder (w : writer) (h : huff) (o : bitw) : writer :=
  mkWriter w.(w_crc16) h w.(w_z) o w.(w_len) w.(w_r) w.(w_s)
    w.(lastMatchLength) w.(preFilled) w.(fileSize).
Definition set_ring (w : writer) (r s : Z) : writer :=
  mkWriter w.(w_crc16) w.(w_h) w.(w_z) w.(w_out) w.(w_len) r s
    w.(lastMatchLength) w.(preFilled) w.(fileSize).
Definition set_filled (w : writer) (b : bool) : writer :=
  mkWriter w.(w_crc16) w.(w_h) w.(w_z) w.(w_out) w.(w_len) w.(w_r) w.(w_s)
    w.(lastMatchLength) b w.(fileSize).
(** [w.fileSize++] on int32 *)
Definition count_byte (w : writer) : writer :=
  mkWriter w.(w_crc16) w.(w_h) w.(w_z) w.(w_out) w.(w_len) w.(w_r) w.(w_s)
    w.(lastMatchLength) w.(preFilled) (i32 (w.(fileSize) + 1)).

(** [w.z.textBuf[i] = c] *)
Definition put_text (z : lz) (i c : Z) : res lz := t ← upd z.(textBuf) i c; mret (set_text z t).

(** ** Operations *)
Definition NewWriter (crc16 : bool) : res writer :=
  h ← newHuff;
  z ← InitTree zeroLz;
  z ← for_range 0 (_N - _F) (fun i z => put_text z i 32) z;
  mret (mkWriter crc16 h z (mkBitw [] 0 0) 0 (_N - _F) 0 0 false 0).

Definition NewB2Writer : res writer := NewWriter true.

Definition encode (w : writer) : res writer :=
  if w.(w_len) =? 0 then mret w
  else
    let z := w.(w_z) in
    let z := if w.(w_len) <? z.(matchLength) then set_match z w.(w_len) z.(matchPosition) else z in
    if z.(matchLength) <=? _Threshold then
      let z := set_match z 1 z.(matchPosition) in
      c ← idx z.(textBuf) w.(w_r);
      ho ← encodeChar w.(w_h) w.(w_out) c;
      mret (set_last (set_coder (set_z w z) ho.1 ho.2) 1)
    else
      ho ← encodeChar w.(w_h) w.(w_out) (255 - _Threshold + z.(matchLength));
      o ← encodePosition ho.2 z.(matchPosition);
      mret (set_last (set_coder (set_z w z) ho.1 o) z.(matchLength)).

(** Adding the byte [c] to the lookahead buffer, mirrored past the end. *)
Definition load_byte (w : writer) (c : Z) : res writer :=
  z ← put_text w.(w_z) w.(w_s) c;
  z ← (if w.(w_s) <? _F - 1 then put_text z (w.(w_s) + _N) c else mret z);
  mret (set_len (set_z w z) (w.(w_len) + 1)).

Definition advance (w : writer) (c : option Z) : res writer :=
  w ← (match c with Some c => load_byte w c | None => mret w end);
  z ← InsertNode w.(w_z) w.(w_r);
  let w := set_last (set_z w z) (w.(lastMatchLength) - 1) in
  w ← (if w.(lastMatchLength) =? 0 then encode w else mret w);
  z ← DeleteNode w.(w_z) w.(w_s);
  let w := set_z w z in
  let w := set_ring w (Z.land (w.(w_r) + 1) (_N - 1)) (Z.land (w.(w_s) + 1) (_N - 1)) in
  mret (set_len w (w.(w_len) - 1)).

(** One iteration of the pre-fill loop of [Write]. *)
Definition prefill_byte (w : writer) (c : Z) : res writer :=
  z ← put_text w.(w_z) (w.(w_r) + w.(w_len)) c;
  let w := count_byte (set_z w z) in
  let w := set_len w (w.(w_len) + 1) in
  z ← InsertNode w.(w_z) (w.(w_r) - w.(w_len));
  let w := set_last (set_z w z) 1 in
  mret (set_filled w (w.(w_len) =? _F)).

(** [for !w.preFilled && n < len(p)]: the bytes left over when it stops. *)
Fixpoint prefill (w : writer) (p : list Z) : res (writer * list Z) :=
  match p with
  | [] => mret (w, [])
  | c :: p' => if w.(preFilled) then mret (w, p)
               else w ← prefill_byte w c; prefill w p'
  end.

Fixpoint write_rest (w : writer) (p : list Z) : res writer :=
  match p with
  | [] => mret w
  | c :: p => w ← advance w (Some c); write_rest (count_byte w) p
  end.

(** [Write]: the Writer and the number of bytes accepted. *)
Definition Write (w : writer) (p : list Z) : res (writer * Z) :=
  wp ← prefill w p;
  w ← write_rest wp.1 wp.2;
  mret (w, zlen p).

(** [for w.len > 0 { w.advance(nil) }] *)
Definition flush_lookahead (w : writer) : res writer :=
  loop (S (Z.to_nat w.(w_len))) (fun w =>
    if 0 <? w.(w_len) then w ← advance w None; mret (inl w) else mret (inr w)) w.

(** The bytes of a little-endian integer. *)
Fixpoint le_bytes (n : nat) (x : Z) : list Z :=
  match n with O => [] | S n => x mod 256 :: le_bytes n (x / 256) end.

(** [Close]: the bytes written to the destination. *)
Definition Close (w : writer) : res (list Z) :=
  w ← flush_lookahead w;
  w ← encode w;
  let o := encodeEnd w.(w_out) in
  let lengthBytes := le_bytes 4 (u32 w.(fileSize)) in
  let sum := crc (lengthBytes ++ o.(bbuf)) in
  mret ((if w.(w_crc16) then le_bytes 2 sum else []) ++ lengthBytes ++ o.(bbuf)).

(** A client: write all the chunks, then close. *)
Fixpoint write_chunks (w : writer) (ps : list (list Z)) : res writer :=
  match ps with
  | [] => mret w
  | p :: ps => wn ← Write w p; write_chunks wn.1 ps
  end.

Definition compress (crc16 : bool) (ps : list (list Z)) : res (list Z) :=
  w ← NewWriter crc16;
  w ← write_chunks w ps;
  Close w.
