(* ===== verification/Reader.v ===== *)
(** The decompressor of [src/lzhuf/reader.go]: the state of a Reader, its
    constructor, [Read], [Close], and the loop of a client that drains it. *)
From S2P Require Import Prelude Huffman Reconst Crc BitIO HuffCode LzTree Tokens Writer.

(** ** State *)
Record reader := mkReader {
  rd_r : bitr;             (* r, and the sum of crcw inside of it *)
  rd_h : huff;             (* z: the Huffman half *)
  rd_text : list Z;        (* z.textBuf *)
  rd_err : option rerror;  (* err *)
  rd_crc16 : bool;         (* crc16 *)
  hdr_crc : Z; hdr_size : Z;
  st_pos : Z; st_r : Z; st_buf : list Z }.

Inductive cerror := ErrRead (e : rerror) | ErrChecksum.

Definition set_rerr (d : reader) (e : option rerror) : reader :=
  mkReader d.(rd_r) d.(rd_h) d.(rd_text) e d.(rd_crc16) d.(hdr_crc) d.(hdr_size)
    d.(st_pos) d.(st_r) d.(st_buf).
Definition set_bits (d : reader) (r : bitr) (h : huff) : reader :=
  mkReader r h d.(rd_text) d.(rd_err) d.(rd_crc16) d.(hdr_crc) d.(hdr_size)
    d.(st_pos) d.(st_r) d.(st_buf).
Definition set_rtext (d : reader) (t : list Z) : reader :=
  mkReader d.(rd_r) d.(rd_h) t d.(rd_err) d.(rd_crc16) d.(hdr_crc) d.(hdr_size)
    d.(st_pos) d.(st_r) d.(st_buf).
Definition set_buf (d : reader) (b : list Z) : reader :=
  mkReader d.(rd_r) d.(rd_h) d.(rd_text) d.(rd_err) d.(rd_crc16) d.(hdr_crc) d.(hdr_size)
    d.(st_pos) d.(st_r) b.

(** ** Operations *)
Definition advanceState (d : reader) : reader :=
  mkReader d.(rd_r) d.(rd_h) d.(rd_text) d.(rd_err) d.(rd_crc16) d.(hdr_crc) d.(hdr_size)
    (i32 (d.(st_pos) + 1)) (Z.land (d.(st_r) + 1) (_N - 1)) d.(st_buf).

(** The value of little-endian bytes. *)
Fixpoint le_value (l : list Z) : Z :=
  match l with [] => 0 | b :: l => b + 256 * le_value l end.

(** [binary.Read] of an [n]-byte integer: the value or the error, and the rest
    of the source; io.ReadFull reads what there is. *)
Definition binary_Read (n : nat) (src : list Z) : (rerror + Z) * list Z * list Z :=
  let p := take n src in
  let v := if (length p =? 0)%nat then inl EOF
           else if (length p <? n)%nat then inl UnexpectedEOF else inr (le_value p) in
  (v, p, drop n src).

(** [NewReader]: fails when the header is short.  After a failure to read the
    size the code returns the Reader along with the error. *)
Definition NewReader (src : list Z) (crc16 : bool) : res (rerror + (reader * option rerror)) :=
  h ← newHuff;
  t ← for_range 0 (_N - _F) (fun i t => upd t i 32) (replicate 2107 0);
  let '(c, src) := if crc16 then let '(v, _, src) := binary_Read 2 src in (v, src) else (inr 0, src) in
  match c with
  | inl e => mret (inl e)
  | inr c =>
      let '(v, p, src) := binary_Read 4 src in
      let r := mkBitr src [] (crcw_write 0 p) 0 0 None in
      let size := match v with inr v => i32 v | inl _ => 0 end in
      let d := mkReader r h t None crc16 c size 0 (_N - _R) [] in
      mret (inr (d, match v with inl e => Some e | inr _ => None end))
  end.

Definition NewB2Reader (src : list Z) := NewReader src true.

(** [d.z.textBuf[d.state.r] = byte(c); d.advanceState()] *)
Definition emit (d : reader) (c : Z) : res reader :=
  t ← upd d.(rd_text) d.(st_r) c;
  mret (advanceState (set_rtext d t)).

(** One round of the copy loop of [Read]; [p] is what has been put into the
    caller's slice of length [k]. *)
Definition copy_byte (k i : Z) (j : Z) (pd : list Z * reader) : res (list Z * reader) :=
  let '(p, d) := pd in
  c ← idx d.(rd_text) (Z.land (i + j) (_N - 1));
  let '(p, d) := if zlen p <? k then (p ++ [c], d) else (p, set_buf d (d.(st_buf) ++ [c])) in
  d ← emit d c;
  mret (p, d).

(** One iteration of the decoding loop of [Read]. *)
Definition read_step (k : Z) (pd : list Z * reader)
  : res ((list Z * reader) + (list Z * reader)) :=
  let '(p, d) := pd in
  match rerr d.(rd_r) with
  | None =>
    if (zlen p <? k) && (d.(st_pos) <? d.(hdr_size)) then
      chr ← decodeChar d.(rd_h) d.(rd_r);
      let '(c, h, r) := chr in
      let d := set_bits d r h in
      if c <? 256 then
        d ← emit d c;
        mret (inl (p ++ [c], d))
      else
        pr ← decodePosition d.(rd_r);
        let '(pos, r) := pr in
        let d := set_bits d r d.(rd_h) in
        let i := Z.land (d.(st_r) - pos - 1) (_N - 1) in
        pd ← for_range 0 (c - 255 + _Threshold) (copy_byte k i) (p, d);
        mret (inl pd)
    else mret (inr (p, d))
  | Some _ => mret (inr (p, d))
  end.

(** The switch at the head of [Read]: stop with io.EOF, or set the error. *)
Definition read_status (d : reader) : option rerror * reader :=
  match rerr d.(rd_r) with
  | Some EOF => if d.(st_pos) <? d.(hdr_size) then (None, set_rerr d (Some UnexpectedEOF))
                else (None, set_rerr d (Some EOF))
  | Some e => (None, set_rerr d (Some e))
  | None => if (d.(st_pos) =? d.(hdr_size)) && (zlen d.(st_buf) =? 0) then (Some EOF, d) else (None, d)
  end.

(** [Read] into a slice of length [k]: the bytes put there and the error. *)
Definition Read (d : reader) (k : Z) : res (list Z * option rerror * reader) :=
  match read_status d with
  | (Some e, d) => mret ([], Some e, d)
  | (None, d) =>
      match d.(rd_err) with
      | Some e => mret ([], Some e, d)
      | None =>
          let p := take (Z.to_nat k) d.(st_buf) in
          let d := set_buf d (drop (Z.to_nat k) d.(st_buf)) in
          pd ← loop (S (Z.to_nat k)) (read_step k) (p, d);
          mret (pd.1, None, pd.2)
      end
  end.

Definition reader_Close (d : reader) : option cerror :=
  match d.(rd_err), rerr d.(rd_r) with
  | Some e, _ => Some (ErrRead e)
  | None, Some e => Some (ErrRead e)
  | None, None =>
      if d.(rd_crc16) && negb (d.(hdr_crc) =? crcw_sum (rcrc d.(rd_r))) then Some ErrChecksum
      else if negb (d.(hdr_size) =? i32 (d.(st_pos) - i32 (zlen d.(st_buf)))) then Some ErrChecksum
      else None
  end.

(** A client that reads until an error, the [n]-th time into a slice of length
    [ks n] (io.Copy, ioutil.ReadAll, bytes.Buffer.ReadFrom). *)
Fixpoint drain (fuel : nat) (ks : nat -> Z) (d : reader) (acc : list Z)
  : res (list Z * rerror * reader) :=
  match fuel with
  | O => NoFuel
  | S fuel =>
      x ← Read d (ks 0%nat);
      let '(p, e, d) := x in
      match e with
      | Some e => mret (acc ++ p, e, d)
      | None => drain fuel (fun n => ks (S n)) d (acc ++ p)
      end
  end.

(** Decompressing a whole message: the data, the error that ended the reading
    and the result of [Close]; [inl] when [NewReader] fails. *)
Definition decompress (crc16 : bool) (fuel : nat) (ks : nat -> Z) (src : list Z)
  : res (rerror + (list Z * rerror * option cerror)) :=
  o ← NewReader src crc16;
  match o with
  | inl e => mret (inl e)
  | inr (_, Some e) => mret (inl e)
  | inr (d, None) =>
      x ← drain fuel ks d [];
      let '(p, e, d) := x in
      mret (inr (p, e, reader_Close d))
  end.
