(* ===== verification/Compress.v ===== *)
(** Correctness of the compressor: the Writer always returns, and its output is
    the coded form of tokens that describe exactly the data written. *)
From S2P Require Import Prelude Huffman Reconst Crc BitIO HuffCode LzTree Tokens Writer.

(** ** The ring buffer

    The byte at position [i] of the text is kept at index [ring i]; the first
    [_F - 1] indices are mirrored past the end of the ring. *)
Definition ring (i : Z) : Z := (_N - _F + i) mod _N.

Ltac ringlia := unfold ring in *; consts; Z.div_mod_to_equations; lia.

Lemma ring_range i : 0 <= ring i < _N.
Proof. ringlia. Qed.

Lemma ring_inj i j : ring i = ring j -> -_N < i - j < _N -> i = j.
Proof. intros. ringlia. Qed.

Lemma ring_next i : Z.land (ring i + 1) (_N - 1) = ring (i + 1).
Proof. change (_N - 1) with (Z.ones 11). rewrite Z.land_ones by lia. change (2 ^ 11) with _N. ringlia. Qed.

Lemma distance_ring i j : 0 < i - j < _N -> distance (ring i) (ring j) = i - j - 1.
Proof.
  intros. unfold distance. change (_N - 1) with (Z.ones 11). rewrite Z.land_ones by lia.
  change (2 ^ 11) with _N. ringlia.
Qed.

Record text_ok (X : Z -> Z) (L : Z) (T : list Z) : Prop := {
  t_len : zlen T = _N + _F - 1;
  t_bytes i : 0 <= i < _N + _F - 1 -> byte (get T i);
  t_ring i : _F - _N <= i < L -> L - _N <= i -> get T (ring i) = X i;
  t_mirror i : _F <= i < L -> L - _N <= i -> ring i < _F - 1 -> get T (ring i + _N) = X i }.

(** Reading the text from a position on, across the end of the ring. *)
Lemma window X L T i k : text_ok X L T ->
  - _F <= i -> 0 <= k < _F -> i + k < L -> L - _N <= i + k -> get T (ring i + k) = X (i + k).
Proof.
  intros H Hi Hk H1 H2. destruct (Z.lt_ge_cases (ring i + k) _N) as [Hn|Hn].
  - replace (ring i + k) with (ring (i + k)) by ringlia. apply (t_ring _ _ _ H); clia.
  - replace (ring i + k) with (ring (i + k) + _N) by ringlia. apply (t_mirror _ _ _ H); ringlia.
Qed.

Lemma text_prefill X L T : text_ok X L T -> 0 <= L < _F -> byte (X L) ->
  text_ok X (L + 1) (set T (_N - _F + L) (X L)).
Proof.
  intros [H1 H2 H3 H4] HL Hb. split.
  - by rewrite zlen_set.
  - intros i Hi. rewrite get_set by clia. destruct (_ =? _); auto.
  - intros i Hi Hw. pose proof (ring_range i). rewrite get_set by clia.
    destruct (Z.eqb_spec (ring i) (_N - _F + L)) as [E|E].
    + f_equal. ringlia.
    + apply H3; [|clia]. destruct (decide (i = L)) as [->|]; [|lia]. ringlia.
  - intros i Hi. clia.
Qed.

(** [load_byte] on the text. *)
Definition loaded (T : list Z) (s c : Z) : list Z :=
  if s <? _F - 1 then set (set T s c) (s + _N) c else set T s c.

Lemma text_load X L T : text_ok X L T -> _F <= L -> byte (X L) ->
  text_ok X (L + 1) (loaded T (ring L) (X L)).
Proof.
  intros [H1 H2 H3 H4] HL Hb. pose proof (ring_range L) as HrL.
  assert (G : forall i, 0 <= i < _N + _F - 1 -> get (loaded T (ring L) (X L)) i =
     if (i =? ring L) || (i =? ring L + _N) then X L else get T i).
  { intros i Hi. unfold loaded. destruct (Z.ltb_spec (ring L) (_F - 1)).
    - rewrite get_set by (rewrite ?zlen_set; clia). rewrite get_set by clia.
      by destruct (i =? ring L + _N), (i =? ring L).
    - rewrite get_set by clia. destruct (Z.eqb_spec i (ring L + _N)); [clia|]. by rewrite orb_false_r. }
  split.
  - unfold loaded. destruct (_ <? _); by rewrite !zlen_set.
  - intros i Hi. rewrite G by done. destruct (_ || _); auto.
  - intros i Hi Hw. pose proof (ring_range i). rewrite G by clia.
    destruct (Z.eqb_spec (ring i) (ring L)) as [E|E]; cbn [orb].
    + apply ring_inj in E; [by subst|clia].
    + destruct (Z.eqb_spec (ring i) (ring L + _N)); [clia|]. apply H3; [|lia].
      destruct (decide (i = L)) as [->|]; [done|lia].
  - intros i Hi Hw Hr. pose proof (ring_range i). rewrite G by clia.
    destruct (Z.eqb_spec (ring i + _N) (ring L)) as [E|E]; [clia|]. cbn [orb].
    destruct (Z.eqb_spec (ring i + _N) (ring L + _N)) as [E'|E'].
    + assert (E2 : ring i = ring L) by lia. apply ring_inj in E2; [by subst|clia].
    + apply H4; [|lia|lia]. destruct (decide (i = L)) as [->|]; [done|lia].
Qed.

(** ** The coder *)
Lemma putCode_bytes w l c : bytes w.(bbuf) -> bytes (putCode w l c).(bbuf).
Proof.
  intros H. unfold putCode. repeat case_match; cbn [bbuf]; [done|..];
    repeat (apply Forall_app_2); try done; repeat constructor; unfold byte; apply u8_range.
Qed.

(** [encodeChar] returns for every tree, also when the code is too long for the
    16-bit word it is assembled in. *)
Lemma encodeChar_total z w c : huff_ok z -> 0 <= c < _NumChar ->
  exists z' j i, encodeChar z w c = Ok (z', putCode w j i) /\ update z c = Ok z' /\ huff_ok z'.
Proof.
  intros Hz Hc. pose proof (ok_shape z Hz) as Hs. pose proof (sh_prnt z Hs).
  destruct (leaf_spec Hs c Hc) as [L1 _]. destruct (update_ok z c Hz Hc) as (z' & Eu & Hz' & _).
  destruct (loop_inv (fun '(_, _, k) => 0 <= k < _R) (fun '(_, _, k) => Z.to_nat (_R - k)) (fun _ : Z * Z => True)
    (Z.to_nat _T) (climb z) (0, 0, get z.(prnt) (c + _T))) as ([j i] & E & _); [| |clia|].
  - intros [[i j] k] Hk. unfold climb. rewrite idx_bind by clia. eexists. split; [done|].
    pose proof (parent_spec Hs k Hk) as (P & _). destruct (Z.eqb_spec (get z.(prnt) k) _R); [done|clia].
  - clia.
  - exists z', j, i. split; [|done]. unfold encodeChar. rewrite idx_bind by clia. rewrite E, bind_Ok.
    cbn [fst snd]. by rewrite Eu.
Qed.

(** What has been coded so far; the bits are right while the codes fit. *)
Record coded (ts : list token) (h : huff) (o : bitw) : Prop := {
  cd_huff : huff_ok h;
  cd_bytes : bytes o.(bbuf);
  cd_run : exists bs m, run huff0 ts bs m h /\ ((m <= 16)%nat -> wok o /\ wstream o = bs) }.

Lemma coded_char ts h o c : coded ts h o -> 0 <= c < _NumChar ->
  exists h' o', encodeChar h o c = Ok (h', o') /\ huff_ok h' /\ bytes o'.(bbuf) /\ update h c = Ok h' /\
    exists cb, cbits h c cb /\ exists bs m, run huff0 ts bs m h /\
      ((m `max` length cb <= 16)%nat -> wok o' /\ wstream o' = bs ++ cb).
Proof.
  intros [Hh Hb (bs & m & Hr & Hs)] Hc.
  destruct (encodeChar_total h o c Hh Hc) as (h' & j & i & E & Eu & Hh'). exists h', (putCode o j i).
  split_and!; auto using putCode_bytes.
  destruct (leaf_spec (ok_shape h Hh) c Hc) as [L1 _].
  destruct (path_exists h (get h.(prnt) (c + _T)) (ok_shape h Hh)) as [cb Hcb]; [clia|].
  exists cb. split; [done|]. exists bs, m. split; [done|]. intros Hm.
  destruct Hs as [W1 W2]; [lia|]. destruct (encodeChar_ok h o c cb Hh W1 Hc Hcb) as (h2 & o2 & E2 & _ & _ & W & S); [lia|].
  rewrite E in E2. injection E2 as <- <-. by rewrite S, W2.
Qed.

Lemma coded_lit ts h o c : coded ts h o -> 0 <= c < 256 ->
  exists h' o', encodeChar h o c = Ok (h', o') /\ coded (ts ++ [Lit c]) h' o'.
Proof.
  intros H Hc. destruct (coded_char ts h o c H) as (h' & o' & E & Hh & Hb & Eu & cb & Hcb & bs & m & Hr & Hs); [clia|].
  exists h', o'. split; [done|]. split; [done|done|]. eexists _, _.
  split; [apply (run_snoc _ _ _ _ _ (Lit c) _ _ Hr Hcb Eu)|]. cbn [tail_bits]. by rewrite app_nil_r.
Qed.

Lemma coded_copy ts h o len pos : coded ts h o -> _Threshold < len <= _F -> 0 <= pos < _N ->
  exists h' o' o'', encodeChar h o (255 - _Threshold + len) = Ok (h', o') /\
    encodePosition o' pos = Ok o'' /\ coded (ts ++ [Copy len pos]) h' o''.
Proof.
  intros H Hl Hp. destruct (coded_char ts h o (255 - _Threshold + len) H)
    as (h' & o' & E & Hh & Hb & Eu & cb & Hcb & bs & m & Hr & Hs); [clia|].
  assert (exists l1 c1 l2 c2, encodePosition o' pos = Ok (putCode (putCode o' l1 c1) l2 c2)) as (l1 & c1 & l2 & c2 & E2).
  { unfold encodePosition. pose proof (poscode_all pos Hp) as Hq. unfold poscode in Hq. cbv zeta in Hq.
    rewrite !andb_true_iff in Hq.
    rewrite idx_bind by (change (zlen pLen) with 64; lia).
    rewrite idx_bind by (change (zlen pCode) with 64; lia). eauto. }
  exists h', o', (putCode (putCode o' l1 c1) l2 c2). split; [done|]. split; [done|].
  split; [done|by apply putCode_bytes, putCode_bytes|]. eexists _, _.
  split; [apply (run_snoc _ _ _ _ _ (Copy len pos) _ _ Hr Hcb Eu)|]. cbn [tail_bits]. intros Hm.
  destruct (Hs Hm) as [W1 W2]. destruct (encodePosition_ok o' pos W1 Hp) as (o2 & E3 & W3 & S3).
  rewrite E2 in E3. injection E3 as <-. by rewrite S3, W2, <- app_assoc.
Qed.

(** ** The invariant of a Writer

    [L] bytes of the text [X] have been loaded and [n] of them have left the
    lookahead buffer; the tokens [ts] describe the first [cover] bytes. *)
Definition cover (L n : Z) (w : writer) : Z := if L =? 0 then 0 else n + w.(lastMatchLength) - 1.

(** The registered strings start at positions from [lo] up to [hi]. *)
Definition nodes_ok (X : Z -> Z) (lo hi : Z) (cls D : Z -> Z) : Prop :=
  forall x, reg D x -> exists i, x = ring i /\ lo <= i < hi /\ cls x = X i.

Definition dict_ok (X : Z -> Z) (lo hi : Z) (z : lz) : Prop :=
  exists cls D, dict cls z.(textBuf) z.(matchLength) z.(matchPosition) D z /\ nodes_ok X lo hi cls D.

(** The oldest string that can be registered. *)
Definition oldest (L n : Z) : Z := Z.max (n - (_N - _F)) (- Z.min L _F).

(** [extra] is 1 between the loading and the processing of a byte, else 0. *)
Record winv (extra : Z) (X : Z -> Z) (L n : Z) (ts : list token) (w : writer) : Prop := {
  wi_n : 0 <= n <= L;
  wi_len : w.(w_len) = L - n;
  wi_look : L - n <= _F + extra;
  wi_fill : w.(preFilled) = (_F <=? L);
  wi_r : w.(w_r) = ring n;
  wi_s : w.(w_s) = ring (n + _F);
  wi_text : text_ok X L w.(w_z).(textBuf);
  wi_dict : dict_ok X (oldest L n) n w.(w_z);
  wi_coded : coded ts w.(w_h) w.(w_out);
  wi_cover : covers X 0 ts (cover L n w);
  wi_bound : cover L n w <= L;
  wi_last : 0 < L -> 1 <= w.(lastMatchLength) }.

(** What no operation on the lookahead buffer touches. *)
Definition same_header (w w' : writer) : Prop :=
  w'.(w_crc16) = w.(w_crc16) /\ w'.(fileSize) = w.(fileSize).

(** The match recorded for position [i]: a copy of a registered string. *)
Definition found (X : Z -> Z) (lo i len ml mp : Z) : Prop :=
  ml = 0 \/ exists j, _Threshold < ml <= _F /\ mp = i - j - 1 /\ lo <= j < i /\
    forall k, 0 <= k < ml -> k < len -> X (i + k) = X (j + k).

Lemma dict_fields cls T ml mp D z : dict cls T ml mp D z ->
  dict cls z.(textBuf) z.(matchLength) z.(matchPosition) D z /\
  z.(textBuf) = T /\ z.(matchLength) = ml /\ z.(matchPosition) = mp.
Proof.
  intros (C & R & F). pose proof (r_T _ _ _ _ _ _ R) as <-. pose proof (r_ml _ _ _ _ _ _ R) as <-.
  pose proof (r_mp _ _ _ _ _ _ R) as <-. split_and!; auto. by exists C.
Qed.

(** Inserting the string at one of the ends of the registered range. *)
Lemma insert_string X L lo hi i z : text_ok X L z.(textBuf) -> dict_ok X lo hi z ->
  lo <= hi <= lo + (_N - _F) -> i = hi \/ i = lo - 1 -> L <= hi + _F + 1 -> - _F <= i < L -> L - _N <= i -> - _F <= lo ->
  exists z', InsertNode z (ring i) = Ok z' /\ z'.(textBuf) = z.(textBuf) /\
    dict_ok X (Z.min lo i) (Z.max hi (i + 1)) z' /\
    (i = hi -> found X lo i (L - i) z'.(matchLength) z'.(matchPosition)).
Proof.
  intros HT (cls & D & HD & HN) Hlh Hi HL Hir HLi Hlo. pose proof (ring_range i) as Pr.
  assert (Ei : get z.(textBuf) (ring i) = X i) by (apply (t_ring _ _ _ HT); clia).
  assert (Nr : D (ring i) = _NIL).
  { destruct (decide (D (ring i) = _NIL)) as [|Hn]; [done|exfalso].
    destruct (HN (ring i)) as (j & Ej & Hj & _); [done|]. apply ring_inj in Ej; clia. }
  destruct (InsertNode_ok cls _ _ _ D z (ring i) HD (t_len _ _ _ HT)) as (z' & D' & ml & mp & E & Hd & M & _ & Rg); auto.
  { apply (t_bytes _ _ _ HT). clia. }
  apply dict_fields in Hd as (Hd & ET & El & Em). exists z'. split; [done|]. split; [done|]. split.
  - exists (upf cls (ring i) (get (textBuf z) (ring i))), D'. split; [done|]. intros x Hx.
    destruct (decide (x = ring i)) as [->|Hne].
    + exists i. rewrite upf_eq. split_and!; auto; lia.
    + destruct (Rg x Hx) as [Hx'|]; [|done]. destruct (HN x Hx') as (j & -> & Hj & Hc). exists j.
      rewrite upf_ne by done. split_and!; auto; lia.
  - intros ->. rewrite El, Em. destruct M as [M|(p & Hp & Hc & Hml & Hmp & Hk)]; [by left|right].
    destruct (HN p Hp) as (j & -> & Hj & Hcj). exists j. split_and!; try lia.
    { rewrite Hmp. apply distance_ring. clia. }
    intros k Hk1 Hk2. destruct (decide (k = 0)) as [->|]; [rewrite !Z.add_0_r; congruence|].
    rewrite <- (window X L _ hi k HT), <- (window X L _ j k HT) by clia. apply Hk. lia.
Qed.

Lemma delete_string X lo lo' hi d z : dict_ok X lo hi z ->
  (forall i, lo <= i < hi -> ring i <> ring d -> lo' <= i) ->
  exists z', DeleteNode z (ring d) = Ok z' /\ z'.(textBuf) = z.(textBuf) /\ dict_ok X lo' hi z'.
Proof.
  intros (cls & D & HD & HN) Hlo.
  destruct (DeleteNode_ok cls _ _ _ D z (ring d) HD (ring_range d)) as (z' & D' & E & Hd & Rg).
  apply dict_fields in Hd as (Hd & ET & El & Em). exists z'. split; [done|]. split; [done|].
  exists cls, D'. split; [done|]. intros x Hx. apply Rg in Hx as [Hx Hn].
  destruct (HN x Hx) as (i & -> & Hi & Hc). exists i. split_and!; auto; lia || by apply Hlo.
Qed.

Lemma dict_set_match cls T ml mp D z l p : dict cls T ml mp D z -> dict cls T l p D (set_match z l p).
Proof. intros (C & R & F). exists C. split; [|done]. destruct R. by split. Qed.

Lemma dict_set_text cls T T' ml mp D z : dict cls T ml mp D z -> dict cls T' ml mp D (set_text z T').
Proof. intros (C & R & F). exists C. split; [|done]. destruct R. by split. Qed.

Lemma dict_ok_match X lo hi z l p : dict_ok X lo hi z -> dict_ok X lo hi (set_match z l p).
Proof. intros (cls & D & H & HN). exists cls, D. split; [|done]. by eapply dict_set_match. Qed.

Lemma dict_ok_text X lo hi z T : dict_ok X lo hi z -> dict_ok X lo hi (set_text z T).
Proof. intros (cls & D & H & HN). exists cls, D. split; [|done]. by eapply dict_set_text. Qed.

(** [encode] emits one token for the text at [n], within the lookahead. *)
Lemma encode_ok X L n lo ts w :
  text_ok X L w.(w_z).(textBuf) -> coded ts w.(w_h) w.(w_out) -> w.(w_r) = ring n ->
  0 <= n -> w.(w_len) = L - n -> 0 < L - n <= _F + 1 -> - _F <= lo -> n - (_N - _F) <= lo ->
  found X lo n (L - n) w.(w_z).(matchLength) w.(w_z).(matchPosition) ->
  exists t h o ml,
    encode w = Ok (mkWriter w.(w_crc16) h (set_match w.(w_z) ml w.(w_z).(matchPosition)) o
                     w.(w_len) w.(w_r) w.(w_s) (tlen t) w.(preFilled) w.(fileSize)) /\
    says X n t /\ coded (ts ++ [t]) h o /\ 1 <= tlen t <= w.(w_len).
Proof.
  intros HT Hc Hr Hn Hlen Hl Hlo Hlo2 Hf. unfold encode. destruct (Z.eqb_spec w.(w_len) 0); [lia|].
  set (m := Z.min w.(w_z).(matchLength) w.(w_len)).
  set (z := if w.(w_len) <? _ then _ else _).
  assert (Hm : z.(matchLength) = m /\ z.(matchPosition) = w.(w_z).(matchPosition) /\ z.(textBuf) = w.(w_z).(textBuf)
            /\ (forall l p, set_match z l p = set_match w.(w_z) l p) /\ set_match w.(w_z) m w.(w_z).(matchPosition) = z).
  { unfold z, m. destruct (Z.ltb_spec w.(w_len) w.(w_z).(matchLength)); split_and!; try done; cbn [matchLength set_match]; try lia.
    - f_equal. lia.
    - replace (Z.min _ _) with w.(w_z).(matchLength) by lia. by destruct (w_z w). }
  destruct Hm as (Hm1 & Hm2 & Hm3 & Hm4 & Hm5). rewrite Hm1. destruct (Z.leb_spec m _Threshold) as [Ht|Ht].
  - cbn [textBuf set_match]. rewrite Hm3, Hr. pose proof (ring_range n).
    rewrite idx_bind by (rewrite (t_len _ _ _ HT); clia).
    rewrite (t_ring _ _ _ HT) by clia. assert (Hx : byte (X n)).
    { rewrite <- (t_ring _ _ _ HT) by clia. apply (t_bytes _ _ _ HT). clia. }
    destruct (coded_lit ts _ _ (X n) Hc Hx) as (h & o & E & Hco). rewrite E, bind_Ok.
    exists (Lit (X n)), h, o, 1. split_and!; auto; [|cbn; unfold byte in Hx; lia..]. rewrite Hm4. by rewrite <- Hr, Hm2.
  - destruct Hf as [Hf|(j & Hml & Hmp & Hj & Hk)]; [clia|].
    destruct (coded_copy ts _ _ m (n - j - 1) Hc) as (h & o & o' & E & E2 & Hco); [clia..|].
    rewrite Hm2, Hmp. rewrite E, bind_Ok. cbn [fst snd]. rewrite E2, bind_Ok.
    exists (Copy m (n - j - 1)), h, o', m. split_and!; auto; cbn [says tlen].
    + rewrite <- Hm5 at 1. rewrite Hmp. reflexivity.
    + split_and!; try clia. intros k Hk'. rewrite Hk by lia. f_equal. lia.
    + clia.
    + lia.
Qed.

Lemma oldest_next L n i : oldest L n <= i < n + 1 -> ring i <> ring (n + _F) -> oldest L (n + 1) <= i.
Proof.
  intros Hi Hne. unfold oldest in *. destruct (decide (i = n - (_N - _F))) as [->|]; [|lia].
  exfalso. apply Hne. ringlia.
Qed.

(** One byte leaves the lookahead buffer. *)
Lemma advance_none extra X L n ts w : winv extra X L n ts w -> 0 <= extra <= 1 -> n < L ->
  exists w' ts', advance w None = Ok w' /\ winv 0 X L (n + 1) ts' w' /\ same_header w w'.
Proof.
  intros [H1 H2 H3 H4 H5 H6 H7 H8 H9 H10 H11 H12] He HnL. specialize (H12 ltac:(lia)).
  assert (HL : (L =? 0) = false) by lia. unfold cover in *. rewrite HL in *.
  unfold advance. cbn [mret res_ret]. rewrite bind_Ok, H5.
  destruct (insert_string X L (oldest L n) n n w.(w_z)) as (z & -> & ET & HD & HF); auto; try (unfold oldest; clia).
  rewrite bind_Ok. specialize (HF eq_refl). rewrite <- ET in H7.
  replace (Z.min (oldest L n) n) with (oldest L n) in HD by (unfold oldest; clia).
  replace (Z.max n (n + 1)) with (n + 1) in HD by lia.
  cbn [lastMatchLength set_last].
  match goal with |- context [encode ?w] => set (w1 := w) end.
  assert (exists w2 ts', (if w.(lastMatchLength) - 1 =? 0 then encode w1 else mret w1) = Ok w2 /\
    coded ts' w2.(w_h) w2.(w_out) /\ covers X 0 ts' (n + w2.(lastMatchLength)) /\ n + w2.(lastMatchLength) <= L /\
    1 <= w2.(lastMatchLength) /\ same_header w w2 /\ w2.(w_len) = w.(w_len) /\ w2.(w_r) = w.(w_r) /\ w2.(w_s) = w.(w_s) /\
    w2.(preFilled) = w.(preFilled) /\ w2.(w_z).(textBuf) = z.(textBuf) /\ dict_ok X (oldest L n) (n + 1) w2.(w_z))
    as (w2 & ts' & -> & K1 & K2 & K3 & K4 & K5 & K6 & K7 & K8 & K9 & K10 & K11).
  { destruct (Z.eqb_spec (w.(lastMatchLength) - 1) 0) as [E|E].
    - destruct (encode_ok X L n (oldest L n) ts w1) as (t & h & o & ml & Ee & Hs & Hc & Ht);
        [unfold w1; cbn [set_last set_z w_z w_len w_r w_h w_out]; auto; try (unfold oldest; clia)..|].
      rewrite Ee. eexists _, (ts ++ [t]). split; [done|].
      cbn [w_h w_out w_z w_len w_r w_s lastMatchLength preFilled textBuf set_match].
      cbn [w_len w1 set_last set_z] in Ht. split_and!; auto; try lia; [|by split|by apply dict_ok_match].
      replace n with (n + lastMatchLength w - 1) at 1 by lia. apply covers_snoc; [done|].
      by replace (n + lastMatchLength w - 1) with n by lia.
    - exists w1, ts. split; [done|]. unfold w1. cbn [set_last set_z w_h w_out w_z w_len w_r w_s lastMatchLength preFilled].
      split_and!; auto; try lia; [|by split]. by replace (n + (lastMatchLength w - 1)) with (n + lastMatchLength w - 1) by lia. }
  rewrite bind_Ok, K8, H6.
  destruct (delete_string X (oldest L n) (oldest L (n + 1)) (n + 1) (n + _F) w2.(w_z) K11) as (z3 & -> & ET3 & HD3).
  { intros i. apply oldest_next. }
  rewrite bind_Ok. eexists _, ts'. split; [done|]. split; [|done].
  split; unfold cover; rewrite ?HL; cbn [set_len set_ring set_z w_h w_out w_z w_len w_r w_s lastMatchLength preFilled]; auto; try lia.
  - congruence.
  - rewrite K7, H5. apply ring_next.
  - rewrite K8, H6, ring_next. f_equal. lia.
  - by rewrite ET3, K10.
  - by replace (n + 1 + lastMatchLength w2 - 1) with (n + lastMatchLength w2) by lia.
Qed.

(** Loading a byte behind a full lookahead buffer, and processing one. *)
Lemma advance_some X L n ts w : winv 0 X L n ts w -> _F <= L -> L - n = _F -> byte (X L) ->
  exists w' ts', advance w (Some (X L)) = Ok w' /\ winv 0 X (L + 1) (n + 1) ts' w' /\ same_header w w'.
Proof.
  intros [H1 H2 H3 H4 H5 H6 H7 H8 H9 H10 H11 H12] HF HL Hb. pose proof (t_len _ _ _ H7) as Ht.
  pose proof (ring_range L). replace (n + _F) with L in H6 by lia.
  assert (load_byte w (X L) = Ok (set_len (set_z w (set_text w.(w_z) (loaded w.(w_z).(textBuf) (ring L) (X L)))) (w.(w_len) + 1))) as El.
  { unfold load_byte, put_text, loaded. rewrite H6. rewrite upd_bind by clia. rewrite bind_Ok. cbn [textBuf set_text].
    destruct (Z.ltb_spec (ring L) (_F - 1)); [|done]. rewrite upd_bind by (rewrite zlen_set; clia). done. }
  set (w1 := set_len _ _) in El.
  assert (HL0 : forall w, cover (L + 1) n w = cover L n w).
  { intros w0. unfold cover. destruct (Z.eqb_spec L 0), (Z.eqb_spec (L + 1) 0); clia. }
  assert (W : winv 1 X (L + 1) n ts w1).
  { split; unfold w1; cbn [set_len set_z w_h w_out w_z w_len w_r w_s lastMatchLength preFilled set_text textBuf]; rewrite ?HL0; auto; try lia.
    - rewrite H4. destruct (Z.leb_spec _F L), (Z.leb_spec _F (L + 1)); lia.
    - rewrite H6. f_equal. lia.
    - by apply text_load.
    - replace (oldest (L + 1) n) with (oldest L n) by (unfold oldest; clia). by apply dict_ok_text.
    - unfold cover in *. cbn [set_len set_z lastMatchLength]. clia.
    - intros _. apply H12. clia. }
  destruct (advance_none 1 X (L + 1) n ts w1 W) as (w' & ts' & E & W' & S); [lia|lia|].
  exists w', ts'. split; [|by split]. unfold advance in *. rewrite El, bind_Ok. exact E.
Qed.

(** One byte enters the lookahead buffer before the first token. *)
Lemma prefill_byte_ok X L w : winv 0 X L 0 [] w -> L < _F -> byte (X L) ->
  exists w', prefill_byte w (X L) = Ok w' /\ winv 0 X (L + 1) 0 [] w' /\
    w'.(w_crc16) = w.(w_crc16) /\ w'.(fileSize) = i32 (w.(fileSize) + 1).
Proof.
  intros [H1 H2 H3 H4 H5 H6 H7 H8 H9 H10 H11 H12] HL Hb. pose proof (t_len _ _ _ H7) as Ht.
  assert (Hr : w.(w_r) = _N - _F) by (rewrite H5; reflexivity).
  unfold prefill_byte, put_text. rewrite Hr, H2, Z.sub_0_r. rewrite upd_bind by clia. rewrite bind_Ok.
  cbn [set_len set_z count_byte w_z w_len w_r]. rewrite Hr, H2, Z.sub_0_r.
  set (T := set _ _ _). set (z1 := set_text _ T).
  assert (HT : text_ok X (L + 1) z1.(textBuf)) by (apply text_prefill; auto; lia).
  replace (_N - _F - (L + 1)) with (ring (- (L + 1))) by ringlia.
  destruct (insert_string X (L + 1) (oldest L 0) 0 (- (L + 1)) z1 HT) as (z & -> & ET & HD & _); try (unfold oldest; clia).
  { by apply dict_ok_text. }
  rewrite bind_Ok. eexists. split; [done|]. split; [|done].
  split; unfold cover; cbn [set_len set_z set_last set_filled count_byte w_h w_out w_z w_len w_r w_s lastMatchLength preFilled]; auto; try lia.
  - by rewrite ET.
  - replace (oldest (L + 1) 0) with (Z.min (oldest L 0) (- (L + 1))) by (unfold oldest; clia).
    by replace 0 with (Z.max 0 (- (L + 1) + 1)) at 2 by lia.
  - destruct (Z.eqb_spec (L + 1) 0); [lia|]. constructor.
  - destruct (Z.eqb_spec (L + 1) 0); lia.
Qed.

(** ** Writing *)

(** The state after [L] bytes have been written, in whatever chunks. *)
Record written (X : Z -> Z) (crc16 : bool) (L : Z) (w : writer) : Prop := {
  wr_inv : exists ts, winv 0 X L (Z.max 0 (L - _F)) ts w /\ (L < _F -> ts = []);
  wr_crc : w.(w_crc16) = crc16;
  wr_size : w.(fileSize) = i32 L }.

Lemma i32_succ L : i32 (i32 L + 1) = i32 (L + 1).
Proof.
  unfold i32. replace ((L + 2 ^ 31) mod 2 ^ 32 - 2 ^ 31 + 1 + 2 ^ 31) with ((L + 2 ^ 31) mod 2 ^ 32 + 1) by lia.
  rewrite Z.add_mod_idemp_l by lia. by replace (L + 2 ^ 31 + 1) with (L + 1 + 2 ^ 31) by lia.
Qed.

Lemma written_prefill X b L w : written X b L w -> 0 <= L < _F -> byte (X L) ->
  exists w', prefill_byte w (X L) = Ok w' /\ written X b (L + 1) w'.
Proof.
  intros [(ts & H & Hts) Hc Hs] HL Hb. replace (Z.max 0 (L - _F)) with 0 in H by clia. rewrite Hts in H by lia.
  destruct (prefill_byte_ok X L w H) as (w' & E & W & C & S); auto; [lia|]. exists w'. split; [done|].
  split; [|congruence|by rewrite S, Hs, i32_succ]. exists []. by replace (Z.max 0 (L + 1 - _F)) with 0 by clia.
Qed.

Lemma written_advance X b L w : written X b L w -> _F <= L -> byte (X L) ->
  exists w', advance w (Some (X L)) = Ok w' /\ written X b (L + 1) (count_byte w').
Proof.
  intros [(ts & H & Hts) Hc Hs] HL Hb. replace (Z.max 0 (L - _F)) with (L - _F) in H by lia.
  destruct (advance_some X L (L - _F) ts w H) as (w' & ts' & E & W & C & S); auto; [lia|].
  exists w'. split; [done|]. split; cbn [count_byte w_crc16 fileSize]; [|congruence|by rewrite S, Hs, i32_succ].
  exists ts'. split; [|lia]. replace (Z.max 0 (L + 1 - _F)) with (L - _F + 1) by lia.
  destruct W. by split.
Qed.

Lemma get_cons x l i : 0 <= i -> get (x :: l) (i + 1) = get l i.
Proof. intros. unfold get. by replace (Z.to_nat (i + 1)) with (S (Z.to_nat i)) by lia. Qed.

(** The chunk [p] holds the bytes of the text from [L] on. *)
Definition chunk_of (X : Z -> Z) (L : Z) (p : list Z) : Prop :=
  bytes p /\ forall i, 0 <= i < zlen p -> X (L + i) = get p i.

Lemma chunk_cons X L c p : chunk_of X L (c :: p) -> X L = c /\ byte (X L) /\ chunk_of X (L + 1) p.
Proof.
  intros [Hb H]. apply Forall_cons_1 in Hb as [Hc Hb]. pose proof (zlen_nonneg p).
  assert (E : X L = c) by (rewrite <- (Z.add_0_r L); apply H; rewrite zlen_cons; lia).
  rewrite E. split_and!; auto. split; [done|]. intros i Hi.
  replace (L + 1 + i) with (L + (i + 1)) by lia. rewrite H by (rewrite zlen_cons; lia). apply get_cons. lia.
Qed.

Lemma write_rest_ok X b L w p : written X b L w -> _F <= L \/ p = [] -> chunk_of X L p ->
  exists w', write_rest w p = Ok w' /\ written X b (L + zlen p) w'.
Proof.
  revert L w. induction p as [|c p IH]; intros L w H HL Hs; cbn [write_rest].
  { exists w. by rewrite zlen_nil, Z.add_0_r. }
  destruct HL as [HL|]; [|done]. apply chunk_cons in Hs as (<- & Hb & Hs).
  destruct (written_advance X b L w H HL Hb) as (w1 & -> & H1). rewrite bind_Ok.
  destruct (IH (L + 1) _ H1) as (w2 & -> & H2); [left; lia|done|]. exists w2. split; [done|].
  rewrite zlen_cons. by replace (L + (1 + zlen p)) with (L + 1 + zlen p) by lia.
Qed.

Lemma Write_ok X b L w p : written X b L w -> 0 <= L -> chunk_of X L p ->
  exists w', Write w p = Ok (w', zlen p) /\ written X b (L + zlen p) w'.
Proof.
  intros H HL Hs.
  assert (exists w1 q, prefill w p = Ok (w1, q) /\ written X b (L + (zlen p - zlen q)) w1 /\
            (_F <= L + (zlen p - zlen q) \/ q = []) /\ chunk_of X (L + (zlen p - zlen q)) q) as (w1 & q & E & H1 & HL1 & Hs1).
  { revert L w H HL Hs. induction p as [|c p IH]; intros L w H HL Hs; cbn [prefill].
    - exists w, []. rewrite (zlen_nil (A := Z)), Z.sub_0_r, Z.add_0_r. auto.
    - destruct (wr_inv _ _ _ _ H) as (ts & W & _). rewrite (wi_fill _ _ _ _ _ _ W).
      destruct (Z.leb_spec _F L) as [HF|HF].
      { exists w, (c :: p). rewrite Z.sub_diag, Z.add_0_r. auto. }
      apply chunk_cons in Hs as (<- & Hb & Hs).
      destruct (written_prefill X b L w H) as (w1 & -> & H1); auto. rewrite bind_Ok.
      destruct (IH (L + 1) w1 H1) as (w2 & q & -> & G1 & G2 & G3); [lia|done|]. exists w2, q.
      rewrite zlen_cons. replace (L + (1 + zlen p - zlen q)) with (L + 1 + (zlen p - zlen q)) by lia. auto. }
  unfold Write. rewrite E, bind_Ok. cbn [fst snd].
  destruct (write_rest_ok _ _ _ _ _ H1 HL1 Hs1) as (w2 & -> & H2). rewrite bind_Ok.
  exists w2. split; [done|]. by replace (L + zlen p) with (L + (zlen p - zlen q) + zlen q) by lia.
Qed.

Lemma write_chunks_ok X b L w ps : written X b L w -> 0 <= L -> chunk_of X L (concat ps) ->
  exists w', write_chunks w ps = Ok w' /\ written X b (L + zlen (concat ps)) w'.
Proof.
  revert L w. induction ps as [|p ps IH]; intros L w H HL Hs; cbn [write_chunks concat] in *.
  { exists w. by rewrite (zlen_nil (A := Z)), Z.add_0_r. }
  destruct Hs as [Hb Hs]. apply Forall_app in Hb as [Hb1 Hb2]. rewrite zlen_app in *.
  pose proof (zlen_nonneg p). pose proof (zlen_nonneg (concat ps)).
  destruct (Write_ok X b L w p H HL) as (w1 & -> & G1).
  { split; [done|]. intros i Hi. rewrite Hs by lia. unfold get. rewrite app_nth1; [done|unfold zlen in *; lia]. }
  rewrite bind_Ok. cbn [fst]. destruct (IH (L + zlen p) w1 G1) as (w2 & -> & G2); [lia| |].
  { split; [done|]. intros i Hi. replace (L + zlen p + i) with (L + (zlen p + i)) by lia. rewrite Hs by lia.
    unfold get. rewrite app_nth2 by (unfold zlen in *; lia). f_equal. unfold zlen in *. lia. }
  exists w2. split; [done|]. by rewrite Z.add_assoc.
Qed.

Lemma spaces_ok z : zlen z.(textBuf) = _N + _F - 1 ->
  exists z', for_range 0 (_N - _F) (fun i z => put_text z i 32) z = Ok z' /\
    (exists T, z' = set_text z T) /\ zlen z'.(textBuf) = _N + _F - 1 /\
    (forall i, 0 <= i < _N - _F -> get z'.(textBuf) i = 32) /\
    (forall i, _N - _F <= i -> get z'.(textBuf) i = get z.(textBuf) i).
Proof.
  intros Hl. apply (for_range_inv (fun j z' => (exists T, z' = set_text z T) /\ zlen z'.(textBuf) = _N + _F - 1 /\
    (forall i, 0 <= i < j -> get z'.(textBuf) i = 32) /\
    (forall i, _N - _F <= i -> get z'.(textBuf) i = get z.(textBuf) i))).
  - clia.
  - intros j z' Hj ([T ->] & Ht & H1 & H2). cbn [textBuf set_text] in *. unfold put_text. cbn [textBuf set_text].
    rewrite upd_bind by clia. eexists; split; [done|]. cbn [textBuf set_text].
    split; [by eexists|]. rewrite zlen_set. split; [done|]. split; intros i Hi; rewrite get_set by clia.
    + destruct (Z.eqb_spec i j); [done|]. apply H1. lia.
    + destruct (Z.eqb_spec i j); [clia|]. auto.
  - split; [exists z.(textBuf); by destruct z|]. split; [done|]. split; [lia|done].
Qed.

Lemma NewWriter_ok X b : (forall i, i < 0 -> X i = 32) -> exists w, NewWriter b = Ok w /\ written X b 0 w.
Proof.
  intros HX. unfold NewWriter. rewrite newHuff_run, bind_Ok.
  destruct (InitTree_ok zeroLz (fun d => d - (_N + 1))) as (z & -> & HD & HN); try reflexivity. rewrite bind_Ok.
  apply dict_fields in HD as (HD & ET & _ & _).
  destruct (spaces_ok z) as (z' & -> & [T ->] & Hl & H1 & H2); [by rewrite ET|]. rewrite bind_Ok.
  eexists. split; [done|]. split; [|done|done]. exists []. split; [|done]. cbn [textBuf set_text] in *.
  split; cbn [w_h w_out w_z w_len w_r w_s lastMatchLength preFilled set_text textBuf]; try done; try clia.
  - split; [done|..].
    + intros i Hi. destruct (Z.lt_ge_cases i (_N - _F)); [rewrite H1 by lia; unfold byte; lia|].
      rewrite H2, ET by done. unfold zeroLz, get. cbn [textBuf]. rewrite nth_lookup.
      destruct (_ !! _) as [v|] eqn:Ev; [apply lookup_replicate_1 in Ev as [-> _]|]; cbn; unfold byte; lia.
    + intros i Hi Hw. rewrite HX by lia. apply H1. ringlia.
    + clia.
  - apply dict_ok_text. exists (fun d => d - (_N + 1)), (get z.(dad)). split; [done|].
    intros x [Hx Hn]. by rewrite HN in Hn.
  - split; [apply huff0_ok|constructor|]. exists [], 0%nat. split; [constructor|]. intros _.
    split; [|done]. split; cbn [putlen putbuf]; [lia|lia|]. intros. apply Z.testbit_0_l.
  - constructor.
Qed.

(** The lookahead buffer runs empty. *)
Lemma flush_ok extra X L n ts w : winv extra X L n ts w -> extra = 0 ->
  exists w' ts', flush_lookahead w = Ok w' /\ winv 0 X L L ts' w' /\ same_header w w'.
Proof.
  intros H ->. unfold flush_lookahead.
  destruct (loop_inv (fun w1 => same_header w w1 /\ exists n ts, winv 0 X L n ts w1) (fun w => Z.to_nat w.(w_len))
    (fun w1 => same_header w w1 /\ exists ts, winv 0 X L L ts w1) (S (Z.to_nat w.(w_len)))
    (fun w => if 0 <? w.(w_len) then w ← advance w None; mret (inl w) else mret (inr w)) w)
    as (w' & E & Hs & ts' & W).
  - intros w1 (Hs & n1 & ts1 & W). pose proof (wi_len _ _ _ _ _ _ W) as Hl. pose proof (wi_n _ _ _ _ _ _ W).
    destruct (Z.ltb_spec 0 w1.(w_len)).
    + destruct (advance_none 0 X L n1 ts1 w1 W) as (w2 & ts2 & -> & W2 & S2); [lia|lia|]. rewrite bind_Ok.
      eexists; split; [done|]. pose proof (wi_len _ _ _ _ _ _ W2). split; [|lia]. split; [|eauto].
      destruct Hs, S2. split; congruence.
    + eexists; split; [done|]. split; [done|]. exists ts1. by replace n1 with L in W by lia.
  - split; [by split|]. eauto.
  - lia.
  - eauto.
Qed.

(** The output of a Writer: the header, and the coded tokens of the data. *)
Record output (X : Z -> Z) (b : bool) (L : Z) (out body : list Z) (ts : list token) (m : nat) : Prop := {
  out_eq : let hdr := le_bytes 4 (u32 (i32 L)) in
           out = (if b then le_bytes 2 (crc (hdr ++ body)) else []) ++ hdr ++ body;
  out_bytes : bytes body;
  out_text : covers X 0 ts L;
  out_bits : exists bs h, run huff0 ts bs m h /\
    ((m <= 16)%nat -> exists pad, bytebits body = bs ++ pad /\ (length pad < 8)%nat) }.

Lemma Close_ok X b L w : written X b L w -> exists out body ts m, Close w = Ok out /\ output X b L out body ts m.
Proof.
  intros [(ts & H & _) Hc Hs]. destruct (flush_ok 0 _ _ _ _ _ H eq_refl) as (w1 & ts1 & E & W & C1 & S1).
  unfold Close. rewrite E, bind_Ok. destruct W as [H1 H2 H3 H4 H5 H6 H7 H8 H9 H10 H11 H12].
  unfold encode. rewrite H2, Z.sub_diag. cbn [Z.eqb mret res_ret]. rewrite bind_Ok.
  destruct H9 as [K1 K2 (bs & m & K3 & K4)].
  eexists _, (encodeEnd w1.(w_out)).(bbuf), ts1, m. split; [done|]. split.
  - cbv zeta. by rewrite C1, Hc, S1, Hs.
  - unfold encodeEnd. destruct (_ =? 0); [done|]. cbn [bbuf]. apply Forall_app_2; [done|].
    repeat constructor; unfold byte; apply u8_range.
  - assert (cover L L w1 = L) as <-; [|exact H10]. unfold cover in *. destruct (Z.eqb_spec L 0); [lia|].
    specialize (H12 ltac:(lia)). lia.
  - exists bs, w1.(w_h). split; [done|]. intros Hm. destruct (K4 Hm) as [K5 <-]. by apply encodeEnd_ok.
Qed.

Lemma compress_ok b ps : bytes (concat ps) ->
  exists out body ts m, compress b ps = Ok out /\
    output (text (concat ps)) b (zlen (concat ps)) out body ts m.
Proof.
  intros Hb. unfold compress. destruct (NewWriter_ok (text (concat ps)) b) as (w & -> & H).
  { intros i Hi. unfold text. destruct (Z.ltb_spec i 0); [done|lia]. }
  rewrite bind_Ok. destruct (write_chunks_ok _ b 0 w ps H) as (w1 & -> & H1); [lia| |].
  { split; [done|]. intros i Hi. unfold text. destruct (Z.ltb_spec (0 + i) 0); [lia|done]. }
  rewrite bind_Ok. by apply Close_ok.
Qed.
