(* ===== verification/Decompress.v ===== *)
(** Correctness of the decompressor: reading back the coded form of tokens
    yields the text they describe, however the client sizes its reads. *)
From S2P Require Import Prelude Huffman Reconst Crc BitIO HuffCode LzTree Tokens Writer Reader.

(** ** The ring buffer of the Reader, which starts at another index *)
Definition dring (i : Z) : Z := (_N - _R + i) mod _N.

Ltac dringlia := unfold dring in *; consts; Z.div_mod_to_equations; lia.

Lemma dring_range i : 0 <= dring i < _N.
Proof. dringlia. Qed.

Lemma land_mod x : Z.land x (_N - 1) = x mod _N.
Proof. change (_N - 1) with (Z.ones 11). by rewrite Z.land_ones by lia. Qed.

(** The state of the text after [n] bytes have been decoded. *)
Record rtext (X : Z -> Z) (n : Z) (d : reader) : Prop := {
  rt_n : 0 <= n < 2 ^ 31;
  rt_pos : d.(st_pos) = n;
  rt_r : d.(st_r) = dring n;
  rt_len : zlen d.(rd_text) = _N + _F - 1;
  rt_text i : _R - _N <= i < n -> n - _N <= i -> get d.(rd_text) (dring i) = X i }.

(** The fields the decoding of a byte leaves alone. *)
Record rframe (d d' : reader) : Prop := {
  fr_r : d'.(rd_r) = d.(rd_r); fr_h : d'.(rd_h) = d.(rd_h); fr_err : d'.(rd_err) = d.(rd_err);
  fr_crc16 : d'.(rd_crc16) = d.(rd_crc16); fr_crc : d'.(hdr_crc) = d.(hdr_crc);
  fr_size : d'.(hdr_size) = d.(hdr_size) }.

Lemma rframe_trans d1 d2 d3 : rframe d1 d2 -> rframe d2 d3 -> rframe d1 d3.
Proof. intros [] []. split; congruence. Qed.

Lemma emit_ok X n d : rtext X n d -> n + 1 < 2 ^ 31 ->
  exists d', emit d (X n) = Ok d' /\ rtext X (n + 1) d' /\ rframe d d' /\ d'.(st_buf) = d.(st_buf).
Proof.
  intros [H1 H2 H3 H4 H5] Hn. pose proof (dring_range n). unfold emit. rewrite H3. rewrite upd_bind by clia.
  eexists. split; [done|]. split_and!; [|by split|done].
  split; cbn [advanceState set_rtext st_pos st_r rd_text]; [lia| | | |].
  - rewrite H2. apply i32_small. lia.
  - rewrite H3, land_mod. dringlia.
  - by rewrite zlen_set.
  - intros i Hi Hw. pose proof (dring_range i). rewrite get_set by clia.
    destruct (Z.eqb_spec (dring i) (dring n)) as [E|E]; [f_equal; dringlia|].
    apply H5; [|lia]. destruct (decide (i = n)) as [->|]; [done|lia].
Qed.

(** ** The bytes of the text from [a] up to [b] *)
Definition seg (X : Z -> Z) (a b : Z) : list Z := X <$> seqZ a (b - a).

Lemma zlen_seg X a b : a <= b -> zlen (seg X a b) = b - a.
Proof. intros. unfold zlen, seg. rewrite length_fmap, length_seqZ. lia. Qed.

Lemma seg_nil X a : seg X a a = [].
Proof. unfold seg. by rewrite Z.sub_diag. Qed.

Lemma seg_app X a b c : a <= b <= c -> seg X a b ++ seg X b c = seg X a c.
Proof.
  intros H. unfold seg. rewrite <- fmap_app. f_equal.
  replace (c - a) with ((b - a) + (c - b)) by lia. rewrite seqZ_app by lia. do 2 f_equal. lia.
Qed.

Lemma seg_snoc X a b : a <= b -> seg X a (b + 1) = seg X a b ++ [X b].
Proof.
  intros H. rewrite <- (seg_app X a b (b + 1)) by lia. f_equal. unfold seg.
  by replace (b + 1 - b) with 1 by lia.
Qed.

Lemma seg_take X a b k : a <= b -> 0 <= k -> take (Z.to_nat k) (seg X a b) = seg X a (Z.min (a + k) b).
Proof.
  intros H Hk. pose proof (zlen_seg X a b H) as L. unfold zlen in L. destruct (Z.le_gt_cases b (a + k)).
  - rewrite take_ge by lia. by replace (Z.min (a + k) b) with b by lia.
  - replace (Z.min (a + k) b) with (a + k) by lia. rewrite <- (seg_app X a (a + k) b) by lia.
    apply take_app_length'. pose proof (zlen_seg X a (a + k) ltac:(lia)) as L'. unfold zlen in L'. lia.
Qed.

Lemma seg_drop X a b k : a <= b -> 0 <= k -> drop (Z.to_nat k) (seg X a b) = seg X (Z.min (a + k) b) b.
Proof.
  intros H Hk. pose proof (take_drop (Z.to_nat k) (seg X a b)) as E. rewrite seg_take in E by done.
  apply (app_inv_head (seg X a (Z.min (a + k) b))). rewrite E. by rewrite seg_app by lia.
Qed.

Lemma text_seg data : seg (text data) 0 (zlen data) = data.
Proof.
  apply list_eq_get; rewrite zlen_seg, Z.sub_0_r by apply zlen_nonneg; [done|].
  intros i Hi. unfold seg. apply get_lookup; [lia|]. rewrite list_lookup_fmap, lookup_seqZ_lt by lia.
  cbn. f_equal. unfold text. replace (0 + _) with i by lia. destruct (Z.ltb_spec i 0); [lia|done].
Qed.

(** [p] and the buffer of [d] split the text from [a] to [n] at the length [k]
    of the caller's slice. *)
Definition split_at (X : Z -> Z) (a n k : Z) (p : list Z) (d : reader) : Prop :=
  a <= n /\ p = take (Z.to_nat k) (seg X a n) /\ d.(st_buf) = drop (Z.to_nat k) (seg X a n).

Lemma split_len X a n k p d : split_at X a n k p d -> 0 <= k -> zlen p = Z.min k (n - a).
Proof. intros (H & -> & _) Hk. rewrite seg_take, zlen_seg by lia. lia. Qed.

(** A decoded byte goes to the slice, then to the buffer. *)
Lemma split_snoc X a n k p d d' : split_at X a n k p d -> 0 <= k ->
  d'.(st_buf) = (if zlen p <? k then d.(st_buf) else d.(st_buf) ++ [X n]) ->
  split_at X a (n + 1) k (if zlen p <? k then p ++ [X n] else p) d'.
Proof.
  intros H Hk Eb. pose proof (split_len _ _ _ _ _ _ H Hk) as El. destruct H as (Ha & Ep & Ed).
  pose proof (zlen_seg X a n Ha) as Hs. unfold zlen in Hs.
  split; [lia|]. rewrite Eb, seg_snoc, take_app, drop_app by done. destruct (Z.ltb_spec (zlen p) k) as [Hlt|Hge].
  - rewrite Ep, Ed. destruct (Z.to_nat k - _)%nat as [|q] eqn:E; [lia|]. cbn [take drop].
    by rewrite take_nil, drop_nil, app_nil_r.
  - replace (Z.to_nat k - _)%nat with 0%nat by lia. rewrite take_0, drop_0, app_nil_r. by rewrite Ep, Ed.
Qed.

(** ** The copy loop *)
Lemma copy_ok X n len pos a k p d :
  rtext X n d -> n + len < 2 ^ 31 -> says X n (Copy len pos) -> split_at X a n k p d -> 0 <= k ->
  exists p' d', for_range 0 len (copy_byte k (Z.land (d.(st_r) - pos - 1) (_N - 1))) (p, d) = Ok (p', d') /\
    rtext X (n + len) d' /\ rframe d d' /\ split_at X a (n + len) k p' d'.
Proof.
  intros HT Hn (Hl & Hp & Ho & Hs) Hsp Hk.
  set (i := Z.land _ _). assert (Ei : i = dring (n - pos - 1)).
  { unfold i. rewrite land_mod, (rt_r _ _ _ HT). dringlia. }
  destruct (for_range_inv (fun j (pd : list Z * reader) => rtext X (n + j) pd.2 /\ rframe d pd.2 /\ split_at X a (n + j) k pd.1 pd.2)
    0 len (copy_byte k i) (p, d)) as ([p' d'] & E & G1 & G2 & G3).
  - clia.
  - intros j [p1 d1] Hj (T1 & F1 & S1). cbn [fst snd] in *. unfold copy_byte.
    assert (Hir : Z.land (i + j) (_N - 1) = dring (n + j - pos - 1)).
    { rewrite land_mod, Ei. dringlia. }
    pose proof (dring_range (n + j - pos - 1)). rewrite Hir.
    rewrite idx_bind by (rewrite (rt_len _ _ _ T1); clia). rewrite (rt_text _ _ _ T1) by clia. rewrite <- Hs by lia.
    set (d2 := if zlen p1 <? k then d1 else set_buf d1 (st_buf d1 ++ [X (n + j)])).
    assert (T2 : rtext X (n + j) d2) by (unfold d2; destruct (_ <? _); [done|]; destruct T1; by split).
    assert (F2 : rframe d1 d2) by (unfold d2; destruct (_ <? _); by split).
    destruct (emit_ok X (n + j) d2 T2) as (d3 & E3 & T3 & F3 & B3); [lia|].
    exists (if zlen p1 <? k then p1 ++ [X (n + j)] else p1, d3). split.
    { unfold d2 in E3. destruct (zlen p1 <? k); by rewrite E3. }
    cbn [fst snd]. replace (n + (j + 1)) with (n + j + 1) by lia. split; [done|].
    split; [eauto using rframe_trans|]. apply (split_snoc _ _ _ _ _ d1); auto.
    rewrite B3. unfold d2. by destruct (_ <? _).
  - cbn [fst snd]. rewrite Z.add_0_r. split_and!; auto. by split.
  - eauto 10.
Qed.

(** ** The invariant of a Reader

    [P] is the part of the source the checksum covers; [ts] are the tokens still
    to be decoded, from position [n] of a text of [size] bytes. *)
Record rinv (X : Z -> Z) (size : Z) (P : list Z) (b : bool) (c n : Z) (ts : list token) (d : reader) : Prop := {
  ri_text : rtext X n d;
  ri_cover : covers X n ts size;
  ri_huff : huff_ok d.(rd_h);
  ri_rok : rok P d.(rd_r);
  ri_bits : exists bs m h pad, run d.(rd_h) ts bs m h /\ rstream d.(rd_r) = bs ++ pad /\ (length pad < 8)%nat;
  ri_size : d.(hdr_size) = size;
  ri_max : size < 2 ^ 31;
  ri_err : d.(rd_err) = None;
  ri_crc16 : d.(rd_crc16) = b;
  ri_crc : d.(hdr_crc) = c }.

Section reading.
Context (X : Z -> Z) (size : Z) (P : list Z) (b : bool) (c : Z).
Abbreviation rinv := (rinv X size P b c).

Lemma read_step_ok a n ts k p d :
  rinv n ts d -> split_at X a n k p d -> 0 <= k -> n < size -> zlen p < k ->
  exists p' d' n' ts', read_step k (p, d) = Ok (inl (p', d')) /\ rinv n' ts' d' /\ n < n' /\
    split_at X a n' k p' d'.
Proof.
  intros [H1 H2 H3 H4 (bs & m & h & pad & H5 & H6 & H7) H8 H9 H10 H11 H12] Hsp Hk Hn Hp.
  unfold read_step. rewrite (ro_err _ _ H4), H8, (rt_pos _ _ _ H1).
  destruct (Z.ltb_spec (zlen p) k); [|lia]. destruct (Z.ltb_spec n size); [|lia]. cbn [andb].
  inversion H2 as [|? t ts' ? Ht Hts]; subst; [lia|]. inversion H5 as [|? ? ? cb bs' m' z1 ? Hcb Hu Hrun]; subst.
  pose proof (says_sym _ _ _ Ht) as Hsym. rewrite <- app_assoc in H6. rewrite <- app_assoc in H6.
  destruct (decodeChar_ok P d.(rd_h) d.(rd_r) (sym t) cb _ H3 H4 Hsym Hcb H6) as (z' & r & -> & Eu & Hz & Hr & Hst).
  rewrite Hu in Eu. injection Eu as <-. rewrite bind_Ok. pose proof (covers_le _ _ _ _ Hts). pose proof (zlen_nonneg ts').
  set (d1 := set_bits d r z1). assert (T1 : rtext X n d1) by (destruct H1; by split).
  destruct t as [c0|len pos]; cbn [sym tlen tail_bits app] in *.
  - destruct Ht as [Hc <-]. destruct (Z.ltb_spec (X n) 256); [|lia].
    destruct (emit_ok X n d1 T1) as (d2 & -> & T2 & [F1 F2 F3 F4 F5 F6] & B2); [lia|]. rewrite bind_Ok.
    exists (p ++ [X n]), d2, (n + 1), ts'. split; [done|]. split; [|split; [lia|]].
    + split; rewrite ?F1, ?F2, ?F3, ?F4, ?F5, ?F6; auto. eauto 10.
    + pose proof (split_snoc X a n k p d d2 Hsp Hk) as S. destruct (Z.ltb_spec (zlen p) k); [|lia]. by apply S.
  - destruct Ht as (Hl & Hpo & Ho & Hs). destruct (Z.ltb_spec (255 - _Threshold + len) 256); [clia|].
    cbn [rd_r d1 set_bits]. destruct (decodePosition_ok P r pos _ Hr ltac:(clia) Hst) as (r2 & -> & Hr2 & Hst2).
    rewrite bind_Ok. set (d2 := set_bits d1 r2 (rd_h d1)).
    assert (T2 : rtext X n d2) by (destruct T1; by split).
    assert (S2 : split_at X a n k p d2) by done.
    replace (255 - _Threshold + len - 255 + _Threshold) with len by lia.
    destruct (copy_ok X n len pos a k p d2 T2) as (p' & d3 & -> & T3 & [F1 F2 F3 F4 F5 F6] & S3); auto; [lia|done|].
    rewrite bind_Ok. exists p', d3, (n + len), ts'. split; [done|]. split; [|split; [clia|done]].
    split; rewrite ?F1, ?F2, ?F3, ?F4, ?F5, ?F6; auto. eauto 10.
Qed.

(** The decoding loop fills the slice or reaches the end of the text. *)
Lemma read_loop_ok a n ts k d :
  rinv n ts d -> 0 <= a <= n -> 0 <= k -> d.(st_buf) = seg X a n ->
  exists p d' n' ts', loop (S (Z.to_nat k)) (read_step k)
      (take (Z.to_nat k) d.(st_buf), set_buf d (drop (Z.to_nat k) d.(st_buf))) = Ok (p, d') /\
    rinv n' ts' d' /\ n <= n' /\ split_at X a n' k p d' /\ (k <= n' - a \/ n' = size).
Proof.
  intros H Ha Hk Eb.
  destruct (loop_inv (fun pd : list Z * reader => exists n' ts', rinv n' ts' pd.2 /\ n <= n' /\ split_at X a n' k pd.1 pd.2)
    (fun pd => Z.to_nat (k - zlen pd.1))
    (fun pd => exists n' ts', rinv n' ts' pd.2 /\ n <= n' /\ split_at X a n' k pd.1 pd.2 /\ (k <= n' - a \/ n' = size))
    (S (Z.to_nat k)) (read_step k) (take (Z.to_nat k) d.(st_buf), set_buf d (drop (Z.to_nat k) d.(st_buf))))
    as ([p d'] & E & n' & ts' & G).
  - intros [p d1] (n1 & ts1 & R1 & L1 & S1). cbn [fst snd] in *. pose proof (split_len _ _ _ _ _ _ S1 Hk) as Hl.
    pose proof (covers_le _ _ _ _ (ri_cover _ _ _ _ _ _ _ _ R1)). pose proof (zlen_nonneg ts1).
    destruct (decide (zlen p < k /\ n1 < size)) as [[Hp Hn]|Hstop].
    + destruct (read_step_ok a n1 ts1 k p d1) as (p2 & d2 & n2 & ts2 & -> & R2 & L2 & S2); auto.
      eexists; split; [done|]. split; [exists n2, ts2; split_and!; auto; lia|].
      cbn [fst]. pose proof (split_len _ _ _ _ _ _ S2 Hk). lia.
    + exists (inr (p, d1)). split.
      * unfold read_step. rewrite (ro_err _ _ (ri_rok _ _ _ _ _ _ _ _ R1)), (ri_size _ _ _ _ _ _ _ _ R1), (rt_pos _ _ _ (ri_text _ _ _ _ _ _ _ _ R1)).
        destruct (Z.ltb_spec (zlen p) k), (Z.ltb_spec n1 size); try done. exfalso. auto.
      * exists n1, ts1. split_and!; auto. cbn [fst snd]. lia.
  - exists n, ts. cbn [fst snd]. split_and!; [|lia|split; [lia|by rewrite Eb]].
    destruct H as [[] ? ? ? ? ? ? ? ? ?]. by split.
  - cbn [fst]. pose proof (zlen_nonneg (take (Z.to_nat k) (st_buf d))). lia.
  - eauto 10.
Qed.

(** The state between two reads: the client has received [a] bytes. *)
Definition delivered (a : Z) (d : reader) : Prop :=
  exists n ts, rinv n ts d /\ 0 <= a <= n /\ d.(st_buf) = seg X a n.

Lemma Read_more a d k : delivered a d -> 0 < k -> a < size ->
  exists a' d', Read d k = Ok (seg X a a', None, d') /\ delivered a' d' /\ a < a' <= size.
Proof.
  intros (n & ts & H & Ha & Eb) Hk Hs. pose proof (covers_le _ _ _ _ (ri_cover _ _ _ _ _ _ _ _ H)).
  pose proof (zlen_nonneg ts).
  assert (read_status d = (None, d)) as E0.
  { unfold read_status. rewrite (ro_err _ _ (ri_rok _ _ _ _ _ _ _ _ H)), (rt_pos _ _ _ (ri_text _ _ _ _ _ _ _ _ H)), (ri_size _ _ _ _ _ _ _ _ H).
    rewrite Eb, zlen_seg by lia. destruct (Z.eqb_spec n size), (Z.eqb_spec (n - a) 0); try done. lia. }
  unfold Read. rewrite E0, (ri_err _ _ _ _ _ _ _ _ H).
  destruct (read_loop_ok a n ts k d H Ha ltac:(lia) Eb) as (p & d' & n' & ts' & -> & R & L & (Hn & -> & Eb') & Hstop).
  rewrite bind_Ok. cbn [fst snd]. pose proof (covers_le _ _ _ _ (ri_cover _ _ _ _ _ _ _ _ R)). pose proof (zlen_nonneg ts').
  exists (Z.min (a + k) n'), d'. rewrite seg_take by lia. split; [done|]. split; [|lia].
  exists n', ts'. split; [done|]. split; [lia|]. by rewrite Eb', seg_drop by lia.
Qed.

(** At the end [Read] reports io.EOF and [Close] accepts. *)
Lemma Read_end d k : delivered size d -> (b = true -> c = crcw_sum (crcw_write 0 P)) ->
  Read d k = Ok ([], Some EOF, d) /\ reader_Close d = None.
Proof.
  intros (n & ts & H & Ha & Eb) Hc. pose proof (covers_le _ _ _ _ (ri_cover _ _ _ _ _ _ _ _ H)). pose proof (zlen_nonneg ts).
  assert (n = size) as -> by lia. rewrite seg_nil in Eb. pose proof (rt_pos _ _ _ (ri_text _ _ _ _ _ _ _ _ H)) as Ep.
  pose proof (rt_n _ _ _ (ri_text _ _ _ _ _ _ _ _ H)).
  destruct H as [_ _ _ H4 (bs & m & h & pad & H5 & H6 & H7) H8 H9 H10 H11 H12].
  assert (ts = []) as -> by (destruct ts; [done|rewrite zlen_cons in *; pose proof (zlen_nonneg ts); lia]).
  inversion H5; subst bs. cbn [app] in H6. destruct H4 as [K1 K2 K3 (fe & K4 & K5)].
  pose proof (rstream_length d.(rd_r) ltac:(lia)) as Hl. rewrite H6, zlen_app in Hl.
  pose proof (zlen_nonneg d.(rd_r).(rbuf)). pose proof (zlen_nonneg d.(rd_r).(rsrc)).
  assert (d.(rd_r).(rsrc) = []) as Hsrc.
  { destruct (rsrc (rd_r d)); [done|]. rewrite zlen_cons in *. pose proof (zlen_nonneg l). lia. }
  rewrite Hsrc, app_nil_r in K4. split.
  - unfold Read, read_status. rewrite K2, Ep, H8, Eb, Z.eqb_refl. done.
  - unfold reader_Close. rewrite H10, K2, H11, H12, K5, K4, H8, Ep, Eb.
    replace (b && _) with false by (destruct b; [rewrite <- Hc, Z.eqb_refl by done|]; done).
    replace (i32 (size - i32 (zlen []))) with size by (change (i32 (zlen [])) with 0; rewrite i32_small; lia).
    by rewrite Z.eqb_refl.
Qed.

(** Draining the Reader terminates and yields the text. *)
Lemma drain_ok a d fuel ks : delivered a d -> (b = true -> c = crcw_sum (crcw_write 0 P)) -> 0 <= a <= size ->
  (forall i, 0 < ks i) -> size - a < Z.of_nat fuel ->
  exists d', drain fuel ks d (seg X 0 a) = Ok (seg X 0 size, EOF, d') /\ reader_Close d' = None.
Proof.
  revert a d ks. induction fuel as [|fuel IH]; intros a d ks H Hc Ha Hks Hf; [lia|]. cbn [drain].
  destruct (decide (a = size)) as [->|].
  - destruct (Read_end d (ks 0%nat) H Hc) as [-> Hcl]. rewrite bind_Ok. exists d. by rewrite app_nil_r.
  - destruct (Read_more a d (ks 0%nat) H) as (a' & d' & -> & H' & Ha'); [done|lia|]. rewrite bind_Ok.
    rewrite seg_app by lia. apply IH; auto; lia.
Qed.
End reading.

(** ** Opening *)
Lemma le_value_bytes n x : 0 <= x < 256 ^ Z.of_nat n -> le_value (le_bytes n x) = x.
Proof.
  revert x. induction n as [|n IH]; intros x Hx; cbn [le_bytes le_value]; [lia|].
  rewrite Nat2Z.inj_succ, Z.pow_succ_r in Hx by lia. rewrite IH; Z.div_mod_to_equations; nia.
Qed.

Lemma length_le_bytes n x : length (le_bytes n x) = n.
Proof. revert x. induction n as [|n IH]; intros x; cbn; [done|]. by rewrite IH. Qed.

Lemma bytes_le_bytes n x : bytes (le_bytes n x).
Proof.
  revert x. induction n as [|n IH]; intros x; cbn; constructor; [|apply IH].
  unfold byte. apply Z.mod_pos_bound. lia.
Qed.

Lemma binary_Read_ok n x src : 0 <= x < 256 ^ Z.of_nat n -> (0 < n)%nat ->
  binary_Read n (le_bytes n x ++ src) = (inr x, le_bytes n x, src).
Proof.
  intros Hx Hn. unfold binary_Read.
  rewrite take_app_length', drop_app_length' by (symmetry; apply length_le_bytes). rewrite length_le_bytes, le_value_bytes by done.
  destruct n; [lia|]. by rewrite Nat.ltb_irrefl.
Qed.

Lemma i32_u32 x : i32 (u32 x) = i32 x.
Proof. unfold i32, u32. by rewrite Z.add_mod_idemp_l by lia. Qed.

Lemma rspaces_ok : exists T, for_range 0 (_N - _F) (fun i t => upd t i 32) (replicate 2107 0) = Ok T /\
  zlen T = _N + _F - 1 /\ forall i, 0 <= i < _N - _F -> get T i = 32.
Proof.
  apply (for_range_inv (fun j T => zlen T = _N + _F - 1 /\ forall i, 0 <= i < j -> get T i = 32)).
  - clia.
  - intros j T Hj [Hl H]. rewrite upd_set by clia. eexists; split; [done|]. rewrite zlen_set. split; [done|].
    intros i Hi. rewrite get_set by clia. destruct (Z.eqb_spec i j); [done|]. apply H. lia.
  - split; [reflexivity|lia].
Qed.

Lemma word16_crc p : bytes p -> word16 (crc p).
Proof.
  intros Hp. apply (crcw_write_reg 0); [|unfold word16; lia]. apply Forall_app_2; [done|].
  repeat constructor; unfold byte; lia.
Qed.

(** Opening what a Writer has written. *)
Lemma NewReader_ok (data : list Z) (b : bool) body ts bs m h pad :
  let hdr : list Z := le_bytes 4 (u32 (i32 (zlen data))) in
  let c := if b then crc (hdr ++ body) else 0 in
  zlen data < 2 ^ 31 -> bytes body -> covers (text data) 0 ts (zlen data) ->
  run huff0 ts bs m h -> bytebits body = bs ++ pad -> (length pad < 8)%nat ->
  exists d, NewReader ((if b then le_bytes 2 (crc (hdr ++ body)) else []) ++ hdr ++ body) b = Ok (inr (d, None)) /\
    delivered (text data) (zlen data) (hdr ++ body) b c 0 d.
Proof.
  intros hdr c Hlen Hb Hcov Hrun Hbits Hpad. pose proof (zlen_nonneg data). unfold NewReader.
  rewrite newHuff_run, bind_Ok. destruct rspaces_ok as (T & -> & HT1 & HT2). rewrite bind_Ok.
  assert (Hhdr : bytes (hdr ++ body)) by (apply Forall_app_2; [apply bytes_le_bytes|done]).
  assert (E1 : (if b then let '(v, _, s) := binary_Read 2 ((if b then le_bytes 2 (crc (hdr ++ body)) else []) ++ hdr ++ body) in (v, s)
                else (inr 0 : rerror + Z, (if b then le_bytes 2 (crc (hdr ++ body)) else []) ++ hdr ++ body)) = (inr c, hdr ++ body)).
  { unfold c. destruct b; [|done]. rewrite binary_Read_ok; [done| |lia]. by apply word16_crc. }
  rewrite E1. unfold hdr at 1. rewrite binary_Read_ok; [|unfold u32; apply Z.mod_pos_bound; lia|lia]. fold hdr.
  eexists. split; [done|]. rewrite i32_u32, !(i32_small (zlen data)) by lia. exists 0, ts. split; [|split; [lia|by rewrite seg_nil]].
  split; cbn [rd_r rd_h rd_text rd_err rd_crc16 hdr_crc hdr_size]; auto; [| |split|].
  - split; cbn [st_pos st_r rd_text]; auto; [lia|]. intros i Hi _. unfold text. destruct (Z.ltb_spec i 0); [|lia].
    apply HT2. dringlia.
  - apply huff0_ok.
  - cbn. lia.
  - done.
  - done.
  - by exists hdr.
  - exists bs, m, h, pad. split_and!; auto.
Qed.

Lemma decompress_ok (data : list Z) (b : bool) body ts bs m h pad fuel ks :
  let hdr := le_bytes 4 (u32 (i32 (zlen data))) in
  zlen data < 2 ^ 31 -> bytes body -> covers (text data) 0 ts (zlen data) ->
  run huff0 ts bs m h -> bytebits body = bs ++ pad -> (length pad < 8)%nat ->
  (forall i, 0 < ks i) -> zlen data < Z.of_nat fuel ->
  decompress b fuel ks ((if b then le_bytes 2 (crc (hdr ++ body)) else []) ++ hdr ++ body)
  = Ok (inr (data, EOF, None)).
Proof.
  intros hdr Hlen Hb Hcov Hrun Hbits Hpad Hks Hf. pose proof (zlen_nonneg data).
  destruct (NewReader_ok data b body ts bs m h pad Hlen Hb Hcov Hrun Hbits Hpad) as (d & E & Hd).
  unfold decompress. fold hdr in E. rewrite E, bind_Ok.
  destruct (drain_ok _ _ _ _ _ 0 d fuel ks Hd) as (d' & E' & Hc); try lia; auto.
  { intros ->. apply crc_crcw. }
  rewrite seg_nil in E'. rewrite E', bind_Ok, Hc. by rewrite text_seg.
Qed.
