(* ===== verification/Roundtrip.v ===== *)
(** The contract of package lzhuf: what goes into a Writer comes out of a
    Reader, the Writer is insensitive to how its input is cut into slices, and
    how the Reader behaves on a stream that overruns its announced size. *)
From S2P Require Import Prelude Huffman Reconst Crc BitIO HuffCode LzTree Tokens Writer Reader Compress Decompress.

(** ** Round trip *)

(** C2. Every message of up to 3867 bytes, written in any slices, in either
    format, is read back in full, ends with io.EOF, and [Close] accepts it:
    checksum and size match.  No step panics, and reading terminates for any
    sequence of non-empty reads. *)
Theorem lzhuf_roundtrip b ps fuel ks :
  bytes (concat ps) -> zlen (concat ps) <= 3867 ->
  (forall i, 0 < ks i) -> zlen (concat ps) < Z.of_nat fuel ->
  exists out, compress b ps = Ok out /\
    decompress b fuel ks out = Ok (inr (concat ps, EOF, None)).
Proof.
  intros Hb Hl Hks Hf. destruct (compress_ok b ps Hb) as (out & body & ts & m & E & [Eo Bo To (bs & h & Hr & Hbits)]).
  exists out. split; [exact E|].
  destruct Hbits as (pad & Ep & Hp).
  { eapply run_short; [exact Hr|apply huff0_ok|by eapply covers_syms|].
    rewrite (proj2 huff0_ok). apply covers_le in To. clia. }
  rewrite Eo. apply (decompress_ok _ b body ts bs m h pad); try assumption. lia.
Qed.

Lemma lzhuf_roundtrip_witness :
  exists out, compress true [[72; 105]; [72; 105; 33]] = Ok out /\
    decompress true 6 (fun _ => 2) out = Ok (inr ([72; 105; 72; 105; 33], EOF, None)).
Proof.
  apply (lzhuf_roundtrip true [[72; 105]; [72; 105; 33]] 6 (fun _ => 2)).
  - repeat constructor; unfold byte; lia.
  - vm_compute. discriminate.
  - intros i. lia.
  - vm_compute. reflexivity.
Defined.

(** C19. The format of what the Writer returns, for data of any size below 2 GiB and
    any slices: the checksum of the rest, if asked for; the size in four bytes, low byte
    first; and a body.  There are tokens [ts] that describe exactly the data, and the
    bits of the body are their code [bs], filled up with less than a byte, when the
    longest Huffman code among them has at most 16 bits, as it has for data of up
    to 3867 bytes; then the Reader gives the data back. *)
Theorem lzhuf_roundtrip_tokens b ps :
  bytes (concat ps) -> zlen (concat ps) < 2 ^ 31 ->
  exists out body ts bs m h, compress b ps = Ok out /\
    (let hdr := le_bytes 4 (zlen (concat ps)) in
     out = (if b then le_bytes 2 (crc (hdr ++ body)) else []) ++ hdr ++ body) /\
    covers (text (concat ps)) 0 ts (zlen (concat ps)) /\ run huff0 ts bs m h /\
    (zlen (concat ps) <= 3867 -> (m <= 16)%nat) /\
    ((m <= 16)%nat -> (exists pad, bytebits body = bs ++ pad /\ (length pad < 8)%nat) /\
       forall fuel ks, (forall i, 0 < ks i) -> zlen (concat ps) < Z.of_nat fuel ->
       decompress b fuel ks out = Ok (inr (concat ps, EOF, None))).
Proof.
  intros Hb Hl. destruct (compress_ok b ps Hb) as (out & body & ts & m & E & [Eo Bo To (bs & h & Hr & Hbits)]).
  pose proof (zlen_nonneg (concat ps)) as H0.
  assert (Es : u32 (i32 (zlen (concat ps))) = zlen (concat ps)).
  { unfold u32, i32. rewrite (Z.mod_small (_ + 2 ^ 31)) by lia. rewrite Z.mod_small by lia. lia. }
  exists out, body, ts, bs, m, h. split; [exact E|].
  split; [pose proof Eo as Eo'; cbv zeta in Eo' |- *; rewrite Es in Eo'; exact Eo'|]. split; [exact To|]. split; [exact Hr|]. split.
  - intros Hs. eapply run_short; [exact Hr|apply huff0_ok|by eapply covers_syms|]. rewrite (proj2 huff0_ok). apply covers_le in To. clia.
  - intros Hm. destruct (Hbits Hm) as (pad & Ep & Hp). split; [exists pad; split; [exact Ep|exact Hp]|]. intros fuel ks Hks Hf.
    rewrite Eo. apply (decompress_ok _ b body ts bs m h pad); assumption.
Qed.

Lemma lzhuf_roundtrip_tokens_witness :
  exists out body ts bs m h, compress false [[1]] = Ok out /\ out = le_bytes 4 1 ++ body /\
    covers (text [1]) 0 ts 1 /\ run huff0 ts bs m h /\
    (exists pad, bytebits body = bs ++ pad /\ (length pad < 8)%nat).
Proof.
  destruct (lzhuf_roundtrip_tokens false [[1]]) as (out & body & ts & bs & m & h & E & Eo & To & Hr & Hs & Hm);
    [repeat constructor; unfold byte; lia|vm_compute; reflexivity|].
  exists out, body, ts, bs, m, h. split; [exact E|]. split; [exact Eo|]. split; [exact To|]. split; [exact Hr|].
  apply Hm, Hs. vm_compute. discriminate.
Defined.

(** ** Slices *)

(** What [Write] does to one byte. *)
Definition write_byte (w : writer) (c : Z) : res writer :=
  if w.(preFilled) then w ← advance w (Some c); mret (count_byte w) else prefill_byte w c.

Fixpoint write_bytes (w : writer) (p : list Z) : res writer :=
  match p with [] => mret w | c :: p => w ← write_byte w c; write_bytes w p end.

(** Takes the result of a [bind] apart. *)
Ltac inv_bind H :=
  match type of H with
  | (?m ≫= _) = Ok _ => let x := fresh "x" in let E := fresh "E" in
      destruct m as [x| |] eqn:E; [rewrite bind_Ok in H|discriminate H..]
  end.

Lemma encode_filled w w' : encode w = Ok w' -> w'.(preFilled) = w.(preFilled).
Proof.
  unfold encode. intros H. destruct (_ =? 0); [by injection H as <-|].
  destruct (_ <=? _); repeat inv_bind H; by injection H as <-.
Qed.

Lemma load_byte_filled w c w' : load_byte w c = Ok w' -> w'.(preFilled) = w.(preFilled).
Proof. unfold load_byte. intros H. repeat inv_bind H. by injection H as <-. Qed.

Lemma advance_filled w c w' : advance w c = Ok w' -> w'.(preFilled) = w.(preFilled).
Proof.
  unfold advance. intros H. repeat inv_bind H. injection H as <-. cbn [preFilled set_len set_ring set_z].
  transitivity x.(preFilled).
  - destruct (_ =? 0) eqn:E'; [apply encode_filled in E1|injection E1 as <-]; done.
  - destruct c; [by eapply load_byte_filled|by injection E as <-].
Qed.

Lemma write_rest_bytes w p : w.(preFilled) = true -> write_rest w p = write_bytes w p.
Proof.
  revert w. induction p as [|c p IH]; intros w Hw; [done|]. cbn [write_rest write_bytes]. unfold write_byte. rewrite Hw.
  destruct (advance w (Some c)) as [w'| |] eqn:E; [|done..]. rewrite !bind_Ok.
  apply IH. apply advance_filled in E. cbn [preFilled count_byte]. congruence.
Qed.

Lemma Write_bytes w p : Write w p = (w' ← write_bytes w p; mret (w', zlen p)).
Proof.
  unfold Write. assert (E : (wp ← prefill w p; write_rest wp.1 wp.2) = write_bytes w p).
  { revert w. induction p as [|c p IH]; intros w; [done|]. cbn [prefill write_bytes]. unfold write_byte.
    destruct (preFilled w) eqn:Hw.
    - cbn [mret res_ret]. rewrite bind_Ok. cbn [fst snd]. rewrite write_rest_bytes by done.
      cbn [write_bytes]. unfold write_byte. by rewrite Hw.
    - destruct (prefill_byte w c); [|done..]. rewrite !bind_Ok. apply IH. }
  rewrite <- E. destruct (prefill w p) as [[w1 q]| |]; [|done..]. rewrite !bind_Ok. done.
Qed.

Lemma write_bytes_app w p q : write_bytes w (p ++ q) = (w ← write_bytes w p; write_bytes w q).
Proof.
  revert w. induction p as [|c p IH]; intros w; [done|]. cbn [app write_bytes].
  destruct (write_byte w c); [|done..]. rewrite !bind_Ok. apply IH.
Qed.

(** C20. The compressed output only depends on the bytes written, not on the slices
    they come in. *)
Theorem compress_chunks b ps : compress b ps = compress b [concat ps].
Proof.
  unfold compress. destruct (NewWriter b) as [w| |]; [|done..]. rewrite !bind_Ok.
  assert (E : forall w ps, write_chunks w ps = write_bytes w (concat ps)).
  { clear. intros w ps. revert w. induction ps as [|p ps IH]; intros w; [done|]. cbn [write_chunks concat].
    rewrite write_bytes_app, Write_bytes. destruct (write_bytes w p); [|done..]. rewrite !bind_Ok. apply IH. }
  rewrite (E w ps), (E w [concat ps]). cbn [concat]. by rewrite app_nil_r.
Qed.

(** ** Overrun

    A Reader whose decoded position has passed the announced size without an
    error answers every [Read] with 0 bytes and no error. *)
Lemma Read_stuck d k :
  rerr d.(rd_r) = None -> d.(rd_err) = None -> d.(hdr_size) < d.(st_pos) -> d.(st_buf) = [] ->
  Read d k = Ok ([], None, d).
Proof.
  intros H1 H2 H3 H4. unfold Read, read_status. rewrite H1.
  destruct (Z.eqb_spec (st_pos d) (hdr_size d)); [lia|]. cbn [andb]. rewrite H2, H4, take_nil, drop_nil.
  replace (set_buf d []) with d by (destruct d; cbn in *; by subst).
  cbn [loop]. unfold read_step. rewrite H1. destruct (Z.ltb_spec (st_pos d) (hdr_size d)); [lia|].
  by rewrite andb_false_r.
Qed.

(** The decompressor does not terminate on every input: with a negative size in
    the header a client that reads until io.EOF loops forever. *)
Theorem reader_never_ends fuel ks : decompress false fuel ks [0xff; 0xff; 0xff; 0xff] = NoFuel.
Proof.
  assert (exists d, NewReader [0xff; 0xff; 0xff; 0xff] false = Ok (inr (d, None)) /\
    rerr d.(rd_r) = None /\ d.(rd_err) = None /\ d.(hdr_size) < d.(st_pos) /\ d.(st_buf) = []) as (d & E & H1 & H2 & H3 & H4).
  { eexists. split; [vm_compute; reflexivity|]. done. }
  unfold decompress. rewrite E, bind_Ok.
  assert (G : forall acc, drain fuel ks d acc = NoFuel).
  { clear E. revert ks. induction fuel as [|fuel IH]; intros ks acc; [done|]. cbn [drain].
    rewrite Read_stuck, bind_Ok by done. apply IH. }
  by rewrite G.
Qed.

(** ** The parts *)

(** Feeding symbols to the tree of [newLZHUFF]. *)
Fixpoint feed (z : huff) (cs : list Z) : res huff :=
  match cs with [] => mret z | c :: cs => z ← update z c; feed z cs end.

(** C21. Whatever symbols are coded, in whatever number, the Huffman tree stays a
    well-formed tree ordered by frequency (rebuilt on the way when the root
    reaches its maximum), and no update panics or runs on forever. *)
Theorem huffman_tree_invariant cs :
  Forall (fun c => 0 <= c < _NumChar) cs ->
  exists z, (z ← newHuff; feed z cs) = Ok z /\ huff_ok z.
Proof.
  intros H. rewrite newHuff_run, bind_Ok. pose proof (proj1 huff0_ok) as Hz.
  revert H Hz. generalize huff0. induction cs as [|c cs IH]; intros z H Hz; cbn [feed]; [by exists z|].
  apply Forall_cons_1 in H as [Hc H]. destruct (update_ok z c Hz Hc) as (z' & -> & Hz' & _).
  rewrite bind_Ok. by apply IH.
Qed.

Lemma huffman_tree_invariant_witness :
  exists z, (z ← newHuff; feed z [65; 65; 300]) = Ok z /\ huff_ok z.
Proof. apply huffman_tree_invariant. repeat constructor; vm_compute; try discriminate; reflexivity. Defined.

(** A reader over the flushed output of a bit writer. *)
Definition reread (w : bitw) : bitr := mkBitr (encodeEnd w).(bbuf) [] 0 0 0 None.

Lemma reread_ok w : wok w -> bytes w.(bbuf) ->
  rok (encodeEnd w).(bbuf) (reread w) /\ exists pad, rstream (reread w) = wstream w ++ pad.
Proof.
  intros Hw Hb. destruct (encodeEnd_ok w Hw) as (pad & E & _). split; [|by exists pad].
  split; [cbn; lia|done| |by exists []]. cbn [rbuf rsrc reread app]. unfold encodeEnd.
  destruct (_ =? 0); [done|]. apply Forall_app_2; [done|]. repeat constructor; unfold byte; apply u8_range.
Qed.

Definition bitw0 : bitw := mkBitw [] 0 0.

Lemma bitw0_ok : wok bitw0.
Proof. split; cbn; [lia|lia|]. intros. apply Z.testbit_0_l. Qed.

(** The code of a symbol, written by the encoder and read by the decoder from
    the same tree, gives the symbol back and leaves both with the same tree. *)
Theorem huffman_char_roundtrip z c :
  huff_ok z -> 0 <= c < _NumChar -> get z.(freq) _R < 4181 ->
  exists z' w r, encodeChar z bitw0 c = Ok (z', w) /\ decodeChar z (reread w) = Ok (c, z', r).
Proof.
  intros Hz Hc Hw. destruct (leaf_spec (ok_shape z Hz) c Hc) as [L1 _].
  destruct (path_exists z (get z.(prnt) (c + _T)) (ok_shape z Hz)) as [bs Hbs]; [clia|].
  pose proof (short_codes z c bs Hz Hc Hbs Hw) as Hl.
  destruct (encodeChar_ok z bitw0 c bs Hz bitw0_ok Hc Hbs Hl) as (z' & w & E & Eu & Hz' & Hwk & Hs).
  destruct (encodeChar_total z bitw0 c Hz Hc) as (z2 & j & i & E2 & _). rewrite E in E2. injection E2 as -> ->.
  destruct (reread_ok (putCode bitw0 j i) Hwk) as [Hr [pad Hp]]; [apply putCode_bytes; constructor|].
  rewrite Hs in Hp. cbn [app wstream] in Hp. change (wstream bitw0) with (@nil bool) in Hp. cbn [app] in Hp.
  destruct (decodeChar_ok _ z _ c bs pad Hz Hr Hc Hbs Hp) as (z3 & r & E3 & Eu3 & _).
  rewrite Eu in Eu3. injection Eu3 as <-. eauto.
Qed.

Lemma huffman_char_roundtrip_witness :
  exists z' w r, encodeChar huff0 bitw0 200 = Ok (z', w) /\ decodeChar huff0 (reread w) = Ok (200, z', r).
Proof. apply (huffman_char_roundtrip huff0 200); [apply huff0_ok|clia|vm_compute; reflexivity]. Defined.

(** Every match position fits its two-part code and is decoded to itself. *)
Theorem position_roundtrip p :
  0 <= p < _N ->
  exists w r, encodePosition bitw0 p = Ok w /\ decodePosition (reread w) = Ok (p, r).
Proof.
  intros Hp. destruct (encodePosition_ok bitw0 p bitw0_ok Hp) as (w & E & Hw & Hs).
  assert (Hb : bytes w.(bbuf)).
  { unfold encodePosition in E. repeat inv_bind E. injection E as <-. apply putCode_bytes, putCode_bytes. constructor. }
  destruct (reread_ok w Hw Hb) as [Hr [pad Hst]]. rewrite Hs in Hst.
  change (wstream bitw0) with (@nil bool) in Hst. cbn [app] in Hst.
  destruct (decodePosition_ok _ (reread w) p pad Hr Hp Hst) as (r & E' & _). eauto.
Qed.

Lemma position_roundtrip_witness :
  exists w r, encodePosition bitw0 1987 = Ok w /\ decodePosition (reread w) = Ok (1987, r).
Proof. apply position_roundtrip. clia. Defined.

(** A dictionary operation: [InsertNode] or [DeleteNode]. *)
Inductive dict_op := Insert (r : Z) | Delete (p : Z).
Definition apply_op (z : lz) (o : dict_op) : res lz :=
  match o with Insert r => InsertNode z r | Delete p => DeleteNode z p end.

(** An operation the Writer may issue: it never inserts a registered position. *)
Definition op_ok (D : Z -> Z) (o : dict_op) : Prop :=
  match o with Insert r => 0 <= r < _N /\ ~ reg D r | Delete p => 0 <= p < _N end.

(** C22. Both operations return, keep the search trees well formed, and change the
    set of registered positions as they should: an insertion adds [r] and
    nothing else, and the match it records is a true one; a deletion removes
    exactly [p]. *)
Theorem dictionary_operations cls T ml mp D z o :
  dict cls T ml mp D z -> zlen T = _N + _F - 1 -> bytes T -> op_ok D o ->
  exists z' cls' D' ml' mp', apply_op z o = Ok z' /\ dict cls' T ml' mp' D' z' /\
    match o with
    | Insert r => reg D' r /\ (forall x, reg D' x -> reg D x \/ x = r) /\ matched cls D T r ml' mp'
    | Delete p => forall x, reg D' x <-> reg D x /\ x <> p
    end.
Proof.
  intros Hd HT Hb Ho. destruct o as [r|p]; cbn [op_ok apply_op] in *.
  - destruct Ho as [Hr Hn]. assert (Hr0 : D r = _NIL).
    { destruct (decide (D r = _NIL)); [done|]. by destruct Hn. }
    destruct (InsertNode_ok cls T ml mp D z r Hd HT) as (z' & D' & ml' & mp' & E & H1 & H2 & H3 & H4); auto.
    { unfold bytes in Hb. rewrite Forall_lookup in Hb. apply (Hb (Z.to_nat r)). apply lookup_get. clia. }
    by exists z', (upf cls r (get T r)), D', ml', mp'.
  - destruct (DeleteNode_ok cls T ml mp D z p Hd Ho) as (z' & D' & E & H1 & H2).
    by exists z', cls, D', ml, mp.
Qed.

Lemma dictionary_operations_witness :
  exists z D, dict (fun d => d - (_N + 1)) z.(textBuf) 0 0 D z /\
  exists z' cls' D' ml' mp', apply_op z (Insert 5) = Ok z' /\ dict cls' z.(textBuf) ml' mp' D' z' /\
    reg D' 5 /\ (forall x, reg D' x -> reg D x \/ x = 5) /\ matched (fun d => d - (_N + 1)) D z.(textBuf) 5 ml' mp'.
Proof.
  destruct (InitTree_ok zeroLz (fun d => d - (_N + 1))) as (z & E & Hd & Hn); try reflexivity.
  pose proof (dict_fields _ _ _ _ _ _ Hd) as (_ & ET & _). rewrite <- ET in Hd.
  exists z, (get z.(dad)). split; [exact Hd|].
  apply (dictionary_operations (fun d => d - (_N + 1)) z.(textBuf) 0 0 (get z.(dad)) z (Insert 5) Hd).
  - by rewrite ET.
  - rewrite ET. apply Forall_replicate. unfold byte. lia.
  - split; [clia|]. intros [_ Hr]. apply Hr, Hn. clia.
Defined.
