(* ===== verification/GoStr.v ===== *)
(** Go strings as lists of bytes, and the functions of packages strings,
    strconv, fmt and unicode/utf8 the fbb and transport packages use.  Letter
    case (strings.ToUpper, strings.EqualFold) is that of ASCII; other bytes are
    left as they are. *)
From S2P Require Import Prelude Crc.
From Stdlib Require String Ascii.
Export String.StringSyntax.
Delimit Scope string_scope with string.
#[global] Open Scope Z_scope.
#[global] Open Scope list_scope.

Abbreviation gostr := (list Z).

(** A string literal. *)
Definition str (s : String.string) : gostr :=
  (fun a => Z.of_nat (Ascii.nat_of_ascii a)) <$> String.list_ascii_of_string s.
Arguments str s%_string.

(** ** Package strings *)
Definition HasPrefix (s p : gostr) : bool := bool_decide (take (length p) s = p).
Definition HasSuffix (s p : gostr) : bool := bool_decide (drop (length s - length p) s = p).
Definition TrimPrefix (s p : gostr) : gostr := if HasPrefix s p then drop (length p) s else s.

Fixpoint Contains (s p : gostr) : bool :=
  HasPrefix s p || match s with [] => false | _ :: s => Contains s p end.

(** [strings.Split] with a one-byte separator. *)
Fixpoint Split (sep : Z) (s : gostr) : list gostr :=
  match s with
  | [] => [[]]
  | c :: s => match Split sep s with
              | p :: ps => if c =? sep then [] :: p :: ps else (c :: p) :: ps
              | [] => []
              end
  end.

(** [strings.SplitN(s, sep, 2)] *)
Fixpoint Split2 (sep : Z) (s : gostr) : list gostr :=
  match s with
  | [] => [[]]
  | c :: s => if c =? sep then [[]; s]
              else match Split2 sep s with p :: ps => (c :: p) :: ps | [] => [] end
  end.

(** [strings.Join] *)
Fixpoint strings_Join (l : list gostr) (sep : gostr) : gostr :=
  match l with
  | [] => []
  | [s] => s
  | s :: l => s ++ sep ++ strings_Join l sep
  end.

(** The index after the last byte that satisfies [P]; 0 when there is none. *)
Fixpoint after_last (P : Z -> bool) (s : gostr) : nat :=
  match s with
  | [] => 0
  | c :: s => match after_last P s with
              | O => if P c then 1 else 0
              | n => S n
              end
  end.

(** [strings.LastIndex] of a byte and [strings.LastIndexAny] of a set. *)
Definition LastIndex (P : Z -> bool) (s : gostr) : Z := Z.of_nat (after_last P s) - 1.

Definition is_digit (c : Z) : bool := (48 <=? c) && (c <=? 57).

Definition upper (c : Z) : Z := if (97 <=? c) && (c <=? 122) then c - 32 else c.
Definition ToUpper (s : gostr) : gostr := upper <$> s.
Definition lower (c : Z) : Z := if (65 <=? c) && (c <=? 90) then c + 32 else c.
Definition ToLower (s : gostr) : gostr := lower <$> s.
Definition EqualFold (s t : gostr) : bool := bool_decide (ToUpper s = ToUpper t).

(** The UTF-8 encodings of the code points of unicode.IsSpace. *)
Definition spaces : list gostr :=
  [[9]; [10]; [11]; [12]; [13]; [32]; [0xc2; 0x85]; [0xc2; 0xa0]; [0xe1; 0x9a; 0x80]]
  ++ ((fun i => [0xe2; 0x80; i]) <$> seqZ 0x80 11)
  ++ [[0xe2; 0x80; 0xa8]; [0xe2; 0x80; 0xa9]; [0xe2; 0x80; 0xaf]; [0xe2; 0x81; 0x9f]; [0xe3; 0x80; 0x80]].

(** Cuts spaces off the front, and off the back. *)
Fixpoint trim_front (fuel : nat) (enc : list gostr) (s : gostr) : gostr :=
  match fuel with
  | O => s
  | S fuel => match list_find (fun e => HasPrefix s e = true) enc with
              | Some (_, e) => trim_front fuel enc (drop (length e) s)
              | None => s
              end
  end.

Definition trim_ends (enc : list gostr) (s : gostr) : gostr :=
  let s := trim_front (length s) enc s in
  reverse (trim_front (length s) (reverse <$> enc) (reverse s)).

Definition TrimSpace (s : gostr) : gostr := trim_ends spaces s.

(** [textproto.TrimString]: ASCII spaces only. *)
Definition TrimString (s : gostr) : gostr := trim_ends [[32]; [9]; [10]; [13]] s.

(** ** Package unicode/utf8: [for _, c := range s] *)
Definition cont (c : Z) : bool := (0x80 <=? c) && (c <=? 0xbf).
Definition in_range (lo hi c : Z) : bool := (lo <=? c) && (c <=? hi).

Definition DecodeRune (s : gostr) : Z * nat :=
  let bad := (0xfffd, 1%nat) in
  match s with
  | [] => (0xfffd, 0%nat)
  | a :: s =>
    if a <? 0x80 then (a, 1%nat)
    else match s with
    | [] => bad
    | b :: s =>
      if in_range 0xc2 0xdf a then
        if cont b then (Z.land a 0x1f * 64 + Z.land b 0x3f, 2%nat) else bad
      else match s with
      | [] => bad
      | c :: s =>
        let lo3 := if a =? 0xe0 then 0xa0 else 0x80 in
        let hi3 := if a =? 0xed then 0x9f else 0xbf in
        if in_range 0xe0 0xef a then
          if in_range lo3 hi3 b && cont c
          then (Z.land a 0x0f * 4096 + Z.land b 0x3f * 64 + Z.land c 0x3f, 3%nat) else bad
        else match s with
        | [] => bad
        | d :: _ =>
          let lo4 := if a =? 0xf0 then 0x90 else 0x80 in
          let hi4 := if a =? 0xf4 then 0x8f else 0xbf in
          if in_range 0xf0 0xf4 a && in_range lo4 hi4 b && cont c && cont d
          then (Z.land a 0x07 * 262144 + Z.land b 0x3f * 4096 + Z.land c 0x3f * 64 + Z.land d 0x3f, 4%nat)
          else bad
        end
      end
    end
  end.

Fixpoint runes_fuel (fuel : nat) (s : gostr) : list Z :=
  match fuel, s with
  | S fuel, _ :: _ => let '(r, n) := DecodeRune s in r :: runes_fuel fuel (drop n s)
  | _, _ => []
  end.
Definition runes (s : gostr) : list Z := runes_fuel (length s) s.

(** The encoding of a rune: [%c] *)
Definition EncodeRune (r : Z) : gostr :=
  if r <? 0x80 then [r]
  else if r <? 0x800 then [0xc0 + r / 64; 0x80 + r mod 64]
  else if r <? 0x10000 then [0xe0 + r / 4096; 0x80 + r / 64 mod 64; 0x80 + r mod 64]
  else [0xf0 + r / 262144; 0x80 + r / 4096 mod 64; 0x80 + r / 64 mod 64; 0x80 + r mod 64].

(** ** Packages strconv and fmt *)

(** The digits of [n] in base [b], most significant first. *)
Fixpoint digits (fuel : nat) (b n : Z) : list Z :=
  match fuel with
  | O => []
  | S fuel => if n <? b then [n] else digits fuel b (n / b) ++ [n mod b]
  end.

Definition ndigits (b n : Z) : list Z := digits (S (Z.to_nat (Z.log2 n))) b n.

(** [%d] *)
Definition itoa (n : Z) : gostr :=
  if n <? 0 then 45 :: ((fun d => 48 + d) <$> ndigits 10 (- n)) else (fun d => 48 + d) <$> ndigits 10 n.

Definition hexdigit (d : Z) : Z := if d <? 10 then 48 + d else 55 + d.

(** [%02X] of a byte *)
Definition hex2 (n : Z) : gostr := [hexdigit (n / 16); hexdigit (n mod 16)].

(** The value of a digit in base [b]. *)
Definition digit_value (b c : Z) : option Z :=
  let v := if is_digit c then Some (c - 48)
           else if (97 <=? c) && (c <=? 122) then Some (c - 87)
           else if (65 <=? c) && (c <=? 90) then Some (c - 55) else None in
  match v with Some v => if v <? b then Some v else None | None => None end.

(** [None] is a syntax error. *)
Fixpoint value_of (b acc : Z) (s : gostr) : option Z :=
  match s with
  | [] => Some acc
  | c :: s => match digit_value b c with Some v => value_of b (acc * b + v) s | None => None end
  end.

Definition unsigned (b : Z) (s : gostr) : option Z :=
  match s with [] => None | _ => value_of b 0 s end.

(** Whether the digits reach 2^64, where the scan of a number stops. *)
Fixpoint overflows (b acc : Z) (s : gostr) : bool :=
  match s with
  | [] => false
  | c :: s => match digit_value b c with
              | Some v => (2 ^ 64 <=? acc * b + v) || overflows b (acc * b + v) s
              | None => false
              end
  end.

(** [strconv.ParseInt(s, b, 64)]: the value and whether there is an error; a
    value out of range is cut to the nearest bound. *)
Definition ParseInt (b : Z) (s : gostr) : Z * bool :=
  let '(neg, u) := match s with
                   | 43 :: s => (false, s)
                   | 45 :: s => (true, s)
                   | _ => (false, s)
                   end in
  match unsigned b u with
  | None => (if overflows b 0 u then if neg : bool then - 2 ^ 63 else 2 ^ 63 - 1 else 0, true)
  | Some n => if neg : bool then (if n <=? 2 ^ 63 then (- n, false) else (- 2 ^ 63, true))
              else if n <? 2 ^ 63 then (n, false) else (2 ^ 63 - 1, true)
  end.

Definition Atoi (s : gostr) : Z * bool := ParseInt 10 s.

(** ** Buffered input *)

(** [rd.ReadString(delim)]: the bytes up to and including the delimiter, or all
    of them with io.EOF ([false]). *)
Fixpoint ReadString (delim : Z) (s : gostr) : gostr * bool * gostr :=
  match s with
  | [] => ([], false, [])
  | c :: s => if c =? delim then ([c], true, s)
              else let '(l, ok, rest) := ReadString delim s in (c :: l, ok, rest)
  end.

(** ** Lemmas *)
Lemma HasPrefix_app p s : HasPrefix (p ++ s) p = true.
Proof. unfold HasPrefix. rewrite take_app_length. by apply bool_decide_eq_true. Qed.

Lemma Split_none sep s : sep ∉ s -> Split sep s = [s].
Proof.
  induction s as [|c s IH]; intros H; [done|]. cbn [Split].
  apply not_elem_of_cons in H as [H1 H2]. rewrite IH by done. destruct (Z.eqb_spec c sep); [congruence|done].
Qed.

Lemma Split_cons sep s : exists p ps, Split sep s = p :: ps.
Proof.
  induction s as [|c s (p & ps & E)]; cbn [Split]; [by eexists _, _|].
  rewrite E. destruct (c =? sep); by eexists _, _.
Qed.

Lemma Split_app sep s t : sep ∉ s -> Split sep (s ++ sep :: t) = s :: Split sep t.
Proof.
  induction s as [|c s IH]; intros H; cbn [app Split].
  - rewrite Z.eqb_refl. by destruct (Split_cons sep t) as (p & ps & ->).
  - apply not_elem_of_cons in H as [H1 H2]. rewrite IH by done. destruct (Z.eqb_spec c sep); [congruence|done].
Qed.

Lemma Split_at c a b : Split c (a ++ c :: b) = Split c a ++ Split c b.
Proof.
  induction a as [|d a IH]; cbn [app Split].
  - destruct (Split_cons c b) as (p & ps & ->). by rewrite Z.eqb_refl.
  - rewrite IH. destruct (Split_cons c a) as (p & ps & ->). cbn [app]. by destruct (d =? c).
Qed.

Lemma Split_pieces c s : Forall (fun p => c ∉ p) (Split c s).
Proof.
  induction s as [|d s IH]; cbn [Split]; [repeat constructor; apply not_elem_of_nil|].
  destruct (Split_cons c s) as (p & ps & E). rewrite E in *. inversion IH as [|? ? Hp Hps]; subst.
  destruct (Z.eqb_spec d c); repeat constructor; try done; [apply not_elem_of_nil|by apply not_elem_of_cons].
Qed.

Lemma Split_join c es : es <> [] -> Split c (strings_Join es [c]) = concat (Split c <$> es).
Proof.
  induction es as [|e [|e' es] IH]; intros Hne; [done|cbn; by rewrite app_nil_r|].
  change (strings_Join (e :: e' :: es) [c]) with (e ++ c :: strings_Join (e' :: es) [c]).
  rewrite Split_at, IH by done. done.
Qed.

Lemma concat_Split c es : Forall (fun e => c ∉ e) es -> concat (Split c <$> es) = es.
Proof. induction 1 as [|e es He _ IH]; [done|]. cbn. rewrite Split_none by done. cbn. by f_equal. Qed.

Lemma after_last_app P a c b : P c = true -> Forall (fun x => P x = false) b ->
  after_last P (a ++ c :: b) = S (length a).
Proof.
  intros Hc Hb. assert (after_last P b = O) as E0.
  { clear -Hb. induction Hb as [|x b Hx _ IH]; cbn; [done|]. by rewrite IH, Hx. }
  induction a as [|x a IH]; cbn [app after_last length]; [by rewrite E0, Hc|by rewrite IH].
Qed.

Lemma ReadString_app d s t : d ∉ s -> ReadString d (s ++ d :: t) = (s ++ [d], true, t).
Proof.
  induction s as [|c s IH]; intros H; cbn [app ReadString]; [by rewrite Z.eqb_refl|].
  apply not_elem_of_cons in H as [H1 H2]. destruct (Z.eqb_spec c d); [congruence|]. by rewrite IH.
Qed.

(** Absence of a byte from a literal, by computation. *)
Lemma not_elem_existsb c s : existsb (Z.eqb c) s = false -> c ∉ s.
Proof.
  intros H E. apply list_elem_of_In in E. rewrite <- not_true_iff_false in H. apply H, existsb_exists.
  exists c. by rewrite Z.eqb_refl.
Qed.

(** *** Numbers *)
Lemma log2_bound b n : 2 <= b -> 0 <= n -> n < b ^ Z.of_nat (S (Z.to_nat (Z.log2 n))).
Proof.
  intros Hb Hn. pose proof (Z.log2_nonneg n). replace (Z.of_nat (S (Z.to_nat (Z.log2 n)))) with (Z.log2 n + 1) by lia.
  destruct (Z.eq_dec n 0) as [->|]; [apply Z.pow_pos_nonneg; lia|].
  pose proof (Z.log2_spec n ltac:(lia)) as [_ H1].
  eapply Z.lt_le_trans; [exact H1|]. rewrite <- Z.add_1_r. apply Z.pow_le_mono_l. lia.
Qed.

Lemma digits_range f b n : 2 <= b -> 0 <= n < b ^ Z.of_nat f -> Forall (fun d => 0 <= d < b) (digits f b n).
Proof.
  intros Hb. revert n. induction f as [|f IH]; intros n Hn; cbn [digits]; [constructor|].
  destruct (Z.ltb_spec n b); [repeat constructor; lia|]. rewrite Nat2Z.inj_succ, Z.pow_succ_r in Hn by lia.
  apply Forall_app_2; [|repeat constructor; Z.div_mod_to_equations; nia].
  apply IH. Z.div_mod_to_equations; nia.
Qed.

Lemma value_of_app b a s t :
  value_of b a (s ++ t) = match value_of b a s with Some v => value_of b v t | None => None end.
Proof. revert a. induction s as [|c s IH]; intros a; cbn; [done|]. destruct (digit_value b c); [apply IH|done]. Qed.

Section print_parse.
Context (b : Z) (pr : Z -> Z) (Hb : 2 <= b).
Context (Hpr : forall d, 0 <= d < b -> digit_value b (pr d) = Some d).

Lemma value_of_digits f n a : 0 <= n < b ^ Z.of_nat f ->
  value_of b a (pr <$> digits f b n) = Some (a * b ^ Z.of_nat (length (digits f b n)) + n).
Proof using Hb Hpr.
  revert n a. induction f as [|f IH]; intros n a Hn; cbn [digits].
  { change (b ^ Z.of_nat 0) with 1 in Hn. cbn. f_equal. lia. }
  rewrite Nat2Z.inj_succ, Z.pow_succ_r in Hn by lia. destruct (Z.ltb_spec n b).
  - cbn. rewrite Hpr by lia. f_equal. lia.
  - rewrite fmap_app, value_of_app, IH by (Z.div_mod_to_equations; nia).
    cbn [fmap list_fmap value_of]. rewrite Hpr by (Z.div_mod_to_equations; nia).
    rewrite length_app. cbn [length]. rewrite Nat2Z.inj_add, Z.pow_add_r, Z.pow_1_r by lia.
    f_equal. pose proof (Z.div_mod n b ltac:(lia)). nia.
Qed.

Lemma ndigits_cons n : exists d ds, ndigits b n = d :: ds.
Proof.
  unfold ndigits. cbn [digits]. destruct (n <? b); [by eexists _, _|].
  destruct (digits _ b (n / b)); by eexists _, _.
Qed.

Lemma unsigned_ndigits n : 0 <= n -> unsigned b (pr <$> ndigits b n) = Some n.
Proof using Hb Hpr.
  intros Hn. assert (unsigned b (pr <$> ndigits b n) = value_of b 0 (pr <$> ndigits b n)) as ->.
  { by destruct (ndigits_cons n) as (d & ds & ->). }
  unfold ndigits. rewrite value_of_digits by (split; [done|by apply log2_bound]). done.
Qed.
End print_parse.

Lemma digit10 d : 0 <= d < 10 -> digit_value 10 (48 + d) = Some d.
Proof.
  intros Hd. unfold digit_value, is_digit. destruct (Z.leb_spec 48 (48 + d)), (Z.leb_spec (48 + d) 57); try lia.
  cbn [andb]. destruct (Z.ltb_spec (48 + d - 48) 10); [f_equal; lia|lia].
Qed.

Lemma itoa_digits n : 0 <= n -> Forall (fun c => 48 <= c <= 57) (itoa n).
Proof.
  intros Hn. unfold itoa. destruct (Z.ltb_spec n 0); [lia|]. apply Forall_fmap.
  pose proof (digits_range _ 10 n ltac:(lia) (conj Hn (log2_bound 10 n ltac:(lia) Hn))) as Hr.
  apply Forall_forall. intros d Hd. rewrite Forall_forall in Hr. specialize (Hr d Hd). cbn. lia.
Qed.

Lemma itoa_cons n : 0 <= n -> exists c s, itoa n = c :: s /\ 48 <= c <= 57.
Proof.
  intros Hn. pose proof (itoa_digits n Hn) as H. unfold itoa in *. destruct (Z.ltb_spec n 0); [lia|].
  destruct (ndigits_cons 10 n) as (d & ds & E). rewrite E in *. cbn in *. apply Forall_cons_1 in H as [H _]. eauto.
Qed.

(** Printing and parsing are inverse on the values of an int. *)
Lemma Atoi_itoa n : 0 <= n < 2 ^ 63 -> Atoi (itoa n) = (n, false).
Proof.
  intros Hn. destruct (itoa_cons n ltac:(lia)) as (c & s & E & Hc). unfold Atoi, ParseInt.
  assert (E' : (match itoa n with 43 :: s => (false, s) | 45 :: s => (true, s) | _ => (false, itoa n) end) = (false, itoa n)).
  { rewrite E. destruct c as [|c|c]; try done. do 6 (destruct c as [c|c|]; try done; try lia). }
  rewrite E'. unfold itoa. destruct (Z.ltb_spec n 0); [lia|].
  rewrite (unsigned_ndigits 10 (fun d => 48 + d)); [|lia|exact digit10|lia].
  destruct (Z.ltb_spec n (2 ^ 63)); [done|lia].
Qed.

Lemma Split2_app sep s t : sep ∉ s -> Split2 sep (s ++ sep :: t) = [s; t].
Proof.
  induction s as [|c s IH]; intros H; cbn [app Split2]; [by rewrite Z.eqb_refl|].
  apply not_elem_of_cons in H as [H1 H2]. destruct (Z.eqb_spec c sep); [congruence|]. by rewrite IH.
Qed.

(** *** Trimming *)
Lemma trim_front_keep f enc s : Forall (fun e => HasPrefix s e = false) enc -> trim_front f enc s = s.
Proof.
  intros H. destruct f; [done|]. cbn. destruct (list_find _ enc) as [[i e]|] eqn:E; [|done].
  apply list_find_Some in E as (E1 & E2 & _). rewrite Forall_lookup in H. by rewrite (H _ _ E1) in E2.
Qed.

Lemma trim_front_step f enc s i e :
  list_find (fun e => HasPrefix s e = true) enc = Some (i, e) ->
  trim_front (S f) enc s = trim_front f enc (drop (length e) s).
Proof. intros H. cbn [trim_front]. by rewrite H. Qed.

(** A byte that is neither the first nor the last of a space. *)
Definition solid (c : Z) : bool := (33 <=? c) && (c <? 127).

Lemma HasPrefix_solid c s e d es : e = d :: es -> solid d = false -> solid c = true -> HasPrefix (c :: s) e = false.
Proof. intros -> Hd Hc. unfold HasPrefix. apply bool_decide_eq_false. cbn. intros [= ->]. congruence. Qed.

Lemma spaces_ends : forallb (fun e : gostr =>
   match e, reverse e with c :: _, d :: _ => negb (solid c) && negb (solid d) | _, _ => false end) spaces = true.
Proof. vm_compute. reflexivity. Qed.

Lemma front_solid f c s : solid c = true -> trim_front f spaces (c :: s) = c :: s.
Proof.
  intros Hc. pose proof spaces_ends as Hs. rewrite forallb_forall in Hs. apply trim_front_keep.
  apply Forall_forall. intros e He. specialize (Hs e He).
  destruct e as [|x e]; [done|]. destruct (reverse (x :: e)); [done|]. apply andb_true_iff in Hs as [Hs _].
  eapply HasPrefix_solid; [done| |exact Hc]. by apply negb_true_iff.
Qed.

Lemma back_solid f d s : solid d = true -> trim_front f (reverse <$> spaces) (d :: s) = d :: s.
Proof.
  intros Hd. pose proof spaces_ends as Hs. rewrite forallb_forall in Hs. apply trim_front_keep.
  apply Forall_fmap, Forall_forall. intros e He. specialize (Hs e He). destruct e as [|x e]; [done|].
  destruct (reverse (x :: e)) as [|y e'] eqn:E; [done|]. cbn [compose]. rewrite E.
  apply andb_true_iff in Hs as [_ Hs]. eapply HasPrefix_solid; [done| |exact Hd]. by apply negb_true_iff.
Qed.

Lemma TrimSpace_keep c m d : solid c = true -> solid d = true -> TrimSpace (c :: m ++ [d]) = c :: m ++ [d].
Proof.
  intros Hc Hd. unfold TrimSpace, trim_ends. rewrite (front_solid _ c) by done.
  change (c :: m ++ [d]) with ((c :: m) ++ [d]). rewrite reverse_app. cbn [reverse app].
  change (reverse [d] ++ reverse (c :: m)) with (d :: reverse (c :: m)). rewrite back_solid by done.
  by rewrite reverse_cons, reverse_involutive.
Qed.

(** The carriage return at the end of a line is trimmed. *)
Lemma TrimSpace_cr c m d : solid c = true -> solid d = true ->
  TrimSpace ((c :: m ++ [d]) ++ [13]) = c :: m ++ [d].
Proof.
  intros Hc Hd. unfold TrimSpace, trim_ends. cbn [app]. rewrite (front_solid _ c) by done.
  change (c :: (m ++ [d]) ++ [13]) with (((c :: m) ++ [d]) ++ [13]). rewrite !reverse_app.
  change (reverse [13] ++ reverse [d] ++ reverse (c :: m)) with (13 :: d :: reverse (c :: m)).
  rewrite !length_app. match goal with |- context [trim_front ?n _ _] => replace n with (S (S (length (c :: m)))) by (cbn [length]; lia) end.
  rewrite (trim_front_step _ _ _ 4%nat [13]) by reflexivity. cbn [length drop].
  rewrite back_solid by done. by rewrite reverse_cons, reverse_involutive.
Qed.
