(* ===== verification/GoFloat.v ===== *)
(** Go's float64: IEEE 754 binary64 as the Standard Library's executable
    [SpecFloat], the conversions to and from int, and the [%f] verb of package
    fmt, which prints the exact decimal value correctly rounded.

    The value of a finite number is an integer in units of 2^-1074, the smallest
    positive number; the lemmas bound the error of each operation in these
    units. *)
From S2P Require Import Prelude Crc GoStr.
From Stdlib Require Export Floats.SpecFloat.
Open Scope Z_scope.

Abbreviation float64 := spec_float.

(** ** Arithmetic *)
Definition f_sub (x y : float64) : float64 := SFsub 53 1024 x y.
Definition f_mul (x y : float64) : float64 := SFmul 53 1024 x y.
Definition f_lt (x y : float64) : bool := SFltb x y.
Definition math_Abs (x : float64) : float64 := SFabs x.
Definition f_zero : float64 := S754_zero false.

(** [float64(n)] *)
Definition float_of_int (n : Z) : float64 := binary_normalize 53 1024 n 0 false.

(** [int(x)] cuts the fraction off.  Of a number that int cannot represent the
    language leaves the result to the implementation. *)
Class FloatConv := { int_overflow : float64 -> Z }.

Definition trunc_abs (m : positive) (e : Z) : Z :=
  if 0 <=? e then Z.pos m * 2 ^ e else Z.pos m / 2 ^ (- e).

Definition int_of_float `{FloatConv} (x : float64) : Z :=
  match x with
  | S754_zero _ => 0
  | S754_finite s m e =>
      let n := cond_Zopp s (trunc_abs m e) in
      if (- 2 ^ 63 <=? n) && (n <? 2 ^ 63) then n else int_overflow x
  | _ => int_overflow x
  end.

(** ** Printing *)

(** [x / p] rounded to the nearest integer, ties to even. *)
Definition rne (x p : Z) : Z :=
  let q := x / p in
  match (2 * (x mod p)) ?= p with
  | Lt => q
  | Gt => q + 1
  | Eq => if Z.even q then q else q + 1
  end.

(** The absolute value in units of 10^-n. *)
Definition decimals (n : Z) (x : float64) : Z :=
  match x with
  | S754_finite _ m e =>
      if 0 <=? e then Z.pos m * 2 ^ e * 10 ^ n else rne (Z.pos m * 10 ^ n) (2 ^ (- e))
  | _ => 0
  end.

Definition pad_left (c : Z) (w : nat) (s : gostr) : gostr := replicate (w - length s) c ++ s.

(** The digits of a number in units of 10^-n. *)
Definition fixed_point (n v : Z) : gostr :=
  if n =? 0 then itoa v
  else itoa (v / 10 ^ n) ++ str "." ++ pad_left 48 (Z.to_nat n) (itoa (v mod 10 ^ n)).

(** [%0w.nf] when [zero], [%w.nf] otherwise. *)
Definition fmt_float (zero : bool) (w : nat) (n : Z) (x : float64) : gostr :=
  let digits := fixed_point n (decimals n x) in
  match x with
  | S754_nan => pad_left 32 w (str "NaN")
  | S754_infinity s => pad_left 32 w (if s then str "-Inf" else str "+Inf")
  | S754_zero s | S754_finite s _ _ =>
      if s then (if zero then 45 :: pad_left 48 (w - 1) digits else pad_left 32 w (45 :: digits))
      else pad_left (if zero then 48 else 32) w digits
  end.

(** ** Values *)
Definition fval (x : float64) : Z :=
  match x with S754_finite s m e => cond_Zopp s (Z.pos m * 2 ^ (e + 1074)) | _ => 0 end.

(** Finite, and a multiple of the smallest positive number. *)
Definition is_num (x : float64) : Prop :=
  match x with S754_zero _ => True | S754_finite _ m e => -1074 <= e | _ => False end.

Definition digits2 (m : positive) : Z := Z.pos (digits2_pos m).

(** ** Lemmas *)
Section lemmas.
Local Abbreviation fx := (fexp 53 1024).

Lemma digits2_bounds m : 2 ^ (digits2 m - 1) <= Z.pos m < 2 ^ digits2 m.
Proof.
  unfold digits2. induction m as [m IH|m IH|]; cbn [digits2_pos]; [..|lia];
    rewrite Pos2Z.inj_succ; unfold Z.succ; rewrite Z.add_simpl_r;
    rewrite Z.pow_add_r by lia; change (2 ^ 1) with 2;
    assert (E : 2 ^ Z.pos (digits2_pos m) = 2 * 2 ^ (Z.pos (digits2_pos m) - 1))
      by (rewrite <- Z.pow_succ_r by lia; f_equal; lia);
    rewrite ?E in *; lia.
Qed.

Lemma digits2_pos' m : 1 <= digits2 m.
Proof. unfold digits2. lia. Qed.

Lemma pow2_pos n : 0 <= n -> 0 < 2 ^ n.
Proof. intros. by apply Z.pow_pos_nonneg. Qed.

Lemma digits2_unique m n : 2 ^ (n - 1) <= Z.pos m < 2 ^ n -> 1 <= n -> digits2 m = n.
Proof.
  intros [H1 H2] Hn. pose proof (digits2_bounds m) as [H3 H4]. pose proof (digits2_pos' m).
  assert (digits2 m - 1 < n) by (apply (Z.pow_lt_mono_r_iff 2); lia).
  assert (n - 1 < digits2 m) by (apply (Z.pow_lt_mono_r_iff 2); lia). lia.
Qed.

Lemma digits2_le m n : 0 <= n -> Z.pos m < 2 ^ n -> digits2 m <= n.
Proof.
  intros Hn H. pose proof (digits2_bounds m) as [H3 _]. pose proof (digits2_pos' m).
  assert (digits2 m - 1 < n) by (apply (Z.pow_lt_mono_r_iff 2); lia). lia.
Qed.

Lemma iter_xO m d : Z.pos (Pos.iter xO m d) = Z.pos m * 2 ^ Z.pos d.
Proof.
  induction d as [|d IH] using Pos.peano_ind; [cbn; lia|].
  rewrite Pos.iter_succ, Pos2Z.inj_xO, IH, Pos2Z.inj_succ, Z.pow_succ_r by lia. lia.
Qed.

(** *** Decimal digits *)
Lemma digits_length f n k : 0 <= n < 10 ^ Z.of_nat (S k) -> (length (digits f 10 n) <= S k)%nat.
Proof.
  revert n k. induction f as [|f IH]; intros n k Hn; cbn [digits]; [cbn; lia|].
  destruct (Z.ltb_spec n 10); [cbn; lia|]. rewrite length_app. cbn [length]. destruct k as [|k]; [lia|].
  assert (length (digits f 10 (n / 10)) <= S k)%nat; [|lia]. apply IH. split; [apply Z.div_pos; lia|].
  apply Z.div_lt_upper_bound; [lia|]. rewrite <- Z.pow_succ_r by lia. rewrite (Nat2Z.inj_succ (S k)) in Hn. lia.
Qed.

Lemma itoa_length n k : 0 <= n < 10 ^ Z.of_nat (S k) -> (length (itoa n) <= S k)%nat.
Proof.
  intros Hn. unfold itoa. destruct (Z.ltb_spec n 0); [lia|]. rewrite length_fmap. by apply digits_length.
Qed.

Lemma pad_left_length c w s : (length s <= w)%nat -> length (pad_left c w s) = w.
Proof. intros. unfold pad_left. rewrite length_app, length_replicate. lia. Qed.

Lemma pad_left_app c w s t : (length s <= w)%nat -> pad_left c (w + length t) (s ++ t) = pad_left c w s ++ t.
Proof.
  intros. unfold pad_left. rewrite length_app, <- app_assoc. do 2 f_equal. lia.
Qed.

(** *** Rounding *)
Lemma rne_error x p : 0 < p -> 2 * Z.abs (rne x p * p - x) <= p.
Proof.
  intros Hp. unfold rne. pose proof (Z.div_mod x p ltac:(lia)) as E.
  pose proof (Z.mod_pos_bound x p Hp) as B.
  set (q := x / p) in *. set (r := x mod p) in *.
  destruct (Z.compare_spec (2 * r) p) as [C|C|C]; [destruct (Z.even q)|..]; nia.
Qed.

Lemma rne_1 x : rne x 1 = x.
Proof. unfold rne. rewrite Z.mod_1_r, Z.div_1_r. done. Qed.

Lemma rne_nonneg x p : 0 < p -> 0 <= x -> 0 <= rne x p.
Proof.
  intros Hp Hx. unfold rne. pose proof (Z.div_pos x p Hx Hp).
  repeat case_match; lia.
Qed.

(** A shifted mantissa: quotient, round and sticky bit. *)
Definition shifted (x k : Z) (r : shr_record) : Prop :=
  let P := 2 ^ k in
  shr_m r = x / P /\ shr_r r = (P <=? 2 * (x mod P)) /\ shr_s r = negb ((2 * (x mod P)) mod P =? 0).

Lemma shr_1_shifted x k r : 0 <= x -> 0 <= k -> shifted x k r -> shifted x (k + 1) (shr_1 r).
Proof.
  intros Hx Hk. destruct r as [m rb sb]. unfold shifted. cbn [shr_m shr_r shr_s]. intros (Em & Er & Es).
  pose proof (pow2_pos k Hk) as HP. rewrite Z.pow_add_r by lia. change (2 ^ 1) with 2. set (P := 2 ^ k) in *.
  pose proof (Z.mod_pos_bound x P HP) as Hrem. set (rem := x mod P) in *.
  assert (Hm : 0 <= m) by (subst m; by apply Z.div_pos).
  assert (Eq : x / (P * 2) = m / 2) by (rewrite <- Z.div_div by lia; by subst m).
  assert (Emod : x mod (P * 2) = rem + P * (m mod 2)) by (rewrite Z.rem_mul_r by lia; by subst m).
  assert (Hs : orb rb sb = negb (rem =? 0)).
  { subst rb sb. destruct (Z.leb_spec P (2 * rem)); cbn [orb].
    - destruct (Z.eqb_spec rem 0); [lia|done].
    - rewrite Z.mod_small by lia. f_equal. destruct (Z.eqb_spec (2 * rem) 0), (Z.eqb_spec rem 0); lia. }
  assert (Es' : forall b, b = 0 \/ b = 1 -> negb ((2 * (rem + P * b)) mod (P * 2) =? 0) = negb (rem =? 0)).
  { intros b Hb. replace (2 * (rem + P * b)) with (2 * rem + b * (P * 2)) by lia. rewrite Z.mod_add by lia.
    rewrite Z.mod_small by lia. f_equal. destruct (Z.eqb_spec (2 * rem) 0), (Z.eqb_spec rem 0); lia. }
  rewrite Eq, Emod.
  destruct m as [|[p|p|]|p]; [..|lia]; cbn [shr_1 shr_m shr_r shr_s]; rewrite Hs.
  - change (0 / 2) with 0. change (0 mod 2) with 0. rewrite Es' by auto. repeat split.
    symmetry. apply Z.leb_gt. lia.
  - replace (Z.pos p~1 / 2) with (Z.pos p) by (rewrite Pos2Z.inj_xI; apply Z.div_unique with 1; lia).
    replace (Z.pos p~1 mod 2) with 1 by (rewrite Pos2Z.inj_xI; apply Z.mod_unique with (Z.pos p); lia).
    rewrite Es' by auto. repeat split. symmetry. apply Z.leb_le. lia.
  - replace (Z.pos p~0 / 2) with (Z.pos p) by (rewrite Pos2Z.inj_xO; apply Z.div_unique with 0; lia).
    replace (Z.pos p~0 mod 2) with 0 by (rewrite Pos2Z.inj_xO; apply Z.mod_unique with (Z.pos p); lia).
    rewrite Es' by auto. repeat split. symmetry. apply Z.leb_gt. lia.
  - change (1 / 2) with 0. change (1 mod 2) with 1. rewrite Es' by auto. repeat split.
    symmetry. apply Z.leb_le. lia.
Qed.

Lemma iter_shr_shifted x p k r : 0 <= x -> 0 <= k -> shifted x k r ->
  shifted x (k + Z.pos p) (iter_pos shr_1 p r).
Proof.
  intros Hx. revert k r. induction p as [p IH|p IH|]; intros k r Hk H; cbn [iter_pos].
  - replace (k + Z.pos p~1) with (k + 1 + Z.pos p + Z.pos p) by lia. apply IH; [lia|]. apply IH; [lia|]. by apply shr_1_shifted.
  - replace (k + Z.pos p~0) with (k + Z.pos p + Z.pos p) by lia. apply IH; [lia|]. by apply IH.
  - by apply shr_1_shifted.
Qed.

Lemma shifted_rne x k r : 0 <= k -> shifted x k r -> round_nearest_even (shr_m r) (loc_of_shr_record r) = rne x (2 ^ k).
Proof.
  intros Hk. destruct r as [m rb sb]. unfold shifted, rne. cbn [shr_m shr_r shr_s]. intros (-> & -> & ->).
  pose proof (pow2_pos k Hk) as HP. set (P := 2 ^ k) in *.
  pose proof (Z.mod_pos_bound x P HP) as Hrem. set (rem := x mod P) in *.
  unfold loc_of_shr_record. destruct (Z.leb_spec P (2 * rem)) as [C|C].
  - replace ((2 * rem) mod P) with (2 * rem - P) by (apply Z.mod_unique with 1; lia).
    destruct (Z.compare_spec (2 * rem) P), (Z.eqb_spec (2 * rem - P) 0); cbn; done || lia.
  - rewrite Z.mod_small by lia. destruct (Z.compare_spec (2 * rem) P); [lia| |lia].
    destruct (Z.eqb_spec (2 * rem) 0); done.
Qed.

Lemma shr_0 m e k : k <= 0 -> shr (shr_record_of_loc m loc_Exact) e k = (Build_shr_record m false false, e).
Proof. intros Hk. destruct k; [done|lia|done]. Qed.

Lemma shr_fexp_rne m e : 0 <= m ->
  let k := Z.max 0 (fx (Zdigits2 m + e) - e) in
  exists r, shr_fexp 53 1024 m e loc_Exact = (r, e + k) /\ shifted m k r.
Proof.
  intros Hm k. unfold shr_fexp. set (d := fx (Zdigits2 m + e) - e) in *. destruct (Z.leb_spec d 0) as [C|C].
  - rewrite shr_0 by done. replace k with 0 by lia. eexists. rewrite Z.add_0_r. split; [done|].
    unfold shifted. cbn [shr_m shr_r shr_s]. change (2 ^ 0) with 1. by rewrite Z.mod_1_r, Z.div_1_r.
  - replace k with d by lia. destruct d as [|d|]; [lia| |lia]. cbn [shr shr_record_of_loc]. eexists. split; [done|].
    apply (iter_shr_shifted m d 0); [lia|lia|].
    unfold shifted. cbn [shr_m shr_r shr_s]. change (2 ^ 0) with 1. by rewrite Z.mod_1_r, Z.div_1_r.
Qed.

(** The exponent the mantissa [m] with exponent [e] is rounded to. *)
Definition shift_of (m e : Z) : Z := Z.max 0 (fx (Zdigits2 m + e) - e).

Lemma shift_of_spec m e : shift_of (Z.pos m) e = Z.max 0 (Z.max (digits2 m - 53) (-1074 - e)).
Proof. unfold shift_of, fexp, emin, digits2. cbn [Zdigits2]. lia. Qed.

Lemma rne_le_div x p : 0 < p -> x / p <= rne x p <= x / p + 1.
Proof. intros Hp. unfold rne. repeat case_match; lia. Qed.

Lemma rne_digits m e : rne (Z.pos m) (2 ^ shift_of (Z.pos m) e) <= 2 ^ 53.
Proof.
  rewrite shift_of_spec. set (k := Z.max 0 _).
  pose proof (pow2_pos k ltac:(lia)) as HP. pose proof (digits2_bounds m) as [_ Hd]. pose proof (digits2_pos' m).
  assert (Hk : digits2 m <= 53 + k) by lia.
  assert (Z.pos m < 2 ^ 53 * 2 ^ k).
  { rewrite <- Z.pow_add_r by lia. apply Z.lt_le_trans with (1 := Hd). apply Z.pow_le_mono_r; lia. }
  pose proof (rne_le_div (Z.pos m) (2 ^ k) HP) as [_ Hr].
  assert (Z.pos m / 2 ^ k < 2 ^ 53) by (apply Z.div_lt_upper_bound; lia). lia.
Qed.

(** Rounding a mantissa of at most 2^53 again does not change its value. *)
Lemma renormalize n e r e' : 0 <= n <= 2 ^ 53 -> -1074 <= e -> shr_fexp 53 1024 n e loc_Exact = (r, e') ->
  0 <= shr_m r /\ e <= e' <= e + 1 + (if n =? 0 then 1074 else 0) /\ (0 < n -> 0 < shr_m r) /\
  shr_m r * 2 ^ (e' + 1074) = n * 2 ^ (e + 1074).
Proof.
  intros Hn He E. destruct (shr_fexp_rne n e ltac:(lia)) as (r' & E' & Hr). rewrite E in E'. injection E' as <- ->.
  fold (shift_of n e) in *. destruct Hr as (-> & _). destruct n as [|n|n]; [| |lia].
  { rewrite Z.div_0_l by (apply Z.pow_nonzero; unfold shift_of; lia). change (0 =? 0) with true. cbn match.
    assert (shift_of 0 e <= 1074) by (unfold shift_of, fexp, emin; cbn [Zdigits2]; lia).
    unfold shift_of in *. repeat split; lia. }
  rewrite shift_of_spec. change (Z.pos n =? 0) with false. cbn match.
  destruct (Z.eqb_spec (Z.pos n) (2 ^ 53)) as [E2|E2].
  - assert (Ed : digits2 n = 54) by (apply digits2_unique; rewrite ?E2; lia). rewrite Ed, E2.
    replace (Z.max 0 _) with 1 by lia. change (2 ^ 53 / 2 ^ 1) with (2 ^ 52).
    replace (e + 1 + 1074) with (1 + (e + 1074)) by lia. rewrite (Z.pow_add_r 2 1) by lia. repeat split; lia.
  - assert (digits2 n <= 53) by (apply digits2_le; lia).
    replace (Z.max 0 _) with 0 by lia. change (2 ^ 0) with 1. rewrite Z.div_1_r, Z.add_0_r. repeat split; lia.
Qed.

(** The value of a rounded mantissa. *)
Lemma round_aux_value s m e : digits2 m + e <= 900 -> e <= 900 ->
  let k := shift_of (Z.pos m) e in
  let y := binary_round_aux 53 1024 s (Z.pos m) e loc_Exact in
  is_num y /\ fval y = cond_Zopp s (rne (Z.pos m) (2 ^ k) * 2 ^ (e + k + 1074)).
Proof.
  intros Hd He k y. unfold y, binary_round_aux. clear y.
  destruct (shr_fexp_rne (Z.pos m) e ltac:(lia)) as (r & -> & Hr). fold (shift_of (Z.pos m) e) in *. fold k in Hr |- *.
  assert (Hk0 : 0 <= k) by (unfold k, shift_of; lia).
  rewrite (shifted_rne _ k r Hk0 Hr).
  assert (Hk : -1074 <= e + k <= 900) by (unfold k; rewrite shift_of_spec; lia).
  pose proof (rne_digits m e) as Hn. fold k in Hn.
  pose proof (rne_nonneg (Z.pos m) (2 ^ k) ltac:(by apply pow2_pos) ltac:(lia)) as Hn0.
  set (n := rne _ _) in *.
  destruct (shr_fexp 53 1024 n (e + k) loc_Exact) as [r2 e2] eqn:E2.
  destruct (renormalize n (e + k) r2 e2 ltac:(lia) ltac:(lia) E2) as (Hm & He2 & Hpos & Hv).
  destruct (shr_m r2) as [|p|p]; [|..|lia].
  - destruct (Z.ltb_spec 0 n) as [C|C]; [specialize (Hpos C); lia|]. replace n with 0 by lia. by destruct s.
  - destruct (Z.eqb_spec n 0) as [->|Hne]; [pose proof (pow2_pos (e2 + 1074) ltac:(lia)); lia|].
    destruct (Z.leb_spec e2 (1024 - 53)); [|lia]. split; [cbn; lia|]. cbn [fval]. by rewrite Hv.
Qed.

(** A mantissa of at most 53 bits is not rounded. *)
Lemma round_exact s m e : digits2 m <= 53 -> -1074 <= e <= 900 ->
  let y := binary_round 53 1024 s m e in
  exists m' e', y = S754_finite s m' e' /\ -1074 <= e' <= e /\ e' = Z.min e (Z.max (digits2 m + e - 53) (-1074)) /\
    Z.pos m' = Z.pos m * 2 ^ (e - e') /\ digits2 m' <= 53.
Proof.
  intros Hd He y. unfold y, binary_round, shl_align. clear y.
  change (Z.pos (digits2_pos m)) with (digits2 m). set (e1 := fx (digits2 m + e)).
  assert (He1 : e1 = Z.max (digits2 m + e - 53) (-1074)) by done. pose proof (digits2_pos' m) as H1.
  set (me := match e1 - e with Z.neg d => (Pos.iter xO m d, e1) | _ => (m, e) end).
  assert (Hme : snd me = Z.min e e1 /\ Z.pos (fst me) = Z.pos m * 2 ^ (e - snd me)).
  { unfold me. destruct (e1 - e) as [|d|d] eqn:Ed; cbn [fst snd].
    - rewrite Z.sub_diag. change (2 ^ 0) with 1. lia.
    - rewrite Z.sub_diag. change (2 ^ 0) with 1. lia.
    - rewrite iter_xO. replace (e - e1) with (Z.pos d) by lia. lia. }
  destruct me as [m' e']. cbn [fst snd] in Hme. destruct Hme as [Ee Em].
  assert (Hd' : digits2 m' = digits2 m + (e - e')).
  { apply digits2_unique; [|lia]. rewrite Em. pose proof (digits2_bounds m) as [B1 B2]. pose proof (pow2_pos (e - e') ltac:(lia)).
    replace (digits2 m + (e - e') - 1) with (digits2 m - 1 + (e - e')) by lia. rewrite !Z.pow_add_r by lia. nia. }
  assert (Hk : fx (digits2 m' + e') - e' <= 0) by (unfold fexp, emin in *; lia).
  unfold binary_round_aux, shr_fexp. change (Zdigits2 (Z.pos m')) with (digits2 m'). rewrite shr_0 by done.
  cbn [shr_m loc_of_shr_record round_nearest_even]. change (Zdigits2 (Z.pos m')) with (digits2 m'). rewrite shr_0 by done.
  cbn [shr_m]. destruct (Z.leb_spec e' (1024 - 53)); [|lia].
  exists m', e'. repeat split; [lia..|]. lia.
Qed.
End lemmas.
