(* ===== verification/Helpers.v ===== *)
(** Lines and errors of the B2F session: [src/fbb/helpers.go].

    The connection's buffered reader is the list of bytes still to come; it ends
    with io.EOF.  Logging is left out. *)
From S2P Require Import Prelude Crc GoStr.

(** ** Errors *)
Inductive error :=
| io_EOF | io_ErrUnexpectedEOF
| New (msg : gostr)               (* errors.New, fmt.Errorf *)
| Wrap (msg : gostr) (e : error)  (* fmt.Errorf with %w *)
| Remote (msg : gostr)            (* an error line sent by the remote *)
| NumError (num : gostr)          (* strconv.Atoi *)
| ParseError (layout value : gostr). (* time.Parse *)

#[export] Instance error_eq_dec : EqDecision error.
Proof. solve_decision. Defined.

(** [err.Error()]; the texts of package strconv and time are shortened. *)
Fixpoint Error (e : error) : gostr :=
  match e with
  | io_EOF => str "EOF"
  | io_ErrUnexpectedEOF => str "unexpected EOF"
  | New m => m
  | Wrap m e => m ++ Error e
  | Remote m => m
  | NumError num => str "strconv.Atoi: parsing " ++ num ++ str ": invalid syntax"
  | ParseError layout value => str "parsing time " ++ value ++ str " as " ++ layout
  end.

(** [errors.Is(err, io.EOF) || errors.Is(err, io.ErrUnexpectedEOF)] *)
Fixpoint is_EOF (e : error) : bool :=
  match e with io_EOF | io_ErrUnexpectedEOF => true | Wrap _ e => is_EOF e | _ => false end.

(** [s[a:b]] *)
Definition slice {A} (s : list A) (a b : Z) : res (list A) :=
  if (0 <=? a) && (a <=? b) && (b <=? zlen s) then Ok (drop (Z.to_nat a) (take (Z.to_nat b) s)) else Panic.

(** ** Operations *)
Definition cleanString (s : gostr) : res gostr :=
  let s := TrimSpace s in
  if zlen s <? 1 then mret s
  else
    c ← idx s 0;
    s ← (if c =? 0 then slice s 1 (zlen s) else mret s);
    c ← idx s (zlen s - 1);
    if c =? 0 then slice s 0 (zlen s - 2) else mret s.

(** The error a line that starts with an asterisk stands for. *)
Definition errLine (s : gostr) : option error :=
  match s with
  | 42 :: _ =>
      let idx := LastIndex (fun c => c =? 42) s in
      if zlen s <=? idx + 1 then None
      else Some (Remote (TrimSpace (drop (Z.to_nat (idx + 1)) s)))
  | _ => None
  end.

(** [nextLineRemoteErr]: the line or the error, and the input left. *)
Definition nextLineRemoteErr (parseErr : bool) (rd : gostr) : res ((error + gostr) * gostr) :=
  match ReadString 13 rd with
  | (_, false, rd) => mret (inl io_EOF, rd)
  | (line, true, rd) =>
      line ← cleanString line;
      match errLine line with
      | Some e => mret (if parseErr : bool then inl e else inr line, rd)
      | None => mret (inr line, rd)
      end
  end.

Definition nextLine : gostr -> res ((error + gostr) * gostr) := nextLineRemoteErr true.

(** [ReadLine] on a byte reader: CR and LF end a line, empty lines are skipped. *)
Fixpoint ReadLine_from (buf rd : gostr) : res ((error + gostr) * gostr) :=
  match rd with
  | [] => mret (inl io_EOF, [])
  | c :: rd =>
      if (c =? 10) || (c =? 13) then
        match buf with
        | [] => ReadLine_from [] rd
        | _ => l ← cleanString buf; mret (inr l, rd)
        end
      else ReadLine_from (buf ++ [c]) rd
  end.
Definition ReadLine : gostr -> res ((error + gostr) * gostr) := ReadLine_from [].

(** ** Lemmas *)
Lemma slice_ok {A} (s : list A) a b : 0 <= a <= b -> b <= zlen s ->
  slice s a b = Ok (drop (Z.to_nat a) (take (Z.to_nat b) s)).
Proof.
  intros H1 H2. unfold slice.
  destruct (Z.leb_spec 0 a), (Z.leb_spec a b), (Z.leb_spec b (zlen s)); try lia. done.
Qed.

Lemma idx_last {A} (s : list A) d : idx (s ++ [d]) (zlen (s ++ [d]) - 1) = Ok d.
Proof.
  unfold idx, zlen. rewrite length_app. cbn [length]. destruct (Z.ltb_spec (Z.of_nat (length s + 1) - 1) 0); [lia|].
  replace (Z.to_nat _) with (length s) by lia. by rewrite lookup_app_r, Nat.sub_diag by lia.
Qed.

Lemma solid_nonzero c : solid c = true -> (c =? 0) = false.
Proof. unfold solid. intros. destruct (Z.eqb_spec c 0); [subst; done|done]. Qed.

(** A line that begins and ends with printable characters is left alone, with
    its CR stripped. *)
Lemma cleanString_trimmed s c m d : TrimSpace s = c :: m ++ [d] -> solid c = true -> solid d = true ->
  cleanString s = Ok (c :: m ++ [d]).
Proof.
  intros Et Hc Hd. unfold cleanString. rewrite Et.
  destruct (Z.ltb_spec (zlen (c :: m ++ [d])) 1) as [H|_].
  { rewrite zlen_cons in H. pose proof (zlen_nonneg (m ++ [d])). lia. }
  change (idx (c :: m ++ [d]) 0) with (Ok c). rewrite bind_Ok, (solid_nonzero c) by done.
  cbn [mret res_ret]. rewrite bind_Ok. change (c :: m ++ [d]) with ((c :: m) ++ [d]).
  rewrite idx_last, bind_Ok, (solid_nonzero d) by done. done.
Qed.

Lemma cleanString_line c m d : solid c = true -> solid d = true ->
  cleanString ((c :: m ++ [d]) ++ [13]) = Ok (c :: m ++ [d]).
Proof. intros Hc Hd. apply cleanString_trimmed; [by apply TrimSpace_cr|done|done]. Qed.

Lemma nextLine_line c m d rest : solid c = true -> solid d = true -> c <> 42 -> 13 ∉ c :: m ++ [d] ->
  nextLine ((c :: m ++ [d]) ++ 13 :: rest) = Ok (inr (c :: m ++ [d]), rest).
Proof.
  intros Hc Hd Hn H. unfold nextLine, nextLineRemoteErr. rewrite ReadString_app by done.
  rewrite cleanString_line by done. rewrite bind_Ok. unfold errLine.
  replace (match c :: m ++ [d] with 42 :: _ => _ | _ => None end) with (@None error); [done|].
  destruct c as [|c|c]; try done. do 6 (destruct c as [c|c|]; try done).
Qed.

(** ** NUL bytes

    A NUL at the end of a line takes the byte before it along, and a line that
    only holds a NUL makes the reader panic. *)
Lemma back_nul f s : trim_front f (reverse <$> spaces) (0 :: s) = 0 :: s.
Proof. apply trim_front_keep. repeat constructor. Qed.

Theorem cleanString_nul c m x : solid c = true -> cleanString (c :: m ++ [x; 0]) = Ok (c :: m).
Proof.
  intros Hc. assert (E : TrimSpace (c :: m ++ [x; 0]) = (c :: m ++ [x]) ++ [0]).
  { unfold TrimSpace, trim_ends. rewrite front_solid by done.
    replace (c :: m ++ [x; 0]) with ((c :: m ++ [x]) ++ [0]) by (cbn; by rewrite <- app_assoc).
    rewrite reverse_app. change (reverse [0] ++ ?l) with (0 :: l). rewrite back_nul.
    change (0 :: ?l) with (reverse [0] ++ l). by rewrite <- reverse_app, reverse_involutive. }
  unfold cleanString. rewrite E. pose proof (zlen_nonneg m).
  assert (L : zlen ((c :: m ++ [x]) ++ [0]) = zlen m + 3).
  { rewrite zlen_app, zlen_cons, zlen_app. unfold zlen. cbn [length]. lia. }
  rewrite L. destruct (Z.ltb_spec (zlen m + 3) 1); [lia|].
  change (idx ((c :: m ++ [x]) ++ [0]) 0) with (Ok c). rewrite bind_Ok, (solid_nonzero c) by done.
  cbn [mret res_ret]. rewrite bind_Ok, idx_last, bind_Ok, Z.eqb_refl.
  rewrite slice_ok by lia. rewrite L. replace (Z.to_nat (zlen m + 3 - 2)) with (S (length m)) by (unfold zlen; lia).
  change (drop (Z.to_nat 0) ?l) with l. change ((c :: m ++ [x]) ++ [0]) with (c :: (m ++ [x]) ++ [0]).
  cbn [take]. rewrite <- app_assoc. by rewrite take_app_length.
Qed.

Lemma cleanString_nul_witness : solid 65 = true /\ cleanString (65 :: [66] ++ [67; 0]) = Ok (65 :: [66]).
Proof. split; [reflexivity|]. apply (cleanString_nul 65 [66] 67). reflexivity. Defined.

Theorem nul_line_panics rest : nextLine (0 :: 13 :: rest) = Panic.
Proof. reflexivity. Qed.

(** ** Tidy lines *)

(** A line that needs no cleaning: two printable ends and no CR inside. *)
Definition tidy (l : gostr) : Prop :=
  13 ∉ l /\ exists c m d, l = c :: m ++ [d] /\ solid c = true /\ solid d = true.

Lemma tidy_line c m d : solid c = true -> solid d = true -> 13 ∉ m -> tidy (c :: m ++ [d]).
Proof.
  intros Hc Hd Hm. split; [|by exists c, m, d]. unfold solid in *.
  apply not_elem_of_cons. split; [lia|]. intros Hin. apply elem_of_app in Hin as [?|Hin]; [done|].
  apply list_elem_of_singleton in Hin. lia.
Qed.

Lemma nextLine_tidy pe l rest : tidy l -> HasPrefix l (str "*") = false ->
  nextLineRemoteErr pe (l ++ 13 :: rest) = Ok (inr l, rest).
Proof.
  intros (Hr & c & m & d & -> & Hc & Hd) Hn. pose proof (nextLine_line c m d rest Hc Hd) as E.
  unfold nextLine, nextLineRemoteErr in *. rewrite ReadString_app in * by done.
  rewrite cleanString_line in * by done. rewrite bind_Ok in *.
  assert (c <> 42) as H42 by (intros ->; done). specialize (E H42 Hr).
  destruct (errLine _); [|done]. discriminate.
Qed.

Lemma nextLine_tidy_any l rest : tidy l -> nextLineRemoteErr false (l ++ 13 :: rest) = Ok (inr l, rest).
Proof.
  intros (Hr & c & m & d & -> & Hc & Hd).
  unfold nextLine, nextLineRemoteErr in *. rewrite ReadString_app in * by done.
  rewrite cleanString_line in * by done. rewrite bind_Ok. by destruct (errLine _).
Qed.

(** A line takes at least its delimiter off the input. *)
Lemma ReadString_shorter d s l rest : ReadString d s = (l, true, rest) -> (length rest < length s)%nat.
Proof.
  revert l rest. induction s as [|c s IH]; intros l rest; cbn [ReadString]; [done|].
  destruct (c =? d); [intros [= _ <-]; cbn; lia|]. destruct (ReadString d s) as [[l' ok] r]. intros [= _ -> ->].
  specialize (IH l' rest eq_refl). cbn [length]. lia.
Qed.

Lemma nextLine_shorter pe s x rest : nextLineRemoteErr pe s = Ok (x, rest) ->
  (exists e, x = inl e) \/ (length rest < length s)%nat.
Proof.
  unfold nextLineRemoteErr. destruct (ReadString 13 s) as [[l [|]] r] eqn:E.
  - apply ReadString_shorter in E. destruct (cleanString l); cbn [mbind res_bind]; try done.
    destruct (errLine _); intros [= _ <-]; by right.
  - intros [= <- _]. left. by eexists.
Qed.
