(* ===== verification/Mid.v ===== *)
(** Message identifiers: [src/fbb/mid.go].  The MD5 digest is a parameter; the
    base32 encoding of the standard library is modelled. *)
From S2P Require Import Prelude Crc GoStr Helpers.

(** [md5.Sum] returns 16 bytes. *)
Class MD5 := {
  md5_Sum : gostr -> gostr;
  md5_length : forall s, length (md5_Sum s) = 16%nat;
  md5_bytes : forall s, bytes (md5_Sum s) }.

(** ** base32.StdEncoding *)
Definition base32_alphabet : gostr := str "ABCDEFGHIJKLMNOPQRSTUVWXYZ234567".
Definition base32_char (x : Z) : Z := get base32_alphabet x.

(** The eight quintets of five bytes. *)
Definition quintets (a b c d e : Z) : list Z :=
  [Z.shiftr a 3; Z.lor (Z.shiftl (Z.land a 7) 2) (Z.shiftr b 6); Z.land (Z.shiftr b 1) 31;
   Z.lor (Z.shiftl (Z.land b 1) 4) (Z.shiftr c 4); Z.lor (Z.shiftl (Z.land c 15) 1) (Z.shiftr d 7);
   Z.land (Z.shiftr d 2) 31; Z.lor (Z.shiftl (Z.land d 3) 3) (Z.shiftr e 5); Z.land e 31].

(** The last group: as many characters as hold bits, padded to eight. *)
Definition base32_last (l : gostr) : gostr :=
  match l with
  | [] => []
  | [a] => (base32_char <$> take 2 (quintets a 0 0 0 0)) ++ replicate 6 61
  | [a; b] => (base32_char <$> take 4 (quintets a b 0 0 0)) ++ replicate 4 61
  | [a; b; c] => (base32_char <$> take 5 (quintets a b c 0 0)) ++ replicate 3 61
  | a :: b :: c :: d :: _ => (base32_char <$> take 7 (quintets a b c d 0)) ++ [61]
  end.

Fixpoint EncodeToString (l : gostr) : gostr :=
  match l with
  | a :: b :: c :: d :: e :: l => (base32_char <$> quintets a b c d e) ++ EncodeToString l
  | l => base32_last l
  end.

(** ** Identifiers *)
Definition MaxMIDLength : Z := 12.

(** [midPayload]: its argument is not looked at; [now] is the current time as it
    is printed. *)
Definition midPayload (now callsign : gostr) : gostr := now ++ str "-" ++ callsign.

Definition GenerateMid `{MD5} (now callsign : gostr) : res gostr :=
  slice (EncodeToString (md5_Sum (midPayload now callsign))) 0 MaxMIDLength.

(** ** Their form *)
Definition mid_char (c : Z) : Prop := 65 <= c <= 90 \/ 50 <= c <= 55.

Lemma base32_char_ok x : 0 <= x < 32 -> mid_char (base32_char x).
Proof.
  intros Hx. assert (F : forallb (fun x => ((65 <=? base32_char x) && (base32_char x <=? 90))
    || ((50 <=? base32_char x) && (base32_char x <=? 55))) (seqZ 0 32) = true) by (vm_compute; reflexivity).
  rewrite forallb_forall in F. assert (Hin : x ∈ seqZ 0 32) by (apply elem_of_seqZ; lia). apply list_elem_of_In in Hin. specialize (F x Hin).
  unfold mid_char. lia.
Qed.

Lemma lor_bound a b n : 0 <= n -> 0 <= a < 2 ^ n -> 0 <= b < 2 ^ n -> 0 <= Z.lor a b < 2 ^ n.
Proof.
  intros Hn Ha Hb. split; [apply Z.lor_nonneg; lia|]. destruct (Z.eq_dec (Z.lor a b) 0) as [->|H0]; [lia|].
  apply Z.log2_lt_pow2; [pose proof (proj2 (Z.lor_nonneg a b)); lia|]. rewrite Z.log2_lor by lia.
  assert (G : forall x, 0 <= x < 2 ^ n -> x = 0 \/ Z.log2 x < n) by (intros x Hx; destruct (Z.eq_dec x 0); [by left|right; apply Z.log2_lt_pow2; lia]).
  assert (0 < n) by (destruct (Z.eq_dec n 0); [subst; change (2 ^ 0) with 1 in *; assert (a = 0) by lia; assert (b = 0) by lia; subst; done|lia]).
  change (Z.log2 0) with 0. destruct (G a Ha) as [->|?], (G b Hb) as [->|?]; change (Z.log2 0) with 0; lia.
Qed.

Lemma quintets_ok a b c d e : byte a -> byte b -> byte c -> byte d -> byte e ->
  Forall (fun q => 0 <= q < 32) (quintets a b c d e).
Proof.
  unfold byte. intros Ha Hb Hc Hd He.
  assert (L : forall x n, 0 <= n -> Z.land x (Z.ones n) = x mod 2 ^ n) by (intros; by apply Z.land_ones).
  pose proof (L a 3) as La. pose proof (L (Z.shiftr b 1) 5) as Lb. pose proof (L b 1) as Lb'. pose proof (L c 4) as Lc.
  pose proof (L (Z.shiftr d 2) 5) as Ld. pose proof (L d 2) as Ld'. pose proof (L e 5) as Le.
  change (Z.ones 3) with 7 in *. change (Z.ones 5) with 31 in *. change (Z.ones 1) with 1 in *.
  change (Z.ones 4) with 15 in *. change (Z.ones 2) with 3 in *. unfold quintets.
  rewrite La, Lb, Lb', Lc, Ld, Ld', Le by lia. rewrite !Z.shiftr_div_pow2, !Z.shiftl_mul_pow2 by lia.
  change 32 with (2 ^ 5).
  repeat (apply List.Forall_cons; [first [apply lor_bound; [lia| |]|idtac]; change (2 ^ 5) with 32; change (2 ^ 2) with 4;
    change (2 ^ 3) with 8; change (2 ^ 6) with 64; change (2 ^ 1) with 2; change (2 ^ 4) with 16; change (2 ^ 7) with 128;
    Z.div_mod_to_equations; lia|]). constructor.
Qed.

Lemma GenerateMid_ok `{MD5} now callsign : exists mid, GenerateMid now callsign = Ok mid /\
  length mid = 12%nat /\ Forall mid_char mid /\ (32 ∉ mid) /\ (13 ∉ mid).
Proof.
  unfold GenerateMid. set (sum := md5_Sum _).
  pose proof (md5_length (midPayload now callsign)) as Hl. pose proof (md5_bytes (midPayload now callsign)) as Hb. fold sum in Hl, Hb.
  destruct sum as [|a [|b [|c [|d [|e [|f [|g [|h [|i [|j t]]]]]]]]]]; try discriminate.
  assert (Hq : Forall mid_char ((base32_char <$> quintets a b c d e) ++ (base32_char <$> quintets f g h i j))).
  { rewrite <- fmap_app. apply Forall_fmap. apply (List.Forall_impl (P := fun q => 0 <= q < 32) _ base32_char_ok).
    unfold bytes in Hb. repeat (apply Forall_cons_1 in Hb as [? Hb]). apply Forall_app_2; by apply quintets_ok. }
  cbn [EncodeToString]. rewrite app_assoc. set (q := _ ++ _) in *. assert (length q = 16%nat) by reflexivity.
  rewrite slice_ok; [|unfold MaxMIDLength; lia|].
  2:{ rewrite zlen_app. unfold MaxMIDLength. pose proof (zlen_nonneg (EncodeToString t)). unfold zlen in *. lia. }
  change (Z.to_nat 0) with 0%nat. change (Z.to_nat MaxMIDLength) with 12%nat. rewrite drop_0, take_app_le by lia.
  assert (Ht : Forall mid_char (take 12 q)) by (by apply Forall_take).
  eexists. split; [done|]. split; [rewrite length_take; lia|]. split; [done|].
  split; intros Hin; (eapply list_elem_of_In, Forall_forall in Hin; [|exact Ht]); cbv [mid_char] in Hin; lia.
Qed.

(** A generated identifier has twelve characters, letters and the digits 2 to 7:
    it is valid and can be proposed. *)
Theorem generated_mid `{MD5} now callsign : exists mid, GenerateMid now callsign = Ok mid /\
  length mid = 12%nat /\ Forall mid_char mid /\ (32 ∉ mid) /\ (13 ∉ mid).
Proof. apply GenerateMid_ok. Qed.

(** A digest to instantiate the parameter with. *)
Definition zero_md5 : MD5.
Proof.
  refine {| md5_Sum := fun _ => replicate 16 0 |}; intros; [reflexivity|].
  apply Forall_replicate. unfold byte. lia.
Defined.
