(* ===== verification/Proposal.v ===== *)
(** Message proposals: [src/fbb/proposal.go], the ordering of outbound proposals
    of [src/fbb/wl2k.go], and the proposal and answer lines of
    [src/fbb/b2f.go]. *)
From S2P Require Import Prelude Crc GoStr Helpers Huffman Reconst BitIO HuffCode LzTree Tokens Writer Reader Compress Decompress.
From Stdlib Require Import Sorted.

(** ** Data *)
Definition BasicProposal : Z := 66.
Definition AsciiProposal : Z := 65.
Definition Wl2kProposal : Z := 67.
Definition GzipProposal : Z := 68.

Definition Accept : Z := 43.
Definition Reject : Z := 45.
Definition Defer : Z := 61.

Record proposal := mkProp {
  p_code : Z; p_msgType : gostr; p_mid : gostr; p_answer : Z; p_title : gostr;
  p_offset : Z; p_sent : bool; p_size : Z; p_data : gostr; p_csize : Z }.

(** [new(Proposal)] *)
Definition newProposal : proposal := mkProp 0 [] [] 0 [] 0 false 0 [] 0.

Definition set_answer (p : proposal) (a : Z) : proposal :=
  mkProp p.(p_code) p.(p_msgType) p.(p_mid) a p.(p_title) p.(p_offset) p.(p_sent) p.(p_size) p.(p_data) p.(p_csize).
Definition set_offset (p : proposal) (o : Z) : proposal :=
  mkProp p.(p_code) p.(p_msgType) p.(p_mid) p.(p_answer) p.(p_title) o p.(p_sent) p.(p_size) p.(p_data) p.(p_csize).
Definition set_code (p : proposal) (c : Z) : proposal :=
  mkProp c p.(p_msgType) p.(p_mid) p.(p_answer) p.(p_title) p.(p_offset) p.(p_sent) p.(p_size) p.(p_data) p.(p_csize).
Definition set_msgType (p : proposal) (t : gostr) : proposal :=
  mkProp p.(p_code) t p.(p_mid) p.(p_answer) p.(p_title) p.(p_offset) p.(p_sent) p.(p_size) p.(p_data) p.(p_csize).
Definition set_mid (p : proposal) (m : gostr) : proposal :=
  mkProp p.(p_code) p.(p_msgType) m p.(p_answer) p.(p_title) p.(p_offset) p.(p_sent) p.(p_size) p.(p_data) p.(p_csize).
Definition set_size (p : proposal) (n : Z) : proposal :=
  mkProp p.(p_code) p.(p_msgType) p.(p_mid) p.(p_answer) p.(p_title) p.(p_offset) p.(p_sent) n p.(p_data) p.(p_csize).
Definition set_csize (p : proposal) (n : Z) : proposal :=
  mkProp p.(p_code) p.(p_msgType) p.(p_mid) p.(p_answer) p.(p_title) p.(p_offset) p.(p_sent) p.(p_size) p.(p_data) n.
Definition set_ptitle (p : proposal) (t : gostr) : proposal :=
  mkProp p.(p_code) p.(p_msgType) p.(p_mid) p.(p_answer) t p.(p_offset) p.(p_sent) p.(p_size) p.(p_data) p.(p_csize).
Definition set_data (p : proposal) (d : gostr) : proposal :=
  mkProp p.(p_code) p.(p_msgType) p.(p_mid) p.(p_answer) p.(p_title) p.(p_offset) p.(p_sent) p.(p_size) d p.(p_csize).

(** ** Operations *)

(** compress/gzip is the one compressor that is not part of the repository. *)
Class Gzip := { gzip : gostr -> gostr; gunzip : gostr -> option gostr }.

Section gzip.
Context `{Gzip}.

(** [NewProposal]: lzhuf unless the code says gzip. *)
Definition NewProposal (MID ttl : gostr) (code : Z) (data : gostr) : res proposal :=
  let ttl := match ttl with [] => str "No title" | _ => ttl end in
  buf ← (if code =? GzipProposal then mret (gzip data) else compress true [data]);
  mret (mkProp code (str "EM") MID 0 ttl 0 false (zlen data) buf (zlen buf)).

(** [Data]: a failing decompressor makes it panic.  [ks] are the sizes io.Copy
    chooses for its reads. *)
Definition Data (fuel : nat) (ks : nat -> Z) (p : proposal) : res gostr :=
  if p.(p_code) =? GzipProposal then
    match gunzip p.(p_data) with Some d => mret d | None => Panic end
  else
    o ← NewB2Reader p.(p_data);
    match o with
    | inl _ | inr (_, Some _) => Panic
    | inr (d, None) =>
        x ← drain fuel ks d [];
        let '(data, e, _) := x in
        match e with EOF => mret data | _ => Panic end
    end.
End gzip.

Definition DataIsComplete (p : proposal) : bool := zlen p.(p_data) =? p.(p_csize).

(** [precedence]: lower is more important. *)
Definition precedence (p : proposal) : Z :=
  if Contains p.(p_title) (str "//WL2K Z/") then 0
  else if Contains p.(p_title) (str "//WL2K O/") then 1
  else if Contains p.(p_title) (str "//WL2K P/") then 2
  else 3.

(** *** Ordering *)

(** [<] on strings *)
Fixpoint str_less (s t : gostr) : bool :=
  match s, t with
  | _, [] => false
  | [], _ => true
  | a :: s, b :: t => if a <? b then true else if b <? a then false else str_less s t
  end.

Definition bySize_Less (p q : proposal) : bool :=
  if negb (p.(p_csize) =? q.(p_csize)) then p.(p_csize) <? q.(p_csize) else str_less p.(p_mid) q.(p_mid).
Definition byPrecedence_Less (p q : proposal) : bool := precedence p <? precedence q.

(** Package sort: insertion from the right, equal elements keep their order. *)
Fixpoint sort_insert {A} (less : A -> A -> bool) (x : A) (l : list A) : list A :=
  match l with [] => [x] | y :: l' => if less y x then y :: sort_insert less x l' else x :: l end.
Fixpoint sort_by {A} (less : A -> A -> bool) (l : list A) : list A :=
  match l with [] => [] | x :: l => sort_insert less x (sort_by less l) end.

Definition sortProposals (props : list proposal) : list proposal :=
  sort_by byPrecedence_Less (sort_by bySize_Less props).

(** *** Proposal lines *)

(** The line [sendOutbound] proposes a message with. *)
Definition propLine (p : proposal) : gostr :=
  str "F" ++ EncodeRune p.(p_code) ++ str " " ++ p.(p_msgType) ++ str " " ++ p.(p_mid)
  ++ str " " ++ itoa p.(p_size) ++ str " " ++ itoa p.(p_csize) ++ str " " ++ itoa 0.

(** The sum over a line and its CR, and the checksum of a block of lines. *)
Definition lineSum (l : gostr) : Z := foldl Z.add 0 (runes l) + 13.
Definition checksum (sum : Z) : Z := Z.land (- sum) 0xff.

Fixpoint join (sep : gostr) (l : list gostr) : gostr :=
  match l with [] => [] | [x] => x | x :: l => x ++ sep ++ join sep l end.

(** The loop over the parts of a proposal line. *)
Fixpoint parse_parts (all : list gostr) (i : nat) (parts : list gostr) (p : proposal) : option error * proposal :=
  match parts with
  | [] => (None, p)
  | part :: parts =>
      match i with
      | 0%nat =>
          if (zlen part <? 1) || (2 <? zlen part) then (Some (New (str "Malformed proposal 0")), p)
          else if negb (bool_decide (part = str "EM")) && negb (bool_decide (part = str "CM"))
          then (Some (New (str "Expected message type CM or EM, but found " ++ part)), p)
          else parse_parts all (S i) parts (set_msgType p part)
      | 1%nat => parse_parts all (S i) parts (set_mid p part)
      | 2%nat => parse_parts all (S i) parts (set_size p (Atoi part).1)
      | 3%nat => parse_parts all (S i) parts (set_csize p (Atoi part).1)
      | 4%nat => parse_parts all (S i) parts p
      | _ => (Some (New (str "Too many parts in proposal: [" ++ join (str " ") all ++ str "]")), p)
      end
  end.

Definition parseB2Proposal (line : gostr) (p : proposal) : res (option error * proposal) :=
  if zlen line <? 4 then mret (Some (New (str "Unexpected end of proposal line")), p)
  else
    c ← idx line 1;
    if negb ((c =? Wl2kProposal) || (c =? GzipProposal))
    then mret (Some (New (str "Not a type C or D proposal")), p)
    else
      let parts := Split 32 (drop 3 line) in
      if zlen parts <? 5 then mret (Some (New (str "Malformed proposal: " ++ drop 2 line)), p)
      else mret (parse_parts parts 0%nat parts p).

Definition parseProposal (line : gostr) (p : proposal) : res (option error * proposal) :=
  match line with
  | 70 :: _ =>
      c ← idx line 1;
      let p := set_code p c in
      if (c =? BasicProposal) || (c =? AsciiProposal) then mret (None, p)
      else if (c =? Wl2kProposal) || (c =? GzipProposal) then parseB2Proposal line p
      else mret (Some (New (str "Unsupported proposal code '" ++ EncodeRune c ++ str "'")), p)
  | _ => mret (None, p)
  end.

(** *** Answers *)
Definition ProtocolOffsetSizeLimit : Z := 999999.

Definition one_of (c : Z) (s : String.string) : bool := existsb (Z.eqb c) (str s).
Arguments one_of c s%_string.

(** One round of the loop of [parseProposalAnswer]: the answer byte [c], the
    rest of the line, and the proposal it is for. *)
Definition parse_answer (c : Z) (s : gostr) (p : proposal) : error + (proposal * gostr) :=
  if one_of c "Yy+" then inr (set_answer p Accept, s)
  else if one_of c "NnRr-" then inr (set_answer p Reject, s)
  else if one_of c "Ll=Hh" then inr (set_answer p Defer, s)
  else if one_of c "Aa!" then
    let idx := LastIndex is_digit s in
    if idx <? 0 then inl (New (str "Got offset request without offset index"))
    else
      let o := (Atoi (take (Z.to_nat (idx + 1)) s)).1 in
      let o := if ProtocolOffsetSizeLimit <? o then 0 else o in
      inr (set_offset (set_answer p Accept) o, drop (Z.to_nat (idx + 1)) s)
  else inl (New (str "Invalid character (" ++ EncodeRune c ++ str ") in proposal answer line")).

Fixpoint parse_answers (s : gostr) (props : list proposal) : option error * list proposal :=
  match s, props with
  | [], _ => (None, props)
  | _, [] => (Some (New (str "Got answer for more proposals than expected")), [])
  | c :: s, p :: props =>
      match parse_answer c s p with
      | inl e => (Some e, p :: props)
      | inr (p, s) => let '(e, props) := parse_answers s props in (e, p :: props)
      end
  end.

Definition parseProposalAnswer (s : gostr) (props : list proposal) : option error * list proposal :=
  parse_answers (TrimPrefix s (str "FS ")) props.

(** ** Proposal lines *)

(** What a proposal line says about a proposal. *)
Definition announced (p : proposal) : proposal :=
  mkProp p.(p_code) p.(p_msgType) p.(p_mid) 0 [] 0 false p.(p_size) [] p.(p_csize).

(** A proposal the code can announce: type C or D, one of the two message
    types, and an identifier without a blank. *)
Record sendable (p : proposal) : Prop := {
  sb_code : p.(p_code) = Wl2kProposal \/ p.(p_code) = GzipProposal;
  sb_type : p.(p_msgType) = str "EM" \/ p.(p_msgType) = str "CM";
  sb_mid : (32 ∉ p.(p_mid)) /\ (13 ∉ p.(p_mid));
  sb_size : 0 <= p.(p_size) < 2 ^ 63;
  sb_csize : 0 <= p.(p_csize) < 2 ^ 63 }.

Lemma not_in_digits c n : 0 <= n -> c < 48 -> c ∉ itoa n.
Proof. intros Hn Hc H. pose proof (itoa_digits n Hn) as F. rewrite Forall_forall in F. apply list_elem_of_In in H. apply F in H. lia. Qed.

Lemma propLine_shape p : sendable p ->
  propLine p = [70; p.(p_code); 32] ++ p.(p_msgType) ++ 32 :: p.(p_mid) ++ 32 :: itoa p.(p_size)
               ++ 32 :: itoa p.(p_csize) ++ 32 :: [48].
Proof.
  intros [Hc _ _ _ _]. unfold propLine.
  assert (EncodeRune p.(p_code) = [p.(p_code)]) as -> by (by destruct Hc as [-> | ->]).
  reflexivity.
Qed.

Lemma propLine_parts p : sendable p ->
  Split 32 (drop 3 (propLine p)) = [p.(p_msgType); p.(p_mid); itoa p.(p_size); itoa p.(p_csize); [48]].
Proof.
  intros H. rewrite propLine_shape by done. destruct H as [_ Ht [Hm _] Hs Hc]. cbn [app drop]. rewrite drop_0.
  rewrite Split_app by (destruct Ht as [-> | ->]; by apply not_elem_existsb).
  rewrite Split_app by done. rewrite !Split_app by (apply not_in_digits; lia). done.
Qed.

(** Parsing a printed proposal line gives the proposal back. *)
Lemma parse_propLine p : sendable p -> parseProposal (propLine p) newProposal = Ok (None, announced p).
Proof.
  intros H. pose proof (propLine_parts p H) as Hp. pose proof (propLine_shape p H) as Hs.
  destruct H as [Hc Ht [Hm _] Hsz Hcs].
  assert (exists l, propLine p = 70 :: p.(p_code) :: 32 :: l) as [l El] by (rewrite Hs; by eexists).
  assert (4 <= zlen (propLine p)).
  { rewrite Hs. rewrite !zlen_app, !zlen_cons. pose proof (zlen_nonneg p.(p_msgType)).
    pose proof (zlen_nonneg (p_mid p ++ 32 :: itoa (p_size p) ++ 32 :: itoa (p_csize p) ++ 32 :: [48])).
    pose proof (zlen_nonneg (@nil Z)). lia. }
  assert (Ei : idx (propLine p) 1 = Ok p.(p_code)) by (by rewrite El).
  assert (parseProposal (propLine p) newProposal = parseB2Proposal (propLine p) (set_code newProposal p.(p_code))) as ->.
  { unfold parseProposal. rewrite El at 1. rewrite Ei, bind_Ok. by destruct Hc as [-> | ->]. }
  unfold parseB2Proposal. destruct (Z.ltb_spec (zlen (propLine p)) 4); [lia|]. rewrite Ei, bind_Ok.
  replace (negb _) with false by (by destruct Hc as [-> | ->]). rewrite Hp. set (all := [_; _; _; _; _]).
  change (zlen all <? 5) with false. cbv iota. unfold all at 2. cbn [parse_parts].
  rewrite !Atoi_itoa by lia. cbn [fst].
  unfold announced. destruct Ht as [-> | ->]; reflexivity.
Qed.

(** A proposal survives the line it is announced with. *)
Theorem proposal_line_roundtrip p :
  sendable p -> parseProposal (propLine p) newProposal = Ok (None, announced p).
Proof. apply parse_propLine. Qed.

Definition sample_prop : proposal :=
  mkProp Wl2kProposal (str "EM") (str "TJKYEIMMHSRB") 0 (str "Hello") 0 false 527 [] 123.

Lemma sample_sendable : sendable sample_prop.
Proof. split; cbn; try lia; auto. split; by apply not_elem_existsb. Qed.

Lemma proposal_line_roundtrip_witness :
  parseProposal (propLine sample_prop) newProposal = Ok (None, announced sample_prop).
Proof. apply proposal_line_roundtrip, sample_sendable. Defined.

(** ** Answers *)
Definition answered (a : Z) : Prop := a = Accept \/ a = Reject \/ a = Defer.

Lemma parse_answers_ok (props : list proposal) ans :
  Forall answered ans -> length ans = length props ->
  parse_answers ans props = (None, zip_with set_answer props ans).
Proof.
  revert ans. induction props as [|p props IH]; intros ans Ha Hl; destruct ans as [|a ans]; try done.
  apply Forall_cons_1 in Ha as [Ha Hr]. cbn [parse_answers].
  assert (parse_answer a ans p = inr (set_answer p a, ans)) as -> by (destruct Ha as [-> |[-> | ->]]; reflexivity).
  rewrite IH; [done|done|]. cbn in Hl. lia.
Qed.

(** The answer line one side writes is read by the other side as the same
    answers to the same proposals, in order. *)
Theorem answer_line_roundtrip (props : list proposal) ans :
  Forall answered ans -> length ans = length props ->
  parseProposalAnswer (str "FS " ++ ans) props = (None, zip_with set_answer props ans).
Proof.
  intros Ha Hl. unfold parseProposalAnswer, TrimPrefix. rewrite HasPrefix_app, drop_app_length.
  by apply parse_answers_ok.
Qed.

Lemma answer_line_roundtrip_witness :
  parseProposalAnswer (str "FS " ++ str "+=") [sample_prop; sample_prop]
  = (None, zip_with set_answer [sample_prop; sample_prop] (str "+=")).
Proof.
  apply answer_line_roundtrip; [|reflexivity].
  apply (Forall_cons_2 _ Accept); [by left|]. apply (Forall_cons_2 _ Defer); [by right; right|constructor].
Defined.

(** An offset request swallows the line up to its last digit: with two of them
    neither offset is honoured and the second proposal stays unanswered,
    without an error. *)
Theorem two_offset_requests p q :
  parseProposalAnswer (str "FS !120!340") [p; q]
  = (None, [set_offset (set_answer p Accept) 0; q]).
Proof. reflexivity. Qed.

(** ** Order *)
Section sorting.
Context {A : Type} (less : A -> A -> bool).

Lemma sort_insert_perm x l : sort_insert less x l ≡ₚ x :: l.
Proof.
  induction l as [|y l IH]; cbn; [done|]. destruct (less y x); [|done]. rewrite IH. by constructor.
Qed.

Lemma sort_by_perm l : sort_by less l ≡ₚ l.
Proof. induction l as [|x l IH]; cbn; [done|]. by rewrite sort_insert_perm, IH. Qed.

Context (trans : forall x y z, less y x = false -> less z y = false -> less z x = false).
Context (asym : forall x y, less x y = true -> less y x = false).

Lemma sort_insert_sorted x l :
  StronglySorted (fun x y => less y x = false) l ->
  StronglySorted (fun x y => less y x = false) (sort_insert less x l).
Proof using trans asym.
  induction 1 as [|y l Hl IH Hy]; cbn; [repeat constructor|]. destruct (less y x) eqn:E.
  - constructor; [done|]. rewrite sort_insert_perm. constructor; [by apply asym|done].
  - constructor; [by constructor|]. constructor; [done|].
    apply Forall_forall. intros z Hz. rewrite Forall_forall in Hy. eauto.
Qed.

Lemma sort_by_sorted l : StronglySorted (fun x y => less y x = false) (sort_by less l).
Proof using trans asym. induction l as [|x l IH]; cbn; [constructor|by apply sort_insert_sorted]. Qed.

(** Sorting keeps a relation between elements that are not moved past each other. *)
Lemma sort_insert_stable (R : A -> A -> Prop) x l :
  (forall y, y ∈ l -> R x y) ->
  StronglySorted (fun x y => less x y = false -> less y x = false -> R x y) l ->
  StronglySorted (fun x y => less x y = false -> less y x = false -> R x y) (sort_insert less x l).
Proof.
  intros Hx H. induction H as [|y l Hl IH Hy]; cbn; [repeat constructor|]. destruct (less y x) eqn:E.
  - constructor; [apply IH; intros z Hz; apply Hx; by right|].
    rewrite sort_insert_perm. constructor; [congruence|done].
  - constructor; [by constructor|]. apply Forall_forall. intros z Hz _ _. apply Hx. by apply list_elem_of_In.
Qed.

Lemma sort_by_stable (R : A -> A -> Prop) l : StronglySorted R l ->
  StronglySorted (fun x y => less x y = false -> less y x = false -> R x y) (sort_by less l).
Proof.
  induction 1 as [|x l Hl IH Hx]; cbn; [constructor|]. apply sort_insert_stable; [|done].
  intros y Hy. rewrite sort_by_perm in Hy. rewrite Forall_forall in Hx. apply Hx. by apply list_elem_of_In.
Qed.
End sorting.

Lemma str_less_irrefl_trans s t : str_less s t = true -> str_less t s = false.
Proof.
  revert t. induction s as [|a s IH]; intros [|b t]; cbn; try done.
  destruct (Z.ltb_spec a b), (Z.ltb_spec b a); try done; try lia. apply IH.
Qed.

Lemma str_less_total s t : str_less s t = false -> str_less t s = false -> s = t.
Proof.
  revert t. induction s as [|a s IH]; intros [|b t]; cbn; try done.
  destruct (Z.ltb_spec a b), (Z.ltb_spec b a); try done; try lia. intros H1 H2.
  f_equal; [lia|]. by apply IH.
Qed.

Lemma str_less_trans s t u : str_less t s = false -> str_less u t = false -> str_less u s = false.
Proof.
  revert t u. induction s as [|a s IH]; intros [|b t] [|c u]; cbn; try done.
  destruct (Z.ltb_spec b a), (Z.ltb_spec c b), (Z.ltb_spec c a), (Z.ltb_spec a b), (Z.ltb_spec b c), (Z.ltb_spec a c);
    try done; try lia. apply IH.
Qed.

(** The order in which messages are proposed. *)
Definition before (p q : proposal) : Prop :=
  precedence p < precedence q \/
  (precedence p = precedence q /\
   (p.(p_csize) < q.(p_csize) \/ (p.(p_csize) = q.(p_csize) /\ str_less q.(p_mid) p.(p_mid) = false))).

Lemma bySize_le p q : bySize_Less q p = false ->
  p.(p_csize) < q.(p_csize) \/ (p.(p_csize) = q.(p_csize) /\ str_less q.(p_mid) p.(p_mid) = false).
Proof.
  unfold bySize_Less. destruct (Z.eqb_spec (p_csize q) (p_csize p)); cbn; [intros; right; auto|].
  destruct (Z.ltb_spec (p_csize q) (p_csize p)); [done|]. intros _. left. lia.
Qed.

Lemma bySize_sorted props : StronglySorted (fun p q => bySize_Less q p = false) (sort_by bySize_Less props).
Proof.
  apply sort_by_sorted.
  - intros p q r. unfold bySize_Less.
    destruct (Z.eqb_spec (p_csize q) (p_csize p)), (Z.eqb_spec (p_csize r) (p_csize q)), (Z.eqb_spec (p_csize r) (p_csize p));
      cbn [negb]; try (intros; lia); eauto using str_less_trans;
      destruct (Z.ltb_spec (p_csize q) (p_csize p)), (Z.ltb_spec (p_csize r) (p_csize q)), (Z.ltb_spec (p_csize r) (p_csize p));
      try done; intros; try lia.
  - intros p q. unfold bySize_Less. rewrite (Z.eqb_sym (p_csize q)).
    destruct (Z.eqb_spec (p_csize p) (p_csize q)); cbn [negb]; [apply str_less_irrefl_trans|]. lia.
Qed.

(** C38. All outbound proposals are kept, the more urgent ones come first, and
    within one precedence level the smaller ones. *)
Theorem sortProposals_ordered props :
  sortProposals props ≡ₚ props /\ StronglySorted before (sortProposals props).
Proof.
  unfold sortProposals. split; [by rewrite !sort_by_perm|].
  pose proof (sort_by_sorted byPrecedence_Less ltac:(unfold byPrecedence_Less; lia) ltac:(unfold byPrecedence_Less; lia)
    (sort_by bySize_Less props)) as H1.
  pose proof (sort_by_stable byPrecedence_Less _ _ (bySize_sorted props)) as H2.
  induction H1 as [|p l H1 IH Hp]; [constructor|]. inversion H2 as [|? ? H3 H4]; subst.
  constructor; [by apply IH|]. apply Forall_forall. intros q Hq. rewrite Forall_forall in Hp, H4.
  specialize (Hp q Hq). specialize (H4 q Hq). cbn in H4. unfold byPrecedence_Less in *. unfold before.
  destruct (Z.lt_ge_cases (precedence p) (precedence q)); [by left|right].
  split; [lia|]. apply bySize_le, H4; lia.
Qed.

(** ** Data *)
Lemma Data_decompress `{Gzip} fuel ks p data c : p.(p_code) <> GzipProposal ->
  decompress true fuel ks p.(p_data) = Ok (inr (data, EOF, c)) -> Data fuel ks p = Ok data.
Proof.
  intros Hc. unfold Data, decompress, NewB2Reader. destruct (Z.eqb_spec (p_code p) GzipProposal); [congruence|].
  generalize (NewReader (p_data p) true). intros [[e|[d [e|]]]| |]; cbn [mbind res_bind]; try discriminate.
  generalize (drain fuel ks d []). intros [[[x e] d']| |]; cbn [mbind res_bind]; try discriminate.
  intros E. injection E as -> -> _. reflexivity.
Qed.

Lemma proposal_data_ok `{Gzip} (Hg : forall d, gunzip (gzip d) = Some d) MID ttl code data fuel ks :
  bytes data -> zlen data <= 3867 -> (forall i, 0 < ks i) -> zlen data < Z.of_nat fuel ->
  exists p, NewProposal MID ttl code data = Ok p /\ DataIsComplete p = true /\
    p.(p_mid) = MID /\ p.(p_code) = code /\ p.(p_size) = zlen data /\ p.(p_csize) = zlen p.(p_data) /\
    p.(p_offset) = 0 /\ p.(p_msgType) = str "EM" /\ Data fuel ks p = Ok data.
Proof.
  intros Hb Hl Hks Hf. unfold NewProposal. destruct (Z.eqb_spec code GzipProposal) as [->|Hn].
  - cbn [mret res_ret]. rewrite bind_Ok. eexists. split; [done|]. unfold DataIsComplete. cbn [p_data p_csize p_mid p_code p_size p_offset p_msgType].
    rewrite Z.eqb_refl. split_and!; try done. unfold Data. cbn [p_code p_data]. rewrite Z.eqb_refl, Hg. done.
  - destruct (compress_ok true [data]) as (out & body & ts & m & E & [Eo Bo To (bs & h & Hr & Hbits)]).
    { cbn. by rewrite app_nil_r. }
    cbn [concat] in *. rewrite app_nil_r in *. destruct Hbits as (pad & Ep & Hp).
    { eapply run_short; [exact Hr|apply huff0_ok|by eapply covers_syms|].
      rewrite (proj2 huff0_ok). apply covers_le in To. clia. }
    rewrite E, bind_Ok. eexists. split; [reflexivity|]. unfold DataIsComplete. cbn [p_data p_csize p_mid p_code p_size p_offset p_msgType].
    rewrite Z.eqb_refl. split_and!; try reflexivity. eapply Data_decompress; [exact Hn|]. cbn [p_data]. rewrite Eo.
    apply (decompress_ok data true body ts bs m h pad); try assumption. lia.
Qed.

(** What [NewProposal] makes of data it compresses with lzhuf. *)
Lemma lzhuf_proposal_ok `{Gzip} MID ttl code data fuel ks : code <> GzipProposal ->
  bytes data -> zlen data <= 3867 -> (forall i, 0 < ks i) -> zlen data < Z.of_nat fuel ->
  exists buf, NewProposal MID ttl code data
      = Ok (mkProp code (str "EM") MID 0 (match ttl with [] => str "No title" | _ => ttl end) 0 false (zlen data) buf (zlen buf)) /\
    bytes buf /\ 6 <= zlen buf < 2 ^ 63 /\
    forall p, p.(p_code) = code -> p.(p_data) = buf -> Data fuel ks p = Ok data.
Proof.
  intros Hn Hb Hl Hks Hf. unfold NewProposal. destruct (Z.eqb_spec code GzipProposal); [done|].
  destruct (compress_ok true [data]) as (out & body & ts & m & E & [Eo Bo To (bs & h & Hr & Hbits)]).
  { cbn. by rewrite app_nil_r. }
  cbn [concat] in *. rewrite app_nil_r in *. assert (Hm : (m <= 16)%nat).
  { eapply run_short; [exact Hr|apply huff0_ok|by eapply covers_syms|].
    rewrite (proj2 huff0_ok). apply covers_le in To. clia. }
  destruct (Hbits Hm) as (pad & Ep & Hp). exists out. rewrite E, bind_Ok. split; [reflexivity|]. split; [|split].
  - rewrite Eo. cbv zeta. apply Forall_app_2; [repeat constructor; unfold byte; apply u8_range|].
    apply Forall_app_2; [repeat constructor; unfold byte; apply u8_range|done].
  - rewrite Eo. cbv zeta. rewrite !zlen_app. pose proof (zlen_nonneg body).
    change (zlen (le_bytes 2 _)) with 2. change (zlen (le_bytes 4 _)) with 4.
    pose proof (run_length _ _ _ _ _ _ _ _ Hr To) as Hlen. apply covers_le in To.
    apply (f_equal length) in Ep. rewrite length_bytebits, length_app in Ep. pose proof (zlen_nonneg ts).
    unfold zlen in *. nia.
  - intros p Ec Ed. eapply Data_decompress; [congruence|]. rewrite Ed, Eo.
    apply (decompress_ok data true body ts bs m h pad); try assumption. lia.
Qed.

(** The data of a new proposal is complete and decompresses to the message. *)
Theorem proposal_data_roundtrip `{Gzip} (Hg : forall d, gunzip (gzip d) = Some d) MID ttl code data fuel ks :
  bytes data -> zlen data <= 3867 -> (forall i, 0 < ks i) -> zlen data < Z.of_nat fuel ->
  exists p, NewProposal MID ttl code data = Ok p /\ DataIsComplete p = true /\ Data fuel ks p = Ok data.
Proof.
  intros Hb Hl Hks Hf.
  destruct (proposal_data_ok Hg MID ttl code data fuel ks Hb Hl Hks Hf) as (p & E & H1 & _ & _ & _ & _ & _ & _ & H2).
  eauto.
Qed.

(** A compressor to instantiate the parameter with. *)
Definition store_gzip : Gzip := {| gzip := fun d => d; gunzip := fun d => Some d |}.

Lemma proposal_data_roundtrip_witness :
  exists p, NewProposal (H := store_gzip) (str "A") [] Wl2kProposal [1; 2] = Ok p /\
    DataIsComplete p = true /\ Data (H := store_gzip) 3 (fun _ => 512) p = Ok [1; 2].
Proof.
  apply (proposal_data_roundtrip (H := store_gzip) (fun d => eq_refl) (str "A") [] Wl2kProposal [1; 2] 3 (fun _ => 512)).
  - repeat constructor; unfold byte; lia.
  - vm_compute. discriminate.
  - intros i. lia.
  - vm_compute. reflexivity.
Defined.

(** [Data] does not close the Reader, so a message whose CRC16 does not match
    is returned all the same, although [Close] would reject it. *)
Theorem data_ignores_crc `{Gzip} :
  exists good bad,
    compress true [[72; 105]] = Ok good /\
    bad = (match good with a :: l => Z.lxor a 1 :: l | [] => [] end) /\
    decompress true 3 (fun _ => 512) bad = Ok (inr ([72; 105], EOF, Some ErrChecksum)) /\
    Data 3 (fun _ => 512) (set_code (set_data newProposal bad) Wl2kProposal) = Ok [72; 105].
Proof.
  eexists _, _. split; [vm_compute; reflexivity|]. split; [reflexivity|].
  assert (E : decompress true 3 (fun _ => 512) [211; 49; 2; 0; 0; 0; 234; 125; 64] = Ok (inr ([72; 105], EOF, Some ErrChecksum))).
  { vm_compute. reflexivity. }
  split; [exact E|]. eapply Data_decompress; [done|exact E].
Qed.
