(* ===== verification/Words.v ===== *)
(** Encoded words in headers and titles: [mime.QEncoding] as the fbb package
    uses it and the [WordDecoder] of [src/fbb/header.go].

    The decoder of RFC 2047 words in package mime and the character sets of the
    charset package are parameters; nothing is assumed about them. *)
From S2P Require Import Prelude Crc GoStr.

Class Charset := {
  mime_DecodeHeader : gostr -> gostr;       (* mime.WordDecoder.DecodeHeader *)
  charset_decode : gostr -> gostr -> gostr; (* charset.NewReader, TranslatorFrom: set, data *)
  charset_encode : gostr -> gostr -> gostr  (* charset.NewWriter, TranslatorTo: set, data *) }.

Definition DefaultCharset : gostr := str "ISO-8859-1".

(** ** mime.QEncoding.Encode *)
Definition needsEncoding (s : gostr) : bool :=
  existsb (fun b => ((b <? 32) || (126 <? b)) && negb (b =? 9)) s.

Definition qbyte (b : Z) : gostr :=
  if b =? 32 then [95]
  else if (33 <=? b) && (b <=? 126) && negb (b =? 61) && negb (b =? 63) && negb (b =? 95) then [b]
  else 61 :: hex2 b.

Definition qword (charset : gostr) : gostr := str "=?" ++ charset ++ str "?q?".

(** The loop of qEncode for UTF-8: words of at most 63 bytes of content, cut
    between characters. *)
Fixpoint qsplit (fuel : nat) (charset : gostr) (cur : Z) (s : gostr) : gostr :=
  match fuel, s with
  | S fuel, b :: _ =>
      let plain := (32 <=? b) && (b <=? 126) && negb (b =? 61) && negb (b =? 63) && negb (b =? 95) in
      let n := if plain then 1%nat else (DecodeRune s).2 in
      let enc := if plain then 1 else 3 * Z.of_nat n in
      let out := concat (qbyte <$> take n s) in
      if 63 <? cur + enc
      then str "?=" ++ str " " ++ qword charset ++ out ++ qsplit fuel charset enc (drop n s)
      else out ++ qsplit fuel charset (cur + enc) (drop n s)
  | _, _ => []
  end.

Definition QEncode (charset s : gostr) : gostr :=
  if negb (needsEncoding s) then s
  else qword charset
       ++ (if EqualFold charset (str "UTF-8") then qsplit (length s) charset 0 s else concat (qbyte <$> s))
       ++ str "?=".

(** ** Decoding *)
Definition Valid (s : gostr) : bool :=
  (fix valid fuel s :=
     match fuel, s with
     | S fuel, _ :: _ => let '(r, n) := DecodeRune s in
                         if (r =? 0xfffd) && (n =? 1)%nat then false else valid fuel (drop n s)
     | _, _ => true
     end) (length s) s.

Section charset.
Context `{Charset}.

(** [WordDecoder.DecodeHeader] *)
Definition DecodeHeader (header : gostr) : gostr :=
  if Contains header (str "=?") then mime_DecodeHeader header
  else if Valid header then header
  else charset_decode DefaultCharset header.

Definition toCharset (set s : gostr) : gostr := charset_encode set s.
End charset.

(** ** Lemmas *)
Lemma QEncode_plain charset s : needsEncoding s = false -> QEncode charset s = s.
Proof. intros H. unfold QEncode. by rewrite H. Qed.

Lemma qbyte_clean b : 0 <= b < 256 -> Forall (fun c => 32 <= c <= 126) (qbyte b).
Proof.
  intros Hb. unfold qbyte, hex2, hexdigit. destruct (b =? 32); [repeat constructor; lia|].
  destruct ((33 <=? b) && _ && _ && _ && _) eqn:E; [repeat constructor; lia|].
  assert (0 <= b / 16 < 16 /\ 0 <= b mod 16 < 16) as [H1 H2].
  { split; [|apply Z.mod_pos_bound; lia]. split; [apply Z.div_pos; lia|apply Z.div_lt_upper_bound; lia]. }
  repeat constructor; try lia; match goal with |- context [?x <? ?y] => destruct (Z.ltb_spec x y) end; lia.
Qed.

Definition printable (s : gostr) : Prop := Forall (fun c => 32 <= c <= 126) s.

Lemma printable_str s : forallb (fun c => (32 <=? c) && (c <=? 126)) s = true -> printable s.
Proof. intros H. apply Forall_forall. rewrite forallb_forall in H. intros c Hc. specialize (H c Hc). lia. Qed.

Lemma printable_qbytes s : bytes s -> printable (concat (qbyte <$> s)).
Proof.
  intros H. induction H as [|b s Hb H IH]; cbn; [constructor|]. apply Forall_app_2; [by apply qbyte_clean|done].
Qed.

Lemma bytes_take n s : bytes s -> bytes (take n s).
Proof. apply Forall_take. Qed.
Lemma bytes_drop n s : bytes s -> bytes (drop n s).
Proof. apply Forall_drop. Qed.

Lemma printable_qword charset : printable charset -> printable (qword charset).
Proof. intros H. apply Forall_app_2; [by apply printable_str|]. apply Forall_app_2; [done|by apply printable_str]. Qed.

Lemma printable_qsplit f charset cur s : printable charset -> bytes s -> printable (qsplit f charset cur s).
Proof.
  intros Hc. revert cur s. induction f as [|f IH]; intros cur s Hs; [constructor|]. cbn [qsplit].
  destruct s as [|b s']; [constructor|]. match goal with |- context [if ?c then 1%nat else ?d] => set (n := if c then 1%nat else d) end.
  pose proof (printable_qbytes _ (bytes_take n _ Hs)) as H1. pose proof (bytes_drop n _ Hs) as H2.
  destruct (_ <? _); repeat apply Forall_app_2; try (by apply printable_str); auto using printable_qword;
    try (by apply IH).
Qed.

(** An encoded title only holds printable ASCII and tabs. *)
Lemma QEncode_clean charset s : printable charset -> bytes s ->
  Forall (fun c => 32 <= c <= 126 \/ c = 9) (QEncode charset s).
Proof.
  intros Hc Hs. unfold QEncode. destruct (needsEncoding s) eqn:E; cbn [negb].
  - assert (P : printable (qword charset ++ (if EqualFold charset (str "UTF-8") then qsplit (length s) charset 0 s
               else concat (qbyte <$> s)) ++ str "?=")).
    { repeat apply Forall_app_2; try (by apply printable_str); auto using printable_qword.
      destruct (EqualFold _ _); [by apply printable_qsplit|by apply printable_qbytes]. }
    unfold printable in P. apply Forall_forall. rewrite Forall_forall in P. intros c Hin. left. by apply P.
  - apply Forall_forall. intros c Hin. unfold needsEncoding in E. rewrite <- not_true_iff_false in E.
    destruct (decide (32 <= c <= 126 \/ c = 9)) as [|Hn]; [done|]. exfalso. apply E, existsb_exists.
    exists c. split; [done|]. lia.
Qed.
