(* ===== verification/Transfer.v ===== *)
(** The binary transfer of a message: [writeCompressed] and [readCompressed] of
    [src/fbb/b2f.go].

    What is written to the connection is collected in order and accepted by it;
    status updates and logging are left out. *)
From S2P Require Import Prelude Crc GoStr Helpers Words Huffman Reconst BitIO HuffCode LzTree Tokens Writer Reader Compress.
From S2P Require Import Decompress Proposal.

Definition _CHRNUL : Z := 0.
Definition _CHRSOH : Z := 1.
Definition _CHRSTX : Z := 2.
Definition _CHREOT : Z := 4.
Definition MaxMsgLength : Z := 125.

(** ** Operations *)

(** The loop over the data: frames of at most [MaxMsgLength] bytes. *)
Fixpoint data_frames (fuel : nat) (data : gostr) : gostr :=
  match fuel, data with
  | S fuel, _ :: _ =>
      let msgLen := if zlen data <? MaxMsgLength then zlen data else MaxMsgLength in
      [_CHRSTX; u8 msgLen] ++ take (Z.to_nat msgLen) data ++ data_frames fuel (drop (Z.to_nat msgLen) data)
  | _, _ => []
  end.

Definition sumBytes (data : gostr) : Z := foldl Z.add 0 data.

(** [writeCompressed]: the bytes written, and the error. *)
Definition writeCompressed (p : proposal) : res (gostr * option error) :=
  let title := QEncode (str "utf-8") p.(p_title) in
  let offset := itoa p.(p_offset) in
  let length := zlen title + zlen offset + 2 in
  let header := [_CHRSOH; u8 length] ++ title ++ [_CHRNUL] ++ offset ++ [_CHRNUL] in
  if p.(p_csize) <? 6 then mret (header, Some (New (str "Invalid compressed data")))
  else
    buffer ← slice p.(p_data) p.(p_offset) (zlen p.(p_data));
    mret (header ++ data_frames (List.length buffer) buffer
          ++ [_CHREOT; u8 (Z.land (- sumBytes buffer) 0xff)], None).

(** One frame of data: [n] bytes, or [None] at the end of the input. *)
Definition read_frame (n : Z) (rd : gostr) : option (gostr * gostr) :=
  if n <=? zlen rd then Some (take (Z.to_nat n) rd, drop (Z.to_nat n) rd) else None.

(** The loop of [readCompressed] over the frames. *)
Fixpoint read_frames (fuel : nat) (buf : gostr) (sum : Z) (p : proposal) (rd : gostr)
  : (option error * proposal) * gostr :=
  match fuel with
  | O => ((Some io_EOF, p), rd)
  | S fuel =>
    match rd with
    | [] => ((Some io_EOF, p), [])
    | c :: rd =>
      if c =? _CHRSTX then
        let '(c, rd) := match rd with [] => (0, []) | c :: rd => (c, rd) end in
        let length := if c =? 0 then 256 else c in
        match read_frame length rd with
        | None => ((Some io_EOF, p), [])
        | Some (l, rd) => read_frames fuel (buf ++ l) ((sum + sumBytes l) mod 256) p rd
        end
      else if c =? _CHREOT then
        let '(c, rd) := match rd with [] => (0, []) | c :: rd => (c, rd) end in
        if negb ((sum + c) mod 256 =? 0) then ((Some (New (str "Bad checksum")), p), rd)
        else if negb (p.(p_csize) =? zlen buf) then ((Some (New (str "Length mismatch after EOT")), p), rd)
        else ((None, set_data p buf), rd)
      else ((Some (New (str "Unexpected byte in compressed stream: " ++ EncodeRune c)), p), rd)
    end
  end.

Section charset.
Context `{Charset}.

(** The part of [readCompressed] after the first byte: the header. *)
Definition read_header (p : proposal) (rd : gostr) : (option error * proposal) * gostr :=
  match rd with
  | [] => ((Some io_EOF, p), [])
  | headerLength :: rd =>
    match ReadString _CHRNUL rd with
    | (_, false, rd) => ((Some (Wrap (str "Unable to parse title: ") io_EOF), p), rd)
    | (title, true, rd) =>
      let title := take (length title - 1) title in
      let p := set_ptitle p (DecodeHeader title) in
      match ReadString _CHRNUL rd with
      | (_, false, rd) => ((Some (Wrap (str "Unable to parse offset: ") io_EOF), p), rd)
      | (offsetStr, true, rd) =>
        let offsetStr := take (length offsetStr - 1) offsetStr in
        let actual := zlen title + zlen offsetStr + 2 in
        if negb (headerLength =? actual)
        then ((Some (New (str "Header length mismatch: expected " ++ itoa headerLength ++ str ", got " ++ itoa actual)), p), rd)
        else
          let '(offset, bad) := Atoi offsetStr in
          if bad : bool then ((Some (Wrap (str "Offset header not parseable as integer: ") (NumError offsetStr)), p), rd)
          else if negb (offset =? p.(p_offset))
          then ((Some (New (str "Expected offset " ++ itoa p.(p_offset) ++ str ", got " ++ itoa offset)), p), rd)
          else read_frames (S (length rd)) [] 0 p rd
      end
    end
  end.

(** [readCompressed]: the error, the proposal with its data, the input left. *)
Definition readCompressed (p : proposal) (rd : gostr) : res ((option error * proposal) * gostr) :=
  match rd with
  | [] => mret ((Some io_EOF, p), [])
  | c :: rd =>
      if c =? _CHRSOH then mret (read_header p rd)
      else if c =? 42 then
        l ← nextLine rd;
        let '(r, rd) := l in
        mret ((Some (New (str "Got error from CMS: " ++ match r with inr line => line | inl _ => [] end)), p), rd)
      else mret ((Some (New (str "First byte not as expected, got " ++ itoa c)), p), rd)
  end.
End charset.

(** ** Lemmas *)
Lemma sumBytes_app a b : sumBytes (a ++ b) = sumBytes a + sumBytes b.
Proof.
  unfold sumBytes. rewrite foldl_app. generalize (foldl Z.add 0 a). intros n.
  assert (G : forall l x y, foldl Z.add (x + y) l = x + foldl Z.add y l).
  { intros l. induction l as [|c l IH]; intros x y; cbn; [done|]. by rewrite <- IH, Z.add_assoc. }
  rewrite <- (Z.add_0_r n) at 1. apply G.
Qed.

Lemma land_255 x : Z.land x 255 = x mod 256.
Proof. change 255 with (Z.ones 8). by rewrite Z.land_ones by lia. Qed.

Lemma frame_len f data : data <> [] ->
  let n := if zlen data <? MaxMsgLength then zlen data else MaxMsgLength in
  0 < n <= 125 /\ n <= zlen data /\
  data_frames (S f) data = [_CHRSTX; n] ++ take (Z.to_nat n) data ++ data_frames f (drop (Z.to_nat n) data).
Proof.
  intros Hd n. assert (0 < zlen data) by (destruct data; [done|]; rewrite zlen_cons; pose proof (zlen_nonneg data); lia).
  assert (Hn : 0 < n <= 125 /\ n <= zlen data).
  { unfold n, MaxMsgLength. destruct (Z.ltb_spec (zlen data) 125); lia. }
  split; [apply Hn|]. split; [apply Hn|]. destruct data as [|x data]; [done|]. cbn [data_frames].
  fold n. rewrite (u8_small n) by lia. reflexivity.
Qed.

(** Reading the frames the writer has cut gives the data back. *)
Lemma read_data_frames f data g buf sum p c rest :
  (length data <= f)%nat -> (length data < g)%nat ->
  read_frames g buf sum p (data_frames f data ++ _CHREOT :: c :: rest)
  = if negb ((sum + sumBytes data + c) mod 256 =? 0) then ((Some (New (str "Bad checksum")), p), rest)
    else if negb (p.(p_csize) =? zlen (buf ++ data)) then ((Some (New (str "Length mismatch after EOT")), p), rest)
    else ((None, set_data p (buf ++ data)), rest).
Proof.
  revert f g buf sum. induction data as [data IH] using (induction_ltof1 _ length). unfold ltof in IH.
  intros f g buf sum Hf Hg. destruct g as [|g]; [lia|]. destruct (decide (data = [])) as [->|Hd].
  - replace (data_frames f []) with (@nil Z) by (by destruct f). cbn [app read_frames].
    change (sumBytes []) with 0. by rewrite Z.add_0_r, app_nil_r.
  - destruct f as [|f]; [destruct data; [done|cbn in Hf; lia]|]. destruct (frame_len f data Hd) as (H1 & H2 & ->).
    set (n := if _ <? _ then _ else _) in *. cbn [app read_frames]. change (_CHRSTX =? _CHRSTX) with true. cbv iota.
    destruct (Z.eqb_spec n 0); [lia|]. set (l := take (Z.to_nat n) data). set (d := drop (Z.to_nat n) data).
    assert (El : zlen l = n) by (unfold l, zlen in *; rewrite length_take; lia).
    assert (Ed : l ++ d = data) by apply take_drop.
    assert (Hl : (length data = length l + length d)%nat) by (rewrite <- Ed, length_app; done).
    assert (read_frame n ((l ++ data_frames f d) ++ _CHREOT :: c :: rest) = Some (l, data_frames f d ++ _CHREOT :: c :: rest)) as ->.
    { unfold read_frame. rewrite <- app_assoc. pose proof (zlen_nonneg (data_frames f d ++ _CHREOT :: c :: rest)).
      destruct (Z.leb_spec n (zlen (l ++ data_frames f d ++ _CHREOT :: c :: rest))) as [_|Hlt]; [|rewrite zlen_app in Hlt; lia].
      rewrite take_app_length', drop_app_length' by (unfold zlen in El; lia). done. }
    assert (Es : sumBytes data = sumBytes l + sumBytes d) by (rewrite <- sumBytes_app, Ed; done).
    unfold zlen in El. rewrite IH by lia. rewrite <- app_assoc, Ed, Es.
    replace ((((sum + sumBytes l) mod 256 + sumBytes d + c) mod 256)) with ((sum + (sumBytes l + sumBytes d) + c) mod 256); [done|].
    rewrite <- !Z.add_assoc, Z.add_mod_idemp_l by lia. f_equal. lia.
Qed.

(** The frames are no shorter than the data. *)
Lemma frames_length f data : (length data <= f)%nat -> (length data <= length (data_frames f data))%nat.
Proof.
  revert data. induction f as [|f IH]; intros data Hf; [cbn; lia|]. destruct (decide (data = [])) as [->|Hd]; [cbn; lia|].
  destruct (frame_len f data Hd) as (H1 & H2 & ->). set (n := if _ <? _ then _ else _) in *.
  specialize (IH (drop (Z.to_nat n) data)). rewrite !length_app. rewrite length_drop in IH.
  rewrite length_take. unfold zlen in H2. cbn [length]. lia.
Qed.

(** ** Round trip *)

(** A proposal that can be transferred: its data is complete, and the encoded
    title fits the length byte of the header. *)
Record transferable (p : proposal) : Prop := {
  tr_data : bytes p.(p_data);
  tr_csize : p.(p_csize) = zlen p.(p_data);
  tr_min : 6 <= p.(p_csize);
  tr_offset : p.(p_offset) = 0;
  tr_title : bytes p.(p_title) /\ zlen (QEncode (str "utf-8") p.(p_title)) <= 252 }.

Lemma nul_free charset s : printable charset -> bytes s -> 0 ∉ QEncode charset s.
Proof.
  intros Hc Hs Hin. pose proof (QEncode_clean charset s Hc Hs) as Hq. rewrite Forall_forall in Hq.
  apply list_elem_of_In in Hin. apply Hq in Hin. lia.
Qed.

Lemma read_written `{Charset} p q rest :
  transferable p -> q.(p_offset) = 0 -> q.(p_csize) = p.(p_csize) ->
  exists out, writeCompressed p = Ok (out, None) /\
    readCompressed q (out ++ rest)
    = Ok ((None, set_data (set_ptitle q (DecodeHeader (QEncode (str "utf-8") p.(p_title)))) p.(p_data)), rest).
Proof.
  intros [Hd Hc Hm Ho [Ht Htl]] Hqo Hqc. unfold writeCompressed. destruct (Z.ltb_spec (p_csize p) 6); [lia|].
  rewrite Ho. pose proof (zlen_nonneg (p_data p)). rewrite slice_ok by lia. rewrite bind_Ok. cbn [Z.to_nat drop].
  rewrite take_ge by (unfold zlen; lia). set (title := QEncode _ _) in *.
  assert (Hn : 0 ∉ title) by (apply nul_free; [by apply printable_str|done]). pose proof (zlen_nonneg title).
  change (itoa 0) with [48]. change (drop 0 (p_data p)) with (p_data p).
  eexists. split; [done|]. cbn [app]. unfold readCompressed. change (_CHRSOH =? _CHRSOH) with true. cbv iota.
  unfold read_header. unfold mret, res_ret. do 3 f_equal.
  change (zlen [48]) with 1. rewrite (u8_small (zlen title + 1 + 2)) by lia.
  change (drop (Z.to_nat 0) (p_data p)) with (p_data p). set (ck := u8 _).
  assert (E : ((title ++ [_CHRNUL; 48; _CHRNUL]) ++ data_frames (length (p_data p)) (p_data p) ++ [_CHREOT; ck]) ++ rest
    = title ++ _CHRNUL :: [48] ++ _CHRNUL :: data_frames (length (p_data p)) (p_data p) ++ _CHREOT :: ck :: rest).
  { rewrite <- !app_assoc. reflexivity. }
  rewrite E, ReadString_app by done. rewrite length_app, Nat.add_sub, take_app_length.
  rewrite ReadString_app by (by apply not_elem_existsb). rewrite length_app, Nat.add_sub, take_app_length.
  change (zlen [48]) with 1. rewrite Z.eqb_refl. cbn [negb]. change (Atoi [48]) with (0, false). cbv iota.
  cbn [p_offset set_ptitle]. rewrite Hqo. cbn [Z.eqb negb]. rewrite read_data_frames.
  - cbn [p_csize set_ptitle app]. rewrite Hqc, Hc, Z.eqb_refl, Z.add_0_l.
    assert (((sumBytes (p_data p) + ck) mod 256 =? 0) = true) as ->; [|done].
    apply Z.eqb_eq. unfold ck. rewrite land_255, u8_small by (apply Z.mod_pos_bound; lia).
    rewrite Z.add_mod_idemp_r by lia. by rewrite Z.add_opp_diag_r.
  - lia.
  - rewrite length_app. cbn [length]. assert (length (p_data p) <= length (data_frames (length (p_data p)) (p_data p)))%nat; [|lia].
    apply frames_length. lia.
Qed.

(** C6. What [writeCompressed] sends, [readCompressed] takes in whole, leaving the
    rest of the input untouched: the receiver's proposal holds the data. *)
Theorem transfer_roundtrip `{Charset} p q rest :
  transferable p -> q.(p_offset) = 0 -> q.(p_csize) = p.(p_csize) ->
  exists out, writeCompressed p = Ok (out, None) /\
    readCompressed q (out ++ rest)
    = Ok ((None, set_data (set_ptitle q (DecodeHeader (QEncode (str "utf-8") p.(p_title)))) p.(p_data)), rest).
Proof. apply read_written. Qed.

Definition raw_charset : Charset :=
  {| mime_DecodeHeader := fun s => s; charset_decode := fun _ s => s; charset_encode := fun _ s => s |}.

Definition transfer_sample : proposal :=
  mkProp Wl2kProposal (str "EM") (str "ABC") Accept (str "Title") 0 false 9 [1; 2; 3; 250; 251; 252; 253] 7.

Lemma transfer_roundtrip_witness :
  let q := announced transfer_sample in
  exists out, writeCompressed transfer_sample = Ok (out, None) /\
    readCompressed (H := raw_charset) q (out ++ [70; 70; 13])
    = Ok ((None, set_data (set_ptitle q (DecodeHeader (H := raw_charset) (QEncode (str "utf-8") (str "Title"))))
                   [1; 2; 3; 250; 251; 252; 253]), [70; 70; 13]).
Proof.
  apply (transfer_roundtrip (H := raw_charset) transfer_sample (announced transfer_sample) [70; 70; 13]); try reflexivity.
  split; try reflexivity.
  - repeat constructor; unfold byte; lia.
  - vm_compute. discriminate.
  - split; [repeat constructor; unfold byte; lia|vm_compute; discriminate].
Defined.

(** C37. A transfer whose checksum byte is not the right one is refused, whatever
    the data, and the proposal keeps the data it had. *)
Theorem transfer_checksum_guard p data c rest :
  bytes data -> byte c -> c <> (- sumBytes data) mod 256 ->
  read_frames (S (length data)) [] 0 p (data_frames (length data) data ++ _CHREOT :: c :: rest)
  = ((Some (New (str "Bad checksum")), p), rest).
Proof.
  intros Hd Hc Hn. rewrite read_data_frames by lia. rewrite Z.add_0_l.
  destruct (Z.eqb_spec ((sumBytes data + c) mod 256) 0) as [E|E]; [exfalso|done].
  apply Hn. unfold byte in Hc. rewrite <- (Z.mod_small c 256) by lia.
  replace c with ((sumBytes data + c) - sumBytes data) by lia. rewrite Zminus_mod, E.
  rewrite Z.sub_0_l, <- (Z.sub_0_l (sumBytes data mod 256)), <- (Z.sub_0_l (sumBytes data)).
  by rewrite Zminus_mod_idemp_r.
Qed.

Lemma transfer_checksum_guard_witness :
  read_frames 3 [] 0 newProposal (data_frames 2 [1; 2] ++ _CHREOT :: 252 :: [])
  = ((Some (New (str "Bad checksum")), newProposal), []).
Proof.
  apply (transfer_checksum_guard newProposal [1; 2] 252 []).
  - repeat constructor; unfold byte; lia.
  - unfold byte. lia.
  - vm_compute. discriminate.
Defined.

(** An offset the remote asked for is used unchecked: outside of the data it
    makes the sender panic. *)
Theorem bad_offset_panics p :
  6 <= p.(p_csize) -> p.(p_offset) < 0 \/ zlen p.(p_data) < p.(p_offset) -> writeCompressed p = Panic.
Proof.
  intros Hc Ho. unfold writeCompressed. destruct (Z.ltb_spec (p_csize p) 6); [lia|].
  unfold slice. destruct (Z.leb_spec 0 (p_offset p)), (Z.leb_spec (p_offset p) (zlen (p_data p))); try lia; done.
Qed.

Lemma bad_offset_panics_witness :
  parseProposalAnswer (str "FS !-1") [transfer_sample] = (None, [set_offset transfer_sample (-1)]) /\
  writeCompressed (set_offset transfer_sample (-1)) = Panic.
Proof.
  split; [reflexivity|]. apply (bad_offset_panics (set_offset transfer_sample (-1))); [vm_compute; discriminate|left; reflexivity].
Defined.
