(* ===== verification/Message.v ===== *)
(** Winlink messages: [src/fbb/message.go], [src/fbb/header.go] and
    [src/fbb/message_body.go] - addresses, headers, the message format and its
    parser.  [textproto.Reader.ReadMIMEHeader] and [bufio.Scanner] are modelled
    as the standard library documents them; parsing of a date in a given layout
    ([time.Parse]) is a parameter. *)
From S2P Require Import Prelude Crc GoStr Helpers Mid Words Huffman Reconst BitIO HuffCode LzTree Tokens Writer Reader.
From S2P Require Import Compress Decompress Proposal.
From stdpp Require Import gmap.
Open Scope Z_scope.

Class Clock := {
  time_Parse : gostr -> gostr -> option Z;  (* layout, value; the time in seconds *)
  time_Format : gostr -> Z -> gostr         (* layout, time, in UTC *) }.

(** ** Addresses *)
Record address := mkAddr { a_proto : gostr; a_addr : gostr }.

#[export] Instance address_eq_dec : EqDecision address.
Proof. solve_decision. Defined.

(** [Address.String] *)
Definition addr_String (a : address) : gostr :=
  match a.(a_proto) with [] => a.(a_addr) | _ => a.(a_proto) ++ str ":" ++ a.(a_addr) end.

Definition IsZero (a : address) : bool := zlen a.(a_addr) =? 0.

Definition AddressFromString (addr : gostr) : address :=
  let a := match Split 58 addr with
           | [p; x] => mkAddr p x
           | _ => match Split 64 addr with
                  | [_] => mkAddr [] addr
                  | u :: d :: _ => if EqualFold d (str "winlink.org") then mkAddr [] u
                                   else mkAddr (str "SMTP") addr
                  | [] => mkAddr [] addr
                  end
           end in
  match a.(a_proto) with [] => mkAddr [] (ToUpper a.(a_addr)) | _ => a end.

Definition EqualString (a : address) (b : gostr) : bool := bool_decide (a = AddressFromString b).

(** ** Headers *)
Abbreviation header := (gmap gostr (list gostr)).

Definition HEADER_MID := str "Mid".
Definition HEADER_TO := str "To".
Definition HEADER_DATE := str "Date".
Definition HEADER_TYPE := str "Type".
Definition HEADER_FROM := str "From".
Definition HEADER_CC := str "Cc".
Definition HEADER_SUBJECT := str "Subject".
Definition HEADER_MBO := str "Mbo".
Definition HEADER_BODY := str "Body".
Definition HEADER_FILE := str "File".
Definition HEADER_CONTENT_TYPE := str "Content-Type".
Definition HEADER_CONTENT_TRANSFER_ENCODING := str "Content-Transfer-Encoding".
Definition DefaultTransferEncoding := str "8bit".
Definition DateLayout := str "2006/01/02 15:04".

(** textproto.CanonicalMIMEHeaderKey: [None] when a byte is not allowed. *)
Definition token_byte (c : Z) : bool :=
  is_digit c || ((65 <=? c) && (c <=? 90)) || ((97 <=? c) && (c <=? 122)) || one_of c "!#$%&'*+-.^_`|~".
Fixpoint canonical (up : bool) (s : gostr) : gostr :=
  match s with [] => [] | c :: s => (if up then upper c else lower c) :: canonical (c =? 45) s end.
Definition canonical_key (s : gostr) : option gostr :=
  if forallb token_byte s then Some (canonical true s) else None.
Definition CanonicalKey (s : gostr) : gostr := default s (canonical_key s).

Definition h_values (h : header) (key : gostr) : list gostr := default [] (h !! key).
(** [get]: the key is canonical already. *)
Definition h_get (h : header) (key : gostr) : gostr := match h_values h key with v :: _ => v | [] => [] end.
Definition h_Get (h : header) (key : gostr) : gostr := h_get h (CanonicalKey key).
Definition h_Set (h : header) (key value : gostr) : header := <[CanonicalKey key := [value]]> h.
Definition h_Add (h : header) (key value : gostr) : header :=
  <[CanonicalKey key := h_values h (CanonicalKey key) ++ [value]]> h.
Definition h_Del (h : header) (key : gostr) : header := delete (CanonicalKey key) h.

(** One line of a header. *)
Definition h_line (key v : gostr) : gostr := key ++ str ": " ++ TrimString v ++ [13; 10].

(** [Header.Write]: the bytes written, [None] when the Mid is missing. *)
Definition h_Write (h : header) : option gostr :=
  match h_get h HEADER_MID with
  | [] => None
  | mid =>
      let keys := sort_by str_less (filter (fun k => EqualFold k HEADER_MID = false) (map_to_list h).*1) in
      Some (str "Mid: " ++ mid ++ [13; 10] ++ concat ((fun k => concat (h_line k <$> h_values h k)) <$> keys))
  end.

(** ** Messages *)
Record file := mkFile { f_data : gostr; f_name : gostr; f_err : option error }.
Record message := mkMsg { m_header : header; m_body : gostr; m_files : list file }.

Definition emptyMessage : message := mkMsg ∅ [] [].

Definition MID (m : message) : gostr := h_Get m.(m_header) HEADER_MID.
Definition To (m : message) : list address := AddressFromString <$> h_values m.(m_header) HEADER_TO.
Definition Cc (m : message) : list address := AddressFromString <$> h_values m.(m_header) HEADER_CC.
Definition Receivers (m : message) : list address := To m ++ Cc m.
Definition BodySize (m : message) : Z := (Atoi (h_Get m.(m_header) HEADER_BODY)).1.

Definition IsOnlyReceiver (m : message) (addr : address) : bool :=
  match Receivers m with [r] => EqualFold (addr_String r) (addr_String addr) | _ => false end.

Definition set_hdr (m : message) (k v : gostr) : message := mkMsg (h_Set m.(m_header) k v) m.(m_body) m.(m_files).
Definition add_hdr (m : message) (k v : gostr) : message := mkMsg (h_Add m.(m_header) k v) m.(m_body) m.(m_files).

Definition AddTo (m : message) (addrs : list gostr) : message :=
  foldl (fun m a => add_hdr m HEADER_TO (addr_String (AddressFromString a))) m addrs.
Definition AddCc (m : message) (addrs : list gostr) : message :=
  foldl (fun m a => add_hdr m HEADER_CC (addr_String (AddressFromString a))) m addrs.
Definition SetFrom (m : message) (addr : gostr) : message :=
  set_hdr m HEADER_FROM (addr_String (AddressFromString addr)).
Definition From (m : message) : address := AddressFromString (h_Get m.(m_header) HEADER_FROM).

(** [NewFile] panics on an empty name. *)
Definition NewFile (name data : gostr) : res file :=
  match name with [] => Panic | _ => mret (mkFile data name None) end.

(** [Validate]: the field that is wrong and how. *)
Definition Validate (m : message) : option (gostr * gostr) :=
  if bool_decide (MID m = []) then Some (str "MID", str "Empty MID")
  else if 12 <? zlen (MID m) then Some (str "MID", str "MID too long")
  else if zlen (Receivers m) =? 0 then Some (str "To/Cc", str "No recipient")
  else if bool_decide (h_Get m.(m_header) HEADER_FROM = []) then Some (str "From", str "Empty From field")
  else if BodySize m =? 0 then Some (str "Body", str "Empty body")
  else if zlen (h_Get m.(m_header) HEADER_SUBJECT) =? 0 then Some (HEADER_SUBJECT, str "Empty subject")
  else if 128 <? zlen (h_Get m.(m_header) HEADER_SUBJECT) then Some (HEADER_SUBJECT, str "Subject too long")
  else match list_find (fun f => 255 < zlen f.(f_name)) m.(m_files) with
       | Some (_, f) => Some (str "Files", str "Attachment file name too long: " ++ f.(f_name))
       | None => None
       end.

(** *** Dates *)
Definition dateLayouts : list gostr :=
  [DateLayout; str "2006.01.02 15:04"; str "2006-01-02 15:04"; str "20060102150405"]
  ++ (dow ← [[]; str "Mon, "]; day ← [str "2"; str "02"]; year ← [str "2006"; str "06"];
      second ← [str ":05"; []]; zone ← [str "-0700"; str "MST"; str "-0700 (MST)"];
      [dow ++ day ++ str " Jan " ++ year ++ str " 15:04" ++ second ++ str " " ++ zone]).

(** *** Body *)

(** bufio.Scanner over lines: a line of 64 KiB or more ends the scan. *)
Fixpoint scan (lines : list gostr) : list gostr :=
  match lines with
  | [] | [[]] => []
  | l :: lines => if 65536 <=? zlen l then []
                  else (match reverse l with 13 :: _ => take (length l - 1) l | _ => l end) :: scan lines
  end.

(** Lines are cut so that none is longer than 1000 bytes with its CRLF. *)
Fixpoint break_line (fuel : nat) (l : gostr) : gostr :=
  match fuel with
  | O => []
  | S fuel => let n := Nat.min (length l) 998 in
              take n l ++ [13; 10] ++ match drop n l with [] => [] | l => break_line fuel l end
  end.

Definition crlf_body (s : gostr) : gostr := concat ((fun l => break_line (S (length l)) l) <$> scan (Split 10 s)).

Section charset.
Context `{Charset} `{Clock}.

(** [ParseDate]: the time of the first layout that fits, the error of the last
    one otherwise; an empty date is the zero time. *)
Fixpoint parse_layouts (layouts : list gostr) (s : gostr) (err : error) : error + Z :=
  match layouts with
  | [] => inl err
  | l :: layouts => match time_Parse l s with
                    | Some t => inr t
                    | None => parse_layouts layouts s (ParseError l s)
                    end
  end.
Definition ParseDate (s : gostr) : error + Z :=
  match s with [] => inr 0 | _ => parse_layouts dateLayouts s (ParseError [] s) end.

(** [SetDate], [Date]: a date that does not parse is the zero time. *)
Definition SetDate (m : message) (t : Z) : message := set_hdr m HEADER_DATE (time_Format DateLayout t).
Definition Date (m : message) : Z :=
  match ParseDate (h_Get m.(m_header) HEADER_DATE) with inr t => t | inl _ => 0 end.

Definition msg_Type (m : message) : gostr := h_Get m.(m_header) HEADER_TYPE.
Definition Mbo (m : message) : gostr := h_Get m.(m_header) HEADER_MBO.

(** [NewMessage] at time [now], which prints as [nowString]. *)
Definition NewMessage `{MD5} (nowString : gostr) (now : Z) (t mycall : gostr) : res message :=
  mid ← GenerateMid nowString mycall;
  let m := set_hdr emptyMessage HEADER_MID mid in
  let m := SetFrom (SetDate m now) mycall in
  let m := set_hdr m HEADER_MBO mycall in
  mret (set_hdr m HEADER_TYPE (match t with [] => str "Private" | _ => t end)).

Definition StringToBody (s encoding : gostr) : gostr := charset_encode encoding (crlf_body s).
Definition BodyFromBytes (data encoding : gostr) : gostr := charset_decode encoding data.

Definition SetSubject (m : message) (s : gostr) : message :=
  set_hdr m HEADER_SUBJECT (QEncode DefaultCharset (toCharset DefaultCharset s)).
Definition Subject (m : message) : gostr := DecodeHeader (h_Get m.(m_header) HEADER_SUBJECT).

(** [SetBodyWithCharset]: the charset argument is not used. *)
Definition SetBodyWithCharset (m : message) (charset body : gostr) : message :=
  let m := set_hdr m HEADER_CONTENT_TRANSFER_ENCODING DefaultTransferEncoding in
  let m := set_hdr m HEADER_CONTENT_TYPE (str "text/plain; charset=ISO-8859-1") in
  let b := StringToBody body DefaultCharset in
  set_hdr (mkMsg m.(m_header) b m.(m_files)) HEADER_BODY (itoa (zlen b)).
Definition SetBody (m : message) (body : gostr) : message := SetBodyWithCharset m DefaultCharset body.

Definition AddFile (m : message) (f : file) : message :=
  add_hdr (mkMsg m.(m_header) m.(m_body) (m.(m_files) ++ [f])) HEADER_FILE
    (itoa (zlen f.(f_data)) ++ str " " ++ QEncode DefaultCharset (toCharset DefaultCharset f.(f_name))).

(** [Message.Write] and [Bytes]; the error of [Header.Write] is not looked at. *)
Definition Bytes (m : message) : error + gostr :=
  match ParseDate (h_Get m.(m_header) HEADER_DATE) with
  | inl e => inl e
  | inr _ =>
      inr (default [] (h_Write m.(m_header)) ++ [13; 10] ++ m.(m_body)
           ++ (match m.(m_files) with [] => [] | _ => [13; 10] end)
           ++ concat ((fun f => f.(f_data) ++ [13; 10]) <$> m.(m_files)))
  end.

(** [Message.Proposal] *)
Definition msg_Proposal `{Gzip} (m : message) (code : Z) : res (error + proposal) :=
  match Bytes m with
  | inl e => mret (inl e)
  | inr data =>
      p ← NewProposal (MID m) (Subject m) code data;
      mret (match Validate m with Some (_, e) => inl (New e) | None => inr p end)
  end.

(** *** Reading *)

(** [bufio.Reader.ReadLine] and the trimming of textproto. *)
Definition read_line (rd : gostr) : option (gostr * gostr) :=
  match rd with
  | [] => None
  | _ => match ReadString 10 rd with
         | (l, true, rd) => let l := take (length l - 1) l in
                            Some (match reverse l with 13 :: _ => take (length l - 1) l | _ => l end, rd)
         | (l, false, rd) => Some (l, rd)
         end
  end.
Definition blank (c : Z) : bool := (c =? 32) || (c =? 9).
Definition trim_blank (s : gostr) : gostr := trim_ends [[32]; [9]] s.
Fixpoint skip_blank (s : gostr) : nat * gostr :=
  match s with c :: s' => if blank c then let '(n, r) := skip_blank s' in (S n, r) else (0%nat, s) | [] => (0%nat, []) end.

(** The continuation lines of a header line. *)
Fixpoint continuation (fuel : nat) (kv rd : gostr) : gostr * gostr :=
  match fuel with
  | O => (kv, rd)
  | S fuel => match skip_blank rd with
              | (O, rd) => (kv, rd)
              | (_, rd) => match read_line rd with
                           | None => (kv, rd)
                           | Some (l, rd) => continuation fuel (kv ++ [32] ++ trim_blank l) rd
                           end
              end
  end.

(** [ReadMIMEHeader] *)
Fixpoint read_headers (fuel : nat) (h : header) (rd : gostr) : (option error * header) * gostr :=
  match fuel with
  | O => ((Some io_EOF, h), rd)
  | S fuel =>
    match read_line rd with
    | None => ((Some io_EOF, h), rd)
    | Some ([], rd) => ((None, h), rd)
    | Some (line, rd) =>
        match Split2 58 line with
        | [_; _] =>
            let '(kv, rd) := continuation (length rd) (trim_blank line) rd in
            match Split2 58 kv with
            | [k; v] =>
                match canonical_key k with
                | None => ((Some (New (str "malformed MIME header line: " ++ kv)), h), rd)
                | Some [] => read_headers fuel h rd
                | Some key => read_headers fuel (<[key := h_values h key ++ [(trim_front (length v) [[32]; [9]] v)]]> h) rd
                end
            | _ => ((Some (New (str "malformed MIME header line: " ++ kv)), h), rd)
            end
        | _ => ((Some (New (str "malformed MIME header: missing colon: " ++ line)), h), rd)
        end
    end
  end.

Definition ReadMIMEHeader (rd : gostr) : (option error * header) * gostr :=
  match rd with
  | c :: _ => if blank c then ((Some (New (str "malformed MIME header initial line")), ∅), rd)
              else read_headers (S (length rd)) ∅ rd
  | [] => ((Some io_EOF, ∅), [])
  end.

(** [readSection]: a negative size makes the allocation panic. *)
Definition readSection (rd : gostr) (n : Z) : res ((option error * gostr) * gostr) :=
  if n <? 0 then Panic
  else
    let buf := take (Z.to_nat n) rd in
    let full := buf ++ replicate (Z.to_nat n - length buf) 0 in
    let '(e, ok, rest) := ReadString 10 (drop (Z.to_nat n) rd) in
    mret ((if negb (zlen buf =? n) then Some io_ErrUnexpectedEOF
           else if negb (ok : bool) then None
           else if negb (bool_decide (e = [13; 10])) then Some (New (str "Unexpected end of section"))
           else None, full), rest).

Definition trimLeftSpace (rd : gostr) : gostr := trim_front (length rd) [[9]; [10]; [11]; [12]; [13]; [32]] rd.

(** The loop over the File headers: the files, and the last error. *)
Fixpoint read_files (values : list gostr) (err : option error) (rd : gostr) : res (list file * option error * gostr) :=
  match values with
  | [] => mret ([], err, rd)
  | v :: values =>
      match Split2 32 v with
      | [sz; name] =>
          s ← readSection rd (Atoi sz).1;
          let '((err, data), rd) := s in
          r ← read_files values err rd;
          let '(fs, err', rd) := r in
          mret (mkFile data (DecodeHeader name) err :: fs, err', rd)
      | _ =>
          r ← read_files values err rd;
          let '(fs, err', rd) := r in
          mret (mkFile [] [] (Some (New (str "Failed to parse file header. Got: " ++ v))) :: fs, err', rd)
      end
  end.

(** [Message.ReadFrom] *)
Definition ReadFrom (rd : gostr) : res (option error * message) :=
  let rd := trimLeftSpace rd in
  match ReadMIMEHeader rd with
  | ((Some e, _), _) => mret (Some e, emptyMessage)
  | ((None, h), rd) =>
      let m := mkMsg h [] [] in
      s ← readSection rd (BodySize m);
      let '((err, body), rd) := s in
      let m := mkMsg h body [] in
      match err with
      | Some e => mret (Some e, m)
      | None =>
          r ← read_files (h_values h HEADER_FILE) None rd;
          let '(fs, err, _) := r in
          let m := mkMsg h body fs in
          mret (match err with
                | Some e => Some e
                | None => match ParseDate (h_Get h HEADER_DATE) with inr _ => None | inl e => Some e end
                end, m)
      end
  end.

(** [Proposal.Message] *)
Definition prop_Message `{Gzip} (fuel : nat) (ks : nat -> Z) (p : proposal) : res (option error * message) :=
  d ← Data fuel ks p;
  ReadFrom d.
End charset.
