(* ===== verification/MessageFormat.v ===== *)
(** The message format of [src/fbb/message.go] is read back as it was written. *)
From S2P Require Import Prelude Crc GoStr Helpers Mid Words Huffman Reconst BitIO HuffCode LzTree Tokens Writer Reader.
From S2P Require Import Compress Decompress Proposal Message Transfer.
From stdpp Require Import gmap.
Open Scope Z_scope.

(** ** Trimming *)
Lemma trim_ends_single cs s c m1 m2 d :
  s = c :: m1 -> s = m2 ++ [d] -> c ∉ cs -> d ∉ cs -> trim_ends ((fun x => [x]) <$> cs) s = s.
Proof.
  intros E1 E2 Hc Hd.
  assert (K : forall f x l, x ∉ cs -> trim_front f ((fun x => [x]) <$> cs) (x :: l) = x :: l).
  { intros f x l Hx. apply trim_front_keep. apply Forall_fmap, Forall_forall. intros y Hy. cbn.
    apply bool_decide_eq_false. cbn. intros [= ->]. by apply Hx, list_elem_of_In. }
  assert (reverse <$> ((fun x => [x]) <$> cs) = (fun x : Z => [x]) <$> cs) as Er.
  { rewrite <- list_fmap_compose. by apply list_fmap_ext. }
  assert (F : trim_front (length s) ((fun x => [x]) <$> cs) s = s) by (rewrite E1; by apply K).
  assert (G : trim_front (length s) ((fun x => [x]) <$> cs) (reverse s) = reverse s).
  { rewrite E2, reverse_snoc. by apply K. }
  unfold trim_ends. rewrite F, Er, G. apply reverse_involutive.
Qed.

(** A value of a header that survives: it has no line break, and no blank at
    either end. *)
Record good_value (v : gostr) : Prop := {
  gv_lf : 10 ∉ v; gv_cr : 13 ∉ v;
  gv_head : exists c m, v = c :: m /\ blank c = false;
  gv_last : exists m d, v = m ++ [d] /\ blank d = false }.

(** A key in canonical form. *)
Record good_key (k : gostr) : Prop := { gk_canon : canonical_key k = Some k; gk_ne : k <> [] }.

Lemma good_key_bytes k : good_key k -> Forall (fun c => token_byte c = true) k.
Proof.
  intros [Hc _]. unfold canonical_key in Hc. destruct (forallb token_byte k) eqn:E; [|done].
  rewrite forallb_forall in E. apply Forall_forall. intros c Hin. apply E. by apply list_elem_of_In.
Qed.

Lemma token_not c k : good_key k -> token_byte c = false -> c ∉ k.
Proof.
  intros Hk Hc Hin. apply good_key_bytes in Hk. rewrite Forall_forall in Hk.
  apply Hk in Hin. congruence.
Qed.

Lemma good_key_head k : good_key k -> exists c m, k = c :: m /\ blank c = false /\ c <> 13 /\ c <> 10.
Proof.
  intros Hk. pose proof (good_key_bytes k Hk) as H. destruct Hk as [_ Hn]. destruct k as [|c m]; [done|].
  apply Forall_cons_1 in H as [H _]. exists c, m. split; [done|].
  split_and!; [|intros ->; done|intros ->; done]. unfold blank.
  destruct (Z.eqb_spec c 32) as [->|]; [done|]. destruct (Z.eqb_spec c 9) as [->|]; done.
Qed.

Lemma good_value_trim v : good_value v -> TrimString v = v.
Proof.
  intros [Hlf Hcr (c & m1 & E1 & Hc) (m2 & d & E2 & Hd)].
  change (trim_ends ((fun x => [x]) <$> [32; 9; 10; 13]) v = v).
  apply (trim_ends_single _ _ c m1 m2 d E1 E2).
  - apply not_elem_existsb. cbn. unfold blank in Hc. apply orb_false_iff in Hc as [-> ->]. cbn.
    assert (c <> 10) by (intros ->; apply Hlf; rewrite E1; left).
    assert (c <> 13) by (intros ->; apply Hcr; rewrite E1; left).
    destruct (Z.eqb_spec c 10), (Z.eqb_spec c 13); done.
  - apply not_elem_existsb. cbn. unfold blank in Hd. apply orb_false_iff in Hd as [-> ->]. cbn.
    assert (d <> 10) by (intros ->; apply Hlf; rewrite E2; apply elem_of_app; right; left).
    assert (d <> 13) by (intros ->; apply Hcr; rewrite E2; apply elem_of_app; right; left).
    destruct (Z.eqb_spec d 10), (Z.eqb_spec d 13); done.
Qed.

(** ** Reading one header line *)
Definition kv_line (kv : gostr * gostr) : gostr := kv.1 ++ [58; 32] ++ kv.2.

Lemma not_elem_app (c : Z) a b : c ∉ a -> c ∉ b -> c ∉ a ++ b.
Proof. intros Ha Hb H. apply elem_of_app in H as [?|?]; auto. Qed.

Lemma read_line_crlf l rest : l <> [] -> 10 ∉ l -> read_line (l ++ 13 :: 10 :: rest) = Some (l, rest).
Proof.
  intros Hn Hl. unfold read_line. destruct (l ++ 13 :: 10 :: rest) eqn:E; [by destruct l|]. rewrite <- E. clear E.
  replace (l ++ 13 :: 10 :: rest) with ((l ++ [13]) ++ 10 :: rest) by (by rewrite <- app_assoc).
  rewrite ReadString_app by (apply not_elem_app; [done|by apply not_elem_existsb]).
  rewrite length_app, Nat.add_sub, take_app_length, reverse_snoc.
  by rewrite length_app, Nat.add_sub, take_app_length.
Qed.

Definition add_kv (h : header) (kv : gostr * gostr) : header := <[kv.1 := h_values h kv.1 ++ [kv.2]]> h.

Lemma skip_none c s : blank c = false -> skip_blank (c :: s) = (0%nat, c :: s).
Proof. intros H. cbn. by rewrite H. Qed.

Lemma read_one f h k v c rest : good_key k -> good_value v -> blank c = false ->
  read_headers (S f) h (kv_line (k, v) ++ 13 :: 10 :: c :: rest) = read_headers f (add_kv h (k, v)) (c :: rest).
Proof.
  intros Hk Hv Hc. pose proof (good_key_head k Hk) as (kc & km & Ek & Hkb & _ & Hk10).
  pose proof Hv as [Hlf Hcr (vc & vm & E1 & Hvc) (vm2 & vd & E2 & Hvd)]. cbn [read_headers].
  assert (Hn : kv_line (k, v) <> []) by (unfold kv_line; rewrite Ek; done).
  assert (H10 : 10 ∉ kv_line (k, v)).
  { apply not_elem_app; [by apply token_not|]. apply not_elem_app; [by apply not_elem_existsb|done]. }
  assert (H58 : 58 ∉ k) by (by apply token_not).
  assert (Es : Split2 58 (kv_line (k, v)) = [k; 32 :: v]) by (apply Split2_app; done).
  assert (Et : trim_blank (kv_line (k, v)) = kv_line (k, v)).
  { change (trim_ends ((fun x => [x]) <$> [32; 9]) (kv_line (k, v)) = kv_line (k, v)).
    apply (trim_ends_single _ _ kc (km ++ [58; 32] ++ v) (k ++ [58; 32] ++ vm2) vd).
    - unfold kv_line. cbn [fst snd]. rewrite Ek. done.
    - unfold kv_line. cbn [fst snd]. rewrite E2. by rewrite <- !app_assoc.
    - apply not_elem_existsb. unfold blank in Hkb. apply orb_false_iff in Hkb as [A B]. cbn. by rewrite A, B.
    - apply not_elem_existsb. unfold blank in Hvd. apply orb_false_iff in Hvd as [A B]. cbn. by rewrite A, B. }
  rewrite read_line_crlf by done.
  destruct (kv_line (k, v)) as [|x l] eqn:El; [done|]. rewrite Es, Et.
  cbn [length continuation]. rewrite skip_none by done. rewrite Es, (gk_canon k Hk).
  destruct k as [|k0 k']; [by destruct (gk_ne [] Hk)|].
  rewrite E1 at 1 2. change (length (32 :: vc :: vm)) with (S (length (vc :: vm))).
  rewrite (trim_front_step _ _ _ 0%nat [32]) by reflexivity. cbn [length drop].
  rewrite trim_front_keep; [by rewrite <- E1|].
  unfold blank in Hvc. apply orb_false_iff in Hvc as [A B]. apply Z.eqb_neq in A, B.
  repeat constructor; apply bool_decide_eq_false; cbn; congruence.
Qed.

(** Reading a list of header lines up to the empty line. *)
Lemma read_all f h kvs rest :
  Forall (fun kv => good_key kv.1 /\ good_value kv.2) kvs -> (length kvs < f)%nat ->
  read_headers f h (concat ((fun kv => kv_line kv ++ [13; 10]) <$> kvs) ++ 13 :: 10 :: rest)
  = ((None, foldl add_kv h kvs), rest).
Proof.
  intros H. revert f h. induction H as [|[k v] kvs [Hk Hv] H IH]; intros f h Hf; (destruct f as [|f]; [cbn in Hf; lia|]).
  - reflexivity.
  - cbn [fmap list_fmap concat foldl]. rewrite <- !app_assoc.
    assert (exists c l, concat (list_fmap _ _ (fun kv => kv_line kv ++ [13; 10]) kvs) ++ 13 :: 10 :: rest = c :: l /\ blank c = false) as (c & l & E & Hc).
    { destruct H as [|[k2 v2] kvs [Hk2 _] _]; [by eexists _, _|]. cbn [fmap list_fmap concat].
      pose proof (good_key_head k2 Hk2) as (c & m & E & Hc & _). unfold kv_line. cbn [fst]. rewrite E. by eexists _, _. }
    cbn [app]. change (concat ((fun kv => kv_line kv ++ [13; 10]) <$> kvs)) with (concat (list_fmap _ _ (fun kv => kv_line kv ++ [13; 10]) kvs)).
    rewrite E, read_one by done. rewrite <- E. apply IH. cbn in Hf. lia.
Qed.

(** ** Rebuilding the header *)
Lemma h_values_insert h k vs : h_values (<[k := vs]> h) k = vs.
Proof. unfold h_values. by rewrite lookup_insert_eq. Qed.

Lemma add_values h k vs : vs <> [] -> foldl add_kv h ((fun v => (k, v)) <$> vs) = <[k := h_values h k ++ vs]> h.
Proof.
  revert h. induction vs as [|v vs IH]; intros h Hn; [done|]. cbn [fmap list_fmap foldl].
  destruct vs as [|w vs]; [done|]. rewrite IH by done. unfold add_kv. cbn [fst snd].
  rewrite h_values_insert, insert_insert_eq, <- app_assoc. done.
Qed.

Lemma add_keys (vals : gostr -> list gostr) ks h :
  NoDup ks -> (forall k, k ∈ ks -> h !! k = None /\ vals k <> []) ->
  forall x, foldl add_kv h (concat ((fun k => (fun v => (k, v)) <$> vals k) <$> ks)) !! x
  = if bool_decide (x ∈ ks) then Some (vals x) else h !! x.
Proof.
  revert h. induction ks as [|k ks IH]; intros h Hnd Hk x; [done|]. apply NoDup_cons in Hnd as [Hnk Hnd].
  cbn [fmap list_fmap concat]. rewrite foldl_app. destruct (Hk k) as [Hh Hv]; [left|].
  rewrite add_values by done. rewrite IH; [|done|].
  - rewrite (bool_decide_ext (x ∈ k :: ks) (x = k \/ x ∈ ks)) by apply elem_of_cons.
    unfold h_values. rewrite Hh. cbn [default app].
    destruct (decide (x = k)) as [->|Hx].
    + rewrite bool_decide_eq_false_2 by done. rewrite bool_decide_eq_true_2 by (by left). by rewrite lookup_insert_eq.
    + rewrite lookup_insert_ne by done. rewrite (bool_decide_ext (x = k \/ x ∈ ks) (x ∈ ks)) by tauto. done.
  - intros k' Hk'. destruct (Hk k') as [Hh' Hv']; [by right|]. split; [|done].
    rewrite lookup_insert_ne; [done|]. by intros ->.
Qed.

(** A header that survives: a Mid, canonical keys, clean values. *)
Record good_header (h : header) : Prop := {
  gh_mid : exists mid, h !! HEADER_MID = Some [mid] /\ good_value mid;
  gh_all k vs : h !! k = Some vs -> good_key k /\ vs <> [] /\ Forall good_value vs }.

(** Mid is the only canonical spelling of its name. *)
Lemma mid_key k : good_key k -> EqualFold k HEADER_MID = true -> k = HEADER_MID.
Proof.
  intros [Hc _] He. unfold EqualFold in He. apply bool_decide_eq_true in He.
  unfold canonical_key in Hc. destruct (forallb token_byte k); [|done]. injection Hc as Hc.
  change (ToUpper HEADER_MID) with [77; 73; 68] in He.
  destruct k as [|a [|b [|c [|d k]]]]; try done. cbn in He, Hc. injection He as Ha Hb Hd. injection Hc as Ha' Hb' Hd'.
  assert (a <> 45) by (intros ->; done). assert (b <> 45) by (intros ->; done).
  destruct (Z.eqb_spec a 45), (Z.eqb_spec b 45); try done.
  assert (a = 77) by (unfold upper in *; repeat case_match; lia).
  assert (b = 105) by (unfold upper, lower in *; repeat case_match; lia).
  assert (c = 100) by (unfold upper, lower in *; repeat case_match; lia). by subst.
Qed.

Definition rest_keys (h : header) : list gostr :=
  sort_by str_less (filter (fun k => EqualFold k HEADER_MID = false) (map_to_list h).*1).

Lemma rest_keys_spec h : good_header h -> NoDup (rest_keys h) /\
  forall k, k ∈ rest_keys h <-> k <> HEADER_MID /\ exists vs, h !! k = Some vs.
Proof.
  intros Hh. unfold rest_keys. split.
  - rewrite sort_by_perm. apply NoDup_filter, NoDup_fst_map_to_list.
  - intros k. rewrite sort_by_perm, list_elem_of_filter, list_elem_of_fmap. split.
    + intros [He ([k' vs] & -> & Hin)]. apply elem_of_map_to_list in Hin. split; [|eauto].
      cbn in *. intros ->. by vm_compute in He.
    + intros [Hn [vs Hv]]. split; [|exists (k, vs); split; [done|by apply elem_of_map_to_list]].
      destruct (EqualFold k HEADER_MID) eqn:E; [|done]. exfalso. apply Hn, mid_key; [|done].
      by apply (gh_all h Hh k vs).
Qed.

(** The lines [Header.Write] produces. *)
Definition header_lines (h : header) (mid : gostr) : list (gostr * gostr) :=
  (HEADER_MID, mid) :: concat ((fun k => (fun v => (k, v)) <$> h_values h k) <$> rest_keys h).

Lemma concat_lines ls : concat ((fun kv => kv_line kv ++ [13; 10]) <$> concat ls)
  = concat ((fun l => concat ((fun kv => kv_line kv ++ [13; 10]) <$> l)) <$> ls).
Proof. induction ls as [|l ls IH]; [done|]. cbn [concat fmap list_fmap]. rewrite fmap_app, concat_app. by rewrite <- IH. Qed.

Lemma Write_lines h mid : good_header h -> h !! HEADER_MID = Some [mid] -> mid <> [] ->
  h_Write h = Some (concat ((fun kv => kv_line kv ++ [13; 10]) <$> header_lines h mid)).
Proof.
  intros Hh Hm Hne. unfold h_Write, h_get, h_values at 1. rewrite Hm. cbn [default]. destruct mid as [|c mid]; [done|].
  f_equal. unfold header_lines. cbn [fmap list_fmap concat]. fold (rest_keys h).
  unfold kv_line at 1. cbn [fst snd]. change (str "Mid: ") with (HEADER_MID ++ [58; 32]). rewrite <- !app_assoc.
  apply (f_equal (app HEADER_MID)), (f_equal (app [58; 32])), (f_equal (app (c :: mid))), (f_equal (app [13; 10])).
  rewrite concat_lines, <- list_fmap_compose. f_equal. apply list_fmap_ext. intros i k Hk. cbn [compose].
  rewrite <- list_fmap_compose. f_equal. apply list_fmap_ext. intros j v Hv. cbn [compose]. unfold h_line, kv_line. cbn [fst snd].
  destruct (rest_keys_spec h Hh) as [_ Hr]. apply list_elem_of_lookup_2, Hr in Hk as [_ [vs Hvs]].
  unfold h_values in Hv. rewrite Hvs in Hv. cbn in Hv.
  destruct (gh_all h Hh k vs Hvs) as (_ & _ & Hg). rewrite Forall_lookup in Hg.
  rewrite (good_value_trim v (Hg _ _ Hv)). by rewrite <- !app_assoc.
Qed.

Lemma header_lines_good h mid : good_header h -> h !! HEADER_MID = Some [mid] -> good_value mid ->
  Forall (fun kv => good_key kv.1 /\ good_value kv.2) (header_lines h mid).
Proof.
  intros Hh Hm Hv. constructor; [split; [|done]; by apply (gh_all h Hh HEADER_MID [mid])|].
  destruct (rest_keys_spec h Hh) as [_ Hr]. apply Forall_concat, Forall_fmap, Forall_forall. intros k Hk.
  apply Hr in Hk as [_ [vs Hvs]]. cbn. unfold h_values. rewrite Hvs. cbn.
  destruct (gh_all h Hh k vs Hvs) as (Hk & _ & Hg). apply Forall_fmap. eapply Forall_impl; [exact Hg|]. cbn. auto.
Qed.

Lemma header_lines_map h mid : good_header h -> h !! HEADER_MID = Some [mid] ->
  foldl add_kv ∅ (header_lines h mid) = h.
Proof.
  intros Hh Hm. apply map_eq. intros x. unfold header_lines. cbn [foldl].
  destruct (rest_keys_spec h Hh) as [Hnd Hr].
  rewrite (add_keys (h_values h)); [|done|].
  - unfold add_kv, h_values at 2. cbn [fst snd]. rewrite lookup_empty. cbn [default app].
    destruct (decide (x ∈ rest_keys h)) as [Hx|Hx].
    + rewrite bool_decide_eq_true_2 by done. apply Hr in Hx as [_ [vs Hvs]]. unfold h_values. by rewrite Hvs.
    + rewrite bool_decide_eq_false_2 by done. destruct (decide (x = HEADER_MID)) as [->|Hn].
      * by rewrite lookup_insert_eq.
      * rewrite lookup_insert_ne, lookup_empty by done. destruct (h !! x) eqn:E; [|done]. exfalso. apply Hx, Hr. eauto.
  - intros k Hk. apply Hr in Hk as [Hn [vs Hvs]]. unfold add_kv. cbn [fst].
    rewrite lookup_insert_ne, lookup_empty by done. split; [done|]. unfold h_values. rewrite Hvs.
    by apply (gh_all h Hh k vs).
Qed.

Lemma ReadMIMEHeader_start c l : blank c = false ->
  ReadMIMEHeader (c :: l) = read_headers (S (length (c :: l))) ∅ (c :: l).
Proof. intros H. unfold ReadMIMEHeader. by rewrite H. Qed.

(** Writing a header and reading it back. *)
Lemma header_read h out rest : good_header h -> h_Write h = Some out ->
  ReadMIMEHeader (out ++ 13 :: 10 :: rest) = ((None, h), rest) /\ exists l, out = 77 :: l.
Proof.
  intros Hh Hw. destruct (gh_mid h Hh) as (mid & Hm & Hv).
  assert (Hne : mid <> []) by (destruct (gv_head mid Hv) as (c & m & -> & _); done).
  rewrite (Write_lines h mid Hh Hm Hne) in Hw.
  assert (out = concat ((fun kv => kv_line kv ++ [13; 10]) <$> header_lines h mid)) as -> by congruence.
  split; [|by eexists].
  assert (Hlen : Nat.le (length (header_lines h mid)) (length (concat ((fun kv => kv_line kv ++ [13; 10]) <$> header_lines h mid)))).
  { generalize (header_lines h mid). intros l. induction l as [|kv l IH]; [done|]. cbn [fmap list_fmap concat length].
    rewrite !length_app. cbn [length]. cbn [fmap] in IH. lia. }
  assert (exists l, concat ((fun kv => kv_line kv ++ [13; 10]) <$> header_lines h mid) = 77 :: l) as [l El] by (by eexists).
  rewrite El. cbn [app]. rewrite ReadMIMEHeader_start by done. rewrite !app_comm_cons, <- El.
  rewrite read_all; [by rewrite header_lines_map|by apply header_lines_good|].
  rewrite length_app. unfold Nat.le in Hlen. lia.
Qed.

(** ** Sections and files *)
Lemma readSection_crlf data rest : readSection (data ++ 13 :: 10 :: rest) (zlen data) = Ok ((None, data), rest).
Proof.
  unfold readSection. pose proof (zlen_nonneg data). destruct (Z.ltb_spec (zlen data) 0); [lia|].
  replace (Z.to_nat (zlen data)) with (length data) by (unfold zlen; lia).
  rewrite take_app_length, drop_app_length, Nat.sub_diag. cbn [replicate]. rewrite app_nil_r, Z.eqb_refl. reflexivity.
Qed.

Lemma readSection_end data : readSection data (zlen data) = Ok ((None, data), []).
Proof.
  unfold readSection. pose proof (zlen_nonneg data). destruct (Z.ltb_spec (zlen data) 0); [lia|].
  replace (Z.to_nat (zlen data)) with (length data) by (unfold zlen; lia).
  rewrite take_ge, drop_ge, Nat.sub_diag by lia. cbn [replicate]. rewrite app_nil_r, Z.eqb_refl. reflexivity.
Qed.

Section files.
Context `{Charset}.

(** A File header announces the size of its file. *)
Definition announces (v : gostr) (f : file) : Prop :=
  exists name, v = itoa (zlen f.(f_data)) ++ 32 :: name /\ zlen f.(f_data) < 2 ^ 63.

Definition announced_name (v : gostr) : gostr :=
  match Split2 32 v with [_; name] => DecodeHeader name | _ => [] end.

Lemma read_files_ok vs fs rest : Forall2 announces vs fs ->
  read_files vs None (concat ((fun f => f.(f_data) ++ [13; 10]) <$> fs) ++ rest)
  = Ok (zip_with (fun v f => mkFile f.(f_data) (announced_name v) None) vs fs, None, rest).
Proof.
  induction 1 as [|v f vs fs (name & Ev & Hs) Hall IH]; [done|].
  cbn [fmap list_fmap concat read_files zip_with]. pose proof (zlen_nonneg f.(f_data)).
  assert (Es : Split2 32 v = [itoa (zlen f.(f_data)); name]).
  { rewrite Ev. apply Split2_app. by apply not_in_digits. }
  rewrite Es, Atoi_itoa by lia. cbn [fst]. rewrite <- !app_assoc. cbn [app].
  rewrite readSection_crlf, bind_Ok. cbn [fmap] in IH. rewrite IH, bind_Ok. unfold announced_name. by rewrite Es.
Qed.

(** A message whose header tells the truth about its parts. *)
Record good_message `{Clock} (m : message) : Prop := {
  gm_header : good_header m.(m_header);
  gm_body : BodySize m = zlen m.(m_body);
  gm_files : Forall2 announces (h_values m.(m_header) HEADER_FILE) m.(m_files);
  gm_date : exists t, ParseDate (h_Get m.(m_header) HEADER_DATE) = inr t }.

Lemma read_message `{Clock} m : good_message m ->
  exists out, Bytes m = inr out /\
    ReadFrom out = Ok (None, mkMsg m.(m_header) m.(m_body)
      (zip_with (fun v f => mkFile f.(f_data) (announced_name v) None)
         (h_values m.(m_header) HEADER_FILE) m.(m_files))).
Proof.
  intros [Hh Hb Hf [t Hd]]. unfold Bytes. rewrite Hd. destruct (gh_mid _ Hh) as (mid & Hm & Hv).
  assert (Hne : mid <> []) by (destruct (gv_head mid Hv) as (c & l & -> & _); done).
  pose proof (Write_lines _ mid Hh Hm Hne) as Hw. destruct (header_read _ _ ([] : gostr) Hh Hw) as [_ [l El]].
  rewrite Hw. change (default [] (Some ?x)) with x. set (out := concat _) in *. clearbody out. subst out. eexists. split; [done|].
  set (rest := m.(m_body) ++ _). unfold ReadFrom.
  assert (trimLeftSpace ((77 :: l) ++ [13; 10] ++ rest) = (77 :: l) ++ 13 :: 10 :: rest) as ->.
  { unfold trimLeftSpace. apply trim_front_keep. repeat constructor. }
  destruct (header_read _ _ rest Hh Hw) as [-> _]. change (BodySize _) with (BodySize m). rewrite Hb. unfold rest.
  destruct m as [h body files]. cbn [m_header m_body m_files] in *. destruct files as [|f files].
  - inversion Hf as [E|]; subst. cbn [fmap list_fmap concat app]. rewrite app_nil_r, readSection_end, bind_Ok.
    cbn [read_files mret res_ret]. rewrite bind_Ok, Hd. done.
  - cbn [app]. rewrite readSection_crlf, bind_Ok.
    rewrite <- (app_nil_r (concat _)), read_files_ok by done. by rewrite bind_Ok, Hd.
Qed.
End files.

(** C5. A message written in the Winlink format is parsed back with the same
    header, the same body and the same attachments. *)
Theorem message_roundtrip `{Charset} `{Clock} m : good_message m ->
  exists out fs, Bytes m = inr out /\ ReadFrom out = Ok (None, mkMsg m.(m_header) m.(m_body) fs) /\
    f_data <$> fs = f_data <$> m.(m_files) /\ Forall (fun f => f.(f_err) = None) fs /\
    f_name <$> fs = announced_name <$> h_values m.(m_header) HEADER_FILE.
Proof.
  intros Hm. destruct (read_message m Hm) as (out & E & R). eexists out, _. split; [done|]. split; [exact R|].
  pose proof (gm_files m Hm) as Hf. clear -Hf. induction Hf as [|v f vs fs _ _ (IH1 & IH2 & IH3)]; [done|].
  cbn [zip_with fmap list_fmap f_data f_name]. cbn [fmap] in *. split_and!; [by f_equal|by constructor|by f_equal].
Qed.

(** A message to try it on. *)
Definition any_clock : Clock := {| time_Parse := fun _ _ => Some 0; time_Format := fun _ _ => str "2016/12/30 01:00" |}.
Definition sample_message : message :=
  mkMsg (<[HEADER_MID := [str "ABCDEF"]]> (<[HEADER_BODY := [str "4"]]> (<[HEADER_FILE := [str "3 a.txt"]]> ∅)))
        (str "Hi" ++ [13; 10]) [mkFile [1; 10; 2] (str "a.txt") None].

Lemma good_value_check v : (match v, reverse v with
    | c :: _, d :: _ => negb (blank c) && negb (blank d) | _, _ => false end)
    && negb (existsb (Z.eqb 10) v) && negb (existsb (Z.eqb 13) v) = true -> good_value v.
Proof.
  rewrite !andb_true_iff, !negb_true_iff. intros [[H H10] H13]. destruct v as [|c m]; [done|].
  destruct (reverse (c :: m)) as [|d r] eqn:E; [done|]. apply andb_true_iff in H as [Hc Hd]. rewrite negb_true_iff in *.
  split; [by apply not_elem_existsb|by apply not_elem_existsb|eauto|].
  exists (reverse r), d. split; [|done]. rewrite <- (reverse_involutive (c :: m)), E. apply reverse_cons.
Qed.

Lemma sample_message_good : good_message (H0 := any_clock) sample_message.
Proof.
  assert (G : forall k' vs, sample_message.(m_header) !! k' = Some vs -> good_key k' /\ vs <> [] /\ Forall good_value vs).
  { intros k' vs Hl. unfold sample_message in Hl. cbn [m_header] in Hl.
    repeat (apply lookup_insert_Some in Hl as [[<- <-]|[_ Hl]];
      [split; [by split|]; split; [done|]; repeat constructor; by apply good_value_check|]).
    by rewrite lookup_empty in Hl. }
  split.
  - split; [|exact G]. exists (str "ABCDEF"). split; [done|by apply good_value_check].
  - reflexivity.
  - constructor; [|constructor]. exists (str "a.txt"). split; [reflexivity|reflexivity].
  - eexists. reflexivity.
Qed.

Lemma message_roundtrip_witness :
  exists out fs, Bytes (H0 := any_clock) sample_message = inr out /\
    ReadFrom (H := raw_charset) (H0 := any_clock) out = Ok (None, mkMsg sample_message.(m_header) sample_message.(m_body) fs) /\
    f_data <$> fs = f_data <$> sample_message.(m_files) /\ Forall (fun f => f.(f_err) = None) fs /\
    f_name <$> fs = announced_name (H := raw_charset) <$> h_values sample_message.(m_header) HEADER_FILE.
Proof. exact (message_roundtrip (H := raw_charset) (H0 := any_clock) sample_message sample_message_good). Defined.

(** A received message with a negative size in its Body header makes the parser
    panic. *)
Theorem negative_body_panics `{Charset} `{Clock} :
  ReadFrom (str "Mid: A" ++ [13; 10] ++ str "Body: -1" ++ [13; 10; 13; 10]) = Panic.
Proof. vm_compute. reflexivity. Qed.

(** ** Building messages *)
Lemma h_Get_Set h k v : h_Get (h_Set h k v) k = v.
Proof. unfold h_Get, h_Set, h_get. by rewrite h_values_insert. Qed.

(** [SetBody] keeps the Body header in step with the body, and [AddFile] the
    File headers with the attachments. *)
Theorem built_message_consistent `{Charset} m s f :
  let m1 := SetBody m s in
  (zlen m1.(m_body) < 2 ^ 63 -> BodySize m1 = zlen m1.(m_body)) /\
  (zlen f.(f_data) < 2 ^ 63 -> Forall2 announces (h_values m.(m_header) HEADER_FILE) m.(m_files) ->
   let m2 := AddFile m f in
   Forall2 announces (h_values m2.(m_header) HEADER_FILE) m2.(m_files) /\
   h_Get m2.(m_header) HEADER_BODY = h_Get m.(m_header) HEADER_BODY).
Proof.
  cbv zeta. split.
  - intros Hl. unfold BodySize, SetBody, SetBodyWithCharset, set_hdr. cbn [m_header m_body] in *. rewrite h_Get_Set.
    rewrite Atoi_itoa; [done|]. pose proof (zlen_nonneg (StringToBody s DefaultCharset)).
    unfold SetBody, SetBodyWithCharset, set_hdr in Hl. cbn [m_body] in Hl. lia.
  - intros Hl Hf. unfold AddFile, add_hdr, h_Add. cbn [m_header m_body m_files].
    change (CanonicalKey HEADER_FILE) with HEADER_FILE. rewrite h_values_insert. split.
    + apply Forall2_app; [done|]. constructor; [|constructor]. eexists. split; [reflexivity|done].
    + unfold h_Get, h_get, h_values at 1. change (CanonicalKey HEADER_BODY) with HEADER_BODY.
      rewrite lookup_insert_ne; [done|]. by vm_compute.
Qed.

(** ** Lines of a body *)
Lemma break_line_bound f l : (length l < f)%nat -> 10 ∉ l ->
  Forall (fun x => zlen x <= 999) (Split 10 (break_line f l)).
Proof.
  revert l. induction f as [|f IH]; intros l Hf Hl; [lia|]. cbn [break_line]. set (n := Nat.min (length l) 998).
  assert (Hn : 10 ∉ take n l ++ [13]).
  { apply not_elem_app; [|by apply not_elem_existsb]. intros Hin. apply Hl. rewrite <- (take_drop n l).
    apply elem_of_app. by left. }
  change ([13; 10] ++ ?x) with ([13] ++ 10 :: x). rewrite app_assoc, Split_app by done. constructor.
  - rewrite zlen_app. unfold zlen. rewrite length_take. cbn [length]. lia.
  - destruct (drop n l) as [|d ds] eqn:E; [cbn; repeat constructor; vm_compute; done|]. apply IH.
    + pose proof (f_equal length E) as E'. rewrite length_drop in E'. cbn [length] in *. lia.
    + intros Hin. apply Hl. rewrite <- (take_drop n l). apply elem_of_app. right. by rewrite E.
Qed.

Lemma break_line_end f l : exists a, break_line (S f) l = a ++ [10].
Proof.
  revert l. induction f as [|f IH]; intros l; cbn [break_line]; set (n := Nat.min _ _).
  - exists (take n l ++ [13]). rewrite <- app_assoc. by destruct (drop n l).
  - destruct (drop n l) as [|d ds]; [by exists (take n l ++ [13]); rewrite <- app_assoc|].
    destruct (IH (d :: ds)) as [a E]. cbn [break_line] in E. rewrite E.
    exists (take n l ++ [13; 10] ++ a). by rewrite <- !app_assoc.
Qed.

(** The bytes of a text that are not line breaks. *)
Definition printed (s : gostr) : gostr := filter (fun c => c <> 10 /\ c <> 13) s.

Lemma printed_app a b : printed (a ++ b) = printed a ++ printed b.
Proof. apply filter_app. Qed.

Lemma break_line_printed f l : (length l < f)%nat -> printed (break_line f l) = printed l.
Proof.
  revert l. induction f as [|f IH]; intros l Hf; [lia|]. cbn [break_line]. set (n := Nat.min (length l) 998).
  rewrite !printed_app. change (printed [13; 10]) with (@nil Z). cbn [app].
  rewrite <- (take_drop n l) at 3. rewrite printed_app. f_equal. destruct (drop n l) as [|d ds] eqn:E; [done|].
  apply IH. pose proof (f_equal length E) as E'. rewrite length_drop in E'. cbn [length] in *. lia.
Qed.

Lemma printed_split s : printed s = concat (printed <$> Split 10 s).
Proof.
  induction s as [|d s IH]; [done|]. cbn [Split]. destruct (Split_cons 10 s) as (p & ps & E). rewrite E in *.
  change (d :: s) with ([d] ++ s). rewrite printed_app, IH. destruct (Z.eqb_spec d 10) as [->|]; [done|].
  cbn [fmap list_fmap concat]. change (d :: p) with ([d] ++ p). by rewrite printed_app, app_assoc.
Qed.

Lemma scan_lines ls : Forall (fun l => 10 ∉ l) ls -> Forall (fun l => zlen l < 65536) ls ->
  Forall (fun l => 10 ∉ l) (scan ls) /\ concat (printed <$> scan ls) = concat (printed <$> ls).
Proof.
  induction ls as [|l ls IH]; intros H1 H2; [done|]. apply Forall_cons in H1 as [Hn H1]. apply Forall_cons in H2 as [Hl H2].
  destruct (IH H1 H2) as [I1 I2].
  set (l' := match reverse l with 13 :: _ => take (length l - 1) l | _ => l end).
  assert (Hl' : (10 ∉ l') /\ printed l' = printed l).
  { subst l'. destruct (reverse l) as [|c r] eqn:E; [done|]. destruct (Z.eq_dec c 13) as [->|Hc].
    - assert (l = reverse r ++ [13]) as -> by (rewrite <- (reverse_involutive l), E; apply reverse_cons).
      rewrite length_app. cbn [length]. rewrite Nat.add_sub, take_app_length.
      split; [intros Hin; apply Hn, elem_of_app; by left|]. by rewrite printed_app, app_nil_r.
    - assert (match c with 13 => take (length l - 1) l | _ => l end = l) as -> by (repeat case_match; done). done. }
  assert (scan (l :: ls) = l' :: scan ls \/ (l :: ls = [[]] /\ scan (l :: ls) = [])) as [->|[Ee ->]].
  { cbn [scan]. destruct (Z.leb_spec 65536 (zlen l)); [lia|]. destruct l, ls; auto. }
  - destruct Hl' as [Hl1 Hl2]. split; [by constructor|]. cbn [fmap list_fmap concat]. cbn [fmap] in I2.
    by rewrite I2, Hl2.
  - rewrite Ee. done.
Qed.

Lemma body_normalised s : Forall (fun l => zlen l < 65536) (Split 10 s) ->
  Forall (fun l => zlen l <= 999) (Split 10 (crlf_body s)) /\ printed (crlf_body s) = printed s.
Proof.
  intros Hs. unfold crlf_body. destruct (scan_lines _ (Split_pieces 10 s) Hs) as [H1 H2].
  rewrite (printed_split s), <- H2. clear H2 Hs. induction H1 as [|l ls Hl _ [I1 I2]]; [by repeat constructor|].
  cbn [fmap list_fmap concat]. rewrite printed_app, break_line_printed, <- I2 by lia. split; [|done].
  destruct (break_line_end (length l) l) as [a Ea]. rewrite Ea, <- app_assoc. cbn [app]. rewrite Split_at.
  apply Forall_app; split; [|done].
  pose proof (break_line_bound (S (length l)) l ltac:(lia) Hl) as Hb. rewrite Ea, Split_at in Hb.
  by apply Forall_app in Hb as [Hb _].
Qed.

(** Normalising a body (of lines the scanner takes) only touches its line
    breaks, and leaves no line of more than 998 bytes before its CRLF. *)
Theorem body_lines s : Forall (fun l => zlen l < 65536) (Split 10 s) ->
  Forall (fun l => zlen l <= 999) (Split 10 (crlf_body s)) /\ printed (crlf_body s) = printed s.
Proof. apply body_normalised. Qed.

Lemma body_lines_witness : let s := replicate 1500 65 ++ [10; 66; 13; 10] in
  Forall (fun l => zlen l <= 999) (Split 10 (crlf_body s)) /\ printed (crlf_body s) = printed s.
Proof.
  intros s. apply (body_lines s). change (Forall (fun l => zlen l < 65536) (Split 10 s)).
  subst s. rewrite Split_app by (by apply not_elem_existsb). by repeat constructor.
Defined.

(** A line of 64 KiB or more ends the scan: it and all that follows is dropped
    from the body, without an error. *)
Theorem long_line_truncates l rest : 65536 <= zlen l -> 10 ∉ l -> crlf_body (l ++ 10 :: rest) = [].
Proof.
  intros Hl Hn. unfold crlf_body. rewrite Split_app by done. destruct l as [|c l]; [by vm_compute in Hl|]. cbn [scan].
  destruct (Z.leb_spec 65536 (zlen (c :: l))); [done|lia].
Qed.

Lemma long_line_truncates_witness : crlf_body (replicate (Z.to_nat 65536) 65 ++ 10 :: [66; 10]) = [].
Proof.
  apply long_line_truncates; [vm_compute; discriminate|]. apply not_elem_existsb. vm_compute. reflexivity.
Defined.

(** ** Addresses *)
Lemma upper_upper c : upper (upper c) = upper c.
Proof. unfold upper. repeat case_match; lia. Qed.

Lemma ToUpper_ToUpper s : ToUpper (ToUpper s) = ToUpper s.
Proof. unfold ToUpper. rewrite <- list_fmap_compose. apply list_fmap_ext. intros. apply upper_upper. Qed.

Lemma ToUpper_not c s : c < 65 -> c ∉ s -> c ∉ ToUpper s.
Proof.
  intros Hc Hs Hin. apply list_elem_of_fmap in Hin as (d & E & Hd). apply Hs.
  assert (c = d) as ->; [|done]. unfold upper in E. repeat case_match; lia.
Qed.

Lemma address_plain s : 58 ∉ s -> 64 ∉ s -> AddressFromString s = mkAddr [] (ToUpper s).
Proof. intros H1 H2. unfold AddressFromString. rewrite !Split_none by done. reflexivity. Qed.

Lemma Split_parts sep s p ps : Split sep s = p :: ps -> (sep ∉ p) /\ (forall c, c ∈ p -> c ∈ s).
Proof.
  revert p ps. induction s as [|c s IH]; intros p ps E; cbn in E.
  { injection E as <- <-. split; [apply not_elem_of_nil|]. intros c Hc. by apply elem_of_nil in Hc. }
  destruct (Split_cons sep s) as (q & qs & Eq). rewrite Eq in E. destruct (Z.eqb_spec c sep).
  - injection E as <- <-. split; [apply not_elem_of_nil|]. intros d Hd. by apply elem_of_nil in Hd.
  - injection E as <- <-. destruct (IH q qs Eq) as [H1 H2]. split; [by apply not_elem_of_cons|].
    intros d Hd. apply elem_of_cons in Hd as [->|Hd]; [left|right; auto].
Qed.

(** Printing an address and parsing it again does not change it. *)
Theorem address_roundtrip s : 58 ∉ s ->
  AddressFromString (addr_String (AddressFromString s)) = AddressFromString s.
Proof.
  intros Hs. destruct (decide (64 ∈ s)) as [Ha|Ha].
  - assert (exists u d l, Split 64 s = u :: d :: l) as (u & d & l & E).
    { apply list_elem_of_split in Ha as (a & b & ->). clear Hs. induction a as [|c a IH]; cbn [app Split].
      - destruct (Split_cons 64 b) as (p & ps & ->). by eexists _, _, _.
      - destruct IH as (u & d & l & ->). destruct (c =? 64); by eexists _, _, _. }
    assert (Ef : AddressFromString s = if EqualFold d (str "winlink.org") then mkAddr [] (ToUpper u) else mkAddr (str "SMTP") s).
    { unfold AddressFromString. rewrite (Split_none 58) by done. rewrite E. by destruct (EqualFold _ _). }
    rewrite Ef. destruct (EqualFold d (str "winlink.org")).
    + destruct (Split_parts _ _ _ _ E) as [H1 H2]. unfold addr_String. cbn [a_proto a_addr].
      rewrite address_plain; [by rewrite ToUpper_ToUpper|..]; apply ToUpper_not; auto; lia.
    + change (addr_String (mkAddr (str "SMTP") s)) with (str "SMTP" ++ 58 :: s). unfold AddressFromString.
      rewrite Split_app by (by apply not_elem_existsb). by rewrite Split_none.
  - rewrite (address_plain s) by done. unfold addr_String. cbn [a_proto a_addr].
    rewrite address_plain; [by rewrite ToUpper_ToUpper|..]; apply ToUpper_not; auto; lia.
Qed.

Lemma address_roundtrip_witness :
  AddressFromString (addr_String (AddressFromString (str "la5nta@example.com"))) = AddressFromString (str "la5nta@example.com").
Proof. apply address_roundtrip. by apply not_elem_existsb. Defined.

(** ** New messages *)
Lemma h_Get_Set_ne h k v k' : CanonicalKey k <> CanonicalKey k' -> h_Get (h_Set h k v) k' = h_Get h k'.
Proof. intros Hn. unfold h_Get, h_Set, h_get, h_values. by rewrite lookup_insert_ne. Qed.

Lemma h_values_Set_ne h k v k' : CanonicalKey k <> k' -> h_values (h_Set h k v) k' = h_values h k'.
Proof. intros Hn. unfold h_Set, h_values. by rewrite lookup_insert_ne. Qed.

Lemma AddTo_header m addrs : exists vs, length vs = length addrs /\
  h_values (m_header (AddTo m addrs)) HEADER_TO = h_values m.(m_header) HEADER_TO ++ vs /\
  (forall k, k <> HEADER_TO -> h_values (m_header (AddTo m addrs)) k = h_values m.(m_header) k) /\
  m_files (AddTo m addrs) = m.(m_files).
Proof.
  revert m. induction addrs as [|a addrs IH]; intros m; [exists []; by rewrite app_nil_r|].
  unfold AddTo in *. cbn [foldl]. set (m1 := add_hdr m _ _). destruct (IH m1) as (vs & H1 & H2 & H3 & H4).
  assert (E : h_values m1.(m_header) HEADER_TO = h_values m.(m_header) HEADER_TO ++ [addr_String (AddressFromString a)]).
  { unfold m1, add_hdr, h_Add. cbn [m_header]. apply h_values_insert. }
  exists (addr_String (AddressFromString a) :: vs). split; [cbn; lia|]. rewrite H2, E, <- app_assoc. split; [done|].
  split; [|done]. intros k Hk. rewrite H3 by done. unfold m1, add_hdr, h_Add, h_values. cbn [m_header].
  by rewrite lookup_insert_ne.
Qed.

Lemma new_message_validates `{Charset} `{Clock} `{MD5} nowString now t mycall addrs subject body :
  mycall <> [] -> 58 ∉ mycall -> 64 ∉ mycall -> addrs <> [] ->
  (let subj := QEncode DefaultCharset (toCharset DefaultCharset subject) in 0 < zlen subj <= 128) ->
  0 < zlen (StringToBody body DefaultCharset) < 2 ^ 63 ->
  exists m, NewMessage nowString now t mycall = Ok m /\
    Validate (SetBody (SetSubject (AddTo m addrs) subject) body) = None.
Proof.
  intros Hc H58 H64 Ha Hs Hb. destruct (GenerateMid_ok nowString mycall) as (mid & E & Hl & _).
  unfold NewMessage. rewrite E, bind_Ok. eexists. split; [done|]. set (m := set_hdr _ HEADER_TYPE _).
  destruct (AddTo_header m addrs) as (vs & Hv & Et & Eo & Ef). set (m1 := AddTo m addrs) in *.
  set (m3 := SetBody _ body).
  assert (G : forall k, k <> HEADER_SUBJECT -> k <> HEADER_BODY -> k <> HEADER_CONTENT_TYPE ->
    k <> HEADER_CONTENT_TRANSFER_ENCODING -> h_values m3.(m_header) k = h_values m1.(m_header) k).
  { intros k ? ? ? ?. unfold m3, SetBody, SetBodyWithCharset, SetSubject, set_hdr. cbn [m_header].
    rewrite !h_values_Set_ne; [done|..]; by apply not_eq_sym. }
  assert (E1 : MID m3 = mid).
  { unfold MID, h_Get, h_get. change (CanonicalKey HEADER_MID) with HEADER_MID. rewrite G by done. rewrite Eo by done. done. }
  assert (E2 : h_Get m3.(m_header) HEADER_FROM = ToUpper mycall).
  { unfold h_Get, h_get. change (CanonicalKey HEADER_FROM) with HEADER_FROM. rewrite G by done. rewrite Eo by done.
    change (h_values m.(m_header) HEADER_FROM) with [addr_String (AddressFromString mycall)]. by rewrite address_plain. }
  assert (E3 : BodySize m3 = zlen (StringToBody body DefaultCharset)).
  { unfold BodySize, m3, SetBody, SetBodyWithCharset, set_hdr. cbn [m_header]. rewrite h_Get_Set. rewrite Atoi_itoa; [done|lia]. }
  assert (E4 : h_Get m3.(m_header) HEADER_SUBJECT = QEncode DefaultCharset (toCharset DefaultCharset subject)).
  { unfold m3, SetBody, SetBodyWithCharset, SetSubject, set_hdr. cbn [m_header].
    rewrite !h_Get_Set_ne by (by vm_compute). apply h_Get_Set. }
  unfold Validate. rewrite E1, E2, E3, E4.
  rewrite bool_decide_eq_false_2 by (intros ->; done).
  assert ((12 <? zlen mid) = false) as -> by (unfold zlen; rewrite Hl; done).
  assert ((zlen (Receivers m3) =? 0) = false) as ->.
  { apply Z.eqb_neq. unfold Receivers, To. rewrite G, Et by done. unfold zlen. rewrite length_app, length_fmap, length_app.
    destruct addrs; [done|]. cbn [length] in Hv. lia. }
  rewrite bool_decide_eq_false_2 by (intros Hn; by destruct mycall).
  destruct (Z.eqb_spec (zlen (StringToBody body DefaultCharset)) 0); [lia|]. cbv zeta in Hs.
  set (subj := QEncode _ _) in *. destruct (Z.eqb_spec (zlen subj) 0); [lia|]. destruct (Z.ltb_spec 128 (zlen subj)); [lia|].
  change (m_files m3) with (m_files m1). rewrite Ef. done.
Qed.

(** A message made with [NewMessage], a receiver, a subject and a body passes
    validation. *)
Theorem new_message_valid `{Charset} `{Clock} `{MD5} nowString now t mycall addrs subject body :
  mycall <> [] -> 58 ∉ mycall -> 64 ∉ mycall -> addrs <> [] ->
  (let subj := QEncode DefaultCharset (toCharset DefaultCharset subject) in 0 < zlen subj <= 128) ->
  0 < zlen (StringToBody body DefaultCharset) < 2 ^ 63 ->
  exists m, NewMessage nowString now t mycall = Ok m /\
    Validate (SetBody (SetSubject (AddTo m addrs) subject) body) = None.
Proof. apply new_message_validates. Qed.

Lemma new_message_valid_witness :
  exists m, NewMessage (H0 := any_clock) (H1 := zero_md5) [] 0 [] (str "LA5NTA") = Ok m /\
    Validate (SetBody (H := raw_charset) (SetSubject (H := raw_charset) (AddTo m [str "LA1B"]) (str "Hello")) (str "Hi")) = None.
Proof.
  apply (new_message_valid (H := raw_charset) (H0 := any_clock) (H1 := zero_md5) [] 0 [] (str "LA5NTA") [str "LA1B"] (str "Hello") (str "Hi")).
  - done.
  - by apply not_elem_existsb.
  - by apply not_elem_existsb.
  - done.
  - vm_compute. split; [reflexivity|discriminate].
  - vm_compute. split; reflexivity.
Defined.
