(* ===== verification/Catalog.v ===== *)
(** Position reports: [src/catalog/position_report.go].  A report is rendered as
    the body of a message to QTH; positions are printed in degrees and minutes
    with the arithmetic of float64. *)
From S2P Require Import Prelude Crc GoStr GoFloat Helpers Mid Words Transfer Message MessageFormat.
From stdpp Require Import gmap.
Open Scope Z_scope.

(** ** Courses *)
Record course := mkCourse { Digits : gostr; Magnetic : bool }.

(** [NewCourse]: the three bytes of the array, of the number padded with spaces. *)
Definition NewCourse (degrees : Z) (magnetic : bool) : error + course :=
  if (degrees <? 0) || (360 <? degrees) then inl (New (str "degrees out of bounds [0,360]"))
  else
    let degrees := if degrees =? 360 then 0 else degrees in
    inr (mkCourse (take 3 (pad_left 32 3 (itoa degrees))) magnetic).

Definition course_String (c : course) : gostr :=
  if c.(Magnetic) then c.(Digits) ++ str "M" else c.(Digits) ++ str "T".

(** ** Degrees and minutes *)
Section float.
Context `{FloatConv}.

Definition hemisphere (dec : float64) (latitude : bool) : Z :=
  if latitude && f_lt f_zero dec then 78
  else if latitude && f_lt dec f_zero then 83
  else if negb latitude && f_lt f_zero dec then 69
  else if negb latitude && f_lt dec f_zero then 87
  else 32.

(** The minutes. *)
Definition dec_min (dec : float64) : float64 :=
  f_mul (f_sub dec (float_of_int (int_of_float dec))) (float_of_int 60).

Definition decToMinDec (dec : float64) (latitude : bool) : gostr :=
  let sign := hemisphere dec latitude in
  let deg := int_of_float dec in
  let min := dec_min dec in
  fmt_float true (if latitude then 2 else 3) 0 (math_Abs (float_of_int deg))
  ++ str "-" ++ fmt_float true 7 4 (math_Abs min) ++ [sign].

(** ** Reports *)
Record PosReport := mkReport {
  pr_Date : Z; pr_Lat : option float64; pr_Lon : option float64;
  pr_Speed : option float64; pr_Course : option course; pr_Comment : gostr }.

(** The lines of a report, without their CRLF. *)
Definition report_lines `{Clock} (p : PosReport) : list gostr :=
  [str "DATE: " ++ time_Format DateLayout p.(pr_Date)]
  ++ (match p.(pr_Lat), p.(pr_Lon) with
      | Some lat, Some lon => [str "LATITUDE: " ++ decToMinDec lat true; str "LONGITUDE: " ++ decToMinDec lon false]
      | _, _ => []
      end)
  ++ (match p.(pr_Speed) with Some v => [str "SPEED: " ++ fmt_float false 0 6 v] | None => [] end)
  ++ (match p.(pr_Course) with Some c => [str "COURSE: " ++ course_String c] | None => [] end)
  ++ (match p.(pr_Comment) with [] => [] | c => [str "COMMENT: " ++ c] end).

Definition report_text `{Clock} (p : PosReport) : gostr := concat ((fun l => l ++ [13; 10]) <$> report_lines p).

(** [PosReport.Message], at time [now], which prints as [nowString]. *)
Definition report_Message `{Clock} `{Charset} `{MD5} (nowString : gostr) (now : Z) (p : PosReport) (mycall : gostr) : res message :=
  msg ← NewMessage nowString now (str "Position Report") mycall;
  let msg := SetBody msg (report_text p) in
  let msg := SetSubject msg (str "POSITION REPORT") in
  mret (AddTo msg [str "QTH"]).
End float.

(** ** The printed position *)

(** A number of degrees as a machine holds it, less than 2^32. *)
Definition degrees_ok (dec : float64) : Prop :=
  valid_binary 53 1024 dec = true /\ Z.abs (fval dec) < 2 ^ (32 + 1074) /\ is_num dec.

Section position.
Context `{FloatConv}.


Lemma degrees_shape s m e : degrees_ok (S754_finite s m e) ->
  -1074 <= e < 0 /\ digits2 m <= 53 /\ (digits2 m = 53 \/ e = -1074) /\ Z.pos m / 2 ^ (- e) < 2 ^ 32.
Proof.
  intros (Hv & Hb & He). cbn [valid_binary fval is_num] in *. unfold bounded, canonical_mantissa in Hv.
  apply andb_true_iff in Hv as [Hv _]. apply Z.eqb_eq in Hv. change (Z.pos (digits2_pos m)) with (digits2 m) in Hv.
  unfold fexp, emin in Hv.
  assert (Hb' : Z.pos m * 2 ^ (e + 1074) < 2 ^ 32 * 2 ^ 1074).
  { rewrite <- Z.pow_add_r by lia. destruct s; cbn [cond_Zopp] in Hb; lia. }
  pose proof (digits2_bounds m) as [B1 B2].
  assert (He0 : e < 0).
  { destruct (Z.ltb_spec e 0); [done|]. assert (digits2 m = 53) by lia.
    replace (e + 1074) with (1074 + e) in Hb' by lia. rewrite Z.pow_add_r in Hb' by lia.
    pose proof (pow2_pos e ltac:(lia)). assert (2 ^ 52 <= Z.pos m) by (replace 52 with (digits2 m - 1) by lia; done). nia. }
  repeat split; try lia. apply Z.div_lt_upper_bound; [apply pow2_pos; lia|].
  apply (Z.mul_lt_mono_pos_r (2 ^ (e + 1074))); [apply pow2_pos; lia|].
  apply Z.lt_le_trans with (1 := Hb'). rewrite (Z.mul_comm (2 ^ (- e))), <- Z.mul_assoc, <- (Z.pow_add_r 2 (- e)) by lia.
  replace (- e + (e + 1074)) with 1074 by lia. lia.
Qed.

Lemma int_of_degrees s m e : degrees_ok (S754_finite s m e) ->
  int_of_float (S754_finite s m e) = cond_Zopp s (Z.pos m / 2 ^ (- e)).
Proof.
  intros Hd. destruct (degrees_shape s m e Hd) as (He & _ & _ & Hq). unfold int_of_float, trunc_abs.
  destruct (Z.leb_spec 0 e); [lia|]. pose proof (Z.div_pos (Z.pos m) (2 ^ (- e)) ltac:(lia) ltac:(apply pow2_pos; lia)).
  set (q := _ / _) in *. destruct (Z.leb_spec (- 2 ^ 63) (cond_Zopp s q)), (Z.ltb_spec (cond_Zopp s q) (2 ^ 63));
    destruct s; cbn [cond_Zopp] in *; done || lia.
Qed.

(** [y] has the sign [s] and the absolute value [v]. *)
Definition holds (s : bool) (v : Z) (y : float64) : Prop :=
  (v = 0 /\ exists s', y = S754_zero s') \/
  exists m e, y = S754_finite s m e /\ -1074 <= e <= 0 /\ digits2 m <= 53 /\ Z.pos m * 2 ^ (e + 1074) = v.

Lemma normalize_holds s n e : 0 <= n < 2 ^ 53 -> -1074 <= e <= 0 ->
  holds s (n * 2 ^ (e + 1074)) (binary_normalize 53 1024 (cond_Zopp s n) e false).
Proof.
  intros Hn He. destruct n as [|n|n]; [..|lia].
  { left. split; [done|]. exists false. by destruct s. }
  right. assert (Hd : digits2 n <= 53) by (apply digits2_le; lia).
  destruct (round_exact s n e Hd ltac:(lia)) as (m' & e' & E & He' & _ & Em & Hd'). exists m', e'. repeat split; try lia.
  - destruct s; cbn [cond_Zopp binary_normalize Z.opp]; exact E.
  - rewrite Em, <- Z.mul_assoc, <- Z.pow_add_r by lia. do 2 f_equal. lia.
Qed.

(** The fraction is exact. *)
Lemma fraction_exact s m e : degrees_ok (S754_finite s m e) ->
  holds s (Z.pos m mod 2 ^ (- e) * 2 ^ (e + 1074))
    (f_sub (S754_finite s m e) (float_of_int (int_of_float (S754_finite s m e)))).
Proof.
  intros Hd. rewrite int_of_degrees by done. destruct (degrees_shape s m e Hd) as (He & Hm & Hc & Hq).
  assert (HP : 0 < 2 ^ (- e)) by (apply pow2_pos; lia). pose proof (digits2_bounds m) as [B1 B2].
  pose proof (Z.div_mod (Z.pos m) (2 ^ (- e)) ltac:(lia)) as Hdm. pose proof (Z.mod_pos_bound (Z.pos m) (2 ^ (- e)) HP) as Hr.
  pose proof (Z.div_pos (Z.pos m) (2 ^ (- e)) ltac:(lia) HP) as Hq0.
  set (r := Z.pos m mod 2 ^ (- e)) in *. destruct (Z.pos m / 2 ^ (- e)) as [|q|q] eqn:Eq; [..|lia].
  { right. exists m, e. replace r with (Z.pos m) by lia. repeat split; try lia. by destruct s. }
  assert (H53 : digits2 m = 53).
  { destruct Hc as [->| ->]; [done|]. exfalso. rewrite Z.div_small in Eq; [done|]. split; [lia|].
    apply Z.lt_le_trans with (1 := B2). apply Z.pow_le_mono_r; lia. }
  assert (H53e : 1 <= 53 + e).
  { destruct (Z.leb_spec 1 (53 + e)); [done|]. exfalso. rewrite Z.div_small in Eq; [done|]. split; [lia|].
    apply Z.lt_le_trans with (1 := B2). apply Z.pow_le_mono_r; lia. }
  assert (Hdq : digits2 q = 53 + e).
  { apply digits2_unique; [|done]. rewrite <- Eq. rewrite H53 in B1, B2. split.
    - apply Z.div_le_lower_bound; [lia|]. rewrite <- Z.pow_add_r by lia. by replace (- e + (53 + e - 1)) with (53 - 1) by lia.
    - apply Z.div_lt_upper_bound; [lia|]. rewrite <- Z.pow_add_r by lia. by replace (- e + (53 + e)) with 53 by lia. }
  destruct (round_exact s q 0 ltac:(lia) ltac:(lia)) as (m2 & e2 & E & _ & Ee & Em2 & _).
  assert (e2 = e) as -> by lia.
  assert (float_of_int (cond_Zopp s (Z.pos q)) = S754_finite s m2 e) as ->
    by (unfold float_of_int; destruct s; exact E).
  unfold f_sub. cbn [SFsub]. rewrite Z.min_id. unfold shl_align. rewrite Z.sub_diag. cbn [fst].
  assert (cond_Zopp s (Z.pos m) - cond_Zopp s (Z.pos m2) = cond_Zopp s r) as ->.
  { rewrite Em2, Z.sub_0_l. destruct s; cbn [cond_Zopp]; lia. }
  apply normalize_holds; [|lia]. rewrite H53 in B2. lia.
Qed.

Lemma sixty_value : float_of_int 60 = S754_finite false 8444249301319680 (-47).
Proof. reflexivity. Qed.

(** The minutes are sixty times the fraction, up to half a unit of the last of
    53 bits. *)
Lemma minutes_error s v y : holds s v y -> 0 <= v < 2 ^ 1074 ->
  let r := Z.abs (fval (f_mul y (float_of_int 60))) in
  is_num (f_mul y (float_of_int 60)) /\ 2 * Z.abs (r - 60 * v) <= 2 ^ 1027.
Proof.
  intros Hy Hv r. destruct Hy as [(-> & s' & ->)|(m & e & -> & He & Hd & Em)].
  { subst r. rewrite sixty_value. cbn. split; [done|]. apply Z.pow_nonneg. lia. }
  subst r. rewrite sixty_value. unfold f_mul. cbn [SFmul]. rewrite xorb_false_r. set (mm := Pos.mul m _).
  assert (Emm : Z.pos mm = Z.pos m * (60 * 2 ^ 47)) by (unfold mm; rewrite Pos2Z.inj_mul; done).
  pose proof (digits2_bounds mm) as [B1 B2]. pose proof (digits2_pos' mm) as Hp.
  assert (Hpe : 0 < 2 ^ (e + 1074)) by (apply pow2_pos; lia).
  assert (Hdm : digits2 mm + (e + -47) <= 6).
  { destruct (Z.leb_spec (digits2 mm + (e + -47)) 6) as [C|C]; [done|]. exfalso.
    assert (2 ^ (53 - e) <= Z.pos mm) by (apply Z.le_trans with (2 := B1), Z.pow_le_mono_r; lia).
    assert (Z.pos mm * 2 ^ (e + 1074) < 2 ^ 53 * 2 ^ 1074) by (rewrite Emm; change (60 * 2 ^ 47) with (60 * 140737488355328); lia).
    assert (2 ^ (53 - e) * 2 ^ (e + 1074) = 2 ^ 53 * 2 ^ 1074) by (rewrite <- !Z.pow_add_r by lia; f_equal; lia).
    nia. }
  destruct (round_aux_value s mm (e + -47) ltac:(lia) ltac:(lia)) as [Hn Hf]. split; [exact Hn|]. rewrite Hf. clear Hn Hf.
  rewrite shift_of_spec. set (k := Z.max 0 _). assert (Hk : 0 <= k /\ -1074 <= e + -47 + k <= -47) by lia.
  pose proof (rne_error (Z.pos mm) (2 ^ k) ltac:(apply pow2_pos; lia)) as Hr.
  pose proof (rne_nonneg (Z.pos mm) (2 ^ k) ltac:(apply pow2_pos; lia) ltac:(lia)) as Hr0.
  set (n := rne _ _) in *.
  assert (Ea : Z.abs (cond_Zopp s (n * 2 ^ (e + -47 + k + 1074))) = n * 2 ^ (e + -47 + k + 1074)).
  { pose proof (pow2_pos (e + -47 + k + 1074) ltac:(lia)). destruct s; cbn [cond_Zopp]; lia. }
  rewrite Ea. apply (Z.mul_le_mono_pos_r _ _ (2 ^ 47)); [lia|]. rewrite <- Z.pow_add_r by lia.
  assert (E1 : n * 2 ^ (e + -47 + k + 1074) * 2 ^ 47 = n * 2 ^ k * 2 ^ (e + 1074)).
  { rewrite <- !Z.mul_assoc, <- !Z.pow_add_r by lia. do 2 f_equal. lia. }
  assert (E2 : 60 * v * 2 ^ 47 = Z.pos mm * 2 ^ (e + 1074)) by (rewrite Emm, <- Em; lia).
  assert (E3 : 2 ^ k * 2 ^ (e + 1074) <= 2 ^ (1027 + 47)).
  { rewrite <- Z.pow_add_r by lia. apply Z.pow_le_mono_r; lia. }
  nia.
Qed.

(** The decimals printed are nearest to the value. *)
Lemma decimals_error n y : is_num y -> 0 <= n ->
  0 <= decimals n y /\ 2 * Z.abs (decimals n y * 2 ^ 1074 - 10 ^ n * Z.abs (fval y)) <= 2 ^ 1074.
Proof.
  intros Hy Hn. pose proof (Z.pow_pos_nonneg 10 n ltac:(lia) Hn) as H10. destruct y as [s|s| |s m e]; try done.
  { cbn [decimals fval Z.abs]. rewrite Z.mul_0_r. split; [lia|]. apply Z.pow_nonneg. lia. }
  assert (Ha : Z.abs (fval (S754_finite s m e)) = Z.pos m * 2 ^ (e + 1074)).
  { cbn [is_num fval] in *. pose proof (pow2_pos (e + 1074) ltac:(lia)). destruct s; cbn [cond_Zopp]; lia. }
  rewrite Ha. clear Ha. cbn [decimals is_num] in *. destruct (Z.leb_spec 0 e) as [He|He].
  - pose proof (pow2_pos e He). split; [lia|]. rewrite (Z.pow_add_r 2 e 1074) by lia.
    replace (_ - _) with 0 by lia. apply Z.pow_nonneg. lia.
  - pose proof (pow2_pos (- e) ltac:(lia)) as HP. pose proof (pow2_pos (e + 1074) ltac:(lia)) as HQ.
    pose proof (rne_error (Z.pos m * 10 ^ n) (2 ^ (- e)) HP) as Hr.
    split; [apply rne_nonneg; lia|]. set (k := rne _ _) in *.
    replace (2 ^ 1074) with (2 ^ (- e) * 2 ^ (e + 1074)) by (rewrite <- Z.pow_add_r by lia; f_equal; lia).
    set (P := 2 ^ (- e)) in *. set (Q := 2 ^ (e + 1074)) in *. nia.
Qed.

Lemma decimals_int n : 0 <= n < 2 ^ 53 -> decimals 0 (math_Abs (float_of_int n)) = n /\
  decimals 0 (math_Abs (float_of_int (- n))) = n.
Proof.
  intros Hn. destruct n as [|p|p]; [done| |lia].
  assert (Hd : digits2 p <= 53) by (apply digits2_le; lia).
  assert (E : forall s, decimals 0 (SFabs (binary_round 53 1024 s p 0)) = Z.pos p).
  { intros s. destruct (round_exact s p 0 Hd ltac:(lia)) as (m & e & -> & He & _ & Em & _). cbn [SFabs decimals].
    rewrite Z.sub_0_l in Em. change (10 ^ 0) with 1. rewrite !Z.mul_1_r. destruct (Z.leb_spec 0 e).
    - assert (e = 0) as -> by lia. change (2 ^ 0) with 1 in *. change (2 ^ (- 0)) with 1 in Em. lia.
    - pose proof (pow2_pos (- e) ltac:(lia)). rewrite Em. unfold rne. rewrite Z.mod_mul, Z.div_mul by lia.
      rewrite Z.mul_0_r. destruct (Z.compare_spec 0 (2 ^ (- e))); lia. }
  split; apply E.
Qed.

Lemma abs_fval y : is_num y -> is_num (math_Abs y) /\ fval (math_Abs y) = Z.abs (fval y).
Proof.
  intros Hy. destruct y as [s|s| |s m e]; try done. cbn [math_Abs SFabs fval is_num cond_Zopp] in *. split; [done|].
  pose proof (pow2_pos (e + 1074) ltac:(lia)). destruct s; cbn [cond_Zopp]; lia.
Qed.

Lemma abs_text z w n y : is_num y ->
  fmt_float z w n (math_Abs y) = pad_left (if z then 48 else 32) w (fixed_point n (decimals n (math_Abs y))).
Proof. by destruct y. Qed.

(** The degrees and the minutes, in units of 10^-4, that are printed. *)
Definition printed_degrees (dec : float64) : Z := Z.abs (int_of_float dec).
Definition printed_minutes (dec : float64) : Z := decimals 4 (math_Abs (dec_min dec)).

Lemma printed_position dec : degrees_ok dec ->
  let d := printed_degrees dec in let n := printed_minutes dec in
  0 <= d < 2 ^ 32 /\ 0 <= n <= 600000 /\
  2 * Z.abs ((600000 * d + n) * 2 ^ 1074 - 600000 * Z.abs (fval dec)) <= 2 ^ 1074 + 2 ^ 1041 /\
  is_num (dec_min dec).
Proof.
  intros Hd d n. unfold d, n, printed_degrees, printed_minutes. clear d n.
  destruct dec as [s|s| |s m e]; [|by destruct Hd as (_ & _ & Hd)..|].
  { assert (int_of_float (S754_zero s) = 0 /\ exists s', dec_min (S754_zero s) = S754_zero s') as [-> [s' ->]]
      by (split; [done|exists s; by destruct s]).
    cbn [math_Abs SFabs decimals fval]. rewrite Z.mul_0_r. replace (600000 * Z.abs 0 + 0) with 0 by done. change (Z.abs 0) with 0.
    pose proof (pow2_pos 1074 ltac:(lia)). pose proof (pow2_pos 1041 ltac:(lia)).
    set (a := 2 ^ 1041) in *. set (c := 2 ^ 1074) in *. clearbody a c. cbn [is_num]. lia. }
  pose proof (fraction_exact s m e Hd) as Hf. destruct (degrees_shape s m e Hd) as (He & _ & _ & Hq).
  rewrite (int_of_degrees s m e Hd). unfold dec_min. rewrite (int_of_degrees s m e Hd) in *.
  pose proof (pow2_pos (- e) ltac:(lia)) as HP. pose proof (pow2_pos (e + 1074) ltac:(lia)) as HQ.
  pose proof (Z.div_mod (Z.pos m) (2 ^ (- e)) ltac:(lia)) as Hdm. pose proof (Z.mod_pos_bound (Z.pos m) (2 ^ (- e)) HP) as Hr.
  pose proof (Z.div_pos (Z.pos m) (2 ^ (- e)) ltac:(lia) HP) as Hq0.
  assert (EPQ : 2 ^ 1074 = 2 ^ (- e) * 2 ^ (e + 1074)) by (rewrite <- Z.pow_add_r by lia; f_equal; lia).
  assert (Eabs : Z.abs (fval (S754_finite s m e)) = Z.pos m * 2 ^ (e + 1074)) by (destruct s; cbn [fval cond_Zopp]; lia).
  assert (Eq : Z.abs (cond_Zopp s (Z.pos m / 2 ^ (- e))) = Z.pos m / 2 ^ (- e)) by (destruct s; cbn [cond_Zopp]; lia).
  rewrite Eabs, Eq. set (q := _ / _) in *. set (r := _ mod _) in *.
  assert (Hv : 0 <= r * 2 ^ (e + 1074) < 2 ^ 1074) by (rewrite EPQ; nia).
  assert (Em : Z.pos m * 2 ^ (e + 1074) = q * 2 ^ 1074 + r * 2 ^ (e + 1074)) by (rewrite EPQ; nia).
  rewrite Em. set (v := r * _) in *. clearbody q v. clear Hdm Hr Em EPQ Eabs Eq r HP HQ.
  destruct (minutes_error s v _ Hf Hv) as [Hn Hm]. set (y := f_mul _ _) in *.
  destruct (abs_fval y Hn) as [Hn' Ef]. destruct (decimals_error 4 (math_Abs y) Hn' ltac:(lia)) as [H0 H1].
  rewrite Ef in H1. change (10 ^ 4) with 10000 in H1. set (n := decimals 4 _) in *.
  assert (E14 : 2 ^ 1041 = 16384 * 2 ^ 1027) by (change 16384 with (2 ^ 14); rewrite <- Z.pow_add_r by lia; done).
  assert (E47 : 2 ^ 1074 = 8589934592 * 2 ^ 1041) by (change 8589934592 with (2 ^ 33); rewrite <- Z.pow_add_r by lia; done).
  pose proof (pow2_pos 1027 ltac:(lia)). set (a := 2 ^ 1027) in *. set (b := 2 ^ 1041) in *. set (c := 2 ^ 1074) in *.
  clearbody n a b c. repeat split; try lia; try done. nia.
Qed.

(** The text of a position: degrees, minutes in units of 10^-4, hemisphere. *)
Definition position_text (w : nat) (d n : Z) (h : Z) : gostr :=
  pad_left 48 w (itoa d) ++ str "-" ++ pad_left 48 2 (itoa (n / 10000)) ++ str "."
  ++ pad_left 48 4 (itoa (n mod 10000)) ++ [h].

Lemma minutes_text n : 0 <= n < 1000000 ->
  pad_left 48 7 (fixed_point 4 n) = pad_left 48 2 (itoa (n / 10000)) ++ str "." ++ pad_left 48 4 (itoa (n mod 10000)).
Proof.
  intros Hn. unfold fixed_point. change (4 =? 0) with false. cbn match. change (10 ^ 4) with 10000.
  change (Z.to_nat 4) with 4%nat. pose proof (Z.mod_pos_bound n 10000 ltac:(lia)) as Hm.
  assert (Ht : length (str "." ++ pad_left 48 4 (itoa (n mod 10000))) = 5%nat).
  { rewrite length_app, pad_left_length; [done|]. apply (itoa_length _ 3). change (10 ^ Z.of_nat 4) with 10000. lia. }
  rewrite <- (pad_left_app 48 2), Ht; [done|]. apply (itoa_length _ 1). change (10 ^ Z.of_nat 2) with 100.
  split; [apply Z.div_pos; lia|]. apply Z.div_lt_upper_bound; lia.
Qed.

Lemma decToMinDec_text dec lat : degrees_ok dec ->
  decToMinDec dec lat = position_text (if lat then 2 else 3) (printed_degrees dec) (printed_minutes dec) (hemisphere dec lat).
Proof.
  intros Hd. destruct (printed_position dec Hd) as (H1 & H2 & _ & Hn). unfold decToMinDec, position_text.
  rewrite (abs_text true 7 4) by done. fold (printed_minutes dec). rewrite minutes_text by lia.
  rewrite <- !app_assoc. f_equal. unfold printed_degrees in *. set (n := int_of_float dec) in *.
  assert (Ei : is_num (float_of_int n) /\ decimals 0 (math_Abs (float_of_int n)) = Z.abs n).
  { destruct (decimals_int (Z.abs n) ltac:(lia)) as [E1 E2]. split.
    - destruct dec as [s|s| |s m e]; [done|by destruct Hd as (_ & _ & ?)..|]. unfold n. rewrite int_of_degrees by done.
      destruct (degrees_shape s m e Hd) as (_ & _ & _ & Hq).
      pose proof (normalize_holds s (Z.pos m / 2 ^ (- e)) 0) as Hh. destruct Hh as [(_ & s' & E)|(m' & e' & E & He & _)]; try lia.
      + split; [apply Z.div_pos; [lia|]; apply Z.pow_pos_nonneg; [lia|]; destruct (degrees_shape s m e Hd); lia|lia].
      + unfold float_of_int. by rewrite E.
      + unfold float_of_int. rewrite E. cbn. lia.
    - destruct (Z.abs_spec n) as [[? ->]|[? Ea]]; [by rewrite Z.abs_eq in E1 by done|].
      rewrite Ea in *. by rewrite Z.opp_involutive in E2. }
  destruct Ei as [Hi Ei]. rewrite (abs_text true) by done. unfold fixed_point. rewrite Ei. done.
Qed.

Lemma hemisphere_sign dec lat : degrees_ok dec ->
  hemisphere dec lat = match fval dec ?= 0 with Gt => if lat then 78 else 69 | Lt => if lat then 83 else 87 | Eq => 32 end.
Proof.
  intros (_ & _ & Hn). destruct dec as [s|s| |s m e]; try done; [by destruct s, lat|].
  cbn [is_num] in Hn. pose proof (pow2_pos (e + 1074) ltac:(lia)). unfold hemisphere, f_lt, SFltb. cbn [f_zero SFcompare fval].
  destruct s; cbn [cond_Zopp].
  - destruct (Z.compare_spec (- (Z.pos m * 2 ^ (e + 1074))) 0); [lia| |lia]. by destruct lat.
  - destruct (Z.compare_spec (Z.pos m * 2 ^ (e + 1074)) 0); [lia|lia|]. by destruct lat.
Qed.

(** C25. A position is printed as degrees, minutes with four decimals and the letter of
    its hemisphere, and what is printed is the position up to rounding: half a
    unit of the last decimal, and 2^-34 of such a unit for the arithmetic.  The
    minutes may be rounded up to sixty. *)
Theorem position_printed dec lat : degrees_ok dec ->
  exists d n, decToMinDec dec lat = position_text (if lat then 2 else 3) d n
      (match fval dec ?= 0 with Gt => if lat then 78 else 69 | Lt => if lat then 83 else 87 | Eq => 32 end) /\
    0 <= n <= 60 * 10000 /\
    2 * Z.abs ((60 * 10000 * d + n) * 2 ^ 1074 - 60 * 10000 * Z.abs (fval dec)) <= 2 ^ 1074 + 2 ^ 1041.
Proof.
  intros Hd. exists (printed_degrees dec), (printed_minutes dec).
  rewrite decToMinDec_text, hemisphere_sign by done. destruct (printed_position dec Hd) as (_ & H2 & H3 & _). done.
Qed.
End position.

(** The conversion of the amd64 processor. *)
#[export] Instance amd64_conv : FloatConv := {| int_overflow := fun _ => - 2 ^ 63 |}.

(** 60.132, as the nearest float64. *)
Definition sample_latitude : float64 := S754_finite false 8462826649782583 (-47).

Lemma position_printed_witness :
  decToMinDec sample_latitude true = str "60-07.9200N" /\
  exists d n, decToMinDec sample_latitude true = position_text 2 d n 78 /\ 0 <= n <= 60 * 10000 /\
    2 * Z.abs ((60 * 10000 * d + n) * 2 ^ 1074 - 60 * 10000 * Z.abs (fval sample_latitude)) <= 2 ^ 1074 + 2 ^ 1041.
Proof.
  split; [vm_compute; reflexivity|]. apply (position_printed sample_latitude true). split; [vm_compute; reflexivity|].
  split; [vm_compute; reflexivity|]. vm_compute. discriminate.
Defined.

(** A latitude just below 60 degrees is printed as 59 degrees and sixty minutes. *)
Example minutes_reach_sixty : decToMinDec (S754_finite false 8444249301319673 (-47)) true = str "59-60.0000N".
Proof. vm_compute. reflexivity. Qed.

(** ** The message of a report *)

(** Lines that fit are kept by [SetBody] as they are. *)
Definition fits (l : gostr) : Prop := (10 ∉ l) /\ zlen l <= 998.

Lemma scan_crlf l ls : fits l -> scan ((l ++ [13]) :: ls) = l :: scan ls.
Proof.
  intros [_ Hl]. assert (E : exists c r, l ++ [13] = c :: r) by (destruct l; by eexists _, _). destruct E as (c & r & E).
  rewrite E. cbn [scan]. rewrite <- E. destruct (Z.leb_spec 65536 (zlen (l ++ [13]))) as [C|_].
  { rewrite zlen_app, zlen_cons, zlen_nil in C. lia. }
  assert (reverse (l ++ [13]) = 13 :: reverse l) as -> by (by rewrite reverse_app).
  f_equal. rewrite length_app, Nat.add_sub. apply take_app_length.
Qed.

Lemma crlf_body_lines ls : Forall fits ls -> crlf_body (concat ((fun l => l ++ [13; 10]) <$> ls)) = concat ((fun l => l ++ [13; 10]) <$> ls).
Proof.
  intros H. unfold crlf_body.
  assert (E : scan (Split 10 (concat ((fun l => l ++ [13; 10]) <$> ls))) = ls).
  { induction H as [|l ls Hl _ IH]; [done|]. cbn [fmap list_fmap concat].
    change (l ++ [13; 10]) with (l ++ [13] ++ [10]). rewrite (app_assoc l), <- app_assoc. cbn [app].
    rewrite Split_app; [by rewrite scan_crlf, IH|]. apply not_elem_app; [apply Hl|by apply not_elem_existsb]. }
  rewrite E. f_equal. clear E. apply list_fmap_ext. intros i l Hi. rewrite Forall_lookup in H. destruct (H i l Hi) as [_ Hl].
  cbn [break_line]. rewrite Nat.min_l by (unfold zlen in Hl; lia). by rewrite firstn_all, drop_all.
Qed.

Section report.
Context `{FloatConv} `{Charset} `{Clock} `{MD5}.

(** Building a message in the order of the report, and in the usual order. *)
Lemma report_headers (m : message) a s b :
  AddTo (SetSubject (SetBody m b) s) [a] = SetBody (SetSubject (AddTo m [a]) s) b.
Proof.
  unfold AddTo, SetSubject, SetBody, SetBodyWithCharset, set_hdr, add_hdr, h_Set, h_Add. cbn [foldl m_header m_body m_files].
  f_equal. unfold h_values.
  change (CanonicalKey HEADER_TO) with HEADER_TO. change (CanonicalKey HEADER_SUBJECT) with HEADER_SUBJECT.
  change (CanonicalKey HEADER_BODY) with HEADER_BODY. change (CanonicalKey HEADER_CONTENT_TYPE) with HEADER_CONTENT_TYPE.
  change (CanonicalKey HEADER_CONTENT_TRANSFER_ENCODING) with HEADER_CONTENT_TRANSFER_ENCODING.
  apply map_eq. intros k. rewrite !lookup_insert.
  repeat case_decide; subst; first [done|match goal with E : _ = _ |- _ => by vm_compute in E end].
Qed.

(** The message of a report is valid, is addressed to QTH, and its body holds the
    lines of the report as they are. *)
Theorem report_message nowString now p mycall :
  mycall <> [] -> 58 ∉ mycall -> 64 ∉ mycall -> Forall fits (report_lines p) ->
  toCharset DefaultCharset (str "POSITION REPORT") = str "POSITION REPORT" ->
  0 < zlen (charset_encode DefaultCharset (report_text p)) < 2 ^ 63 ->
  exists m, report_Message nowString now p mycall = Ok m /\ Validate m = None /\
    m.(m_body) = charset_encode DefaultCharset (report_text p) /\
    Receivers m = [mkAddr [] (str "QTH")] /\ msg_Type m = str "Position Report" /\ m.(m_files) = [].
Proof.
  intros Hc H58 H64 Hl Hs Hb.
  assert (Eb : StringToBody (report_text p) DefaultCharset = charset_encode DefaultCharset (report_text p))
    by (unfold StringToBody, report_text; by rewrite crlf_body_lines).
  destruct (new_message_validates nowString now (str "Position Report") mycall [str "QTH"] (str "POSITION REPORT") (report_text p))
    as (m & Em & Hv); [done..|rewrite Hs; vm_compute; split; [reflexivity|discriminate]|by rewrite Eb|].
  assert (Em' := Em). unfold NewMessage in Em'. destruct (GenerateMid nowString mycall) as [mid| |]; [|done..].
  injection Em' as Em'. exists (AddTo (SetSubject (SetBody m (report_text p)) (str "POSITION REPORT")) [str "QTH"]).
  split; [unfold report_Message; by rewrite Em|]. rewrite report_headers. split; [exact Hv|].
  split; [exact Eb|]. rewrite <- Em'. repeat split.
Qed.
End report.

Definition sample_report : PosReport :=
  mkReport 0 (Some sample_latitude) (Some (float_of_int (-5))) (Some (float_of_int 7)) (Some (mkCourse (str "123") true)) (str "Hjemme QTH").

Lemma report_message_witness :
  exists m, report_Message (H0 := any_clock) (H1 := raw_charset) (H2 := zero_md5) [] 0 sample_report (str "LA5NTA") = Ok m /\
    Validate m = None /\ m.(m_body) = charset_encode (Charset := raw_charset) DefaultCharset (report_text (H0 := any_clock) sample_report) /\
    Receivers m = [mkAddr [] (str "QTH")] /\ msg_Type m = str "Position Report" /\ m.(m_files) = [].
Proof.
  apply (report_message (H0 := raw_charset) (H1 := any_clock) (H2 := zero_md5) [] 0 sample_report (str "LA5NTA")).
  - done.
  - by apply not_elem_existsb.
  - by apply not_elem_existsb.
  - assert (F : forallb (fun l => negb (existsb (Z.eqb 10) l) && (zlen l <=? 998)) (report_lines (H0 := any_clock) sample_report) = true)
      by (vm_compute; reflexivity).
    apply Forall_forall. intros l Hl. rewrite forallb_forall in F. specialize (F l (proj1 (list_elem_of_In _ _) Hl)).
    apply andb_true_iff in F as [F1 F2]. split; [|by apply Z.leb_le].
    apply not_elem_existsb. by apply negb_true_iff.
  - reflexivity.
  - vm_compute. split; reflexivity.
Defined.

(** ** Courses *)

(** A course is its number of degrees, 360 being 0, in three characters; other
    numbers are refused.  Numbers of less than three digits are padded with
    spaces. *)
Theorem course_text d mag : 0 <= d <= 360 -> exists c, NewCourse d mag = inr c /\
  course_String c = pad_left 32 3 (itoa (d mod 360)) ++ (if mag then str "M" else str "T") /\ length (course_String c) = 4%nat.
Proof.
  intros Hd. unfold NewCourse. destruct (Z.ltb_spec d 0), (Z.ltb_spec 360 d); try lia. cbn [orb].
  assert (E : (if d =? 360 then 0 else d) = d mod 360)
    by (destruct (Z.eqb_spec d 360) as [->|]; [done|rewrite Z.mod_small; lia]).
  rewrite E. eexists. split; [done|]. pose proof (Z.mod_pos_bound d 360 ltac:(lia)).
  assert (Hl : length (pad_left 32 3 (itoa (d mod 360))) = 3%nat).
  { apply pad_left_length, (itoa_length _ 2). change (10 ^ Z.of_nat 3) with 1000. lia. }
  rewrite firstn_all2 by lia. unfold course_String. cbn [Magnetic Digits]. destruct mag.
  all: split; [done|]; by rewrite length_app, Hl.
Qed.

Lemma course_text_witness : exists c, NewCourse 360 false = inr c /\
  course_String c = pad_left 32 3 (itoa (360 mod 360)) ++ str "T" /\ length (course_String c) = 4%nat.
Proof. apply (course_text 360 false). lia. Defined.
