(* ===== verification/MessageText.v ===== *)
(** Reading a message: [Body], [Charset] and [String] of [src/fbb/message.go],
    the attachments, and the order of messages by date ([ByDate] of
    [src/fbb/helpers.go]).  The parser of media types of package mime and the
    default format of a time are parameters. *)
From S2P Require Import Prelude Crc GoStr Helpers Mid Words Transfer Message MessageFormat.
From stdpp Require Import gmap.
Open Scope Z_scope.

(** [mime.ParseMediaType]: the parameters, or [None] when there is an error. *)
Class MediaType := { ParseMediaType : gostr -> option (gmap gostr gostr) }.
(** [time.Time.String] *)
Class TimeString := { time_String : Z -> gostr }.

(** ** Attachments *)
Definition f_Name (f : file) : gostr := f.(f_name).
Definition f_Size (f : file) : Z := zlen f.(f_data).
Definition f_Data (f : file) : gostr := f.(f_data).

(** ** The order of messages by date *)
Definition ByDate_Less `{Charset} `{Clock} (a b : message) : bool := Date a <? Date b.

Section text.
Context `{Charset} `{Clock} `{MediaType}.

(** [Message.Charset] *)
Definition msg_Charset (m : message) : gostr :=
  match ParseMediaType (h_Get m.(m_header) HEADER_CONTENT_TYPE) with
  | None => DefaultCharset
  | Some params => default DefaultCharset (params !! str "charset")
  end.

Definition Body (m : message) : gostr := BodyFromBytes m.(m_body) (msg_Charset m).
Definition Files (m : message) : list file := m.(m_files).

(** A line of [fmt.Fprintln] with two operands. *)
Definition println (a b : gostr) : gostr := a ++ [32] ++ b ++ [10].

Definition message_String `{TimeString} (m : message) : gostr :=
  println (str "MID: ") (MID m)
  ++ println (str "Date:") (time_String (Date m))
  ++ println (str "From:") (addr_String (From m))
  ++ concat ((fun a => println (str "To:") (addr_String a)) <$> To m)
  ++ concat ((fun a => println (str "Cc:") (addr_String a)) <$> Cc m)
  ++ println (str "Subject:") (Subject m)
  ++ [10] ++ Body m ++ [10]
  ++ str "Attachments:" ++ [10]
  ++ concat ((fun f => [9] ++ f_Name f ++ str " [" ++ itoa (f_Size f) ++ str " bytes]" ++ [10]) <$> Files m).

(** What the parameters are relied on for: the header [SetBody] sets announces the
    character set it encodes with, and text that can be encoded is decoded as it
    was. *)
Definition announces_charset : Prop :=
  ParseMediaType (str "text/plain; charset=ISO-8859-1") = Some {[ str "charset" := DefaultCharset ]}.
Definition encodable (s : gostr) : Prop := charset_decode DefaultCharset (charset_encode DefaultCharset s) = s.

Lemma charset_SetBody m s : announces_charset -> msg_Charset (SetBody m s) = DefaultCharset.
Proof.
  intros Ha. unfold msg_Charset, SetBody, SetBodyWithCharset, set_hdr. cbn [m_header].
  rewrite h_Get_Set_ne by (by vm_compute). rewrite h_Get_Set, Ha. by rewrite lookup_singleton.
Qed.

End text.

(** ** The lines of a body

    A text by its lines: what each holds, and whether it ends in CRLF or in LF; what
    comes after the last line break may end in a CR. *)
Record text := mkText { t_lines : list (gostr * bool); t_last : gostr * bool }.

Definition cr (b : bool) : gostr := if b then [13] else [].
Definition text_bytes (t : text) : gostr :=
  concat ((fun l => l.1 ++ cr l.2 ++ [10]) <$> t.(t_lines)) ++ t.(t_last).1 ++ cr t.(t_last).2.

(** A line holds no line break, and is shorter than the 64 KiB a bufio.Scanner takes. *)
Definition line_ok (l : gostr * bool) : Prop :=
  (10 ∉ l.1) /\ zlen l.1 < 65535 /\ (l.2 = false -> last l.1 <> Some 13).
Definition text_ok (t : text) : Prop := Forall line_ok t.(t_lines) /\ line_ok t.(t_last).

(** The end of a text is a line when it is not empty. *)
Definition last_line (l : gostr * bool) : list gostr := match l with ([], false) => [] | _ => [l.1] end.
Definition text_lines (t : text) : list gostr := (fst <$> t.(t_lines)) ++ last_line t.(t_last).

(** A line in pieces of 998 bytes; the last holds what is left, and only an empty line
    has an empty one. *)
Definition cut_line (l : gostr) (ps : list gostr) : Prop :=
  concat ps = l /\ exists full rest, ps = full ++ [rest] /\ Forall (fun p => zlen p = 998) full /\
    zlen rest <= 998 /\ (rest = [] -> full = []).
Definition crlf_lines (ps : list gostr) : gostr := concat ((fun p => p ++ [13; 10]) <$> ps).

Lemma break_line_cut f l : (length l < f)%nat -> exists ps, break_line f l = crlf_lines ps /\ cut_line l ps.
Proof.
  revert l. induction f as [|f IH]; intros l Hf; [lia|]. cbn [break_line]. destruct (decide (length l <= 998)%nat) as [Hl|Hl].
  - exists [l]. rewrite Nat.min_l, firstn_all, drop_all by done. split; [unfold crlf_lines; cbn; by rewrite app_nil_r|].
    split; [apply app_nil_r|].
    exists [], l. unfold zlen. split_and!; [done|done|lia|done].
  - rewrite Nat.min_r by lia. assert (Hd : length (drop 998 l) <> O) by (rewrite length_drop; lia).
    destruct (IH (drop 998 l)) as (ps & E & Ec & full & rest & -> & H1 & H2 & H3); [rewrite length_drop; lia|].
    exists (take 998 l :: full ++ [rest]). destruct (drop 998 l) as [|d ds] eqn:Ed; [done|]. rewrite E. split.
    { unfold crlf_lines. cbn [fmap list_fmap concat]. by rewrite <- app_assoc. }
    split; [cbn [concat]; rewrite Ec, <- Ed; apply take_drop|]. exists (take 998 l :: full), rest. split_and!; [done| |done|].
    + constructor; [|done]. unfold zlen. rewrite length_take. lia.
    + intros Hr. rewrite (H3 Hr), Hr in Ec. done.
Qed.

Lemma drop_cr l b : (b = false -> last l <> Some 13) ->
  match reverse (l ++ cr b) with 13 :: _ => take (length (l ++ cr b) - 1) (l ++ cr b) | _ => l ++ cr b end = l.
Proof.
  intros Hl. destruct b; cbn [cr].
  - rewrite reverse_app, length_app. cbn [length]. rewrite Nat.add_sub, take_app_length. done.
  - specialize (Hl eq_refl). rewrite app_nil_r. destruct (reverse l) as [|c r] eqn:E; [done|].
    assert (l = reverse r ++ [c]) as -> by (rewrite <- (reverse_involutive l), E; apply reverse_cons).
    rewrite last_snoc in Hl. repeat case_match; congruence.
Qed.

Lemma scan_line l rest : line_ok l -> rest <> [] -> scan ((l.1 ++ cr l.2) :: rest) = l.1 :: scan rest.
Proof.
  intros (_ & Hz & Hl) Hr. destruct l as [l b]. cbn [fst snd] in *. assert (E := drop_cr l b Hl).
  assert (Hz' : zlen (l ++ cr b) < 65536) by (rewrite zlen_app; destruct b; unfold zlen in *; cbn [cr length]; lia).
  cbn [scan]. destruct (Z.leb_spec 65536 (zlen (l ++ cr b))); [lia|]. rewrite E.
  destruct (l ++ cr b); [|done]. by destruct rest.
Qed.

Lemma scan_last l : line_ok l -> scan [l.1 ++ cr l.2] = last_line l.
Proof.
  intros (_ & Hz & Hl). destruct l as [l b]. cbn [fst snd] in *. assert (E := drop_cr l b Hl).
  assert (Hz' : zlen (l ++ cr b) < 65536) by (rewrite zlen_app; destruct b; unfold zlen in *; cbn [cr length]; lia).
  destruct l as [|c l]; [by destruct b|]. cbn [scan app]. cbn [app] in *.
  destruct (Z.leb_spec 65536 (zlen (c :: l ++ cr b))); [lia|]. by rewrite E.
Qed.

Lemma scan_text t : text_ok t -> scan (Split 10 (text_bytes t)) = text_lines t.
Proof.
  destruct t as [ls l]. intros [Hls Hl]. cbn [t_lines t_last] in *. unfold text_bytes, text_lines. cbn [t_lines t_last].
  assert (Hn : forall l, line_ok l -> 10 ∉ l.1 ++ cr l.2).
  { intros [x b] (H & _). apply not_elem_app; [done|]. destruct b; by apply not_elem_existsb. }
  induction Hls as [|x ls Hx _ IH]; cbn [fmap list_fmap concat app].
  - rewrite Split_none by by apply Hn. by apply scan_last.
  - rewrite <- !app_assoc. cbn [app]. rewrite (app_assoc x.1), Split_app by by apply Hn.
    rewrite scan_line; [by f_equal|done|]. destruct (Split_cons 10 (concat ((fun l => l.1 ++ cr l.2 ++ [10]) <$> ls) ++ l.1 ++ cr l.2)) as (p & ps & ->). done.
Qed.

Lemma break_lines ls : exists pss, Forall2 cut_line ls pss /\
  concat ((fun l => break_line (S (length l)) l) <$> ls) = crlf_lines (concat pss).
Proof.
  induction ls as [|l ls (pss & H & E)]; [by exists []|].
  destruct (break_line_cut (S (length l)) l) as (ps & Eb & Hc); [lia|]. exists (ps :: pss). split; [by constructor|].
  cbn [fmap list_fmap concat]. cbn [fmap] in E. rewrite E, Eb. unfold crlf_lines. by rewrite fmap_app, concat_app.
Qed.

(** Every text is of that form, but for the length of its lines. *)
Lemma text_of s : exists t, s = text_bytes t /\ Forall (fun l => (10 ∉ l.1) /\ (l.2 = false -> last l.1 <> Some 13)) (t.(t_last) :: t.(t_lines)).
Proof.
  assert (H1 : forall p : gostr, 10 ∉ p -> exists l : gostr * bool, p = l.1 ++ cr l.2 /\ (10 ∉ l.1) /\ (l.2 = false -> last l.1 <> Some 13)).
  { intros p Hp. destruct (decide (last p = Some 13)) as [E|E].
    - apply last_Some in E as [q ->]. exists (q, true). split_and!; [done| |done]. intros Hq. apply Hp, elem_of_app. by left.
    - exists (p, false). cbn. by rewrite app_nil_r. }
  assert (H2 : forall s : gostr, (10 ∉ s) \/ exists a b, s = a ++ 10 :: b /\ (10 ∉ a)).
  { intros x. destruct (decide (10 ∈ x)) as [Hx|Hx]; [right|by left]. apply list_elem_of_split_l in Hx as (a & b & -> & Ha). by exists a, b. }
  remember (length s) as n eqn:En. revert s En. induction n as [n IH] using lt_wf_ind. intros s ->.
  destruct (H2 s) as [Hs|(a & b & -> & Ha)].
  - destruct (H1 s Hs) as (l & -> & Hl). exists (mkText [] l). split; [done|]. by constructor.
  - destruct (IH (length b) ltac:(rewrite length_app; cbn; lia) b eq_refl) as ([ls l] & -> & Hl). destruct (H1 a Ha) as (x & -> & Hx).
    exists (mkText (x :: ls) l). split; [|apply Forall_cons in Hl as [? ?]; constructor; [done|by constructor]].
    unfold text_bytes. cbn [t_lines t_last fmap list_fmap concat]. by rewrite <- !app_assoc.
Qed.

(** C32. The body [SetBody] gives a message: whether the lines of the text end in LF
    or in CRLF, all end in CRLF, the last one too; empty lines are kept, and a line
    of more than 998 bytes is cut into pieces of 998 bytes. What is stored is the
    encoding of that, and [Body] reads it back if the character set can hold it and
    the header is parsed as what [SetBody] writes. Lines are shorter than 65535
    bytes. *)
Theorem body_roundtrip `{Charset} `{Clock} `{MediaType} (m : message) (t : text) : text_ok t -> announces_charset ->
  let m' := SetBody m (text_bytes t) in
  exists pss, Forall2 cut_line (text_lines t) pss /\
    let b := crlf_lines (concat pss) in
    m'.(m_body) = charset_encode DefaultCharset b /\
    h_Get m'.(m_header) HEADER_BODY = itoa (zlen (charset_encode DefaultCharset b)) /\
    (encodable b -> Body m' = b).
Proof.
  intros Ht Ha m'. destruct (break_lines (text_lines t)) as (pss & Hc & E). exists pss. split; [done|]. cbv zeta.
  assert (Eb : m'.(m_body) = charset_encode DefaultCharset (crlf_lines (concat pss))).
  { rewrite <- E, <- scan_text by done. reflexivity. }
  split; [exact Eb|]. split.
  - rewrite <- Eb. unfold m', SetBody, SetBodyWithCharset, set_hdr. cbn [m_header m_body].
    by rewrite h_Get_Set.
  - intros He. unfold Body, BodyFromBytes. rewrite Eb. unfold m'. rewrite charset_SetBody by done. exact He.
Qed.

Definition plain_media : MediaType := {| ParseMediaType := fun _ => Some {[ str "charset" := DefaultCharset ]} |}.

(** A line that ends in LF, an empty one that ends in CRLF, and a long one at the end. *)
Definition sample_text : text := mkText [(str "Hello", false); ([], true)] (replicate 1000 65, false).

Lemma body_roundtrip_witness :
  let m' := SetBody (H := raw_charset) sample_message (text_bytes sample_text) in
  exists pss, Forall2 cut_line [str "Hello"; []; replicate 1000 65] pss /\
  Body (H := raw_charset) (H1 := plain_media) m' = crlf_lines (concat pss).
Proof.
  intros m'. destruct (body_roundtrip (H := raw_charset) (H0 := any_clock) (H1 := plain_media) sample_message sample_text) as (pss & E1 & _ & _ & E2).
  - assert (H : forall l : gostr * bool, forallb (fun c => negb (c =? 10)) l.1 && (zlen l.1 <? 65535) && (l.2 || negb (bool_decide (last l.1 = Some 13))) = true -> line_ok l).
    { intros l. rewrite !andb_true_iff, orb_true_iff, forallb_forall, Z.ltb_lt. intros [[H1 H2] H3]. split_and!; [|done|].
      - intros Hx. apply list_elem_of_In, H1 in Hx. done.
      - intros Hl. destruct H3 as [H3|H3]; [congruence|]. by apply negb_true_iff, bool_decide_eq_false in H3. }
    split; [repeat constructor|]; apply H; vm_compute; reflexivity.
  - reflexivity.
  - exists pss. split; [exact E1|exact (E2 eq_refl)].
Defined.

(** Messages are compared by their dates alone: a strict weak order. *)
Lemma ByDate_Less_order `{Charset} `{Clock} a b c :
  ByDate_Less a a = false /\ (ByDate_Less a b = true -> ByDate_Less b c = true -> ByDate_Less a c = true) /\
  (ByDate_Less a b = false -> ByDate_Less b c = false -> ByDate_Less a c = false).
Proof. unfold ByDate_Less. rewrite !Z.ltb_lt, !Z.ltb_ge. split_and!; lia. Qed.
