(* ===== verification/Session.v ===== *)
(** The B2F session: the Session struct of [src/fbb/wl2k.go] with its setters,
    the mailbox interface, and the state and error monad its methods run in.

    The connection is the input still to come ([s_rd], the buffered reader) and
    the output written so far ([s_out]); writing to it succeeds.  Status updates,
    deadlines and logging are left out. *)
From S2P Require Import Prelude Crc GoStr Helpers Words Proposal Message.
From stdpp Require Import gmap.
Open Scope Z_scope.

(** ** Interfaces *)

(** [MBoxHandler]: the operations of a mailbox on its state.  What
    [GetOutbound] and [GetInboundAnswer] return depends on the state only. *)
Class MBoxHandler (M : Type) := {
  Prepare : M -> option error * M;
  GetOutbound : list address -> M -> list message;
  SetSent : gostr -> bool -> M -> M;
  SetDeferred : gostr -> M -> M;
  ProcessInbound : message -> M -> option error * M;
  GetInboundAnswer : proposal -> M -> Z }.

(** The environment variables GZIP_EXPERIMENT and FW_AUX_ONLY_EXPERIMENT. *)
Class Environment := { gzipExperimentEnabled : bool; fwAuxOnlyExperiment : bool }.

(** The order in which Go ranges over a map: any order of its entries. *)
Class MapOrder := {
  range : gmap gostr bool -> list (gostr * bool);
  range_perm : forall m, range m ≡ₚ map_to_list m }.

(** ** Data *)
Record UserAgent := mkUA { ua_Name : gostr; ua_Version : gostr }.
Record TrafficStats := mkStats { Received : list gostr; Sent : list gostr }.

Inductive robustMode := RobustAuto | RobustForced | RobustDisabled.
#[export] Instance robustMode_eq_dec : EqDecision robustMode.
Proof. solve_decision. Defined.

(** [s_robust] belongs to the connection: the calls of its [SetRobust] so far, each
    with the number of bytes that had been written by then; [None] when the
    connection does not implement [transport.Robust]. *)
Record session (M : Type) := mkSession {
  s_mycall : gostr; s_targetcall : gostr; s_locator : gostr; s_motd : list gostr;
  s_h : option M;
  s_login : option (address -> gostr * option error);  (* secureLoginHandleFunc *)
  s_master : bool;
  s_remoteSID : gostr; s_remoteFW : list address; s_localFW : list address;
  s_stats : TrafficStats;
  s_quitReceived : bool; s_quitSent : bool; s_remoteNoMsgs : bool;
  s_rd : gostr; s_out : gostr; s_closed : bool;
  s_ua : UserAgent;
  s_mode : robustMode;
  s_robust : option (list (bool * Z)) }.
Arguments mkSession {M}.
Arguments s_mycall {M}. Arguments s_targetcall {M}. Arguments s_locator {M}. Arguments s_motd {M}.
Arguments s_h {M}. Arguments s_login {M}. Arguments s_master {M}. Arguments s_remoteSID {M}.
Arguments s_remoteFW {M}. Arguments s_localFW {M}. Arguments s_stats {M}. Arguments s_quitReceived {M}.
Arguments s_quitSent {M}. Arguments s_remoteNoMsgs {M}. Arguments s_rd {M}. Arguments s_out {M}.
Arguments s_closed {M}. Arguments s_ua {M}. Arguments s_mode {M}. Arguments s_robust {M}.

Section session.
Context {M : Type}.
Implicit Types s : session M.

(** Assignments to the fields. *)
Definition set_motd s x : session M :=
  mkSession s.(s_mycall) s.(s_targetcall) s.(s_locator) x s.(s_h) s.(s_login) s.(s_master) s.(s_remoteSID) s.(s_remoteFW)
    s.(s_localFW) s.(s_stats) s.(s_quitReceived) s.(s_quitSent) s.(s_remoteNoMsgs) s.(s_rd) s.(s_out) s.(s_closed) s.(s_ua) s.(s_mode) s.(s_robust).
Definition set_h s x : session M :=
  mkSession s.(s_mycall) s.(s_targetcall) s.(s_locator) s.(s_motd) x s.(s_login) s.(s_master) s.(s_remoteSID) s.(s_remoteFW)
    s.(s_localFW) s.(s_stats) s.(s_quitReceived) s.(s_quitSent) s.(s_remoteNoMsgs) s.(s_rd) s.(s_out) s.(s_closed) s.(s_ua) s.(s_mode) s.(s_robust).
Definition set_login s x : session M :=
  mkSession s.(s_mycall) s.(s_targetcall) s.(s_locator) s.(s_motd) s.(s_h) x s.(s_master) s.(s_remoteSID) s.(s_remoteFW)
    s.(s_localFW) s.(s_stats) s.(s_quitReceived) s.(s_quitSent) s.(s_remoteNoMsgs) s.(s_rd) s.(s_out) s.(s_closed) s.(s_ua) s.(s_mode) s.(s_robust).
Definition set_master s x : session M :=
  mkSession s.(s_mycall) s.(s_targetcall) s.(s_locator) s.(s_motd) s.(s_h) s.(s_login) x s.(s_remoteSID) s.(s_remoteFW)
    s.(s_localFW) s.(s_stats) s.(s_quitReceived) s.(s_quitSent) s.(s_remoteNoMsgs) s.(s_rd) s.(s_out) s.(s_closed) s.(s_ua) s.(s_mode) s.(s_robust).
Definition set_remote s sid fw : session M :=
  mkSession s.(s_mycall) s.(s_targetcall) s.(s_locator) s.(s_motd) s.(s_h) s.(s_login) s.(s_master) sid fw
    s.(s_localFW) s.(s_stats) s.(s_quitReceived) s.(s_quitSent) s.(s_remoteNoMsgs) s.(s_rd) s.(s_out) s.(s_closed) s.(s_ua) s.(s_mode) s.(s_robust).
Definition set_localFW s x : session M :=
  mkSession s.(s_mycall) s.(s_targetcall) s.(s_locator) s.(s_motd) s.(s_h) s.(s_login) s.(s_master) s.(s_remoteSID) s.(s_remoteFW)
    x s.(s_stats) s.(s_quitReceived) s.(s_quitSent) s.(s_remoteNoMsgs) s.(s_rd) s.(s_out) s.(s_closed) s.(s_ua) s.(s_mode) s.(s_robust).
Definition set_stats s x : session M :=
  mkSession s.(s_mycall) s.(s_targetcall) s.(s_locator) s.(s_motd) s.(s_h) s.(s_login) s.(s_master) s.(s_remoteSID) s.(s_remoteFW)
    s.(s_localFW) x s.(s_quitReceived) s.(s_quitSent) s.(s_remoteNoMsgs) s.(s_rd) s.(s_out) s.(s_closed) s.(s_ua) s.(s_mode) s.(s_robust).
Definition set_quit s (received sent : bool) : session M :=
  mkSession s.(s_mycall) s.(s_targetcall) s.(s_locator) s.(s_motd) s.(s_h) s.(s_login) s.(s_master) s.(s_remoteSID) s.(s_remoteFW)
    s.(s_localFW) s.(s_stats) received sent s.(s_remoteNoMsgs) s.(s_rd) s.(s_out) s.(s_closed) s.(s_ua) s.(s_mode) s.(s_robust).
Definition set_noMsgs s x : session M :=
  mkSession s.(s_mycall) s.(s_targetcall) s.(s_locator) s.(s_motd) s.(s_h) s.(s_login) s.(s_master) s.(s_remoteSID) s.(s_remoteFW)
    s.(s_localFW) s.(s_stats) s.(s_quitReceived) s.(s_quitSent) x s.(s_rd) s.(s_out) s.(s_closed) s.(s_ua) s.(s_mode) s.(s_robust).
Definition set_rd s x : session M :=
  mkSession s.(s_mycall) s.(s_targetcall) s.(s_locator) s.(s_motd) s.(s_h) s.(s_login) s.(s_master) s.(s_remoteSID) s.(s_remoteFW)
    s.(s_localFW) s.(s_stats) s.(s_quitReceived) s.(s_quitSent) s.(s_remoteNoMsgs) x s.(s_out) s.(s_closed) s.(s_ua) s.(s_mode) s.(s_robust).
Definition set_out s x : session M :=
  mkSession s.(s_mycall) s.(s_targetcall) s.(s_locator) s.(s_motd) s.(s_h) s.(s_login) s.(s_master) s.(s_remoteSID) s.(s_remoteFW)
    s.(s_localFW) s.(s_stats) s.(s_quitReceived) s.(s_quitSent) s.(s_remoteNoMsgs) s.(s_rd) x s.(s_closed) s.(s_ua) s.(s_mode) s.(s_robust).
Definition set_closed s x : session M :=
  mkSession s.(s_mycall) s.(s_targetcall) s.(s_locator) s.(s_motd) s.(s_h) s.(s_login) s.(s_master) s.(s_remoteSID) s.(s_remoteFW)
    s.(s_localFW) s.(s_stats) s.(s_quitReceived) s.(s_quitSent) s.(s_remoteNoMsgs) s.(s_rd) s.(s_out) x s.(s_ua) s.(s_mode) s.(s_robust).
Definition set_ua s x : session M :=
  mkSession s.(s_mycall) s.(s_targetcall) s.(s_locator) s.(s_motd) s.(s_h) s.(s_login) s.(s_master) s.(s_remoteSID) s.(s_remoteFW)
    s.(s_localFW) s.(s_stats) s.(s_quitReceived) s.(s_quitSent) s.(s_remoteNoMsgs) s.(s_rd) s.(s_out) s.(s_closed) x s.(s_mode) s.(s_robust).

Definition set_mode s x : session M :=
  mkSession s.(s_mycall) s.(s_targetcall) s.(s_locator) s.(s_motd) s.(s_h) s.(s_login) s.(s_master) s.(s_remoteSID) s.(s_remoteFW)
    s.(s_localFW) s.(s_stats) s.(s_quitReceived) s.(s_quitSent) s.(s_remoteNoMsgs) s.(s_rd) s.(s_out) s.(s_closed) s.(s_ua) x s.(s_robust).
Definition set_robust s x : session M :=
  mkSession s.(s_mycall) s.(s_targetcall) s.(s_locator) s.(s_motd) s.(s_h) s.(s_login) s.(s_master) s.(s_remoteSID) s.(s_remoteFW)
    s.(s_localFW) s.(s_stats) s.(s_quitReceived) s.(s_quitSent) s.(s_remoteNoMsgs) s.(s_rd) s.(s_out) s.(s_closed) s.(s_ua) s.(s_mode) x.

Definition StdUA : UserAgent := mkUA (str "wl2kgo") (str "0.1a").

(** [NewSession], on a connection that has not been used. *)
Definition NewSession (mycall targetcall locator : gostr) (h : option M) : session M :=
  let mycall := ToUpper mycall in
  let targetcall := ToUpper targetcall in
  mkSession mycall targetcall locator [] h None false [] [] [AddressFromString mycall]
    (mkStats [] []) false false false [] [] false StdUA RobustAuto None.

Definition SetMOTD s (line : list gostr) := set_motd s line.
Definition IsMaster s (isMaster : bool) := set_master s isMaster.
Definition RemoteSID s := s.(s_remoteSID).
Definition Mycall s := s.(s_mycall).
Definition Targetcall s := s.(s_targetcall).
Definition SetSecureLoginHandleFunc s f := set_login s (Some f).
Definition RemoteForwarders s := s.(s_remoteFW).
Definition AddAuxiliaryAddress s (aux : list address) := set_localFW s (s.(s_localFW) ++ aux).
Definition SetUserAgent s (ua : UserAgent) := set_ua s ua.
Definition SetRobustMode s (mode : robustMode) := set_mode s mode.
(** [conn.SetRobust], when the connection has it. *)
Definition SetRobust (r : bool) s :=
  match s.(s_robust) with Some calls => set_robust s (Some (calls ++ [(r, zlen s.(s_out))])) | None => s end.
Definition Done s : bool := s.(s_quitReceived) || s.(s_quitSent).

(** ** The session monad

    A method returns an error or a value, and has changed the session either
    way. *)
Definition sess (A : Type) : Type := session M -> res ((error + A) * session M).

#[export] Instance sess_ret : MRet sess := fun A a s => Ok (inr a, s).
#[export] Instance sess_bind : MBind sess := fun A B f m s =>
  match m s with
  | Ok (inr a, s) => f a s
  | Ok (inl e, s) => Ok (inl e, s)
  | Panic => Panic
  | NoFuel => NoFuel
  end.

Definition throw {A} (e : error) : sess A := fun s => Ok (inl e, s).
Definition lift {A} (r : res A) : sess A := fun s => a ← r; mret (inr a, s).
Definition gets {A} (f : session M -> A) : sess A := fun s => Ok (inr (f s), s).
Definition modify (f : session M -> session M) : sess () := fun s => Ok (inr (), f s).
Definition no_fuel {A} : sess A := fun _ => NoFuel.

(** [if err != nil { return err }] *)
Definition throw_err (e : option error) : sess () := match e with Some e => throw e | None => mret () end.

(** Writing to the connection, reading a line, looking at the next byte. *)
Definition write (b : gostr) : sess () := modify (fun s => set_out s (s.(s_out) ++ b)).
Definition sess_nextLine (parseErr : bool) : sess gostr := fun s =>
  r ← nextLineRemoteErr parseErr s.(s_rd);
  let '(x, rd) := r in mret (x, set_rd s rd).
Definition peek : sess Z := fun s =>
  match s.(s_rd) with c :: _ => Ok (inr c, s) | [] => Ok (inl io_EOF, s) end.

(** A call of the mailbox handler; there is none to call when it is nil. *)
Definition with_h {A} (f : M -> A * M) : sess A := fun s =>
  match s.(s_h) with
  | Some h => let '(a, h) := f h in Ok (inr a, set_h s (Some h))
  | None => Panic
  end.
End session.
#[export] Typeclasses Opaque sess.

(** ** SID codes *)
Definition sFBBasic := str "F".
Definition sFBComp2 := str "B2".
Definition sHL := str "H".
Definition sMID := str "M".
Definition sBID := str "$".
Definition sGzip := str "G".
Definition localSID : gostr := sFBComp2 ++ sFBBasic ++ sHL ++ sMID ++ sBID.

(** [sid.Has] *)
Definition Has (sid code : gostr) : bool := Contains sid (ToUpper code).

(** ** Outbound messages *)
Section outbound.
Context {M : Type} `{Charset} `{Clock} `{Gzip} `{Environment} `{MBoxHandler M}.
Implicit Types s : session M.

Definition highestPropCode s : Z :=
  if Has s.(s_remoteSID) sGzip && gzipExperimentEnabled then GzipProposal else Wl2kProposal.

(** The loop of [outbound]: invalid messages are left out. *)
Fixpoint prepare_all (code : Z) (msgs : list message) : res (list proposal) :=
  match msgs with
  | [] => mret []
  | m :: msgs =>
      match Validate m with
      | Some _ => prepare_all code msgs
      | None =>
          p ← msg_Proposal m code;
          ps ← prepare_all code msgs;
          mret (match p with inl _ => ps | inr p => p :: ps end)
      end
  end.

Definition outbound s : res (list proposal) :=
  match s.(s_h) with
  | None => mret []
  | Some h =>
      props ← prepare_all (highestPropCode s) (GetOutbound s.(s_remoteFW) h);
      mret (sortProposals props)
  end.
End outbound.

(** ** Lemmas *)
Section lemmas.
Context {M : Type}.
Implicit Types s : session M.

Lemma sess_bind_inr {A B} (m : sess A) (f : A -> sess B) s a s' : m s = Ok (inr a, s') -> (m ≫= f) s = f a s'.
Proof. intros E. unfold mbind, sess_bind. by rewrite E. Qed.

Lemma sess_bind_inl {A B} (m : sess A) (f : A -> sess B) s e s' : m s = Ok (inl e, s') -> (m ≫= f) s = Ok (inl e, s').
Proof. intros E. unfold mbind, sess_bind. by rewrite E. Qed.

Lemma next_line pe s l rest : s.(s_rd) = l ++ 13 :: rest -> tidy l -> pe = false \/ HasPrefix l (str "*") = false ->
  sess_nextLine pe s = Ok (inr l, set_rd s rest).
Proof.
  intros E Hl Hp. unfold sess_nextLine. rewrite E.
  destruct Hp as [->|Hp]; [rewrite nextLine_tidy_any by done|rewrite nextLine_tidy by done]; done.
Qed.

Lemma set_rd_rd s a b : set_rd (set_rd s a) b = set_rd s b.
Proof. done. Qed.

Lemma set_rd_same s : set_rd s s.(s_rd) = s.
Proof. by destruct s. Qed.
End lemmas.
