(* ===== verification/Handshake.v ===== *)
(** The B2F handshake: [src/fbb/handshake.go] and the secure login response of
    [src/fbb/secure.go].  The MD5 digest is a parameter. *)
From S2P Require Import Prelude Crc GoStr Helpers Mid Words Proposal Message MessageFormat Session.
From stdpp Require Import gmap.
Open Scope Z_scope.

(** ** Secure login *)

Definition winlinkSecureSalt : gostr :=
  [77; 197; 101; 206; 190; 249;
   93; 200; 51; 243; 93; 237;
   71; 94; 239; 138; 68; 108;
   70; 185; 225; 137; 217; 16;
   51; 122; 193; 48; 194; 195;
   198; 175; 172; 169; 70; 84;
   61; 62; 104; 186; 114; 52;
   61; 168; 66; 129; 192; 208;
   187; 249; 232; 193; 41; 113;
   41; 45; 240; 16; 29; 228;
   208; 228; 61; 20].

(** [%08d] *)
Definition pad8 (n : Z) : gostr :=
  let d := itoa (Z.abs n) in
  let zeros w := replicate (w - length d) 48 in
  if n <? 0 then 45 :: zeros 7%nat ++ d else zeros 8%nat ++ d.

(** The loop over the low bytes of the digest, on an int32. *)
Definition response_number (sum : gostr) : res Z :=
  top ← idx sum 3;
  s2 ← idx sum 2; s1 ← idx sum 1; s0 ← idx sum 0;
  mret (foldl (fun pr b => i32 (Z.lor (i32 (Z.shiftl pr 8)) b)) (Z.land top 0x3f) [s2; s1; s0]).

Definition secureLoginResponse `{MD5} (challenge password : gostr) : res gostr :=
  pr ← response_number (md5_Sum (challenge ++ password ++ winlinkSecureSalt));
  let s := pad8 pr in
  slice s (zlen s - 8) (zlen s).

(** ** SID lines *)
Definition isSID (s : gostr) : bool := HasPrefix s (str "[") && HasSuffix s (str "]").

(** The regular expression of [parseSID], an opening bracket, anything, a dash,
    the code and a closing bracket: it starts at the first bracket from which
    there is a match on the same line, the dash is the last one before the last
    closing bracket. *)
Definition sid_code (s : gostr) : option gostr :=
  let t := match Split 10 s with l :: _ => l | [] => [] end in
  let j := LastIndex (Z.eqb 93) t in
  if j <? 0 then None
  else let t := take (Z.to_nat j) t in
       let i := LastIndex (Z.eqb 45) t in
       if i <? 0 then None else Some (drop (Z.to_nat (i + 1)) t).

Fixpoint find_sid (s : gostr) : option gostr :=
  match s with
  | [] => None
  | c :: s => match (if c =? 91 then sid_code s else None) with
              | Some code => Some code
              | None => find_sid s
              end
  end.

Definition parseSID (s : gostr) : error + gostr :=
  match find_sid s with
  | None => inl (New (str "Bad SID line: " ++ s))
  | Some code => inr (ToUpper code)
  end.

(** ** Forwarders *)
Definition parseFW (line : gostr) : error + list address :=
  if negb (HasPrefix line (str ";FW: ")) then inl (New (str "Malformed forward line"))
  else inr ((fun s => AddressFromString (match Split 124 s with x :: _ => x | [] => [] end)) <$> Split 32 (drop 5 line)).

(** [IsLoginFailure] *)
Definition IsLoginFailure (e : option error) : bool :=
  match e with None => false | Some e => Contains (ToLower (Error e)) (str "secure login failed") end.

Definition ErrNoFB2 : error := New (str "Remote does not support B2 Forwarding Protocol").

Record handshakeData := mkHS { hs_SID : gostr; hs_FW : list address; hs_SecureChallenge : gostr }.

Section handshake.
Context {M : Type} `{MD5} `{Environment}.
Implicit Types s : session M.

(** One line of a handshake: what has been gathered, or [inl] when it is
    complete. *)
Definition handshake_line (line : gostr) (data : handshakeData) : sess (M := M) (handshakeData + handshakeData) :=
  if isSID line then
    match parseSID line with
    | inl e => throw e
    | inr sid => if Has sid sFBComp2 then mret (inr (mkHS sid data.(hs_FW) data.(hs_SecureChallenge))) else throw ErrNoFB2
    end
  else if HasPrefix line (str ";FW") then
    match parseFW line with
    | inl e => throw e
    | inr fw => mret (inr (mkHS data.(hs_SID) fw data.(hs_SecureChallenge)))
    end
  else if HasPrefix line (str ";PQ") then
    c ← lift (slice line 5 (zlen line));
    mret (inr (mkHS data.(hs_SID) data.(hs_FW) c))
  else if HasSuffix line (str ">") then mret (inl data)
  else mret (inr data).

Fixpoint readHandshake_loop (fuel : nat) (data : handshakeData) : sess (M := M) handshakeData :=
  match fuel with
  | O => no_fuel
  | S fuel =>
      c ← peek;
      master ← gets s_master;
      if (c =? 70) && master then mret data
      else
        line ← sess_nextLine false;
        r ← handshake_line line data;
        match r with
        | inl data => mret data
        | inr data => readHandshake_loop fuel data
        end
  end.

(** Every round of the loop takes a line off the input. *)
Definition readHandshake : sess (M := M) handshakeData := fun s =>
  readHandshake_loop (S (length s.(s_rd))) (mkHS [] [] []) s.

(** [writeSID]; the gzip code goes before the last one. *)
Definition sent_sid : gostr :=
  if gzipExperimentEnabled
  then take (length localSID - 1) localSID ++ sGzip ++ drop (length localSID - 1) localSID
  else localSID.
Definition sid_line (appName appVersion : gostr) : gostr :=
  str "[" ++ appName ++ str "-" ++ appVersion ++ str "-" ++ sent_sid ++ str "]" ++ [13].

(** The forwarder at position [i]: auxiliary addresses carry a response to the
    challenge when there is a password for them. *)
Definition fw_word (login : option (address -> gostr * option error)) (challenge : gostr) (i : nat) (a : address) : res gostr :=
  let plain := str " " ++ a.(a_addr) in
  match challenge, i, login with
  | _ :: _, S _, Some f =>
      match (f a).1 with
      | [] => mret plain
      | password => resp ← secureLoginResponse challenge password;
                    mret (plain ++ str "|" ++ resp)
      end
  | _, _, _ => mret plain
  end.

Fixpoint fw_words (login : option (address -> gostr * option error)) (challenge : gostr) (i : nat) (l : list address) : res gostr :=
  match l with
  | [] => mret []
  | a :: l => w ← fw_word login challenge i a; ws ← fw_words login challenge (S i) l; mret (w ++ ws)
  end.

(** The response to the challenge, for the first local address. *)
Definition response_line s (challenge : gostr) : res (error + gostr) :=
  match challenge, s.(s_login) with
  | [], _ => mret (inr [])
  | _, None => Panic
  | _, Some f =>
      a ← idx s.(s_localFW) 0;
      match f a with
      | (_, Some e) => mret (inl e)
      | (password, None) => resp ← secureLoginResponse challenge password;
                            mret (inr (str ";PR: " ++ resp ++ [13]))
      end
  end.

(** [sendHandshake]: everything is gathered in a buffer and written at the
    end. *)
Definition sendHandshake (challenge : gostr) : sess (M := M) () := fun s =>
  match challenge, s.(s_login) with
  | _ :: _, None => throw (New (str "Got secure login challenge, please register a SecureLoginHandleFunc.")) s
  | _, _ =>
      fw ← fw_words s.(s_login) challenge 0 s.(s_localFW);
      r ← response_line s challenge;
      match r with
      | inl e => throw e s
      | inr pr =>
          write (str ";FW:" ++ fw ++ [13] ++ sid_line s.(s_ua).(ua_Name) s.(s_ua).(ua_Version) ++ pr
                 ++ str "; " ++ s.(s_targetcall) ++ str " DE " ++ s.(s_mycall) ++ str " (" ++ s.(s_locator) ++ str ")"
                 ++ (if s.(s_master) then str ">" ++ [13] else [13])) s
      end
  end.

Definition handshake : sess (M := M) () :=
  master ← gets s_master;
  motd ← gets s_motd;
  (if master : bool then
     write (concat ((fun l => l ++ [13]) <$> motd));;
     sendHandshake []
   else mret ());;
  hs ← readHandshake;
  match hs.(hs_SID) with
  | [] => throw (New (str "No sid in handshake"))
  | sid =>
      modify (fun s => set_remote s sid hs.(hs_FW));;
      if master : bool then mret () else sendHandshake hs.(hs_SecureChallenge)
  end.
End handshake.

(** ** Secure login *)
Lemma value_of_zeros n s : value_of 10 0 (replicate n 48 ++ s) = value_of 10 0 s.
Proof. by induction n as [|n IH]. Qed.

Lemma value_of_10 s : Forall (fun c => 48 <= c <= 57) s ->
  exists v, value_of 10 0 s = Some v /\ 0 <= v < 10 ^ zlen s.
Proof.
  assert (G : forall a, 0 <= a -> Forall (fun c => 48 <= c <= 57) s ->
    exists v, value_of 10 a s = Some v /\ a * 10 ^ zlen s <= v < (a + 1) * 10 ^ zlen s); [|].
  { induction s as [|c s IH]; intros a Ha Hs; cbn [value_of].
    { exists a. split; [done|]. change (10 ^ zlen (@nil Z)) with 1. lia. }
    apply Forall_cons_1 in Hs as [Hc Hs]. replace c with (48 + (c - 48)) by lia. rewrite digit10 by lia.
    destruct (IH (a * 10 + (c - 48)) ltac:(lia) Hs) as (v & -> & Hv). exists v. split; [done|].
    rewrite zlen_cons, Z.pow_add_r by (pose proof (zlen_nonneg s); lia). change (10 ^ 1) with 10.
    assert (0 < 10 ^ zlen s) by (apply Z.pow_pos_nonneg; pose proof (zlen_nonneg s); lia). nia. }
  intros Hs. destruct (G 0 ltac:(lia) Hs) as (v & E & Hv). exists v. split; [done|]. lia.
Qed.

(** The number behind a response: the low 30 bits of the digest, little
    endian. *)
Definition low30 (sum : gostr) : Z :=
  get sum 0 + get sum 1 * 2 ^ 8 + get sum 2 * 2 ^ 16 + Z.land (get sum 3) 0x3f * 2 ^ 24.

Lemma shift_in_byte pr b : 0 <= pr < 2 ^ 22 -> byte b -> i32 (Z.lor (i32 (Z.shiftl pr 8)) b) = pr * 2 ^ 8 + b.
Proof.
  intros Hp Hb. unfold byte in Hb. rewrite Z.shiftl_mul_pow2 by lia.
  rewrite (i32_small (pr * 2 ^ 8)) by lia.
  assert (Z.lor (pr * 2 ^ 8) b = pr * 2 ^ 8 + b) as ->; [|rewrite i32_small; lia].
  symmetry. rewrite <- Z.add_lor_land. enough (Z.land (pr * 2 ^ 8) b = 0) by lia.
  rewrite <- Z.shiftl_mul_pow2 by lia. apply Z.bits_inj'. intros i Hi. rewrite Z.land_spec, Z.bits_0.
  destruct (Z.lt_ge_cases i 8) as [Hlt|Hge]; [by rewrite Z.shiftl_spec_low by lia|].
  rewrite <- (Z.mod_small b (2 ^ 8)), Z.mod_pow2_bits_high by lia. apply andb_false_r.
Qed.

Lemma bytes_get l i : bytes l -> 0 <= i < zlen l -> byte (get l i).
Proof. intros Hb Hi. eapply Forall_lookup_1; [exact Hb|]. by apply lookup_get. Qed.

Lemma response_number_ok sum : length sum = 16%nat -> bytes sum ->
  response_number sum = Ok (low30 sum) /\ 0 <= low30 sum < 2 ^ 30.
Proof.
  intros Hl Hb. assert (Hz : zlen sum = 16) by (unfold zlen; lia). unfold response_number.
  rewrite !idx_get by lia. rewrite !bind_Ok. cbn [foldl].
  pose proof (bytes_get sum 0 Hb ltac:(lia)) as B0. pose proof (bytes_get sum 1 Hb ltac:(lia)) as B1.
  pose proof (bytes_get sum 2 Hb ltac:(lia)) as B2. pose proof (bytes_get sum 3 Hb ltac:(lia)) as B3.
  assert (0 <= Z.land (get sum 3) 0x3f < 64) as B3'.
  { change 0x3f with (Z.ones 6). rewrite Z.land_ones by lia. apply Z.mod_pos_bound. lia. }
  unfold low30. unfold byte in *. rewrite (shift_in_byte (Z.land _ _)) by (unfold byte; lia).
  rewrite (shift_in_byte (_ * _ + _)) by (unfold byte; lia).
  split; [|lia]. unfold mret, res_ret. f_equal.
  set (t := Z.land _ _) in *. set (x := (t * 2 ^ 8 + get sum 2) * 2 ^ 8 + get sum 1).
  assert (0 <= x < 2 ^ 22) by (unfold x; lia).
  rewrite shift_in_byte by (unfold byte; lia). unfold x. lia.
Qed.

Lemma value_of_acc a s v : value_of 10 0 s = Some v -> value_of 10 a s = Some (a * 10 ^ zlen s + v).
Proof.
  assert (G : forall a b v, value_of 10 b s = Some v -> value_of 10 (a + b) s = Some (a * 10 ^ zlen s + v)); [|].
  { induction s as [|c s IH]; intros x b w; cbn [value_of].
    { intros [= <-]. f_equal. change (10 ^ zlen (@nil Z)) with 1. lia. }
    destruct (digit_value 10 c) as [d|]; [|done]. intros E.
    replace ((x + b) * 10 + d) with (x * 10 + (b * 10 + d)) by lia. rewrite (IH _ _ _ E). f_equal.
    rewrite zlen_cons, Z.pow_add_r by (pose proof (zlen_nonneg s); lia). lia. }
  intros E. rewrite <- (Z.add_0_r a) at 1. by apply G.
Qed.

Lemma pad8_ok n : 0 <= n -> (8 <= length (pad8 n))%nat /\ Forall (fun c => 48 <= c <= 57) (pad8 n) /\
  value_of 10 0 (pad8 n) = Some n.
Proof.
  intros Hn. unfold pad8. destruct (Z.ltb_spec n 0); [lia|]. rewrite Z.abs_eq by lia.
  split; [rewrite length_app, length_replicate; lia|]. split.
  - apply Forall_app. split; [apply Forall_replicate; lia|by apply itoa_digits].
  - rewrite value_of_zeros. unfold itoa. destruct (Z.ltb_spec n 0); [lia|].
    pose proof (unsigned_ndigits 10 (fun d => 48 + d) ltac:(lia) digit10 n Hn) as E. unfold unsigned in E.
    by destruct ((fun d => 48 + d) <$> ndigits 10 n).
Qed.

Lemma secure_response `{MD5} challenge password :
  exists r, secureLoginResponse challenge password = Ok r /\ length r = 8%nat /\
    Forall (fun c => 48 <= c <= 57) r /\
    value_of 10 0 r = Some (low30 (md5_Sum (challenge ++ password ++ winlinkSecureSalt)) mod 10 ^ 8).
Proof.
  unfold secureLoginResponse. set (sum := md5_Sum _).
  destruct (response_number_ok sum (md5_length _) (md5_bytes _)) as [-> Hr]. rewrite bind_Ok. set (n := low30 sum) in *.
  destruct (pad8_ok n ltac:(lia)) as (Hl & Hd & Hv). set (s := pad8 n) in *. set (k := (length s - 8)%nat).
  rewrite slice_ok by (unfold zlen; lia). rewrite take_ge by (unfold zlen; lia).
  replace (Z.to_nat (zlen s - 8)) with k by (unfold zlen; lia).
  exists (drop k s). split; [done|]. split; [rewrite length_drop; lia|]. rewrite <- (take_drop k s) in Hd, Hv.
  apply Forall_app in Hd as [Hd1 Hd2]. split; [done|].
  destruct (value_of_10 _ Hd1) as (v1 & E1 & _). destruct (value_of_10 _ Hd2) as (v2 & E2 & B2).
  rewrite value_of_app, E1 in Hv. rewrite (value_of_acc v1 _ v2 E2) in Hv.
  assert (zlen (drop k s) = 8) as Ez by (unfold zlen; rewrite length_drop; lia). rewrite Ez in *.
  injection Hv as <-. rewrite E2. f_equal. rewrite Z.add_comm, Z.mod_add, Z.mod_small; lia.
Qed.

(** C39. The login response is always eight digits: the low 30 bits of the salted
    digest, little endian, modulo 10^8. *)
Theorem secure_response_digits `{MD5} challenge password :
  exists r, secureLoginResponse challenge password = Ok r /\ length r = 8%nat /\
    Forall (fun c => 48 <= c <= 57) r /\
    value_of 10 0 r = Some (low30 (md5_Sum (challenge ++ password ++ winlinkSecureSalt)) mod 10 ^ 8).
Proof. apply secure_response. Qed.

(** ** Lines of a handshake *)
Lemma LastIndex_app P a c b : P c = true -> Forall (fun x => P x = false) b -> LastIndex P (a ++ c :: b) = zlen a.
Proof. intros. unfold LastIndex, zlen. rewrite after_last_app by done. lia. Qed.

Lemma HasSuffix_last l c d : HasSuffix (l ++ [c]) [d] = (c =? d).
Proof.
  unfold HasSuffix. rewrite length_app, Nat.add_sub, drop_app_length.
  destruct (Z.eqb_spec c d) as [->|Hn]; [by apply bool_decide_eq_true|]. apply bool_decide_eq_false. congruence.
Qed.

Lemma printable_not c l : printable l -> c < 32 -> c ∉ l.
Proof. intros Hp Hc Hin. eapply Forall_forall in Hin; [|exact Hp]. cbn in Hin. lia. Qed.

Lemma tidy_printable c l d : printable l -> solid c = true -> solid d = true -> tidy (c :: l ++ [d]).
Proof. intros Hl Hc Hd. apply tidy_line; [done|done|]. by apply printable_not. Qed.

Lemma sent_sid_facts `{Environment} : Forall (fun x => (45 =? x) = false) sent_sid /\ printable sent_sid /\
  ToUpper sent_sid = sent_sid /\ Has sent_sid sFBComp2 = true /\ sent_sid <> [].
Proof.
  unfold sent_sid. destruct gzipExperimentEnabled; vm_compute; (split_and!; [repeat constructor; done..|done|done|done]).
Qed.

(** The SID line that is sent is understood as the SID. *)
Lemma parseSID_sent `{Environment} name ver : printable name -> printable ver ->
  let l := str "[" ++ name ++ str "-" ++ ver ++ str "-" ++ sent_sid ++ str "]" in
  tidy l /\ isSID l = true /\ parseSID l = inr sent_sid.
Proof.
  intros Hn Hv l. destruct sent_sid_facts as (H1 & H2 & H3 & _ & _).
  set (t := name ++ str "-" ++ ver ++ 45 :: sent_sid).
  assert (El : l = 91 :: t ++ [93]).
  { unfold l, t. change (str "[" ++ ?x) with (91 :: x). f_equal. rewrite <- !app_assoc. f_equal. }
  assert (Ht : printable t).
  { unfold t, printable in *. apply Forall_app; split; [done|]. apply Forall_app; split; [by apply printable_str|].
    apply Forall_app; split; [done|]. constructor; [lia|done]. }
  clearbody l. subst l. split; [by apply tidy_printable|]. split.
  - apply andb_true_iff. split; [exact (HasPrefix_app (str "[") (t ++ [93]))|].
    exact (HasSuffix_last (91 :: t) 93 93).
  - unfold parseSID. cbn [find_sid]. change (91 =? 91) with true. cbv iota.
    assert (sid_code (t ++ [93]) = Some sent_sid) as ->; [|by rewrite H3].
    unfold sid_code. rewrite Split_none.
    2:{ apply printable_not; [|lia]. apply Forall_app; split; [done|]. repeat constructor; lia. }
    rewrite LastIndex_app by (done || constructor). pose proof (zlen_nonneg t). destruct (Z.ltb_spec (zlen t) 0); [lia|].
    replace (take (Z.to_nat (zlen t)) (t ++ [93])) with t by (unfold zlen; by rewrite Nat2Z.id, take_app_length).
    unfold t. rewrite !app_assoc. rewrite LastIndex_app by done. set (u := (name ++ _) ++ ver). pose proof (zlen_nonneg u).
    destruct (Z.ltb_spec (zlen u) 0); [lia|]. f_equal. unfold zlen. 
    replace (Z.to_nat (Z.of_nat (length u) + 1)) with (length u + 1)%nat by lia.
    by rewrite drop_app_add.
Qed.

(** *** The forwarders *)

(** An address of a station: a call sign in upper case. *)
Definition call_byte (c : Z) : Prop := 33 <= c <= 126 /\ c <> 58 /\ c <> 64 /\ c <> 124 /\ upper c = c.
Definition station (a : address) : Prop := a.(a_proto) = [] /\ a.(a_addr) <> [] /\ Forall call_byte a.(a_addr).

Lemma station_free c a : station a -> c = 32 \/ c = 58 \/ c = 64 \/ c = 124 -> c ∉ a.(a_addr).
Proof.
  intros (_ & _ & Ha) Hc Hin. eapply Forall_forall in Hin; [|exact Ha]. unfold call_byte in Hin. cbn in Hin. lia.
Qed.

Lemma station_address a : station a -> AddressFromString a.(a_addr) = a.
Proof.
  intros Ha. rewrite address_plain by (apply station_free; auto). destruct Ha as (Hp & _ & Hc). destruct a as [p x].
  cbn in *. subst p. f_equal. unfold ToUpper. induction Hc as [|c l Hc _ IH]; [done|]. cbn.
  destruct Hc as (_ & _ & _ & _ & ->). by f_equal.
Qed.

(** A word of the forwarder line for an address. *)
Definition fw_for (a : address) (w : gostr) : Prop :=
  w = a.(a_addr) \/ exists r, w = a.(a_addr) ++ 124 :: r /\ Forall (fun c => 48 <= c <= 57) r /\ r <> [].

Lemma fw_words_ok `{MD5} login challenge i l :
  exists ws, fw_words login challenge i l = Ok (concat (cons 32 <$> ws)) /\ Forall2 fw_for l ws.
Proof.
  revert i. induction l as [|a l IH]; intros i; cbn [fw_words]; [by exists []; split|].
  destruct (IH (S i)) as (ws & E & F).
  assert (exists w, fw_word login challenge i a = Ok (32 :: w) /\ fw_for a w) as (w & Ew & Hw).
  { unfold fw_word. assert (P : exists w, Ok (str " " ++ a.(a_addr)) = Ok (32 :: w) /\ fw_for a w).
    { exists a.(a_addr). split; [done|by left]. }
    destruct challenge as [|c ch], i as [|i], login as [f|]; try exact P. destruct ((f a).1) as [|x pw] eqn:Ef; [exact P|].
    destruct (secure_response (c :: ch) (x :: pw)) as (r & -> & Hl & Hd & _). rewrite bind_Ok.
    exists (a.(a_addr) ++ 124 :: r). split; [done|]. right. exists r. split_and!; [done|done|by destruct r]. }
  exists (w :: ws). rewrite Ew, bind_Ok, E, bind_Ok. split; [done|by constructor].
Qed.

Lemma fw_for_facts a w : station a -> fw_for a w ->
  (32 ∉ w) /\ printable w /\ (exists x d, w = x ++ [d] /\ solid d = true) /\
  AddressFromString (match Split 124 w with x :: _ => x | [] => [] end) = a.
Proof.
  intros Ha Hw. pose proof (station_address a Ha) as Ea. pose proof (station_free 124 a Ha ltac:(auto)) as H124.
  pose proof (station_free 32 a Ha ltac:(auto)) as H32. destruct Ha as (_ & Hne & Hc).
  assert (Hp : printable a.(a_addr)) by (eapply Forall_impl; [exact Hc|]; unfold call_byte; cbn; lia).
  assert (G : forall s, s <> [] -> Forall (fun c => 33 <= c <= 126) s -> exists x d, s = x ++ [d] /\ solid d = true).
  { intros s Hs Hf. destruct s as [|d s] using rev_ind; [done|]. exists s, d. split; [done|].
    apply Forall_app in Hf as [_ Hf]. apply Forall_cons_1 in Hf as [Hd _]. unfold solid. lia. }
  destruct Hw as [->|(r & -> & Hr & Hrne)].
  - split_and!; [done|done| |by rewrite Split_none].
    apply G; [done|]. eapply Forall_impl; [exact Hc|]; unfold call_byte; cbn; lia.
  - rewrite Split_app by done. split_and!.
    + intros Hin. apply elem_of_app in Hin as [Hin|Hin]; [done|]. apply elem_of_cons in Hin as [?|Hin]; [lia|].
      eapply Forall_forall in Hin; [|exact Hr]. cbn in Hin. lia.
    + apply Forall_app; split; [done|]. constructor; [lia|]. eapply Forall_impl; [exact Hr|]. cbn. lia.
    + destruct (G r Hrne) as (x & d & -> & Hd); [eapply Forall_impl; [exact Hr|]; cbn; lia|].
      exists (a.(a_addr) ++ 124 :: x), d. split; [|done]. by rewrite <- app_assoc.
    + done.
Qed.

Lemma Split_words w ws : Forall (fun w => 32 ∉ w) (w :: ws) -> Split 32 (w ++ concat (cons 32 <$> ws)) = w :: ws.
Proof.
  revert w. induction ws as [|v ws IH]; intros w Hw; apply Forall_cons_1 in Hw as [H1 H2].
  - cbn. by rewrite app_nil_r, Split_none.
  - cbn [fmap list_fmap concat app]. rewrite Split_app by done. by rewrite IH.
Qed.

(** The forwarder line that is sent is understood as the addresses. *)
Lemma parseFW_sent l ws : l <> [] -> Forall station l -> Forall2 fw_for l ws ->
  let line := str ";FW:" ++ concat (cons 32 <$> ws) in tidy line /\ parseFW line = inr l.
Proof.
  intros Hne Hs Hw line.
  assert (F : Forall2 (fun a w => (32 ∉ w) /\ printable w /\ (exists x d, w = x ++ [d] /\ solid d = true) /\
    AddressFromString (match Split 124 w with x :: _ => x | [] => [] end) = a) l ws).
  { clear -Hs Hw. induction Hw as [|a w l ws Ha _ IH]; [constructor|]. apply Forall_cons_1 in Hs as [H1 H2].
    constructor; [by apply fw_for_facts|auto]. }
  clear Hs Hw. assert (P : printable (concat (cons 32 <$> ws))).
  { clear -F. induction F as [|a w l ws (_ & Hp & _) _ IH]; [constructor|]. cbn. constructor; [lia|].
    apply Forall_app; split; [exact Hp|exact IH]. }
  split.
  - assert (exists m d, concat (cons 32 <$> ws) = m ++ [d] /\ solid d = true) as (m & d & E & Hd).
    { clear -F Hne. induction F as [|a w l ws (_ & _ & (x & d & -> & Hd) & _) F IH]; [done|]. destruct l as [|b l].
      - inversion F; subst. exists (32 :: x), d. split; [|done]. cbn. by rewrite app_nil_r.
      - destruct IH as (m & e & E & He); [done|]. exists ((32 :: x ++ [d]) ++ m), e. split; [|done].
        cbn [fmap list_fmap concat]. cbn [fmap] in E. rewrite E. by rewrite <- !app_assoc. }
    unfold line. rewrite E. change (str ";FW:" ++ m ++ [d]) with (59 :: ([70; 87; 58] ++ m) ++ [d]).
    apply tidy_printable; [|done|done]. apply Forall_app; split; [repeat constructor; lia|]. unfold printable in P.
    rewrite E in P. by apply Forall_app in P as [P _].
  - destruct F as [|a w l ws Ha F]; [done|].
    assert (line = str ";FW: " ++ w ++ concat (cons 32 <$> ws)) as -> by done.
    unfold parseFW. rewrite HasPrefix_app. cbn [negb]. 
    change (drop 5 (str ";FW: " ++ w ++ concat (cons 32 <$> ws))) with (w ++ concat (cons 32 <$> ws)).
    rewrite Split_words.
    + f_equal. cbn [fmap list_fmap]. f_equal; [apply Ha|]. clear -F. induction F as [|a w l ws Ha _ IH]; [done|].
      cbn [fmap list_fmap]. f_equal; [apply Ha|exact IH].
    + constructor; [apply Ha|]. clear -F. induction F as [|b v l ws Hb _ IH]; [constructor|]. constructor; [apply Hb|done].
Qed.

(** ** Reading a handshake *)
Section reading.
Context {M : Type} `{MD5}.
Implicit Types s : session M.

(** A line that only adds to what is known. *)
Lemma read_hs_line n data data' s line rest :
  s.(s_rd) = line ++ 13 :: rest -> (length s.(s_rd) < n)%nat -> tidy line ->
  s.(s_master) = false \/ HasPrefix line (str "F") = false ->
  (forall t : session M, handshake_line line data t = Ok (inr (inr data'), t)) ->
  exists k, (length rest < k)%nat /\ readHandshake_loop n data s = readHandshake_loop k data' (set_rd s rest).
Proof.
  intros Er Hn Ht Hm Hl. destruct n as [|n]; [lia|]. exists n.
  split; [rewrite Er, length_app in Hn; cbn [length] in Hn; lia|]. cbn [readHandshake_loop].
  destruct (proj2 Ht) as (c & m & d & El & Hc & Hd).
  rewrite (sess_bind_inr _ _ s c s) by (unfold peek; by rewrite Er, El).
  rewrite (sess_bind_inr _ _ s s.(s_master) s) by done.
  assert ((c =? 70) && s.(s_master) = false) as ->.
  { destruct Hm as [->|Hm]; [apply andb_false_r|]. rewrite El in Hm. destruct (Z.eqb_spec c 70); [by subst c|done]. }
  rewrite (sess_bind_inr _ _ s line (set_rd s rest)) by (apply next_line; auto).
  by rewrite (sess_bind_inr _ _ _ _ _ (Hl _)).
Qed.

(** The prompt, which ends the handshake of a master. *)
Lemma read_last n data s line rest :
  s.(s_rd) = line ++ 13 :: rest -> (length s.(s_rd) < n)%nat -> tidy line -> s.(s_master) = false ->
  (forall t : session M, handshake_line line data t = Ok (inr (inl data), t)) ->
  readHandshake_loop n data s = Ok (inr data, set_rd s rest).
Proof.
  intros Er Hn Ht Hm Hl. destruct n as [|n]; [lia|]. cbn [readHandshake_loop].
  destruct (proj2 Ht) as (c & m & d & El & Hc & Hd).
  rewrite (sess_bind_inr _ _ s c s) by (unfold peek; by rewrite Er, El).
  rewrite (sess_bind_inr _ _ s s.(s_master) s) by done. rewrite Hm, andb_false_r.
  rewrite (sess_bind_inr _ _ s line (set_rd s rest)) by (apply next_line; auto).
  by rewrite (sess_bind_inr _ _ _ _ _ (Hl _)).
Qed.

(** A line the handshake passes over. *)
Definition harmless (l : gostr) : Prop :=
  tidy l /\ isSID l = false /\ HasPrefix l (str ";FW") = false /\ HasPrefix l (str ";PQ") = false /\ HasSuffix l (str ">") = false.

Lemma harmless_line l data (t : session M) : harmless l -> handshake_line l data t = Ok (inr (inr data), t).
Proof. intros (_ & H1 & H2 & H3 & H4). unfold handshake_line. by rewrite H1, H2, H3, H4. Qed.

Lemma read_harmless ls n data s rest :
  s.(s_rd) = concat ((fun l => l ++ [13]) <$> ls) ++ rest -> (length s.(s_rd) < n)%nat ->
  Forall harmless ls -> s.(s_master) = false ->
  exists k, (length rest < k)%nat /\ readHandshake_loop n data s = readHandshake_loop k data (set_rd s rest).
Proof.
  intros Er Hn Hl Hm. revert n s Er Hn Hm. induction Hl as [|l ls Hl _ IH]; intros n s Er Hn Hm.
  - cbn in Er. subst rest. exists n. by rewrite set_rd_same.
  - cbn [fmap list_fmap concat] in Er. rewrite <- !app_assoc in Er. cbn [app] in Er.
    destruct (read_hs_line n data data s _ _ Er Hn (proj1 Hl)) as (k & Hk & ->); [by left|intros; by apply harmless_line|].
    destruct (IH k (set_rd s (concat ((fun l => l ++ [13]) <$> ls) ++ rest)) eq_refl Hk Hm) as (k' & Hk' & ->).
    by exists k'.
Qed.
End reading.

(** ** Agreement *)

(** A session whose announcement is well formed. *)
Record presentable {M} (s : session M) : Prop := {
  ps_fw : s.(s_localFW) <> [] /\ Forall station s.(s_localFW);
  ps_ua : printable s.(s_ua).(ua_Name) /\ printable s.(s_ua).(ua_Version);
  ps_calls : printable s.(s_targetcall) /\ printable s.(s_mycall) /\ printable s.(s_locator) }.

(** The lines of a handshake. *)
Definition closing {M} (s : session M) : gostr :=
  str "; " ++ s.(s_targetcall) ++ str " DE " ++ s.(s_mycall) ++ str " (" ++ s.(s_locator) ++ str ")".
Definition announcement {M} `{Environment} (s : session M) (ws : list gostr) : gostr :=
  (str ";FW:" ++ concat (cons 32 <$> ws)) ++ 13 ::
  (str "[" ++ s.(s_ua).(ua_Name) ++ str "-" ++ s.(s_ua).(ua_Version) ++ str "-" ++ sent_sid ++ str "]") ++ 13 ::
  closing s ++ (if s.(s_master) then str ">" else []) ++ [13].

Lemma sent_announcement {M} `{MD5} `{Environment} (s : session M) ws :
  fw_words s.(s_login) [] 0 s.(s_localFW) = Ok (concat (cons 32 <$> ws)) ->
  sendHandshake [] s = Ok (inr (), set_out s (s.(s_out) ++ announcement s ws)).
Proof.
  intros E. unfold sendHandshake. rewrite E, bind_Ok. cbn [response_line]. unfold write, modify.
  unfold mbind, res_bind, mret, res_ret. do 4 f_equal. unfold announcement, closing, sid_line.
  rewrite <- !app_assoc. cbn [app]. do 2 f_equal. by destruct s.(s_master).
Qed.

Lemma closing_shape {M} (s : session M) : presentable s ->
  exists m, printable m /\ closing s = 59 :: (32 :: m) ++ [41].
Proof.
  intros [_ _ (H1 & H2 & H3)]. exists (s.(s_targetcall) ++ str " DE " ++ s.(s_mycall) ++ str " (" ++ s.(s_locator)).
  split; [|unfold closing; cbn [app]; by rewrite <- !app_assoc].
  unfold printable in *. repeat (apply Forall_app; split; [done || by apply printable_str|]). done.
Qed.

Lemma closing_harmless {M} (s : session M) : presentable s -> harmless (closing s).
Proof.
  intros Hs. destruct (closing_shape s Hs) as (m & Hm & ->). split_and!.
  - apply tidy_printable; [|done|done]. constructor; [lia|done].
  - done.
  - done.
  - done.
  - exact (HasSuffix_last (59 :: 32 :: m) 41 62).
Qed.

Lemma announcement_read {M N} `{MD5} (E : Environment) (s : session M) (t : session N) ws data n rest :
  presentable s -> Forall2 fw_for s.(s_localFW) ws -> data.(hs_SecureChallenge) = [] ->
  t.(s_master) = negb s.(s_master) -> (s.(s_master) = false -> HasPrefix rest (str "F") = true) ->
  t.(s_rd) = announcement s ws ++ rest -> (length t.(s_rd) < n)%nat ->
  readHandshake_loop n data t = Ok (inr (mkHS sent_sid s.(s_localFW) []), set_rd t rest).
Proof.
  intros Hs Hw Hd Hm Hr Er Hn. destruct (ps_fw s Hs) as [Hne Hst].
  destruct (parseFW_sent _ ws Hne Hst Hw) as [T1 P1].
  destruct (parseSID_sent s.(s_ua).(ua_Name) s.(s_ua).(ua_Version) (proj1 (ps_ua s Hs)) (proj2 (ps_ua s Hs))) as (T2 & I2 & P2).
  unfold announcement in Er. rewrite <- app_assoc in Er. cbn [app] in Er.
  set (l1 := str ";FW:" ++ _) in *. set (l2 := str "[" ++ _) in *.
  destruct (read_hs_line n data (mkHS data.(hs_SID) s.(s_localFW) []) t _ _ Er Hn T1) as (k1 & Hk1 & ->); [by right| |].
  { intros u. unfold handshake_line. change (isSID l1) with false. change (HasPrefix l1 (str ";FW")) with true.
    cbv iota. rewrite P1, Hd. done. }
  match goal with |- context [set_rd t ?x] => remember (set_rd t x) as t1 eqn:Et1 end.
  assert (Er1 : t1.(s_rd) = l2 ++ 13 :: closing s ++ (if s.(s_master) then str ">" else []) ++ 13 :: rest).
  { subst t1. cbn [s_rd set_rd]. rewrite <- app_assoc. cbn [app]. by rewrite <- !app_assoc. }
  assert (Hk1' : (length t1.(s_rd) < k1)%nat) by (subst t1; exact Hk1).
  destruct (read_hs_line k1 (mkHS data.(hs_SID) s.(s_localFW) []) (mkHS sent_sid s.(s_localFW) []) t1 _ _ Er1 Hk1' T2)
    as (k2 & Hk2 & ->); [by right| |].
  { intros u. unfold handshake_line. rewrite I2, P2. destruct sent_sid_facts as (_ & _ & _ & -> & _). done. }
  assert (Et : forall x, set_rd t1 x = set_rd t x) by (intros; by subst t1). rewrite Et. clear Et.
  destruct (s_master s) eqn:Em.
  - rewrite (read_last k2 _ _ (closing s ++ str ">") rest); [done| |done| |done|].
    + cbn [s_rd set_rd]. by rewrite <- app_assoc.
    + destruct (closing_shape s Hs) as (m & Hp & ->).
      change ((59 :: (32 :: m) ++ [41]) ++ str ">") with (59 :: ((32 :: m) ++ [41]) ++ [62]).
      apply tidy_printable; [|done|done]. apply Forall_app; split; [constructor; [lia|done]|]. repeat constructor; lia.
    + intros u. unfold handshake_line. destruct (closing_shape s Hs) as (m & _ & ->).
      change (isSID ((59 :: (32 :: m) ++ [41]) ++ str ">")) with false.
      change (HasPrefix ((59 :: (32 :: m) ++ [41]) ++ str ">") (str ";FW")) with false.
      change (HasPrefix ((59 :: (32 :: m) ++ [41]) ++ str ">") (str ";PQ")) with false. cbv iota.
      change (HasSuffix ((59 :: (32 :: m) ++ [41]) ++ str ">") (str ">")) with (HasSuffix ((59 :: (32 :: m) ++ [41]) ++ [62]) [62]).
      by rewrite HasSuffix_last.
  - cbn [app]. destruct (read_hs_line k2 (mkHS sent_sid s.(s_localFW) []) (mkHS sent_sid s.(s_localFW) [])
      (set_rd t (closing s ++ 13 :: rest)) (closing s) rest eq_refl Hk2) as (k3 & Hk3 & ->).
    + apply closing_harmless; done.
    + right. by destruct (closing_shape s Hs) as (m & _ & ->).
    + intros u. by apply harmless_line, closing_harmless.
    + destruct k3 as [|k3]; [lia|]. cbn [readHandshake_loop]. specialize (Hr eq_refl).
      destruct rest as [|c rest]; [done|]. assert (c = 70) as -> by (apply bool_decide_eq_true in Hr; by injection Hr).
      rewrite (sess_bind_inr _ _ _ 70 (set_rd t (70 :: rest))) by done.
      rewrite (sess_bind_inr _ _ _ t.(s_master) (set_rd t (70 :: rest))) by done. by rewrite Hm.
Qed.

(** What both sides of a handshake do. *)
Lemma handshake_agrees {M N} `{MD5} (E1 E2 : Environment) (m : session M) (c : session N) :
  m.(s_master) = true -> c.(s_master) = false -> presentable m -> presentable c -> Forall harmless m.(s_motd) ->
  exists om oc,
    (forall rest, HasPrefix rest (str "F") = true ->
       handshake (H0 := E1) (set_rd m (oc ++ rest))
       = Ok (inr (), set_remote (set_rd (set_out m (m.(s_out) ++ om)) rest) (sent_sid (H0 := E2)) c.(s_localFW))) /\
    (forall rest,
       handshake (H0 := E2) (set_rd c (om ++ rest))
       = Ok (inr (), set_out (set_remote (set_rd c rest) (sent_sid (H0 := E1)) m.(s_localFW)) (c.(s_out) ++ oc))).
Proof.
  intros Hm Hc Pm Pc Hh.
  destruct (fw_words_ok m.(s_login) [] 0 m.(s_localFW)) as (wm & Em & Fm).
  destruct (fw_words_ok c.(s_login) [] 0 c.(s_localFW)) as (wc & Ec & Fc).
  set (motd := concat ((fun l => l ++ [13]) <$> m.(s_motd))).
  exists (motd ++ announcement (H := E1) m wm), (announcement (H := E2) c wc). split; intros rest.
  - intros Hr. unfold handshake. set (s0 := set_rd m _). set (s1 := set_out s0 (m.(s_out) ++ motd)).
    set (s2 := set_out s1 (s1.(s_out) ++ announcement (H := E1) m wm)).
    rewrite (sess_bind_inr _ _ s0 true s0) by (unfold gets; by rewrite <- Hm).
    rewrite (sess_bind_inr _ _ s0 m.(s_motd) s0) by done.
    rewrite (sess_bind_inr _ _ s0 () s2).
    2:{ rewrite (sess_bind_inr _ _ s0 () s1) by done. exact (sent_announcement (H0 := E1) s1 wm Em). }
    rewrite (sess_bind_inr _ _ s2 (mkHS (sent_sid (H0 := E2)) c.(s_localFW) []) (set_rd s2 rest)).
    2:{ apply (announcement_read E2 c s2 wc); auto. change (s_master m = negb (s_master c)). by rewrite Hm, Hc. }
    destruct (sent_sid_facts (H := E2)) as (_ & _ & _ & _ & Hne). cbn [hs_SID hs_FW].
    destruct (sent_sid (H0 := E2)) as [|x sid]; [done|]. unfold modify.
    unfold mbind, sess_bind, mret, sess_ret. do 2 f_equal. unfold s2, s1. cbn [s_out set_out].
    by rewrite <- app_assoc.
  - unfold handshake. set (s0 := set_rd c _). rewrite (sess_bind_inr _ _ s0 false s0) by (unfold gets; by rewrite <- Hc).
    rewrite (sess_bind_inr _ _ s0 c.(s_motd) s0) by done.
    rewrite (sess_bind_inr _ _ s0 () s0) by done.
    rewrite (sess_bind_inr _ _ s0 (mkHS (sent_sid (H0 := E1)) m.(s_localFW) []) (set_rd s0 rest)).
    2:{ unfold readHandshake. destruct (read_harmless m.(s_motd) (S (length s0.(s_rd))) (mkHS [] [] []) s0
          (announcement (H := E1) m wm ++ rest)) as (k & Hk & ->); [unfold s0; cbn; by rewrite <- app_assoc|lia|done|done|].
        rewrite (announcement_read E1 m (set_rd s0 (announcement (H := E1) m wm ++ rest)) wm _ k rest); auto;
          [by change (s_master c = negb (s_master m)); rewrite Hm, Hc|by rewrite Hm]. }
    destruct (sent_sid_facts (H := E1)) as (_ & _ & _ & _ & Hne). cbn [hs_SID hs_FW hs_SecureChallenge].
    destruct (sent_sid (H0 := E1)) as [|x sid]; [done|].
    set (s1 := set_remote (set_rd s0 rest) (x :: sid) m.(s_localFW)).
    rewrite (sess_bind_inr _ _ _ () s1) by done. exact (sent_announcement (H0 := E2) s1 wc Ec).
Qed.

(** C4. The two sides of a connection understand each other's handshake: with no
    more than the other side's output to read, up to the first command line,
    both finish, and each knows the other's codes and forwarders.  (Each side
    has its own environment.) *)
Theorem handshake_agreement {M N} `{MD5} (E1 E2 : Environment) (m : session M) (c : session N) :
  m.(s_master) = true -> c.(s_master) = false -> presentable m -> presentable c -> Forall harmless m.(s_motd) ->
  exists om oc,
    (forall rest, HasPrefix rest (str "F") = true ->
       handshake (H0 := E1) (set_rd m (oc ++ rest))
       = Ok (inr (), set_remote (set_rd (set_out m (m.(s_out) ++ om)) rest) (sent_sid (H0 := E2)) c.(s_localFW))) /\
    (forall rest,
       handshake (H0 := E2) (set_rd c (om ++ rest))
       = Ok (inr (), set_out (set_remote (set_rd c rest) (sent_sid (H0 := E1)) m.(s_localFW)) (c.(s_out) ++ oc))).
Proof. apply handshake_agrees. Qed.

Definition plain_env : Environment := {| gzipExperimentEnabled := false; fwAuxOnlyExperiment := false |}.
Definition gzip_env : Environment := {| gzipExperimentEnabled := true; fwAuxOnlyExperiment := false |}.

Definition sample_master : session () := IsMaster (NewSession (str "LA1B") (str "LA5NTA") (str "JP20qh") None) true.
Definition sample_client : session () := NewSession (str "LA5NTA") (str "LA1B") (str "JO59jw") None.

Lemma station_check a : a.(a_proto) = [] -> a.(a_addr) <> [] ->
  forallb (fun c => (33 <=? c) && (c <=? 126) && negb (c =? 58) && negb (c =? 64) && negb (c =? 124) && (upper c =? c)) a.(a_addr) = true ->
  station a.
Proof.
  intros Hp Hn Hf. split; [done|]. split; [done|]. apply Forall_forall. intros c Hc.
  rewrite forallb_forall in Hf. specialize (Hf c (proj1 (list_elem_of_In _ _) Hc)). unfold call_byte. lia.
Qed.

Lemma sample_master_presentable : presentable sample_master.
Proof.
  split; [split; [done|]; constructor; [by apply station_check|constructor]| |]; split_and!; by apply printable_str.
Qed.
Lemma sample_client_presentable : presentable sample_client.
Proof.
  split; [split; [done|]; constructor; [by apply station_check|constructor]| |]; split_and!; by apply printable_str.
Qed.

Lemma handshake_agreement_witness : exists om oc,
  (forall rest, HasPrefix rest (str "F") = true ->
     handshake (H := zero_md5) (H0 := plain_env) (set_rd sample_master (oc ++ rest))
     = Ok (inr (), set_remote (set_rd (set_out sample_master om) rest) (str "B2FHMG$") [mkAddr [] (str "LA5NTA")])) /\
  (forall rest,
     handshake (H := zero_md5) (H0 := gzip_env) (set_rd sample_client (om ++ rest))
     = Ok (inr (), set_out (set_remote (set_rd sample_client rest) (str "B2FHM$") [mkAddr [] (str "LA1B")]) oc)).
Proof.
  apply (handshake_agreement (H := zero_md5) plain_env gzip_env sample_master sample_client);
    [reflexivity|reflexivity|exact sample_master_presentable|exact sample_client_presentable|constructor].
Defined.

(** A challenge line of the remote that is cut short makes the client panic. *)
Theorem short_challenge_panics {M} `{MD5} `{Environment} (c : session M) : c.(s_master) = false ->
  handshake (set_rd c (str ";PQ" ++ [13])) = Panic.
Proof. intros Hc. destruct c. cbn in Hc. subst. vm_compute. reflexivity. Qed.

Lemma short_challenge_panics_witness :
  handshake (H := zero_md5) (H0 := plain_env) (set_rd sample_client (str ";PQ" ++ [13])) = Panic.
Proof. apply (short_challenge_panics (H := zero_md5) (H0 := plain_env) sample_client). reflexivity. Defined.
