(* ===== verification/Exchange.v ===== *)
(** The message exchange of a session: [handleOutbound], [sendOutbound],
    [handleInbound] and [writeProposalsAnswer] of [src/fbb/b2f.go], [Exchange]
    of [src/fbb/wl2k.go]. *)
From S2P Require Import Prelude Crc GoStr Helpers Mid Words Reader Proposal Transfer Message MessageFormat Session Handshake.
From stdpp Require Import gmap.
Open Scope Z_scope.

Definition MaxBlockSize : Z := 5.

Section exchange.
Context {M : Type} `{Charset} `{Clock} `{Gzip} `{MD5} `{Environment} `{MapOrder} `{MBoxHandler M}.
(** The fuel and the read sizes of the decompressor. *)
Context (dfuel : nat) (ks : nat -> Z).
Implicit Types s : session M.

(** ** Sending *)

(** The block of proposals: their lines, then the checksum. *)
Definition proposal_block (props : list proposal) : gostr :=
  concat ((fun p => propLine p ++ [13]) <$> props)
  ++ str "F> " ++ hex2 (checksum (foldl Z.add 0 (lineSum ∘ propLine <$> props))) ++ [13].

(** The loop that waits for the answer, over comments. *)
Fixpoint read_reply (fuel : nat) : sess (M := M) gostr :=
  match fuel with
  | O => no_fuel
  | S fuel =>
      line ← sess_nextLine true;
      if HasPrefix line (str "FS ") then mret line
      else if HasPrefix line (str ";") then read_reply fuel
      else throw (New (str "Expected proposal answer from remote. Got: ''"))
  end.

Definition sess_writeCompressed (p : proposal) : sess (M := M) () :=
  r ← lift (writeCompressed p);
  let '(out, e) := r in
  write out;;
  throw_err e.

(** The loop over the answered proposals; [sent] says of a message whether it
    was rejected. *)
Fixpoint send_answered (props : list proposal) (sent : gmap gostr bool) : sess (M := M) (gmap gostr bool) :=
  match props with
  | [] => mret sent
  | p :: props =>
      if p.(p_answer) =? Defer then
        with_h (fun h => ((), SetDeferred p.(p_mid) h));;
        send_answered props sent
      else if p.(p_answer) =? Reject then send_answered props (<[p.(p_mid) := true]> sent)
      else if p.(p_answer) =? Accept then
        sess_writeCompressed p;;
        send_answered props (<[p.(p_mid) := false]> sent)
      else send_answered props sent
  end.

(** Robust mode is switched off while the messages are sent, and on again. *)
Definition unrobust {A} (m : sess (M := M) A) : sess (M := M) A := fun s =>
  match s.(s_robust), s.(s_mode) with
  | Some _, RobustAuto => r ← m (SetRobust false s); mret (r.1, SetRobust true r.2)
  | _, _ => m s
  end.

Definition send_block (props : list proposal) : sess (M := M) (gmap gostr bool) :=
  match props with
  | [] => mret ∅
  | _ => unrobust (send_answered props ∅)
  end.

Definition sess_outbound : sess (M := M) (list proposal) := fun s => lift (outbound s) s.

Definition sendOutbound : sess (M := M) (gmap gostr bool) :=
  out ← sess_outbound;
  let out := if MaxBlockSize <? zlen out then take (Z.to_nat MaxBlockSize) out else out in
  write (proposal_block out);;
  rd ← gets s_rd;
  reply ← read_reply (S (length rd));
  let '(e, out) := parseProposalAnswer reply out in
  match e with
  | Some e => throw (Wrap (str "Unable to parse proposal answer: ") e)
  | None => send_block out
  end.

(** Reports messages to the mailbox; those that were sent are counted. *)
Fixpoint report (l : list (gostr * bool)) : sess (M := M) () :=
  match l with
  | [] => mret ()
  | (mid, rej) :: l =>
      with_h (fun h => ((), SetSent mid rej h));;
      (if rej : bool then mret ()
       else modify (fun s => set_stats s (mkStats s.(s_stats).(Received) (s.(s_stats).(Sent) ++ [mid]))));;
      report l
  end.

(** [handleOutbound]: a block the remote does not want is followed by the next
    one.  Every round takes the remote's answer off the input. *)
Fixpoint handleOutbound_loop (fuel : nat) : sess (M := M) bool :=
  match fuel with
  | O => no_fuel
  | S fuel =>
      out ← sess_outbound;
      sent ← (match out with [] => mret ∅ | _ => sendOutbound end);
      report (filter (fun x => x.2 = true) (range sent));;
      let sent := filter (fun x => x.2 = false) sent in
      out ← sess_outbound;
      noMsgs ← gets s_remoteNoMsgs;
      if bool_decide (sent = ∅) && negb (bool_decide (out = [])) then handleOutbound_loop fuel
      else if bool_decide (sent = ∅) && noMsgs then
        write (str "FQ" ++ [13]);;
        mret true
      else
        (if bool_decide (sent = ∅) then write (str "FF" ++ [13]) else mret ());;
        c ← peek;
        if negb (c =? 70) && negb (c =? 59) then
          line ← sess_nextLine true;
          throw (New (str "Unexpected response: '" ++ line ++ str "'"))
        else
          report (range sent);;
          mret false
  end.

Definition handleOutbound : sess (M := M) bool := fun s => handleOutbound_loop (S (length s.(s_rd))) s.

(** ** Receiving *)

(** The loop of [writeProposalsAnswer]: the answered proposals and the number of
    accepted ones. *)
Fixpoint answer_proposals (h : option M) (seen : gset gostr) (props : list proposal) : list proposal * Z :=
  match props with
  | [] => ([], 0)
  | p :: props =>
      let a := if bool_decide (p.(p_mid) ∈ seen) then Defer
               else if negb (p.(p_code) =? Wl2kProposal) && negb (p.(p_code) =? GzipProposal) then Defer
               else match h with None => Defer | Some h => GetInboundAnswer p h end in
      let accepted := negb (bool_decide (p.(p_mid) ∈ seen))
                      && ((p.(p_code) =? Wl2kProposal) || (p.(p_code) =? GzipProposal))
                      && bool_decide (is_Some h) && (a =? Accept) in
      let '(props, n) := answer_proposals h ({[p.(p_mid)]} ∪ seen) props in
      (set_answer p a :: props, if accepted then n + 1 else n)
  end.

Definition writeProposalsAnswer (props : list proposal) : sess (M := M) (list proposal * Z) :=
  h ← gets s_h;
  let '(props, n) := answer_proposals h ∅ props in
  write (str "FS " ++ (u8 ∘ p_answer <$> props) ++ [13]);;
  mret (props, n).

Definition sess_readCompressed (p : proposal) : sess (M := M) proposal := fun s =>
  r ← readCompressed p s.(s_rd);
  let '((e, p), rd) := r in
  (throw_err e;; mret p) (set_rd s rd).

Definition sess_Message (p : proposal) : sess (M := M) message :=
  r ← lift (prop_Message dfuel ks p);
  let '(e, m) := r in
  throw_err e;;
  mret m.

(** Fetches the accepted messages. *)
Fixpoint fetch (props : list proposal) : sess (M := M) () :=
  match props with
  | [] => mret ()
  | p :: props =>
      if negb (p.(p_answer) =? Accept) then fetch props
      else
        modify (fun s => set_noMsgs s false);;
        p ← sess_readCompressed p;
        m ← sess_Message p;
        e ← with_h (ProcessInbound m);
        throw_err e;;
        modify (fun s => set_stats s (mkStats (s.(s_stats).(Received) ++ [p.(p_mid)]) s.(s_stats).(Sent)));;
        fetch props
  end.

Definition fetch_all (props : list proposal) : sess (M := M) () :=
  modify (fun s => set_noMsgs s true);;
  fetch props.

(** The loop of [handleInbound] over the lines, with the checksum and the
    proposals so far; a block none of which is accepted starts it over.  (The
    source's error for a quit command with accepted proposals pending cannot
    occur: the loop is left as soon as a proposal is accepted.) *)
Fixpoint handleInbound_loop (fuel : nat) (sum : Z) (props : list proposal) : sess (M := M) bool :=
  match fuel with
  | O => no_fuel
  | S fuel =>
      line ← sess_nextLine true;
      match line with
      | [] | 59 :: _ => handleInbound_loop fuel sum props
      | 70 :: c :: _ =>
          if (c =? 65) || (c =? 66) || (c =? 67) || (c =? 68) then
            r ← lift (parseProposal line newProposal);
            let '(e, p) := r in
            match e with
            | Some e => throw (Wrap (str "Unable to parse proposal: ") e)
            | None => handleInbound_loop fuel (sum + lineSum line) (props ++ [p])
            end
          else if c =? 70 then fetch_all props;; mret false
          else if c =? 81 then fetch_all props;; mret true
          else if c =? 62 then
            let our := checksum sum in
            hex ← lift (slice line 3 (zlen line));
            let their := (ParseInt 16 hex).1 in
            if negb (their =? our)
            then throw (New (str "Checksum error (" ++ itoa our ++ str "-" ++ itoa their ++ str ")"))
            else
              match props with
              | [] => mret false
              | _ =>
                  r ← writeProposalsAnswer props;
                  let '(props, nAccepted) := r in
                  if 0 <? nAccepted then fetch_all props;; mret false
                  else handleInbound_loop fuel 0 []
              end
          else throw (New (str "Unknown protocol command " ++ EncodeRune c))
      | _ => throw (New (str "Got unexpected protocol line: '" ++ line ++ str "'"))
      end
  end.

(** Every round of the loop takes a line off the input. *)
Definition handleInbound : sess (M := M) bool := fun s => handleInbound_loop (S (length s.(s_rd))) 0 [] s.

(** ** The whole exchange *)
Fixpoint turns (fuel : nat) (myTurn : bool) : sess (M := M) () :=
  match fuel with
  | O => no_fuel
  | S fuel =>
      fin ← gets Done;
      if fin : bool then mret ()
      else
        (if myTurn then
           quit ← handleOutbound;
           modify (fun s => set_quit s s.(s_quitReceived) quit)
         else
           quit ← handleInbound;
           modify (fun s => set_quit s quit s.(s_quitSent)));;
        turns fuel (negb myTurn)
  end.

Definition ErrConnLost : error := New (str "connection lost").

(** [Prepare] of the mailbox. *)
Definition prepare : sess (M := M) () :=
  h ← gets s_h;
  match h with
  | None => mret ()
  | Some _ => e ← with_h Prepare; throw_err e
  end.

(** The loop over the turns of both sides.  Each pair of turns takes a line off
    the input. *)
Definition exchange_turns : sess (M := M) () :=
  master ← gets s_master;
  rd ← gets s_rd;
  turns (2 * length rd + 3) (negb master).

(** The deferred function of [Exchange]: errors are echoed to the remote, the
    connection is closed. *)
Definition finish (e : error + ()) s : option error * session M :=
  match e with
  | inr _ => (None, set_closed s true)
  | inl e =>
      if is_EOF e then (Some ErrConnLost, set_closed s true)
      else (Some e, set_closed (set_out s (s.(s_out) ++ str "*** " ++ Error e ++ [13; 10])) true)
  end.

(** [Exchange]: the statistics, the error and the session.  From [Prepare] on
    robust mode is on unless it is disabled, and is switched off at the end. *)
Definition Exchange s : res (TrafficStats * (option error * session M)) :=
  if Done s then mret (mkStats [] [], (None, s))
  else
    let s := if fwAuxOnlyExperiment && (1 <? zlen s.(s_localFW)) then set_localFW s (drop 1 s.(s_localFW)) else s in
    r ← prepare s;
    match r with
    | (inl e, s) => mret (mkStats [] [], finish (inl e) s)
    | (inr _, s) =>
        r ← handshake (SetRobust (negb (bool_decide (s.(s_mode) = RobustDisabled))) s);
        match r with
        | (inl e, s) => mret (mkStats [] [], finish (inl e) (SetRobust false s))
        | (inr _, s) => r ← exchange_turns s; mret (r.2.(s_stats), finish r.1 (SetRobust false r.2))
        end
    end.
End exchange.
