(* ===== verification/Delivery.v ===== *)
(** What a session delivers: the two sides of an exchange understand each other,
    proposals are answered, messages arrive, and nothing is reported that did
    not happen. *)
From S2P Require Import Prelude Crc GoStr Helpers Mid Words Reader Proposal Transfer Message MessageFormat Session Handshake Exchange.
From stdpp Require Import gmap.
Open Scope Z_scope.

(** ** Lines of a block *)
(** Rewrites the first occurrence only. *)
Ltac rewrite_first E :=
  lazymatch type of E with ?x = _ =>
    pattern x at 1; match goal with |- ?P x => refine (eq_ind_r P _ E) end; cbv beta end.

Ltac not_in :=
  repeat first [ apply not_elem_of_nil | assumption | apply not_elem_of_cons; split; [lia|]
               | apply not_elem_of_app; split | by apply not_elem_existsb | apply not_in_digits; lia ].

Lemma propLine_tidy p : sendable p ->
  tidy (propLine p) /\ HasPrefix (propLine p) (str "*") = false /\
  exists l, propLine p = 70 :: p.(p_code) :: 32 :: l.
Proof.
  intros Hp. rewrite (propLine_shape p Hp). destruct Hp as [Hk Ht [_ Hm] Hs Hc]. split_and!; [|done|by eexists].
  assert (Hk' : 13 <> p.(p_code)) by (unfold Wl2kProposal, GzipProposal in Hk; lia).
  assert (Ht' : 13 ∉ p.(p_msgType)) by (destruct Ht as [-> | ->]; by apply not_elem_existsb).
  set (x := [p.(p_code); 32] ++ p.(p_msgType) ++ 32 :: p.(p_mid) ++ 32 :: itoa p.(p_size) ++ 32 :: itoa p.(p_csize) ++ [32]).
  match goal with |- tidy ?l => replace l with (70 :: x ++ [48]) end; [apply tidy_line; [done|done|unfold x; not_in]|].
  unfold x. cbn [app]. do 3 f_equal. repeat (rewrite <- app_assoc; cbn [app]; f_equal; f_equal).
Qed.

Lemma hexdigit_ok d : 0 <= d < 16 -> digit_value 16 (hexdigit d) = Some d /\ solid (hexdigit d) = true /\
  hexdigit d <> 13 /\ hexdigit d <> 43 /\ hexdigit d <> 45.
Proof.
  intros Hd. assert (F : forallb (fun d => bool_decide (digit_value 16 (hexdigit d) = Some d) && solid (hexdigit d) &&
    negb (hexdigit d =? 43) && negb (hexdigit d =? 45)) (seqZ 0 16) = true) by (vm_compute; reflexivity).
  rewrite forallb_forall in F. specialize (F d). rewrite !andb_true_iff, bool_decide_eq_true, !negb_true_iff, !Z.eqb_neq in F.
  destruct F as [[[F1 F2] F3] F4]; [apply list_elem_of_In, elem_of_seqZ; lia|]. split_and!; try done.
  unfold solid in F2. lia.
Qed.

Lemma ParseInt_hex2 n : 0 <= n < 256 -> ParseInt 16 (hex2 n) = (n, false).
Proof.
  intros Hn. destruct (hexdigit_ok (n / 16)) as (E1 & _ & _ & N1 & N2); [Z.div_mod_to_equations; lia|].
  destruct (hexdigit_ok (n mod 16)) as (E2 & _); [Z.div_mod_to_equations; lia|].
  unfold ParseInt, hex2. set (a := hexdigit (n / 16)) in *. set (b := hexdigit (n mod 16)) in *.
  replace (match [a; b] with 43 :: s => (false, s) | 45 :: s => (true, s) | _ => (false, [a; b]) end) with (false, [a; b]).
  2:{ clear -N1 N2. repeat (case_match; try done; try congruence). }
  unfold unsigned. cbn [value_of]. rewrite E1. cbn [value_of]. rewrite E2. cbv iota.
  replace ((0 * 16 + n / 16) * 16 + n mod 16) with n by (Z.div_mod_to_equations; lia).
  destruct (Z.ltb_spec n (2 ^ 63)); [done|lia].
Qed.

Lemma checksum_range x : 0 <= checksum x < 256.
Proof. unfold checksum. rewrite land_255. apply Z.mod_pos_bound. lia. Qed.

Lemma prompt_tidy c : 0 <= c < 256 ->
  tidy (str "F> " ++ hex2 c) /\ HasPrefix (str "F> " ++ hex2 c) (str "*") = false /\
  slice (str "F> " ++ hex2 c) 3 (zlen (str "F> " ++ hex2 c)) = Ok (hex2 c).
Proof.
  intros Hc. destruct (hexdigit_ok (c / 16)) as (_ & S1 & N1 & _); [Z.div_mod_to_equations; lia|].
  destruct (hexdigit_ok (c mod 16)) as (_ & S2 & _); [Z.div_mod_to_equations; lia|]. split_and!; [|done|done].
  change (str "F> " ++ hex2 c) with (70 :: [62; 32; hexdigit (c / 16)] ++ [hexdigit (c mod 16)]).
  apply tidy_line; [done|done|]. set (h := hexdigit (c / 16)) in *. not_in.
Qed.

(** ** The receiver and a block *)
Section receiver.
Context {M : Type} `{Charset} `{Clock} `{Gzip} `{MapOrder} `{MBoxHandler M}.
Context (dfuel : nat) (ks : nat -> Z).
Implicit Types r s : session M.

Lemma in_block props n sum acc r rest :
  Forall sendable props -> r.(s_rd) = concat ((fun p => propLine p ++ [13]) <$> props) ++ rest ->
  (length r.(s_rd) < n)%nat ->
  exists k, (length rest < k)%nat /\
    handleInbound_loop dfuel ks n sum acc r
    = handleInbound_loop dfuel ks k (foldl Z.add sum (lineSum ∘ propLine <$> props)) (acc ++ (announced <$> props)) (set_rd r rest).
Proof.
  intros Hp. revert n sum acc r. induction Hp as [|p props Hp _ IH]; intros n sum acc r Er Hn.
  - cbn in Er. subst rest. exists n. rewrite set_rd_same, app_nil_r. done.
  - cbn [fmap list_fmap concat] in Er. rewrite <- !app_assoc in Er. cbn [app] in Er.
    destruct (propLine_tidy p Hp) as (Ht & Hs & l & El). destruct n as [|n]; [lia|]. cbn [handleInbound_loop].
    set (r1 := set_rd r (concat ((fun p => propLine p ++ [13]) <$> props) ++ rest)).
    destruct (IH n (sum + lineSum (propLine p)) (acc ++ [announced p]) r1 eq_refl) as (k & Hk & Ek).
    { unfold r1. cbn [s_rd set_rd]. rewrite Er, length_app in Hn. cbn [length] in Hn. cbn [fmap] in *. lia. }
    exists k. split; [done|]. rewrite (sess_bind_inr _ _ _ _ _ (next_line true r _ _ Er Ht (or_intror Hs))).
    fold r1. rewrite_first El. cbv iota.
    replace ((p.(p_code) =? 65) || _ || _ || _) with true by (by destruct (sb_code p Hp) as [-> | ->]).
    cbv iota. rewrite (sess_bind_inr _ _ r1 (None, announced p) r1) by (unfold lift; by rewrite parse_propLine).
    rewrite Ek. cbn [fmap list_fmap foldl]. rewrite <- app_assoc. done.
Qed.

(** The end of the block: the answer is written and the accepted messages, if
    there are any, are fetched. *)
Lemma in_prompt n sum props r rest aprops cnt :
  props <> [] -> r.(s_rd) = (str "F> " ++ hex2 (checksum sum)) ++ 13 :: rest ->
  answer_proposals r.(s_h) ∅ props = (aprops, cnt) ->
  handleInbound_loop dfuel ks (S n) sum props r
  = (if 0 <? cnt then fetch_all dfuel ks aprops;; mret false else handleInbound_loop dfuel ks n 0 [])
      (set_out (set_rd r rest) (r.(s_out) ++ str "FS " ++ (u8 ∘ p_answer <$> aprops) ++ [13])).
Proof.
  intros Hne Er Ea. cbn [handleInbound_loop].
  destruct (prompt_tidy (checksum sum) (checksum_range sum)) as (Ht & Hs & Hsl).
  rewrite (sess_bind_inr _ _ _ _ _ (next_line true r _ _ Er Ht (or_intror Hs))).
  set (line := str "F> " ++ _) in *. set (r1 := set_rd r rest).
  assert (exists l, line = 70 :: 62 :: l) as [l El] by (by eexists). cbv beta. rewrite_first El. cbv iota. cbn [Z.eqb Pos.eqb orb]. cbv iota.
  rewrite (sess_bind_inr _ _ r1 (hex2 (checksum sum)) r1) by (unfold lift; by rewrite Hsl).
  rewrite ParseInt_hex2 by apply checksum_range. cbn [fst]. rewrite Z.eqb_refl. cbn [negb].
  destruct props as [|p props]; [done|]. set (r2 := set_out r1 _).
  rewrite (sess_bind_inr _ _ r1 (aprops, cnt) r2); [done|].
  unfold writeProposalsAnswer. rewrite (sess_bind_inr _ _ r1 r.(s_h) r1) by done. by rewrite Ea.
Qed.
End receiver.

(** ** A block of messages *)

(** What the answers select. *)
Fixpoint chosen {A} (l : list A) (ans : list Z) : list A :=
  match l, ans with
  | x :: l, a :: ans => if a =? Accept then x :: chosen l ans else chosen l ans
  | _, _ => []
  end.

(** The bytes of a transfer. *)
Definition written (p : proposal) : gostr := match writeCompressed p with Ok (out, _) => out | _ => [] end.

(** What the sender has on record afterwards: the messages the remote took
    ([false]) or did not want ([true]), and the deferred ones. *)
Fixpoint sent_after (props : list proposal) (ans : list Z) (sent : gmap gostr bool) : gmap gostr bool :=
  match props, ans with
  | p :: props, a :: ans =>
      sent_after props ans (if a =? Reject then <[p.(p_mid) := true]> sent
                            else if a =? Accept then <[p.(p_mid) := false]> sent else sent)
  | _, _ => sent
  end.

Section block.
Context `{Charset} `{Clock} `{Gzip} (dfuel : nat) (ks : nat -> Z).

(** A proposal that can be sent and that holds a message. *)
Definition carries (p : proposal) (m : message) : Prop :=
  sendable p /\ transferable p /\ prop_Message dfuel ks p = Ok (None, m).

Section sending.
Context {M : Type} `{MBoxHandler M}.
Implicit Types s : session M.

Fixpoint deferred_after (props : list proposal) (ans : list Z) (h : M) : M :=
  match props, ans with
  | p :: props, a :: ans => deferred_after props ans (if a =? Defer then SetDeferred p.(p_mid) h else h)
  | _, _ => h
  end.

Lemma written_ok p a : transferable p -> writeCompressed (set_answer p a) = Ok (written p, None).
Proof.
  intros [_ Hc Hm Ho _]. assert (exists out, writeCompressed p = Ok (out, None)) as (out & E).
  { unfold writeCompressed. destruct (Z.ltb_spec (p_csize p) 6); [lia|]. pose proof (zlen_nonneg p.(p_data)).
    rewrite Ho, slice_ok by lia. by eexists. }
  unfold written. rewrite E. exact E.
Qed.

Lemma send_answered_ok props ans sent s h :
  Forall transferable props -> Forall answered ans -> length ans = length props -> s.(s_h) = Some h ->
  send_answered (zip_with set_answer props ans) sent s
  = Ok (inr (sent_after props ans sent),
        set_h (set_out s (s.(s_out) ++ concat (written <$> chosen props ans))) (Some (deferred_after props ans h))).
Proof.
  intros Hp. revert ans sent s h. induction Hp as [|p props Hp _ IH]; intros [|a ans] sent s h Ha Hl Hh; try done.
  { cbn. rewrite app_nil_r, <- Hh. by destruct s. }
  apply Forall_cons_1 in Ha as [Ha Hr]. injection Hl as Hl. cbn [zip_with send_answered].
  change (p_answer (set_answer p a)) with a. change (p_mid (set_answer p a)) with p.(p_mid).
  destruct Ha as [-> |[-> | ->]].
  - change (Accept =? Defer) with false. change (Accept =? Reject) with false. change (Accept =? Accept) with true. cbv iota.
    set (s1 := set_out s (s.(s_out) ++ written p)).
    rewrite (sess_bind_inr _ _ s () s1).
    2:{ unfold sess_writeCompressed. rewrite (sess_bind_inr _ _ s (written p, None) s) by (unfold lift; by rewrite written_ok).
        by rewrite (sess_bind_inr _ _ s () s1). }
    rewrite (IH ans _ s1 h) by done. unfold s1. cbn [s_out set_out]. cbn [chosen fmap list_fmap concat sent_after deferred_after].
    change (Accept =? Accept) with true. change (Accept =? Defer) with false. change (Accept =? Reject) with false. cbv iota.
    cbn [fmap list_fmap concat]. by rewrite <- app_assoc.
  - change (Reject =? Defer) with false. change (Reject =? Reject) with true. cbv iota.
    rewrite (IH ans _ s h) by done. done.
  - change (Defer =? Defer) with true. cbv iota. set (s1 := set_h s (Some (SetDeferred p.(p_mid) h))).
    rewrite (sess_bind_inr _ _ s () s1) by (unfold with_h; by rewrite Hh).
    rewrite (IH ans _ s1 (SetDeferred p.(p_mid) h)) by done. done.
Qed.
End sending.

Section receiving.
Context {N : Type} `{MBoxHandler N}.
Implicit Types r : session N.

(** What the receiver holds after taking in messages. *)
Definition received r (ms : list message) (mids : list gostr) : session N :=
  set_stats (set_h r ((fun h => foldl (fun h m => (ProcessInbound m h).2) h ms) <$> r.(s_h)))
    (mkStats (r.(s_stats).(Received) ++ mids) r.(s_stats).(Sent)).

(** The mailbox takes the messages, one after the other. *)
Fixpoint takes (h : N) (ms : list message) : Prop :=
  match ms with [] => True | m :: ms => (ProcessInbound m h).1 = None /\ takes (ProcessInbound m h).2 ms end.

Lemma prop_Message_same p q : p.(p_code) = q.(p_code) -> p.(p_data) = q.(p_data) ->
  prop_Message dfuel ks p = prop_Message dfuel ks q.
Proof. intros E1 E2. unfold prop_Message, Data. by rewrite E1, E2. Qed.

(** One message. *)
Lemma fetch_one p m r h rest props :
  carries p m -> r.(s_h) = Some h -> (ProcessInbound m h).1 = None ->
  r.(s_rd) = written p ++ rest ->
  fetch dfuel ks (set_answer (announced p) Accept :: props) r
  = fetch dfuel ks props (received (set_noMsgs (set_rd r rest) false) [m] [p.(p_mid)]).
Proof.
  intros (Hs & Ht & Hm) Hh Hp Er. cbn [fetch]. change (p_answer (set_answer (announced p) Accept)) with Accept.
  change (negb (Accept =? Accept)) with false. cbv iota.
  set (r1 := set_noMsgs r false). rewrite (sess_bind_inr _ _ r () r1) by done.
  set (q := set_answer (announced p) Accept).
  destruct (read_written p q rest Ht eq_refl eq_refl) as (out & Eo & Er').
  assert (out = written p) as -> by (unfold written; by rewrite Eo).
  set (q' := set_data _ _) in Er'. set (r2 := set_rd r1 rest).
  rewrite (sess_bind_inr _ _ r1 q' r2).
  2:{ unfold sess_readCompressed. change (s_rd r1) with (s_rd r). by rewrite Er, Er'. }
  rewrite (sess_bind_inr _ _ r2 m r2).
  2:{ unfold sess_Message. rewrite (sess_bind_inr _ _ r2 (None, m) r2); [done|]. unfold lift.
      by rewrite (prop_Message_same q' p eq_refl eq_refl), Hm. }
  destruct (ProcessInbound m h) as [e h'] eqn:Ep. cbn in Hp. subst e. set (r3 := set_h r2 (Some h')).
  rewrite (sess_bind_inr _ _ r2 None r3).
  2:{ unfold with_h. change (s_h r2) with (s_h r). by rewrite Hh, Ep. }
  rewrite (sess_bind_inr _ _ r3 () r3) by done.
  rewrite (sess_bind_inr _ _ r3 () (set_stats r3 (mkStats (r3.(s_stats).(Received) ++ [p.(p_mid)]) r3.(s_stats).(Sent)))) by done.
  f_equal. unfold received. change (s_h (set_noMsgs (set_rd r rest) false)) with (s_h r). rewrite Hh.
  cbn [fmap option_fmap option_map foldl]. rewrite Ep. done.
Qed.

Lemma received_nil r : received r [] [] = r.
Proof.
  unfold received. rewrite app_nil_r. destruct r as [? ? ? ? h ? ? ? ? ? st]. destruct h, st; done.
Qed.

Lemma received_more r m1 i1 m2 i2 x b :
  received (set_noMsgs (set_rd (received r m1 i1) x) b) m2 i2
  = received (set_noMsgs (set_rd r x) b) (m1 ++ m2) (i1 ++ i2).
Proof.
  unfold received. destruct r as [? ? ? ? h ? ? ? ? ? st]. destruct h; cbn; by rewrite ?foldl_app, app_assoc.
Qed.

(** All the accepted ones, in the order of the block. *)
Lemma fetch_ok props ms ans r h rest :
  Forall2 carries props ms -> length ans = length props -> r.(s_h) = Some h ->
  takes h (chosen ms ans) ->
  r.(s_rd) = concat (written <$> chosen props ans) ++ rest ->
  fetch dfuel ks (zip_with set_answer (announced <$> props) ans) r
  = Ok (inr (), received (set_noMsgs (set_rd r rest) (match chosen props ans with [] => r.(s_remoteNoMsgs) | _ => false end))
                  (chosen ms ans) (p_mid <$> chosen props ans)).
Proof.
  intros Hc. revert ans r h. induction Hc as [|p m props ms Hc _ IH]; intros [|a ans] r h Hl Hh Hp Er; try done.
  { cbn in Er. cbn. rewrite received_nil, <- Er. by destruct r. }
  injection Hl as Hl. cbn [fmap list_fmap zip_with chosen] in *. destruct (Z.eqb_spec a Accept) as [->|Hn].
  - cbn [fmap list_fmap concat] in Er. rewrite <- app_assoc in Er.
    rewrite (fetch_one p m r h (concat (written <$> chosen props ans) ++ rest)); [|done|done|apply Hp|done].
    set (r1 := received _ _ _). cbn [fmap] in *.
    rewrite (IH ans r1 (ProcessInbound m h).2); [|done|unfold r1, received; cbn; by rewrite Hh|apply Hp|done].
    unfold r1. rewrite received_more. by destruct (chosen props ans).
  - cbn [fetch]. change (p_answer (set_answer (announced p) a)) with a. destruct (Z.eqb_spec a Accept); [done|]. cbn [negb].
    by apply (IH ans r h).
Qed.
End receiving.
End block.

(** ** Delivery *)

(** The receiver's answers to a block. *)
Definition answers {N : Type} `{MBoxHandler N} (hr : N) (props : list proposal) : list Z :=
  p_answer <$> (answer_proposals (Some hr) ∅ (announced <$> props)).1.

Section answers.
Context {N : Type} `{MBoxHandler N}.

Lemma answer_proposals_zip (h : option N) seen props :
  (answer_proposals h seen props).1 = zip_with set_answer props (p_answer <$> (answer_proposals h seen props).1).
Proof.
  revert seen. induction props as [|p props IH]; intros seen; cbn [answer_proposals]; [done|].
  specialize (IH ({[p.(p_mid)]} ∪ seen)). destruct (answer_proposals h _ props) as [l n]. cbn [fst fmap list_fmap zip_with] in *.
  by rewrite <- IH.
Qed.

(** The number returned is that of the accepted proposals. *)
Lemma answer_proposals_count (hr : N) seen props :
  (answer_proposals (Some hr) seen props).2
  = zlen (chosen props (p_answer <$> (answer_proposals (Some hr) seen props).1)).
Proof.
  revert seen. induction props as [|p props IH]; intros seen; cbn [answer_proposals]; [done|].
  specialize (IH ({[p.(p_mid)]} ∪ seen)). destruct (answer_proposals _ _ props) as [l n]. cbn [fst snd fmap list_fmap chosen] in *.
  cbn [p_answer set_answer]. change (bool_decide (is_Some (Some hr))) with true. rewrite andb_true_r.
  destruct (bool_decide (p.(p_mid) ∈ seen)); cbn [negb andb]; [done|].
  rewrite <- negb_orb. destruct ((p.(p_code) =? Wl2kProposal) || _); cbn [negb andb]; [|done].
  destruct (GetInboundAnswer p hr =? Accept); [|done]. rewrite zlen_cons, <- IH. lia.
Qed.

Lemma answers_length (hr : N) props : length (answers hr props) = length props.
Proof.
  unfold answers. rewrite length_fmap. generalize (∅ : gset gostr). induction props as [|p props IH]; intros seen; [done|].
  cbn [fmap list_fmap answer_proposals]. specialize (IH ({[p_mid (announced p)]} ∪ seen)).
  destruct (answer_proposals _ _ (announced <$> props)). cbn in *. cbn [fmap] in *. lia.
Qed.
End answers.

Lemma chosen_fmap {A B} (f : A -> B) l ans : chosen (f <$> l) ans = f <$> chosen l ans.
Proof.
  revert ans. induction l as [|x l IH]; intros [|a ans]; try done. cbn [fmap list_fmap chosen]. cbn [fmap] in IH.
  rewrite IH. by destruct (a =? Accept).
Qed.

Lemma answered_bytes ans : Forall answered ans -> u8 <$> ans = ans /\ Forall (fun c => solid c = true /\ c <> 13) ans.
Proof.
  induction 1 as [|a ans Ha _ [IH1 IH2]]; [done|]. cbn [fmap list_fmap]. cbn [fmap] in IH1. rewrite IH1.
  destruct Ha as [-> |[-> | ->]]; (split; [done|constructor; [done|done]]).
Qed.

Lemma reply_tidy ans : Forall answered ans -> ans <> [] ->
  tidy (str "FS " ++ ans) /\ HasPrefix (str "FS " ++ ans) (str "*") = false.
Proof.
  intros Ha Hne. split; [|done]. destruct (answered_bytes ans Ha) as [_ Hs].
  destruct ans as [|d m _] using rev_ind; [done|]. apply Forall_app in Hs as [Hm Hd]. apply Forall_cons_1 in Hd as [[Hd _] _].
  change (str "FS " ++ m ++ [d]) with (70 :: ([83; 32] ++ m) ++ [d]). apply tidy_line; [done|done|].
  apply not_elem_of_cons. split; [lia|]. apply not_elem_of_cons. split; [lia|]. intros Hin.
  eapply Forall_forall in Hin; [|exact Hm]. cbn in Hin. lia.
Qed.

Section delivery.
Context `{Charset} `{Clock} `{Gzip} (dfuel : nat) (ks : nat -> Z).
Context {M : Type} `{MBoxHandler M} {N : Type} `{MBoxHandler N}.

(** Robust mode after messages have been sent: [n] bytes had been written before
    them. *)
Definition robust_again (n : Z) (s : session M) : session M :=
  match s.(s_robust) with
  | Some calls =>
      if bool_decide (s.(s_mode) = RobustAuto) then set_robust s (Some (calls ++ [(false, n); (true, zlen s.(s_out))])) else s
  | None => s
  end.

Lemma send_block_ok props ans s h : props <> [] ->
  Forall transferable props -> Forall answered ans -> length ans = length props -> s.(s_h) = Some h ->
  send_block (zip_with set_answer props ans) s
  = Ok (inr (sent_after props ans ∅),
        robust_again (zlen s.(s_out)) (set_h (set_out s (s.(s_out) ++ concat (written <$> chosen props ans))) (Some (deferred_after props ans h)))).
Proof.
  intros Hne Hp Ha Hl Hh. destruct props as [|p props]; [done|]. destruct ans as [|a ans]; [done|].
  unfold send_block. change (zip_with set_answer (p :: props) (a :: ans)) with (set_answer p a :: zip_with set_answer props ans) at 1.
  cbv iota. unfold unrobust, robust_again. cbn [s_mode s_robust set_h set_out].
  destruct s.(s_robust) as [r|] eqn:Er; [|by rewrite (send_answered_ok _ _ _ s h)].
  destruct s.(s_mode) eqn:Em.
  - rewrite (send_answered_ok _ _ _ (SetRobust false s) h) by (done || by unfold SetRobust; rewrite Er).
    unfold SetRobust. rewrite Er. cbn. by rewrite <- app_assoc.
  - by rewrite (send_answered_ok _ _ _ s h).
  - by rewrite (send_answered_ok _ _ _ s h).
Qed.

Lemma sendOutbound_ok (E : Environment) (s : session M) h all ans rest :
  s.(s_h) = Some h -> outbound s = Ok all ->
  Forall transferable (take 5 all) -> Forall answered ans -> length ans = length (take 5 all) -> ans <> [] ->
  sendOutbound (set_rd s (str "FS " ++ ans ++ 13 :: rest))
  = Ok (inr (sent_after (take 5 all) ans ∅),
        robust_again (zlen (s.(s_out) ++ proposal_block (take 5 all))) (set_h (set_out (set_rd s rest) (s.(s_out) ++ proposal_block (take 5 all) ++ concat (written <$> chosen (take 5 all) ans)))
          (Some (deferred_after (take 5 all) ans h)))).
Proof.
  intros Hh Ho Ht Ha Hl Hne. unfold sendOutbound. set (s0 := set_rd s _).
  rewrite (sess_bind_inr _ _ s0 all s0) by (unfold sess_outbound, lift; change (outbound s0) with (outbound s); by rewrite Ho).
  assert ((if MaxBlockSize <? zlen all then take (Z.to_nat MaxBlockSize) all else all) = take 5 all) as ->.
  { unfold MaxBlockSize. destruct (Z.ltb_spec 5 (zlen all)); [done|]. unfold zlen in *. by rewrite take_ge by lia. }
  cbv zeta. set (props := take 5 all) in *. set (s1 := set_out s0 (s.(s_out) ++ proposal_block props)).
  rewrite (sess_bind_inr _ _ s0 () s1) by done. rewrite (sess_bind_inr _ _ s1 s1.(s_rd) s1) by done.
  destruct (reply_tidy ans Ha Hne) as [Hti Hst]. set (s2 := set_rd s1 rest).
  rewrite (sess_bind_inr _ _ s1 (str "FS " ++ ans) s2).
  2:{ cbn [read_reply]. rewrite (sess_bind_inr _ _ _ _ _ (next_line true s1 (str "FS " ++ ans) rest
        ltac:(change (str "FS " ++ ans ++ 13 :: rest = (str "FS " ++ ans) ++ 13 :: rest); by rewrite <- app_assoc) Hti (or_intror Hst))).
      by rewrite HasPrefix_app. }
  unfold parseProposalAnswer, TrimPrefix. rewrite HasPrefix_app, drop_app_length, parse_answers_ok by done.
  rewrite (send_block_ok props ans s2 h) by (done || by intros E'; rewrite E' in Hl; destruct ans). unfold s2, s1. cbn [s_out set_out set_rd]. by rewrite <- app_assoc.
Qed.

(** A whole block, up to the answer. *)
Lemma in_answered n (r : session N) hr props tr :
  r.(s_h) = Some hr -> Forall sendable props -> props <> [] -> Forall answered (answers hr props) ->
  let ans := answers hr props in
  let r0 := set_rd r (proposal_block props ++ tr) in
  (length r0.(s_rd) < n)%nat -> exists k, (length tr < k)%nat /\
  handleInbound_loop dfuel ks n 0 [] r0
  = (if 0 <? zlen (chosen props ans) then fetch_all dfuel ks (zip_with set_answer (announced <$> props) ans);; mret false
     else handleInbound_loop dfuel ks k 0 []) (set_rd (set_out r (r.(s_out) ++ str "FS " ++ ans ++ [13])) tr).
Proof.
  intros Hh Hs Hpn Ha ans r0 Hn. unfold proposal_block in r0. set (sum := checksum _) in r0.
  destruct (in_block dfuel ks props n 0 [] r0 ((str "F> " ++ hex2 sum) ++ 13 :: tr)) as (k & Hk & ->);
    [done|unfold r0; cbn [s_rd set_rd]; by rewrite <- !app_assoc|done|].
  destruct k as [|k]; [lia|]. exists k. split; [rewrite length_app in Hk; cbn [length] in Hk; lia|].
  pose proof (answer_proposals_zip (Some hr) ∅ (announced <$> props)) as Ez. fold (answers hr props) in Ez. fold ans in Ez.
  pose proof (answer_proposals_count hr ∅ (announced <$> props)) as Ec. fold (answers hr props) in Ec. fold ans in Ec.
  destruct (answer_proposals (Some hr) ∅ (announced <$> props)) as [aprops cnt] eqn:Eap. cbn [fst snd] in *. subst aprops.
  rewrite chosen_fmap in Ec. rewrite app_nil_l.
  rewrite (in_prompt dfuel ks k _ _ _ tr (zip_with set_answer (announced <$> props) ans) cnt); [|by destruct props|done|].
  2:{ cbn [s_h set_rd r0]. change (s_h (set_rd r0 ((str "F> " ++ hex2 sum) ++ 13 :: tr))) with (s_h r). rewrite Hh. exact Eap. }
  assert (El : length ans = length props) by apply answers_length.
  assert (Eu : u8 ∘ p_answer <$> zip_with set_answer (announced <$> props) ans = ans).
  { rewrite list_fmap_compose. assert (p_answer <$> zip_with set_answer (announced <$> props) ans = ans) as ->.
    - clear -El. revert El. generalize ans. induction props as [|p ps IH]; intros [|a l] E; try done. cbn. cbn [fmap] in IH.
      f_equal. apply IH. by injection E.
    - apply (answered_bytes ans Ha). }
  assert (zlen (chosen props ans) = cnt) as -> by (subst cnt; unfold zlen; by rewrite length_fmap). by rewrite Eu.
Qed.

Lemma inbound_loop_ok n (r : session N) hr props ms rest :
  r.(s_h) = Some hr -> Forall2 (carries dfuel ks) props ms ->
  Forall answered (answers hr props) -> chosen props (answers hr props) <> [] ->
  takes hr (chosen ms (answers hr props)) ->
  let ans := answers hr props in
  let r0 := set_rd r (proposal_block props ++ concat (written <$> chosen props ans) ++ rest) in
  (length r0.(s_rd) < n)%nat ->
  handleInbound_loop dfuel ks n 0 [] r0
  = Ok (inr false, received (set_noMsgs (set_rd (set_out r (r.(s_out) ++ str "FS " ++ ans ++ [13])) rest) false)
                     (chosen ms ans) (p_mid <$> chosen props ans)).
Proof.
  intros Hh Hc Ha Hne Hp ans r0 Hn. assert (Hs : Forall sendable props).
  { clear -Hc. induction Hc as [|p m ps ms' (Hs & _ & _) _ IH]; by constructor. }
  assert (Hpn : props <> []) by (intros ->; done).
  destruct (in_answered n r hr props _ Hh Hs Hpn Ha Hn) as (k & _ & E). unfold r0. rewrite E. clear E. fold ans.
  assert (0 < zlen (chosen props ans)) by (fold ans in Hne; destruct (chosen props ans); [done|rewrite zlen_cons; pose proof (zlen_nonneg l); lia]).
  destruct (Z.ltb_spec 0 (zlen (chosen props ans))); [|lia]. set (r1 := set_rd _ _). unfold fetch_all.
  rewrite (sess_bind_inr _ _ r1 () (received (set_noMsgs (set_rd r1 rest) false) (chosen ms ans) (p_mid <$> chosen props ans))); [done|].
  rewrite (sess_bind_inr _ _ r1 () (set_noMsgs r1 true)) by done.
  rewrite (fetch_ok dfuel ks props ms ans (set_noMsgs r1 true) hr rest); [|done|apply answers_length|done|done|done].
  do 3 f_equal. fold ans in Hne. by destruct (chosen props ans).
Qed.

Lemma handleInbound_ok (r : session N) hr props ms rest :
  r.(s_h) = Some hr -> Forall2 (carries dfuel ks) props ms ->
  Forall answered (answers hr props) -> chosen props (answers hr props) <> [] ->
  takes hr (chosen ms (answers hr props)) ->
  let ans := answers hr props in
  handleInbound dfuel ks (set_rd r (proposal_block props ++ concat (written <$> chosen props ans) ++ rest))
  = Ok (inr false, received (set_noMsgs (set_rd (set_out r (r.(s_out) ++ str "FS " ++ ans ++ [13])) rest) false)
                     (chosen ms ans) (p_mid <$> chosen props ans)).
Proof. intros Hh Hc Ha Hne Hp ans. apply (inbound_loop_ok _ r hr props ms rest); auto. Qed.
End delivery.

(** ** Messages *)
Section messages.
Context `{Charset} `{Clock} `{Gzip} (dfuel : nat) (ks : nat -> Z).

(** A message as the receiver gets it: the names of the files are those of its
    header. *)
Definition received_as (m : message) : message :=
  mkMsg m.(m_header) m.(m_body)
    (zip_with (fun v f => mkFile f.(f_data) (announced_name v) None) (h_values m.(m_header) HEADER_FILE) m.(m_files)).

Definition prop_title (m : message) : gostr := match Subject m with [] => str "No title" | _ => Subject m end.

(** A message that can be sent: well formed and valid, with an identifier
    without blanks, a title that fits its field and short enough for the
    compressor's codes. *)
Record outgoing (m : message) : Prop := {
  og_good : good_message m;
  og_valid : Validate m = None;
  og_mid : (32 ∉ MID m) /\ (13 ∉ MID m);
  og_short : forall d, Bytes m = inr d -> bytes d /\ zlen d <= 3867;
  og_title : bytes (prop_title m) /\ zlen (QEncode (str "utf-8") (prop_title m)) <= 252 }.

Lemma outgoing_carried m : outgoing m -> (forall i, 0 < ks i) -> 3867 < Z.of_nat dfuel ->
  exists p, msg_Proposal m Wl2kProposal = Ok (inr p) /\ p.(p_mid) = MID m /\ carries dfuel ks p (received_as m).
Proof.
  intros [Hg Hv [Hm1 Hm2] Hs [Ht1 Ht2]] Hk Hf. destruct (read_message m Hg) as (d & Ed & Er).
  destruct (Hs d Ed) as [Hb Hl].
  destruct (lzhuf_proposal_ok (MID m) (Subject m) Wl2kProposal d dfuel ks) as (buf & En & Bb & [B6 Hz] & HD); [done|done|lia|done|lia|].
  set (p := mkProp _ _ _ _ _ _ _ _ _ _) in En.
  assert (E : msg_Proposal m Wl2kProposal = Ok (inr p)) by (unfold msg_Proposal; by rewrite Ed, En, bind_Ok, Hv).
  exists p. split; [done|]. split; [done|]. pose proof (zlen_nonneg d). split_and!.
  - split; [by left|by left|by split|change (0 <= zlen d < 2 ^ 63); lia|change (0 <= zlen buf < 2 ^ 63); lia].
  - split; [exact Bb|reflexivity|exact B6|reflexivity|]. exact (conj Ht1 Ht2).
  - unfold prop_Message. rewrite (HD p eq_refl eq_refl), bind_Ok. exact Er.
Qed.

Context {M : Type} `{MBoxHandler M}.

Lemma prepare_all_ok msgs : Forall outgoing msgs -> (forall i, 0 < ks i) -> 3867 < Z.of_nat dfuel ->
  exists ps, prepare_all Wl2kProposal msgs = Ok ps /\
    Forall2 (fun p m => p.(p_mid) = MID m /\ carries dfuel ks p (received_as m)) ps msgs.
Proof.
  intros Hm Hk Hf. induction Hm as [|m msgs Hm _ (ps & E & F)]; [by exists []|]. cbn [prepare_all].
  destruct (outgoing_carried m Hm Hk Hf) as (p & Ep & Hp). rewrite (og_valid m Hm), Ep, bind_Ok, E, bind_Ok.
  exists (p :: ps). split; [done|by constructor].
Qed.

(** The outbound messages, in the order they are proposed. *)
Lemma outbound_ok (E : Environment) (s : session M) h :
  s.(s_h) = Some h -> highestPropCode s = Wl2kProposal ->
  Forall outgoing (GetOutbound s.(s_remoteFW) h) -> (forall i, 0 < ks i) -> 3867 < Z.of_nat dfuel ->
  exists all msgs, outbound s = Ok all /\ msgs ≡ₚ GetOutbound s.(s_remoteFW) h /\
    Forall2 (fun p m => p.(p_mid) = MID m /\ carries dfuel ks p (received_as m)) all msgs.
Proof.
  intros Hh Hc Hm Hk Hf. destruct (prepare_all_ok _ Hm Hk Hf) as (ps & Ep & F).
  unfold outbound. rewrite Hh, Hc, Ep, bind_Ok. set (msgs := GetOutbound _ _) in *.
  assert (Ez : ps = (zip ps msgs).*1) by (symmetry; apply fst_zip; by apply Forall2_length in F as ->).
  assert (Ez2 : msgs = (zip ps msgs).*2) by (symmetry; apply snd_zip; by apply Forall2_length in F as ->).
  assert (Hz : Forall (fun x => x.1.(p_mid) = MID x.2 /\ carries dfuel ks x.1 (received_as x.2)) (zip ps msgs)).
  { clear -F. induction F; [constructor|by constructor]. }
  assert (exists zs, sortProposals ps = zs.*1 /\ zs ≡ₚ zip ps msgs) as (zs & Es & Pz).
  { assert (P : sortProposals ps ≡ₚ (zip ps msgs).*1).
    { rewrite <- Ez. unfold sortProposals. by rewrite !sort_by_perm. }
    apply (Permutation_map_inv fst) in P as (zs & -> & P). by exists zs. }
  exists zs.*1, zs.*2. rewrite Es. split; [done|]. split; [rewrite Ez2 at 1; by rewrite Pz|].
  rewrite <- Pz in Hz. clear -Hz. induction Hz as [|z zs Hz _ IH]; [constructor|]. cbn. by constructor.
Qed.
End messages.

Lemma answers_answered {N : Type} `{MBoxHandler N} (hr : N) props :
  (forall p, answered (GetInboundAnswer p hr)) -> Forall answered (answers hr props).
Proof.
  intros Ha. unfold answers. generalize (announced <$> props). intros l. generalize (∅ : gset gostr).
  induction l as [|p l IH]; intros seen; cbn [answer_proposals]; [constructor|].
  specialize (IH ({[p.(p_mid)]} ∪ seen)). destruct (answer_proposals _ _ l). cbn [fst fmap list_fmap] in *.
  constructor; [|exact IH]. cbn [p_answer set_answer]. repeat case_match; try apply Ha; by right; right.
Qed.

Lemma mids_chosen `{Charset} `{Clock} `{Gzip} dfuel ks all msgs ans :
  Forall2 (fun p m => p.(p_mid) = MID m /\ carries dfuel ks p (received_as m)) all msgs ->
  p_mid <$> chosen all ans = MID <$> chosen msgs ans.
Proof.
  intros F. revert ans. induction F as [|p m all msgs [Hp _] _ IH]; intros [|a ans]; try done. cbn [chosen].
  destruct (a =? Accept); [|done]. cbn [fmap list_fmap]. rewrite Hp. f_equal. apply IH.
Qed.

(** What both sides of a turn do, with the answers of the receiver's mailbox. *)
Lemma block_delivered `{Charset} `{Clock} `{Gzip} (E : Environment) {M : Type} `{MBoxHandler M} {N : Type} `{MBoxHandler N}
    dfuel ks (s : session M) (r : session N) h hr :
  (forall i, 0 < ks i) -> 3867 < Z.of_nat dfuel ->
  s.(s_h) = Some h -> r.(s_h) = Some hr -> highestPropCode s = Wl2kProposal ->
  Forall outgoing (GetOutbound s.(s_remoteFW) h) ->
  (forall p, answered (GetInboundAnswer p hr)) ->
  exists all msgs, outbound s = Ok all /\ msgs ≡ₚ GetOutbound s.(s_remoteFW) h /\
    (let props := take 5 all in
     let ans := answers hr props in
     let block := proposal_block props ++ concat (written <$> chosen props ans) in
     let ms := chosen (take 5 msgs) ans in
     chosen props ans <> [] ->
     (forall rest, sendOutbound (set_rd s (str "FS " ++ ans ++ 13 :: rest))
        = Ok (inr (sent_after props ans ∅),
              robust_again (zlen (s.(s_out) ++ proposal_block props)) (set_h (set_out (set_rd s rest) (s.(s_out) ++ block)) (Some (deferred_after props ans h))))) /\
     (takes hr (received_as <$> ms) -> forall rest, handleInbound dfuel ks (set_rd r (block ++ rest))
        = Ok (inr false, received (set_noMsgs (set_rd (set_out r (r.(s_out) ++ str "FS " ++ ans ++ [13])) rest) false)
                           (received_as <$> ms) (MID <$> ms)))).
Proof.
  intros Hk Hf Hs Hr Hc Ho Ha. destruct (outbound_ok dfuel ks E s h Hs Hc Ho Hk Hf) as (all & msgs & Eo & P & F).
  exists all, msgs. split; [done|]. split; [done|]. cbv zeta. intros Hne. set (props := take 5 all) in *.
  apply (Forall2_take _ _ _ 5) in F. fold props in F. pose proof (answers_length hr props) as El.
  assert (F' : Forall2 (carries dfuel ks) props (received_as <$> take 5 msgs)).
  { clear -F. induction F as [|p m l k [_ Hc] _ IH]; [constructor|]. cbn. by constructor. }
  split; [intros rest|intros Ht rest].
  - apply sendOutbound_ok; auto; [|by apply answers_answered|by intros E'; rewrite E' in Hne; destruct props].
    fold props. clear -F'. induction F' as [|p m l k (_ & Ht & _) _ IH]; by constructor.
  - rewrite <- app_assoc. rewrite (handleInbound_ok dfuel ks r hr props (received_as <$> take 5 msgs) rest); auto.
    + by rewrite chosen_fmap, (mids_chosen dfuel ks props (take 5 msgs) _ F).
    + by apply answers_answered.
    + by rewrite chosen_fmap.
Qed.

(** One turn of an exchange, both sides of it.  The sender proposes up to five
    of its mailbox's messages; given the answers of the receiver it sends the
    accepted ones, and the receiver, given exactly those bytes, writes exactly
    those answers and hands exactly the accepted messages to its mailbox, with
    header, body and attachments unchanged, provided the mailbox takes them. *)
Theorem messages_delivered `{Charset} `{Clock} `{Gzip} (E : Environment) {M : Type} `{MBoxHandler M} {N : Type} `{MBoxHandler N}
    dfuel ks (s : session M) (r : session N) h hr :
  (forall i, 0 < ks i) -> 3867 < Z.of_nat dfuel ->
  s.(s_h) = Some h -> r.(s_h) = Some hr -> highestPropCode s = Wl2kProposal ->
  Forall outgoing (GetOutbound s.(s_remoteFW) h) ->
  (forall p, answered (GetInboundAnswer p hr)) ->
  exists all msgs, outbound s = Ok all /\ msgs ≡ₚ GetOutbound s.(s_remoteFW) h /\
    (let props := take 5 all in
     let ans := answers hr props in
     let block := proposal_block props ++ concat (written <$> chosen props ans) in
     let ms := chosen (take 5 msgs) ans in
     chosen props ans <> [] ->
     (forall rest, sendOutbound (set_rd s (str "FS " ++ ans ++ 13 :: rest))
        = Ok (inr (sent_after props ans ∅),
              robust_again (zlen (s.(s_out) ++ proposal_block props)) (set_h (set_out (set_rd s rest) (s.(s_out) ++ block)) (Some (deferred_after props ans h))))) /\
     (takes hr (received_as <$> ms) -> forall rest, handleInbound dfuel ks (set_rd r (block ++ rest))
        = Ok (inr false, received (set_noMsgs (set_rd (set_out r (r.(s_out) ++ str "FS " ++ ans ++ [13])) rest) false)
                           (received_as <$> ms) (MID <$> ms)))).
Proof. apply block_delivered. Qed.

(** *** An example

    A mailbox that keeps its messages in memory. *)
Record box := mkBox { b_out : list message; b_in : list message; b_deferred : list gostr }.

#[export] Instance memory_box : MBoxHandler box := {|
  Prepare := fun b => (None, b);
  GetOutbound := fun _ b => filter (fun m => MID m ∉ b.(b_deferred)) b.(b_out);
  SetSent := fun mid _ b => mkBox (filter (fun m => MID m <> mid) b.(b_out)) b.(b_in) b.(b_deferred);
  SetDeferred := fun mid b => mkBox b.(b_out) b.(b_in) (mid :: b.(b_deferred));
  ProcessInbound := fun m b => (None, mkBox b.(b_out) (b.(b_in) ++ [m]) b.(b_deferred));
  GetInboundAnswer := fun p b => if bool_decide (p.(p_mid) ∈ MID <$> b.(b_in)) then Reject else Accept |}.

Definition sample_outgoing : message :=
  mkMsg (<[HEADER_TO := [str "LA1B"]]> (<[HEADER_FROM := [str "LA5NTA"]]> (<[HEADER_SUBJECT := [str "Hi"]]>
          sample_message.(m_header)))) sample_message.(m_body) sample_message.(m_files).

Lemma sample_outgoing_ok : outgoing (H := raw_charset) (H0 := any_clock) sample_outgoing.
Proof.
  split.
  - assert (G : forall k' vs, sample_outgoing.(m_header) !! k' = Some vs -> good_key k' /\ vs <> [] /\ Forall good_value vs).
    { intros k' vs Hl. unfold sample_outgoing, sample_message in Hl. cbn [m_header] in Hl.
      repeat (apply lookup_insert_Some in Hl as [[<- <-]|[_ Hl]];
        [split; [by split|]; split; [done|]; repeat constructor; by apply good_value_check|]).
      by rewrite lookup_empty in Hl. }
    split.
    + split; [|exact G]. exists (str "ABCDEF"). split; [done|by apply good_value_check].
    + reflexivity.
    + constructor; [|constructor]. exists (str "a.txt"). split; [reflexivity|reflexivity].
    + eexists. reflexivity.
  - vm_compute. reflexivity.
  - split; by apply not_elem_existsb.
  - intros d Hd. assert (E : exists d', Bytes (H0 := any_clock) sample_outgoing = inr d' /\ forallb (fun c => (0 <=? c) && (c <? 256)) d' = true /\ zlen d' <= 3867).
    { eexists. split; [vm_compute; reflexivity|]. split; [reflexivity|vm_compute; discriminate]. }
    destruct E as (d' & E & Hb & Hl). rewrite E in Hd. injection Hd as <-. split; [|done].
    apply Forall_forall. intros c Hc. rewrite forallb_forall in Hb. specialize (Hb c (proj1 (list_elem_of_In _ _) Hc)).
    unfold byte. lia.
  - split; [|vm_compute; discriminate]. apply (Forall_cons_2 _ 72); [unfold byte; lia|].
    apply (Forall_cons_2 _ 105); [unfold byte; lia|constructor].
Qed.

Definition sample_sender : session box := NewSession (str "LA5NTA") (str "LA1B") [] (Some (mkBox [sample_outgoing] [] [])).
Definition sample_receiver : session box := NewSession (str "LA1B") (str "LA5NTA") [] (Some (mkBox [] [] [])).

Lemma messages_delivered_witness : exists all msgs,
  outbound (H := raw_charset) (H0 := any_clock) (H1 := store_gzip) (H2 := plain_env) sample_sender = Ok all /\
  msgs ≡ₚ GetOutbound [] (mkBox [sample_outgoing] [] []) /\
  (let props := take 5 all in
   let ans := answers (mkBox [] [] []) props in
   let block := proposal_block props ++ concat (written <$> chosen props ans) in
   let ms := chosen (take 5 msgs) ans in
   chosen props ans <> [] ->
   (forall rest, sendOutbound (H := raw_charset) (H0 := any_clock) (H1 := store_gzip) (H3 := plain_env)
        (set_rd sample_sender (str "FS " ++ ans ++ 13 :: rest))
      = Ok (inr (sent_after props ans ∅),
            set_h (set_out (set_rd sample_sender rest) (s_out sample_sender ++ block))
              (Some (deferred_after props ans (mkBox [sample_outgoing] [] []))))) /\
   (takes (mkBox [] [] []) (received_as (H := raw_charset) <$> ms) -> forall rest, handleInbound (H := raw_charset) (H0 := any_clock) (H1 := store_gzip) 3868 (fun _ => 512)
        (set_rd sample_receiver (block ++ rest))
      = Ok (inr false, received (set_noMsgs (set_rd (set_out sample_receiver (s_out sample_receiver ++ str "FS " ++ ans ++ [13])) rest) false)
                         (received_as (H := raw_charset) <$> ms) (MID <$> ms)))).
Proof.
  apply (messages_delivered (H := raw_charset) (H0 := any_clock) (H1 := store_gzip) plain_env 3868 (fun _ => 512)
    sample_sender sample_receiver (mkBox [sample_outgoing] [] []) (mkBox [] [] [])).
  - intros _. reflexivity.
  - reflexivity.
  - reflexivity.
  - reflexivity.
  - reflexivity.
  - apply Forall_cons_2; [exact sample_outgoing_ok|constructor].
  - intros p. cbn [GetInboundAnswer memory_box]. unfold answered. destruct (bool_decide _); auto.
Defined.
