(* ===== verification/SessionSafety.v ===== *)
(** What holds of a session whatever the remote sends: how proposals are
    answered, what is reported to the mailbox, and that every exchange comes to
    an end. *)
From S2P Require Import Prelude Crc GoStr Helpers Mid Words Compress Reader Proposal Transfer Message MessageFormat Session Handshake.
From S2P Require Import Exchange Delivery.
From stdpp Require Import gmap.
Open Scope Z_scope.

(** ** Answers *)

(** C35. Every proposal is answered in its place; at most one proposal of a message
    is accepted, only of a format that is supported and only when the mailbox
    wants it; the count returned is that of the accepted proposals. *)
Theorem answers_sound {N : Type} `{MBoxHandler N} (hr : N) props :
  let r := answer_proposals (Some hr) ∅ props in
  let accepted := filter (fun p => p.(p_answer) = Accept) r.1 in
  r.1 = zip_with set_answer props (p_answer <$> r.1) /\ length r.1 = length props /\
  r.2 = zlen accepted /\ NoDup (p_mid <$> accepted) /\
  Forall (fun p => (p.(p_code) = Wl2kProposal \/ p.(p_code) = GzipProposal) /\
                   exists q, q ∈ props /\ p = set_answer q Accept /\ GetInboundAnswer q hr = Accept) accepted.
Proof.
  cbv zeta. split; [apply answer_proposals_zip|].
  assert (G : forall seen, let r := answer_proposals (Some hr) seen props in
    let accepted := filter (fun p => p.(p_answer) = Accept) r.1 in
    length r.1 = length props /\ r.2 = zlen accepted /\ NoDup (p_mid <$> accepted) /\
    Forall (fun p => p.(p_mid) ∉ seen) accepted /\
    Forall (fun p => (p.(p_code) = Wl2kProposal \/ p.(p_code) = GzipProposal) /\
                   exists q, q ∈ props /\ p = set_answer q Accept /\ GetInboundAnswer q hr = Accept) accepted);
    [|destruct (G ∅) as (G1 & G2 & G3 & _ & G5); auto].
  induction props as [|p props IH]; intros seen; cbv zeta; cbn [answer_proposals]; [by repeat constructor|].
  specialize (IH ({[p.(p_mid)]} ∪ seen)). cbv zeta in IH. destruct (answer_proposals _ _ props) as [l n]. cbn [fst snd] in *.
  destruct IH as (I1 & I2 & I3 & I4 & I5). rewrite filter_cons. change (bool_decide (is_Some (Some hr))) with true.
  rewrite andb_true_r. cbn [length]. split; [lia|]. cbn [p_answer set_answer].
  set (a := if bool_decide _ then _ else _).
  assert (I5' : Forall (fun q => (q.(p_code) = Wl2kProposal \/ q.(p_code) = GzipProposal) /\
      exists q', q' ∈ p :: props /\ q = set_answer q' Accept /\ GetInboundAnswer q' hr = Accept)
      (filter (fun p => p.(p_answer) = Accept) l)).
  { eapply Forall_impl; [exact I5|]. cbn. intros q (Hc & q' & Hq & Hr). split; [done|]. exists q'. split; [by right|done]. }
  assert (I4' : Forall (fun q => q.(p_mid) ∉ seen) (filter (fun p => p.(p_answer) = Accept) l)).
  { eapply Forall_impl; [exact I4|]. cbn. intros q Hq. set_solver. }
  destruct (decide (a = Accept)) as [Ea|Ea].
  - assert (bool_decide (p.(p_mid) ∈ seen) = false /\ (p.(p_code) =? Wl2kProposal) || (p.(p_code) =? GzipProposal) = true /\
      GetInboundAnswer p hr = Accept) as (E1 & E2 & E3).
    { unfold a in Ea. destruct (bool_decide (p.(p_mid) ∈ seen)); [done|]. rewrite <- negb_orb in Ea.
      destruct ((p.(p_code) =? Wl2kProposal) || _); [done|done]. }
    rewrite E1, E2, Ea. cbn [negb andb]. change (Accept =? Accept) with true. cbv iota. split_and!.
    + rewrite zlen_cons. lia.
    + cbn [fmap list_fmap]. constructor; [|done]. change (p_mid (set_answer p Accept)) with p.(p_mid).
      intros Hin. apply list_elem_of_fmap in Hin as (q & Eq & Hq). eapply Forall_forall in Hq; [|exact I4]. cbn in Hq. set_solver.
    + constructor; [by apply bool_decide_eq_false in E1|done].
    + constructor; [|done]. split; [|exists p; split; [by left|done]].
      change (p_code (set_answer p Accept)) with p.(p_code). lia.
  - assert (negb (bool_decide (p.(p_mid) ∈ seen)) && ((p.(p_code) =? Wl2kProposal) || (p.(p_code) =? GzipProposal)) && (a =? Accept) = false) as ->.
    { destruct (Z.eqb_spec a Accept); [done|apply andb_false_r]. }
    split_and!; auto.
Qed.

(** C36. A line with a wrong checksum at the end of a block stops the session: the
    error is returned, nothing is answered and nothing is delivered. *)
Theorem block_checksum_guard {N : Type} `{Charset} `{Clock} `{Gzip} `{MBoxHandler N} dfuel ks (r : session N) props c rest :
  Forall sendable props -> 0 <= c < 256 ->
  let our := checksum (foldl Z.add 0 (lineSum ∘ propLine <$> props)) in
  c <> our ->
  handleInbound dfuel ks (set_rd r (concat ((fun p => propLine p ++ [13]) <$> props) ++ str "F> " ++ hex2 c ++ 13 :: rest))
  = Ok (inl (New (str "Checksum error (" ++ itoa our ++ str "-" ++ itoa c ++ str ")")), set_rd r rest).
Proof.
  intros Hp Hc our Hn. unfold handleInbound. set (r0 := set_rd r _).
  destruct (in_block dfuel ks props (S (length r0.(s_rd))) 0 [] r0 ((str "F> " ++ hex2 c) ++ 13 :: rest)) as (k & Hk & ->);
    [done|unfold r0; cbn [s_rd set_rd]; by rewrite <- !app_assoc|lia|].
  set (sum := foldl _ _ _) in *. destruct k as [|k]; [lia|]. cbn [handleInbound_loop].
  destruct (prompt_tidy c Hc) as (Ht & Hs & Hsl). set (r1 := set_rd r0 _).
  rewrite (sess_bind_inr _ _ _ _ _ (next_line true r1 _ _ eq_refl Ht (or_intror Hs))).
  set (line := str "F> " ++ hex2 c) in *. set (r2 := set_rd r1 rest).
  assert (exists l, line = 70 :: 62 :: l) as [l El] by (by eexists). rewrite_first El. cbv iota. cbn [Z.eqb Pos.eqb orb]. cbv iota.
  rewrite (sess_bind_inr _ _ r2 (hex2 c) r2) by (unfold lift; by rewrite Hsl).
  rewrite ParseInt_hex2 by done. cbn [fst]. destruct (Z.eqb_spec c (checksum sum)); [done|]. done.
Qed.

Lemma block_checksum_guard_witness :
  handleInbound (H := raw_charset) (H0 := any_clock) (H1 := store_gzip) 10 (fun _ => 512)
    (set_rd sample_receiver (concat ((fun p => propLine p ++ [13]) <$> [sample_prop]) ++ str "F> " ++ hex2 7 ++ 13 :: []))
  = Ok (inl (New (str "Checksum error (" ++ itoa (checksum (foldl Z.add 0 (lineSum ∘ propLine <$> [sample_prop])))
        ++ str "-" ++ itoa 7 ++ str ")")), set_rd sample_receiver []).
Proof.
  apply (block_checksum_guard (H := raw_charset) (H0 := any_clock) (H1 := store_gzip) 10 (fun _ => 512)
    sample_receiver [sample_prop] 7 []).
  - apply Forall_cons_2; [exact sample_sendable|constructor].
  - lia.
  - vm_compute. discriminate.
Defined.

(** The prompt alone, without a checksum, makes the receiver panic. *)
Theorem short_prompt_panics {N : Type} `{Charset} `{Clock} `{Gzip} `{MBoxHandler N} dfuel ks (r : session N) :
  handleInbound dfuel ks (set_rd r (str "F>" ++ [13])) = Panic.
Proof. reflexivity. Qed.

(** ** What a step does to a session *)
Lemma ReadString_suffix d s l ok rd : ReadString d s = (l, ok, rd) -> rd `suffix_of` s.
Proof.
  revert l rd ok. induction s as [|c t IH]; intros l rd ok; cbn [ReadString]; [by intros [= <- <- <-]|].
  destruct (c =? d); [intros [= <- <- <-]; by apply suffix_cons_r|]. destruct (ReadString d t) as [[l' ok'] rd'].
  intros [= <- <- <-]. apply suffix_cons_r. by eapply IH.
Qed.

Lemma sess_bind_inv {M A B} (m : sess (M := M) A) (f : A -> sess B) s x s' : (m ≫= f) s = Ok (x, s') ->
  (exists e, m s = Ok (inl e, s') /\ x = inl e) \/ (exists a s1, m s = Ok (inr a, s1) /\ f a s1 = Ok (x, s')).
Proof.
  unfold mbind, sess_bind. destruct (m s) as [[[e|a] s1]| |]; try discriminate.
  - intros [= <- <-]. left. by exists e.
  - intros E. right. by exists a, s1.
Qed.

Section steps.
Context {M : Type} (R : session M -> session M -> Prop) `{!Reflexive R} `{!Transitive R}.

Definition steps {A} (m : sess A) : Prop := forall s x s', m s = Ok (x, s') -> R s s'.

Lemma steps_bind {A B} (m : sess A) (f : A -> sess B) : steps m -> (forall a, steps (f a)) -> steps (m ≫= f).
Proof using Transitive0.
  intros Hm Hf s x s'. unfold mbind, sess_bind. destruct (m s) as [[[e|a] s1]| |] eqn:E; try discriminate.
  - intros [= <- <-]. by eapply Hm.
  - intros E'. etrans; [by eapply Hm|by eapply Hf].
Qed.
Lemma steps_ret {A} (a : A) : steps (mret a).
Proof using Reflexive0. intros s x s' [= <- <-]. done. Qed.
Lemma steps_throw {A} e : steps (throw (A := A) e).
Proof using Reflexive0. intros s x s' [= <- <-]. done. Qed.
Lemma steps_throw_err e : steps (throw_err e).
Proof using Reflexive0. destruct e; [apply steps_throw|apply steps_ret]. Qed.
Lemma steps_gets {A} (f : session M -> A) : steps (gets f).
Proof using Reflexive0. intros s x s' [= <- <-]. done. Qed.
Lemma steps_lift {A} (r : res A) : steps (lift r).
Proof using Reflexive0. intros s x s'. unfold lift. destruct r; cbn; try discriminate. by intros [= <- <-]. Qed.
Lemma steps_peek : steps peek.
Proof using Reflexive0. intros s x s'. unfold peek. destruct (s_rd s); by intros [= <- <-]. Qed.
Lemma steps_no_fuel {A} : steps (no_fuel (A := A)).
Proof. intros s x s'. discriminate. Qed.
Lemma steps_modify f : (forall s, R s (f s)) -> steps (modify f).
Proof. intros Hf s x s' [= <- <-]. done. Qed.
Lemma steps_with_h {A} (f : M -> A * M) : (forall s h, R s (set_h s (Some h))) -> steps (with_h f).
Proof. intros Hf s x s'. unfold with_h. destruct (s_h s); [|discriminate]. destruct (f m). intros [= <- <-]. done. Qed.
Lemma steps_nextLine pe : (forall s rd, rd `suffix_of` s.(s_rd) -> R s (set_rd s rd)) -> steps (sess_nextLine pe).
Proof.
  intros Hf s x s'. unfold sess_nextLine, nextLineRemoteErr.
  destruct (ReadString 13 s.(s_rd)) as [[l ok] rd] eqn:E. apply ReadString_suffix in E.
  destruct ok; [|intros [= <- <-]; auto]. destruct (cleanString l); cbn [mbind res_bind]; try discriminate.
  destruct (errLine a); [destruct pe|]; intros [= <- <-]; auto.
Qed.
End steps.

Create HintDb steps.
#[export] Hint Resolve steps_bind steps_ret steps_throw steps_throw_err steps_gets steps_lift steps_peek steps_no_fuel : steps.

Ltac step :=
  repeat first
    [ apply steps_ret | apply steps_throw | apply steps_throw_err | apply steps_gets | apply steps_lift | apply steps_peek
    | apply steps_no_fuel | assumption | match goal with |- Reflexive _ => typeclasses eauto end
    | simple apply steps_bind; [typeclasses eauto| |intros ?]
    | match goal with |- steps _ (match ?x with _ => _ end) => destruct x end
    | progress cbv zeta ].

(** *** Statistics *)
Section stats.
Context {M : Type} `{Charset} `{Clock} `{Gzip} `{MD5} `{Environment} `{MapOrder} `{MBoxHandler M}.
Implicit Types s : session M.

Definition same_stats s s' : Prop := s'.(s_stats) = s.(s_stats).
#[local] Instance same_stats_refl : Reflexive same_stats.
Proof. done. Qed.
#[local] Instance same_stats_trans : Transitive same_stats.
Proof. unfold same_stats. intros s1 s2 s3. congruence. Qed.

Lemma stats_nextLine pe : steps same_stats (sess_nextLine pe).
Proof. by apply steps_nextLine. Qed.
Lemma stats_write b : steps same_stats (write b).
Proof. by apply steps_modify. Qed.
Lemma stats_with_h {A} (f : M -> A * M) : steps same_stats (with_h f).
Proof. by apply steps_with_h. Qed.

Lemma stats_read_reply n : steps same_stats (read_reply n).
Proof. induction n as [|n IH]; cbn [read_reply]; step; auto using stats_nextLine. Qed.

Lemma stats_send_answered props sent : steps same_stats (send_answered props sent).
Proof.
  revert sent. induction props as [|p props IH]; intros sent; cbn [send_answered]; unfold sess_writeCompressed; step;
    auto using stats_with_h, stats_write.
Qed.

(** [unrobust], for a relation that does not see robust mode. *)
Lemma steps_unrobust (R : session M -> session M -> Prop) `{!Transitive R} {A} (m : sess A) :
  (forall s r, R s (SetRobust r s)) -> steps R m -> steps R (unrobust m).
Proof.
  intros HR Hm s x s'. unfold unrobust. destruct (s_robust s), (s_mode s); try apply Hm.
  destruct (m (SetRobust false s)) as [[y s1]| |] eqn:E; try discriminate. intros [= <- <-]. apply Hm in E.
  etrans; [apply (HR s false)|]. etrans; [exact E|apply HR].
Qed.

Lemma stats_send_block props : steps same_stats (send_block props).
Proof.
  unfold send_block. destruct props; [apply steps_ret; typeclasses eauto|]. apply steps_unrobust; [typeclasses eauto| |apply stats_send_answered].
  intros s r. unfold same_stats, SetRobust. by destruct (s_robust s).
Qed.

Lemma stats_outbound : steps same_stats sess_outbound.
Proof. intros s x s' E. exact (steps_lift same_stats (outbound s) s x s' E). Qed.

Lemma stats_sendOutbound : steps same_stats sendOutbound.
Proof.
  unfold sendOutbound. step; auto using stats_outbound, stats_write, stats_nextLine, stats_read_reply, stats_send_block.
Qed.

Lemma stats_report l : Forall (fun x => x.2 = true) l -> steps same_stats (report l).
Proof.
  induction 1 as [|[mid rej] l Hx _ IH]; cbn [report]; [step|]. cbn in Hx. subst rej. step. apply stats_with_h.
Qed.

Lemma report_ok l s x s' : report l s = Ok (x, s') -> x = inr () /\ s'.(s_rd) = s.(s_rd).
Proof.
  revert s. induction l as [|[mid rej] l IH]; intros s; cbn [report]; [by intros [= <- <-]|].
  intros E. apply sess_bind_inv in E as [(e & E1 & _)|([] & s1 & E1 & E)].
  { unfold with_h in E1. destruct (s_h s); discriminate. }
  assert (R1 : s1.(s_rd) = s.(s_rd)) by (unfold with_h in E1; destruct (s_h s); [by injection E1 as <-|discriminate]).
  apply sess_bind_inv in E as [(e & E2 & _)|([] & s2 & E2 & E)]; [by destruct rej|].
  assert (R2 : s2.(s_rd) = s1.(s_rd)) by (destruct rej; by injection E2 as <-).
  destruct (IH _ E) as [-> R3]. split; [done|congruence].
Qed.

Lemma handleOutbound_loop_stats n s x s' : handleOutbound_loop n s = Ok (x, s') ->
  same_stats s s' \/ (x = inr false /\ exists c rest, s'.(s_rd) = c :: rest /\ (c = 70 \/ c = 59)).
Proof.
  revert s x s'. induction n as [|n IH]; intros s x s'; [discriminate|]. cbn [handleOutbound_loop]. intros E.
  apply sess_bind_inv in E as [(e & E1 & _)|(out & s1 & E1 & E)]; pose proof (stats_outbound _ _ _ E1) as H1'; [by left|].
  apply sess_bind_inv in E as [(e & E2 & _)|(sent & s2 & E2 & E)].
  { left. etrans; [done|]. destruct out; [discriminate|by eapply stats_sendOutbound]. }
  assert (H2' : same_stats s1 s2) by (destruct out; [by injection E2 as <- <-|by eapply stats_sendOutbound]).
  apply sess_bind_inv in E as [(e & E3 & _)|([] & s3 & E3 & E)]; [by apply report_ok in E3 as []|].
  assert (H3' : same_stats s2 s3).
  { eapply stats_report; [|exact E3]. apply Forall_forall. intros y Hy. by apply list_elem_of_filter in Hy as [Hy _]. }
  cbv zeta in E. set (left_ := filter _ sent) in E.
  apply sess_bind_inv in E as [(e & E4 & _)|(out' & s4 & E4 & E)]; pose proof (stats_outbound _ _ _ E4) as H4';
    [left; unfold same_stats in *; congruence|].
  apply sess_bind_inv in E as [(e & E5 & _)|(noMsgs & s5 & E5 & E)]; [discriminate|]. injection E5 as <- <-.
  assert (H5' : same_stats s s4) by (unfold same_stats in *; congruence).
  destruct (bool_decide (left_ = ∅) && negb (bool_decide (out' = []))).
  { destruct (IH _ _ _ E) as [H6|H6]; [left; by etrans|by right]. }
  destruct (bool_decide (left_ = ∅) && s4.(s_remoteNoMsgs)); [injection E as <- <-; by left|].
  apply sess_bind_inv in E as [(e & E6 & _)|([] & s6 & E6 & E)]; [by destruct (bool_decide (left_ = ∅))|].
  assert (H6' : same_stats s s6) by (destruct (bool_decide (left_ = ∅)); by injection E6 as <-).
  apply sess_bind_inv in E as [(e & E7 & _)|(c & s7 & E7 & E)];
    [left; etrans; [exact H6'|]; exact (steps_peek same_stats _ _ _ E7)|].
  unfold peek in E7. destruct (s_rd s6) as [|d rest] eqn:Ed; [discriminate|]. injection E7 as -> <-.
  destruct (negb (c =? 70) && negb (c =? 59)) eqn:Ec.
  - left. etrans; [exact H6'|]. apply sess_bind_inv in E as [(e & E8 & _)|(l & s8 & E8 & E)];
      [by eapply stats_nextLine|]. injection E as <- <-. by eapply stats_nextLine.
  - right. apply sess_bind_inv in E as [(e & E8 & _)|([] & s8 & E8 & E)]; [by apply report_ok in E8 as []|].
    injection E as <- <-. split; [done|]. apply report_ok in E8 as [_ ->]. exists c, rest. split; [done|]. lia.
Qed.

(** C7. Messages count as sent only when the bytes that follow the block confirm it:
    when handling the outbound messages fails, or ends the session, the
    statistics are as before; otherwise the next byte of the remote is a
    command or a comment. *)
Theorem sent_only_when_confirmed s x s' : handleOutbound s = Ok (x, s') ->
  s'.(s_stats) = s.(s_stats) \/
  (x = inr false /\ exists c rest, s'.(s_rd) = c :: rest /\ (c = 70 \/ c = 59)).
Proof. apply handleOutbound_loop_stats. Qed.
End stats.

(** A map iterated over in the order of its keys' encodings. *)
Definition list_order : MapOrder := {| range := map_to_list; range_perm := fun m => reflexivity _ |}.

Lemma sent_only_when_confirmed_witness :
  let s := set_rd sample_receiver (str "FF" ++ [13]) in
  let s' := set_out s (str "FF" ++ [13]) in
  s'.(s_stats) = s.(s_stats) \/
  (inr false = inr (A := error) false /\ exists c rest, s'.(s_rd) = c :: rest /\ (c = 70 \/ c = 59)).
Proof.
  apply (sent_only_when_confirmed (H := raw_charset) (H0 := any_clock) (H1 := store_gzip) (H3 := plain_env) (H4 := list_order)
    (set_rd sample_receiver (str "FF" ++ [13])) (inr false)).
  reflexivity.
Defined.

(** ** Termination *)
Lemma nofuel_bind {A B} (r : res A) (f : A -> res B) : r <> NoFuel -> (forall a, f a <> NoFuel) -> r ≫= f <> NoFuel.
Proof. intros Hr Hf. destruct r; [apply Hf|done|done]. Qed.

Lemma idx_total {A} (l : list A) i : idx l i <> NoFuel.
Proof. unfold idx. by repeat case_match. Qed.
Lemma slice_total {A} (l : list A) a b : slice l a b <> NoFuel.
Proof. unfold slice. by repeat case_match. Qed.

Create HintDb total.
Create HintDb ends.
#[export] Hint Resolve idx_total slice_total : total.

(** Shows that a computation without loops has an outcome. *)
Ltac total :=
  repeat first
    [ discriminate | solve [eauto with total]
    | apply nofuel_bind; [|intros ?]
    | match goal with |- (match ?x with _ => _ end) <> _ => destruct x end
    | match goal with |- (match ?x with _ => _ end) = NoFuel -> False => destruct x end ].

Lemma cleanString_total s : cleanString s <> NoFuel.
Proof. unfold cleanString. cbv zeta. total. Qed.
#[export] Hint Resolve cleanString_total : total.

Lemma nextLine_total pe rd : nextLineRemoteErr pe rd <> NoFuel.
Proof. unfold nextLineRemoteErr. destruct (ReadString 13 rd) as [[l [|]] r]; [|discriminate]. total. Qed.

Lemma parseProposal_total l p : parseProposal l p <> NoFuel.
Proof. unfold parseProposal, parseB2Proposal. cbv zeta. total. Qed.

Lemma writeCompressed_total p : writeCompressed p <> NoFuel.
Proof. unfold writeCompressed. cbv zeta. total. Qed.

Lemma secure_total `{MD5} c p : secureLoginResponse c p <> NoFuel.
Proof. destruct (secure_response c p) as (r & -> & _). discriminate. Qed.
#[export] Hint Resolve nextLine_total parseProposal_total writeCompressed_total secure_total : total.

Lemma fw_words_total `{MD5} login ch i l : fw_words login ch i l <> NoFuel.
Proof. destruct (fw_words_ok login ch i l) as (ws & -> & _). discriminate. Qed.

Lemma readCompressed_total `{Charset} p rd : readCompressed p rd <> NoFuel.
Proof. unfold readCompressed, nextLine. total. Qed.

Lemma readSection_total rd n : readSection rd n <> NoFuel.
Proof. unfold readSection. destruct (n <? 0); [done|]. cbv zeta. destruct (ReadString _ _) as [[? ?] ?]. done. Qed.
#[export] Hint Resolve fw_words_total readCompressed_total readSection_total : total.

Lemma read_files_total `{Charset} vs e rd : read_files vs e rd <> NoFuel.
Proof. revert e rd. induction vs as [|v vs IH]; intros e rd; cbn [read_files]; total; apply IH. Qed.
#[export] Hint Resolve read_files_total : total.

Lemma ReadFrom_total `{Charset} `{Clock} rd : ReadFrom rd <> NoFuel.
Proof. unfold ReadFrom. cbv zeta. total. Qed.

Lemma read_frames_suffix n buf sum p rd x rd' : read_frames n buf sum p rd = (x, rd') -> rd' `suffix_of` rd.
Proof.
  revert buf sum rd. induction n as [|n IH]; intros buf sum rd; cbn [read_frames]; [by intros [= <- <-]|].
  destruct rd as [|c rd]; [by intros [= <- <-]|]. intros E. apply suffix_cons_r.
  assert (G : rd' `suffix_of` drop 1 rd \/ rd' `suffix_of` rd).
  { destruct (c =? _CHRSTX).
    - left. destruct rd as [|k rd]; unfold read_frame in E;
        (destruct (_ <=? _); [|injection E as <- <-; by apply suffix_nil]).
      + rewrite drop_nil in E. by apply IH in E.
      + apply IH in E. change (drop 1 (k :: rd)) with rd. etrans; [exact E|apply suffix_drop].
    - destruct (c =? _CHREOT); [|right; by injection E as <- <-]. left.
      destruct rd as [|k rd]; repeat case_match; by injection E as <- <-. }
  destruct G as [G|G]; [|done]. etrans; [exact G|apply suffix_drop].
Qed.

Lemma readCompressed_suffix `{Charset} p rd x rd' : readCompressed p rd = Ok (x, rd') -> rd' `suffix_of` rd.
Proof.
  unfold readCompressed. destruct rd as [|c rd]; [by intros [= <- <-]|]. intros E. apply suffix_cons_r.
  destruct (c =? _CHRSOH).
  - injection E as E. unfold read_header in E. destruct rd as [|k rd]; [by injection E as <- <-|]. apply suffix_cons_r.
    destruct (ReadString _CHRNUL rd) as [[t ok] rd1] eqn:E1. apply ReadString_suffix in E1. etrans; [|exact E1].
    destruct ok; [|by injection E as <- <-]. cbv zeta in E.
    destruct (ReadString _CHRNUL rd1) as [[o ok] rd2] eqn:E2. apply ReadString_suffix in E2. etrans; [|exact E2].
    destruct ok; [|by injection E as <- <-].
    destruct (negb _); [by injection E as <- <-|]. destruct (Atoi _) as [off bad].
    destruct bad; [by injection E as <- <-|]. destruct (negb _); [by injection E as <- <-|].
    by apply read_frames_suffix in E.
  - destruct (c =? 42); [|by injection E as <- <-]. revert E. unfold nextLine, nextLineRemoteErr.
    destruct (ReadString 13 rd) as [[l ok] rd1] eqn:E1. apply ReadString_suffix in E1.
    destruct ok; [|by intros [= <- <-]]. destruct (cleanString l); cbn [mbind res_bind]; try discriminate.
    destruct (errLine a); by intros [= <- <-].
Qed.

Section termination.
Context {M : Type} `{Charset} `{Clock} `{Gzip} `{MD5} `{Environment} `{MapOrder} `{MBoxHandler M}.
Context (dfuel : nat) (ks : nat -> Z).
Implicit Types s : session M.

(** The input is only ever consumed from its front. *)
Definition shrinks s s' : Prop := s'.(s_rd) `suffix_of` s.(s_rd).
#[local] Instance shrinks_refl : Reflexive shrinks.
Proof. intros s. unfold shrinks. reflexivity. Qed.
#[local] Instance shrinks_trans : Transitive shrinks.
Proof. unfold shrinks. intros s1 s2 s3 R1 R2. by etrans. Qed.

Lemma shrinks_length s s' : shrinks s s' -> (length s'.(s_rd) <= length s.(s_rd))%nat.
Proof. apply suffix_length. Qed.

Lemma shrinks_nextLine pe : steps shrinks (sess_nextLine pe).
Proof. by apply steps_nextLine. Qed.
Lemma shrinks_write b : steps shrinks (write b).
Proof. apply steps_modify. intros s. by exists []. Qed.
Lemma shrinks_modify f : (forall s, (f s).(s_rd) = s.(s_rd)) -> steps shrinks (modify f).
Proof. intros Hf. apply steps_modify. intros s. unfold shrinks. by rewrite Hf. Qed.
Lemma shrinks_with_h {A} (f : M -> A * M) : steps shrinks (with_h f).
Proof. apply steps_with_h. intros s h. by exists []. Qed.
Lemma shrinks_outbound : steps shrinks sess_outbound.
Proof. intros s x s' E. exact (steps_lift shrinks (outbound s) s x s' E). Qed.
Lemma shrinks_readCompressed p : steps shrinks (sess_readCompressed p).
Proof.
  intros s x s'. unfold sess_readCompressed. destruct (readCompressed p s.(s_rd)) as [[[e q] rd]| |] eqn:E; try discriminate.
  apply readCompressed_suffix in E. destruct e; intros [= <- <-]; exact E.
Qed.
Hint Resolve shrinks_nextLine shrinks_write shrinks_with_h shrinks_outbound shrinks_readCompressed : steps.

Lemma shrinks_fetch props : steps shrinks (fetch dfuel ks props).
Proof.
  induction props as [|p props IH]; cbn [fetch]; unfold sess_Message; step; auto with steps; by apply shrinks_modify.
Qed.
Lemma shrinks_fetch_all props : steps shrinks (fetch_all dfuel ks props).
Proof. unfold fetch_all. step; [by apply shrinks_modify|apply shrinks_fetch]. Qed.
Lemma shrinks_answer props : steps shrinks (writeProposalsAnswer props).
Proof. unfold writeProposalsAnswer. step; auto with steps. Qed.
Hint Resolve shrinks_fetch_all shrinks_answer : steps.

Lemma shrinks_read_reply n : steps shrinks (read_reply n).
Proof. induction n as [|n IH]; cbn [read_reply]; step; auto with steps. Qed.
Lemma shrinks_send_answered props sent : steps shrinks (send_answered props sent).
Proof.
  revert sent. induction props as [|p props IH]; intros sent; cbn [send_answered]; unfold sess_writeCompressed; step; auto with steps.
Qed.
Lemma shrinks_send_block props : steps shrinks (send_block props).
Proof.
  unfold send_block. destruct props; [apply steps_ret; typeclasses eauto|]. apply steps_unrobust; [typeclasses eauto| |apply shrinks_send_answered].
  intros s r. unfold shrinks, SetRobust. by destruct (s_robust s).
Qed.
Lemma shrinks_report l : steps shrinks (report l).
Proof. intros s x s' E. apply report_ok in E as [_ E]. unfold shrinks. by rewrite E. Qed.
Hint Resolve shrinks_read_reply shrinks_send_answered shrinks_send_block shrinks_report : steps.
Lemma shrinks_sendOutbound : steps shrinks sendOutbound.
Proof. unfold sendOutbound. step; auto with steps. Qed.
Hint Resolve shrinks_sendOutbound : steps.

Lemma shrinks_inbound n sum props : steps shrinks (handleInbound_loop dfuel ks n sum props).
Proof.
  revert sum props. induction n as [|n IH]; intros sum props; cbn [handleInbound_loop]; step; auto with steps.
Qed.
Lemma shrinks_outbound_loop n : steps shrinks (handleOutbound_loop n).
Proof. induction n as [|n IH]; cbn [handleOutbound_loop]; step; auto with steps. Qed.

(** *** Outcomes *)

(** The input the session started with. *)
Context (rd0 : gostr).

(** Somewhere in the input there is a transfer, complete and with the right
    checksum, whose data the decompressor does not come to an end with. *)
Definition hangs : Prop := exists q rd p rd', rd `suffix_of` rd0 /\
  readCompressed q rd = Ok ((None, p), rd') /\ Data dfuel ks p = NoFuel.

(** The mailbox holds byte strings. *)
Context (Hout : forall fw (h : M) m d, m ∈ GetOutbound fw h -> Bytes m = inr d -> bytes d).

Definition ends {A} (m : sess (M := M) A) s : Prop := s.(s_rd) `suffix_of` rd0 -> m s = NoFuel -> hangs.

Lemma ends_bind {A B} (m : sess A) (f : A -> sess B) s :
  steps shrinks m -> ends m s ->
  (forall a s1, s.(s_rd) `suffix_of` rd0 -> m s = Ok (inr a, s1) -> ends (f a) s1) -> ends (m ≫= f) s.
Proof.
  unfold ends, mbind, sess_bind. intros Hs Hm Hf Hr. pose proof (Hs s) as Hs'.
  destruct (m s) as [[[e|a] s1]| |]; try discriminate; [|by auto].
  apply Hf; [done|done|]. etrans; [by eapply Hs'|done].
Qed.
Lemma ends_total {A} (m : sess A) s : m s <> NoFuel -> ends m s.
Proof. intros Hm _ E. by destruct Hm. Qed.
Lemma ends_lift {A} (r : res A) s : r <> NoFuel -> ends (lift r) s.
Proof. intros Hr. apply ends_total. unfold lift. by apply nofuel_bind. Qed.
Lemma ends_with_h {A} (f : M -> A * M) s : ends (with_h f) s.
Proof. apply ends_total. unfold with_h. destruct (s_h s); [by destruct (f m)|done]. Qed.
Lemma ends_nextLine pe s : ends (sess_nextLine pe) s.
Proof. apply ends_total. unfold sess_nextLine. total. Qed.
Lemma ends_peek s : ends peek s.
Proof. apply ends_total. unfold peek. by destruct (s_rd s). Qed.
Lemma ends_throw_err e s : ends (throw_err e) s.
Proof. by destruct e. Qed.
Hint Resolve ends_with_h ends_nextLine ends_peek ends_throw_err : ends.
Hint Extern 1 (ends (lift _) _) => apply ends_lift; solve [eauto with total] : ends.
Hint Extern 2 (ends _ _) => intros _; discriminate : ends.

(** Walks through a method: its parts consume the input and end. *)
Ltac consumes := solve [step; eauto using shrinks_inbound with steps; by apply shrinks_modify].
Ltac bind := simple apply ends_bind; [try consumes|try solve [eauto with ends]|intros ? ? ? ?].
Ltac go :=
  repeat first
    [ solve [eauto with ends] | bind
    | match goal with |- ends (match ?x with _ => _ end) _ => destruct x eqn:? end
    | progress cbv zeta ].

Lemma prepare_all_total code msgs : (forall m d, m ∈ msgs -> Bytes m = inr d -> bytes d) -> prepare_all code msgs <> NoFuel.
Proof.
  induction msgs as [|m msgs IH]; intros Hb; cbn [prepare_all]; [done|].
  assert (prepare_all code msgs <> NoFuel) by (apply IH; intros; eapply Hb; [by right|done]).
  destruct (Validate m); [done|]. apply nofuel_bind; [|intros p; by apply nofuel_bind].
  unfold msg_Proposal. destruct (Bytes m) as [e|d] eqn:E; [done|]. apply nofuel_bind; [|done].
  unfold NewProposal. cbv zeta. apply nofuel_bind; [|done]. destruct (code =? GzipProposal); [done|].
  destruct (compress_ok true [d]) as (out & body & ts & k & -> & _); [cbn; rewrite app_nil_r; eapply Hb; [by left|done]|done].
Qed.

Lemma ends_outbound s : ends sess_outbound s.
Proof using Hout.
  apply ends_lift. unfold outbound. destruct (s_h s) as [h|]; [|done]. apply nofuel_bind; [|done].
  apply prepare_all_total. intros m d. apply Hout.
Qed.

Lemma ends_readCompressed p s : ends (sess_readCompressed p) s.
Proof.
  apply ends_total. unfold sess_readCompressed. apply nofuel_bind; [auto with total|]. intros [[[e|] q] rd]; discriminate.
Qed.
Hint Resolve ends_outbound ends_readCompressed : ends.

Lemma ends_Message p q s s1 : s.(s_rd) `suffix_of` rd0 -> sess_readCompressed p s = Ok (inr q, s1) ->
  ends (sess_Message dfuel ks q) s1.
Proof.
  intros Hs E. unfold sess_Message. bind; [|go].
  unfold ends, lift, prop_Message. destruct (Data dfuel ks q) eqn:Ed; cbn [mbind res_bind]; try discriminate.
  - pose proof (ReadFrom_total a). by destruct (ReadFrom a).
  - intros _ _. unfold sess_readCompressed in E.
    destruct (readCompressed p s.(s_rd)) as [[[e p'] rd]| |] eqn:Er; try discriminate.
    destruct e; [discriminate|]. injection E as -> <-. by exists p, s.(s_rd), q, rd.
Qed.
Hint Resolve ends_Message : ends.

Lemma ends_fetch props s : ends (fetch dfuel ks props) s.
Proof.
  revert s. induction props as [|p props IH]; intros s; cbn [fetch]; [go|]. destruct (negb _); [apply IH|].
  bind. bind. bind; [unfold sess_Message; consumes|]. go.
Qed.
Hint Resolve ends_fetch : ends.
Lemma ends_fetch_all props s : ends (fetch_all dfuel ks props) s.
Proof. unfold fetch_all. go. Qed.
Hint Resolve ends_fetch_all : ends.

Lemma nextLine_strict pe s l s' : sess_nextLine pe s = Ok (inr l, s') -> (length s'.(s_rd) < length s.(s_rd))%nat.
Proof.
  unfold sess_nextLine. destruct (nextLineRemoteErr pe s.(s_rd)) as [[x rd]| |] eqn:E; try discriminate.
  intros [= -> <-]. apply nextLine_shorter in E as [[e ?]|E]; [done|exact E].
Qed.

Lemma ends_answer props s : ends (writeProposalsAnswer props) s.
Proof. unfold writeProposalsAnswer. go. Qed.
Hint Resolve ends_answer : ends.

(** Collects what is known of the lengths of the inputs. *)
Ltac shorter :=
  repeat match goal with
  | H : sess_nextLine _ _ = Ok (inr _, _) |- _ => apply nextLine_strict in H
  | H : lift _ _ = Ok (_, _) |- _ => apply (steps_lift shrinks), shrinks_length in H
  | H : peek _ = Ok (_, _) |- _ => apply (steps_peek shrinks), shrinks_length in H
  | H : writeProposalsAnswer _ _ = Ok (_, _) |- _ => apply shrinks_answer, shrinks_length in H
  | H : sess_outbound _ = Ok (_, _) |- _ => apply shrinks_outbound, shrinks_length in H
  | H : write _ _ = Ok (_, _) |- _ => apply shrinks_write, shrinks_length in H
  | H : send_block _ _ = Ok (_, _) |- _ => apply shrinks_send_block, shrinks_length in H
  | H : handleOutbound_loop _ _ = Ok (_, _) |- _ => apply shrinks_outbound_loop, shrinks_length in H
  | H : shrinks _ _ |- _ => apply shrinks_length in H
  end; lia.

Lemma ends_inbound n sum props s : (length s.(s_rd) < n)%nat -> ends (handleInbound_loop dfuel ks n sum props) s.
Proof.
  revert sum props s. induction n as [|n IH]; intros sum props s Hn; [lia|]. cbn [handleInbound_loop].
  go; apply IH; shorter.
Qed.

Lemma ends_reply n s : (length s.(s_rd) < n)%nat -> ends (read_reply n) s.
Proof.
  revert s. induction n as [|n IH]; intros s Hn; [lia|]. cbn [read_reply]. go. apply IH. shorter.
Qed.

Lemma reply_strict n s l s' : read_reply n s = Ok (inr l, s') -> (length s'.(s_rd) < length s.(s_rd))%nat.
Proof.
  revert s. induction n as [|n IH]; intros s; [discriminate|]. cbn [read_reply]. intros E.
  apply sess_bind_inv in E as [(e & _ & [=])|(x & s1 & E1 & E)]. apply nextLine_strict in E1.
  destruct (HasPrefix x (str "FS ")); [injection E as _ <-; lia|].
  destruct (HasPrefix x (str ";")); [apply IH in E; lia|discriminate].
Qed.

Lemma ends_send_answered props sent s : ends (send_answered props sent) s.
Proof.
  revert sent s. induction props as [|p props IH]; intros sent s; cbn [send_answered]; unfold sess_writeCompressed; go.
Qed.
Lemma ends_send_block props s : ends (send_block props) s.
Proof.
  unfold send_block. destruct props as [|p props]; [go|]. unfold unrobust.
  assert (Hrd : (SetRobust false s).(s_rd) = s.(s_rd)) by (unfold SetRobust; by destruct (s_robust s)).
  intros Hs E. destruct (s_robust s), (s_mode s); try (by eapply ends_send_answered).
  apply (ends_send_answered (p :: props) ∅ (SetRobust false s)); [by rewrite Hrd|].
  destruct (send_answered (p :: props) ∅ (SetRobust false s)) as [[x s1]| |]; [discriminate E|discriminate E|done].
Qed.
Hint Resolve ends_send_block : ends.

Lemma ends_sendOutbound s : ends sendOutbound s.
Proof using Hout.
  unfold sendOutbound. bind. cbv zeta. bind. simple apply ends_bind; [consumes|go|]. intros rd s3 _ [= <- <-].
  bind; [apply ends_reply; lia|]. go.
Qed.

Lemma sendOutbound_strict s x s' : sendOutbound s = Ok (inr x, s') -> (length s'.(s_rd) < length s.(s_rd))%nat.
Proof.
  unfold sendOutbound. intros E. apply sess_bind_inv in E as [(e & _ & [=])|(out & s1 & E1 & E)]. cbv zeta in E.
  apply sess_bind_inv in E as [(e & _ & [=])|([] & s2 & E2 & E)].
  apply sess_bind_inv in E as [(e & _ & [=])|(rd & s3 & E3 & E)]. injection E3 as <- <-.
  apply sess_bind_inv in E as [(e & _ & [=])|(l & s4 & E4 & E)]. apply reply_strict in E4.
  destruct (parseProposalAnswer l _) as [[e|] ps]; [discriminate|]. shorter.
Qed.

Lemma ends_report l s : ends (report l) s.
Proof.
  revert s. induction l as [|[mid rej] l IH]; intros s; cbn [report]; go.
Qed.
Hint Resolve ends_report ends_sendOutbound : ends.

Lemma outbound_same s x s' : sess_outbound s = Ok (inr x, s') -> s' = s /\ outbound s = Ok x.
Proof. unfold sess_outbound, lift. destruct (outbound s); try discriminate. by intros [= <- <-]. Qed.

Lemma range_empty : range ∅ = [].
Proof. pose proof (range_perm ∅) as P. rewrite map_to_list_empty in P. by apply Permutation_nil_r in P. Qed.

Lemma ends_outbound_loop n s : (length s.(s_rd) < n)%nat -> ends (handleOutbound_loop n) s.
Proof using Hout.
  revert s. induction n as [|n IH]; intros s Hn; [lia|]. cbn [handleOutbound_loop].
  simple apply ends_bind; [consumes|go|]. intros out s1 _ E1. apply outbound_same in E1 as [-> E1].
  simple apply ends_bind; [destruct out; consumes|destruct out; go|]. intros sent s2 _ E2.
  assert (Hs : (out = [] /\ sent = ∅ /\ s2 = s) \/ (length s2.(s_rd) < length s.(s_rd))%nat).
  { destruct out; [injection E2 as <- <-; by left|right; by apply sendOutbound_strict in E2]. }
  simple apply ends_bind; [consumes|go|]. intros [] s3 _ E3. cbv zeta.
  simple apply ends_bind; [consumes|go|]. intros out' s4 _ E4.
  apply outbound_same in E4 as [-> E4]. simple apply ends_bind; [consumes|go|]. intros noMsgs s5 _ [= _ <-].
  destruct (bool_decide (filter (fun x => x.2 = false) sent = ∅) && negb (bool_decide (out' = []))) eqn:Ec.
  - apply IH. destruct Hs as [(-> & -> & ->)|Hs].
    + rewrite range_empty in E3. injection E3 as <-. rewrite E1 in E4. injection E4 as <-.
      by rewrite andb_false_r in Ec.
    + apply report_ok in E3 as [_ ->]. lia.
  - destruct (bool_decide _ && noMsgs); [go|].
    simple apply ends_bind; [destruct (bool_decide _); consumes|destruct (bool_decide _); go|intros ? ? ? ?]. go.
Qed.

Lemma ends_outbound_turn s : ends handleOutbound s.
Proof using Hout. unfold ends, handleOutbound. apply ends_outbound_loop. lia. Qed.
Lemma ends_inbound_turn s : ends (handleInbound dfuel ks) s.
Proof. unfold ends, handleInbound. apply ends_inbound. lia. Qed.
Lemma shrinks_inbound_turn : steps shrinks (handleInbound dfuel ks).
Proof. intros s. apply shrinks_inbound. Qed.
Lemma shrinks_outbound_turn : steps shrinks handleOutbound.
Proof. intros s. apply shrinks_outbound_loop. Qed.
Hint Resolve shrinks_inbound_turn shrinks_outbound_turn : steps.
Hint Resolve ends_inbound_turn ends_outbound_turn : ends.

Lemma inbound_strict s x s' : handleInbound dfuel ks s = Ok (inr x, s') -> (length s'.(s_rd) < length s.(s_rd))%nat.
Proof.
  unfold handleInbound. cbn [handleInbound_loop]. intros E.
  apply sess_bind_inv in E as [(e & _ & [=])|(l & s1 & E1 & E)].
  assert (shrinks s1 s'); [|shorter]. refine ((_ : steps shrinks _) s1 (inr x) s' E). clear. consumes.
Qed.

Lemma ends_turns n (b : bool) s : (2 * length s.(s_rd) + (if b then 2 else 1) < n)%nat -> ends (turns dfuel ks n b) s.
Proof using Hout.
  revert b s. induction n as [|n IH]; intros b s Hn; [lia|]. cbn [turns].
  simple apply ends_bind; [consumes|go|]. intros fin s1 _ [= <- <-]. destruct (Done s); [go|].
  simple apply ends_bind; [destruct b; consumes|destruct b; go|]. intros [] s2 _ E. apply IH. destruct b; cbn [negb].
  - apply sess_bind_inv in E as [(e & _ & [=])|(q & s3 & E1 & E)]. injection E as <-. cbn [s_rd set_quit].
    apply shrinks_outbound_turn in E1. shorter.
  - apply sess_bind_inv in E as [(e & _ & [=])|(q & s3 & E1 & E)]. injection E as <-. cbn [s_rd set_quit].
    apply inbound_strict in E1. lia.
Qed.

(** *** The handshake *)
Lemma shrinks_handshake_line l data : steps shrinks (handshake_line l data).
Proof. unfold handshake_line. consumes. Qed.
Lemma ends_handshake_line l data s : ends (handshake_line l data) s.
Proof. unfold handshake_line. go. Qed.
Hint Resolve shrinks_handshake_line : steps.
Hint Resolve ends_handshake_line : ends.

Lemma ends_readHandshake n data s : (length s.(s_rd) < n)%nat -> ends (readHandshake_loop n data) s.
Proof.
  revert data s. induction n as [|n IH]; intros data s Hn; [lia|]. cbn [readHandshake_loop].
  go; apply IH; repeat match goal with H : gets _ _ = Ok (_, _) |- _ => injection H as <- <- end;
    match goal with H : handshake_line _ _ _ = _ |- _ => apply shrinks_handshake_line in H end; shorter.
Qed.

Lemma shrinks_readHandshake : steps shrinks readHandshake.
Proof.
  intros s. unfold readHandshake. generalize (S (length s.(s_rd))) (mkHS [] [] []). intros n data. revert s.
  change (steps shrinks (readHandshake_loop n data)). revert data. induction n as [|n IH]; intros data; cbn [readHandshake_loop]; step; auto with steps.
Qed.

Lemma ends_sendHandshake ch s : ends (sendHandshake ch) s.
Proof.
  apply ends_total. unfold sendHandshake, response_line.
  destruct ch as [|c ch], (s_login s); total.
Qed.

Lemma shrinks_sendHandshake ch : steps shrinks (sendHandshake ch).
Proof.
  intros s x s'. unfold sendHandshake. destruct ch as [|c ch], (s_login s) as [f|]; try (by intros [= <- <-]; exists []);
    (destruct (fw_words _ _ _ _); cbn [mbind res_bind]; try discriminate;
     destruct (response_line _ _) as [[e|pr]| |]; cbn [mbind res_bind]; try discriminate; intros [= <- <-]; by exists []).
Qed.
Hint Resolve shrinks_readHandshake shrinks_sendHandshake : steps.
Hint Resolve ends_sendHandshake : ends.

Lemma shrinks_prepare : steps shrinks prepare.
Proof. unfold prepare. consumes. Qed.

Lemma ends_prepare s : ends prepare s.
Proof. unfold prepare. go. Qed.

Lemma shrinks_handshake : steps shrinks handshake.
Proof. unfold handshake. consumes. Qed.

Lemma ends_handshake s : ends handshake s.
Proof.
  unfold handshake. go. unfold ends, readHandshake. apply ends_readHandshake. lia.
Qed.
End termination.

(** C3. Every exchange comes to an end, whatever the remote sends: it returns (with
    an error or without) or panics, unless the input holds a complete transfer
    whose decompression does not end. *)
Theorem exchange_terminates {M : Type} `{Charset} `{Clock} `{Gzip} `{MD5} `{Environment} `{MapOrder} `{MBoxHandler M}
    dfuel ks (s : session M) :
  (forall fw (h : M) m d, m ∈ GetOutbound fw h -> Bytes m = inr d -> bytes d) ->
  (forall q rd p rd', rd `suffix_of` s.(s_rd) -> readCompressed q rd = Ok ((None, p), rd') -> Data dfuel ks p <> NoFuel) ->
  Exchange dfuel ks s <> NoFuel.
Proof.
  intros Hout Hd. assert (Hh : ~ hangs dfuel ks s.(s_rd)) by (intros (q & rd & p & rd' & H1' & H2' & H3'); by eapply Hd).
  unfold Exchange. destruct (Done s); [discriminate|]. set (s0 := if _ && _ then _ else _).
  assert (Es : s0.(s_rd) = s.(s_rd)) by (unfold s0; by destruct (_ && _)).
  pose proof (ends_prepare dfuel ks s.(s_rd) s0 ltac:(by rewrite Es)) as Hp. pose proof (shrinks_prepare s0) as Hs.
  destruct (prepare s0) as [[[e|[]] s2]| |]; cbn [mbind res_bind]; try discriminate; [|intros _; by apply Hh, Hp].
  specialize (Hs _ _ eq_refl). set (s3 := SetRobust _ s2).
  assert (Es3 : s3.(s_rd) = s2.(s_rd)) by (unfold s3, SetRobust; by destruct (s_robust s2)).
  assert (Hs3 : s3.(s_rd) `suffix_of` s.(s_rd)) by (by rewrite Es3, <- Es).
  pose proof (ends_handshake dfuel ks s.(s_rd) s3 Hs3) as Hc. pose proof (shrinks_handshake s3) as Hs4.
  destruct (handshake s3) as [[[e|[]] s1]| |]; cbn [mbind res_bind]; try discriminate; [|intros _; by apply Hh, Hc].
  specialize (Hs4 _ _ eq_refl). assert (Hs1 : s1.(s_rd) `suffix_of` s.(s_rd)) by (by etrans).
  assert (He : ends dfuel ks s.(s_rd) (exchange_turns dfuel ks) s1).
  { unfold exchange_turns. apply ends_bind; [by intros ? ? ? [= <- <-]; exists []| |].
    - intros _. discriminate.
    - intros m s5 _ [= _ <-]. apply ends_bind; [by intros ? ? ? [= <- <-]; exists []|intros _; discriminate|].
      intros rd s6 _ [= <- <-]. apply ends_turns; [done|]. destruct (negb m); lia. }
  unfold ends in He.
  destruct (exchange_turns dfuel ks s1); [discriminate|discriminate|]. intros _. by apply Hh, He.
Qed.

(** A mailbox without messages. *)
Definition empty_box : MBoxHandler () := {|
  Prepare := fun h => (None, h); GetOutbound := fun _ _ => []; SetSent := fun _ _ h => h; SetDeferred := fun _ h => h;
  ProcessInbound := fun _ h => (None, h); GetInboundAnswer := fun _ _ => Defer |}.

(** Without its first byte there is no transfer. *)
Lemma no_transfer `{Charset} rd0 q rd p rd' : 1 ∉ rd0 -> rd `suffix_of` rd0 -> readCompressed q rd <> Ok ((None, p), rd').
Proof.
  intros H1 [k ->]. unfold readCompressed. destruct rd as [|c rd]; [discriminate|].
  destruct (Z.eqb_spec c _CHRSOH) as [->|_].
  { exfalso. apply H1, elem_of_app. right. left. }
  destruct (c =? 42); [|discriminate]. unfold nextLine. destruct (nextLineRemoteErr true rd) as [[x r]| |]; discriminate.
Qed.

Lemma exchange_terminates_witness :
  Exchange (H := raw_charset) (H0 := any_clock) (H1 := store_gzip) (H2 := zero_md5) (H3 := plain_env) (H4 := list_order)
    (H5 := empty_box) 10 (fun _ => 512)
    (set_rd sample_client (str "[WL2K-5.0-B2FWIHJM$]" ++ [13] ++ str ";PQ: 123" ++ [13] ++ str "CMS>" ++ [13] ++ str "FQ" ++ [13]))
  <> NoFuel.
Proof.
  apply (exchange_terminates (H := raw_charset) (H0 := any_clock) (H1 := store_gzip) (H2 := zero_md5) (H3 := plain_env)
    (H4 := list_order) (H5 := empty_box) 10 (fun _ => 512)).
  - intros fw h m d Hm. by apply elem_of_nil in Hm.
  - intros q rd p rd' Hs E. exfalso. eapply (no_transfer (H := raw_charset)); [|exact Hs|exact E]. by apply not_elem_existsb.
Defined.
