(* ===== verification/Robust.v ===== *)
(** Robust mode over an exchange ([transport.Robust], [src/fbb/wl2k.go] and
    [src/fbb/b2f.go]), and the status updates of a transfer.

    [unrobust] of Exchange.v switches robust mode off for the time messages
    are sent.  The connection of the model keeps the calls it got, each with the
    number of bytes written by then; here are the calls an exchange makes. *)
From S2P Require Import Prelude Crc GoStr Helpers Mid Words Reader Proposal Transfer Message MessageFormat Session Handshake.
From S2P Require Import Exchange SessionSafety.
From stdpp Require Import gmap.
Open Scope Z_scope.

(** ** Status updates *)
Record Status := mkStatus { BytesTransferred : Z; BytesTotal : Z; st_Done : bool }.

(** What [writeCompressed] reports at a tick, with [left] bytes of the message
    still in its buffer and [txBufLen] bytes in that of the modem. *)
Definition tick_status (p : proposal) (left txBufLen : Z) : Status :=
  let transferred := p.(p_csize) - left - txBufLen in
  mkStatus (if transferred <? 0 then 0 else transferred) p.(p_csize) false.

(** What it reports when it returns, and what [readCompressed] reports with
    [got] bytes received. *)
Definition done_status (p : proposal) (left : Z) : Status := mkStatus (p.(p_csize) - left) p.(p_csize) true.
Definition read_status (p : proposal) (got : Z) (done : bool) : Status := mkStatus got p.(p_csize) done.

(** What is in the buffer before each frame and after the last one. *)
Fixpoint lefts (fuel : nat) (data : gostr) : list Z :=
  zlen data :: match fuel, data with
               | S fuel, _ :: _ =>
                   let msgLen := if zlen data <? MaxMsgLength then zlen data else MaxMsgLength in
                   lefts fuel (drop (Z.to_nat msgLen) data)
               | _, _ => []
               end.

(** The updates of a message that is sent: one per frame and the last one. *)
Definition send_statuses (p : proposal) (txBufLen : Z -> Z) : list Status :=
  let buffer := drop (Z.to_nat p.(p_offset)) p.(p_data) in
  ((fun l => tick_status p l (txBufLen l)) <$> lefts (length buffer) buffer)
  ++ [done_status p (default 0 (last (lefts (length buffer) buffer)))].

Lemma lefts_spec fuel data : (length data <= fuel)%nat ->
  Forall (fun l => 0 <= l <= zlen data) (lefts fuel data) /\ last (lefts fuel data) = Some 0.
Proof.
  revert data. induction fuel as [|fuel IH]; intros [|c data] Hl; cbn [length] in Hl; try lia;
    try (cbn; split; [repeat constructor; unfold zlen; cbn; lia|done]).
  cbn [lefts]. set (d := c :: data) in *. set (n := if zlen d <? MaxMsgLength then _ else _).
  assert (Hn : 1 <= n <= zlen d) by (unfold n, d, MaxMsgLength; rewrite zlen_cons; pose proof (zlen_nonneg data); destruct (Z.ltb_spec (1 + zlen data) 125); lia).
  destruct (IH (drop (Z.to_nat n) d)) as [H1 H2]; [rewrite length_drop; unfold d; cbn [length]; lia|]. split.
  - constructor; [pose proof (zlen_nonneg d); lia|]. eapply Forall_impl; [exact H1|]. intros l Hb.
    unfold zlen in *. rewrite length_drop in Hb. lia.
  - rewrite last_cons, H2. done.
Qed.

(** What is reported of a message being sent lies between 0 and its size, and the
    last report is that it has been sent as a whole. *)
Theorem status_bounds p tx : (forall l, 0 <= tx l) -> 0 <= p.(p_offset) -> zlen p.(p_data) = p.(p_csize) ->
  Forall (fun st => 0 <= BytesTransferred st <= BytesTotal st) (send_statuses p tx) /\
  last (send_statuses p tx) = Some (mkStatus p.(p_csize) p.(p_csize) true).
Proof.
  intros Ht Ho Hs. unfold send_statuses. set (b := drop _ _). destruct (lefts_spec (length b) b ltac:(done)) as [H1 H2].
  assert (Hb : zlen b <= p.(p_csize)) by (rewrite <- Hs; unfold b, zlen; rewrite length_drop; lia).
  rewrite H2. cbn [default from_option]. pose proof (zlen_nonneg p.(p_data)). split.
  - apply Forall_app; split; [|apply Forall_singleton; cbn; lia]. apply Forall_fmap. eapply Forall_impl; [exact H1|].
    intros l Hl. cbv beta in Hl. unfold tick_status. cbn [BytesTransferred BytesTotal compose]. specialize (Ht l). destruct (Z.ltb_spec (p_csize p - l - tx l) 0); lia.
  - rewrite last_snoc. unfold done_status. by rewrite Z.sub_0_r.
Qed.

(** ** Robust mode *)
Section robust.
Context {M : Type} `{Charset} `{Clock} `{Gzip} `{MD5} `{Environment} `{MapOrder} `{MBoxHandler M}.
Context (dfuel : nat) (ks : nat -> Z).
Implicit Types s : session M.

(** The calls that switch robust mode off and on again, at the given numbers of
    bytes written. *)
Definition switched (ws : list (Z * Z)) : list (bool * Z) := concat ((fun w => [(false, w.1); (true, w.2)]) <$> ws).

(** The intervals [ws] follow each other from [m] to [n]. *)
Fixpoint chain (m : Z) (ws : list (Z * Z)) (n : Z) : Prop :=
  match ws with
  | [] => m <= n
  | w :: ws => m <= w.1 <= w.2 /\ chain w.2 ws n
  end.

Lemma chain_app m ws n ws' n' : chain m ws n -> chain n ws' n' -> chain m (ws ++ ws') n'.
Proof.
  revert m. induction ws as [|w ws IH]; intros m; cbn [chain app]; [|intros [Hl Hr] Hn; split; [done|by apply IH]].
  intros Hm. destruct ws' as [|w' ws']; cbn [chain]; [lia|]. intros [Hl Hr]. split; [lia|done].
Qed.

(** A step leaves robust mode alone and only adds to what was written. *)
Definition untouched s s' : Prop := s'.(s_mode) = s.(s_mode) /\ s'.(s_robust) = s.(s_robust) /\ s.(s_out) `prefix_of` s'.(s_out).

(** A step switches robust mode off and on again, and only if that is automatic. *)
Definition kept s s' : Prop :=
  s'.(s_mode) = s.(s_mode) /\ exists ws, chain (zlen s.(s_out)) ws (zlen s'.(s_out)) /\
    s'.(s_robust) = (fun calls => calls ++ switched ws) <$> s.(s_robust) /\ (s.(s_mode) <> RobustAuto -> ws = []).

#[local] Instance untouched_refl : Reflexive untouched.
Proof. done. Qed.
#[local] Instance untouched_trans : Transitive untouched.
Proof. unfold untouched. intros s1 s2 s3 (?&?&?) (?&?&?). split_and!; [congruence..|by etrans]. Qed.
#[local] Instance kept_refl : Reflexive kept.
Proof.
  intros s. split; [done|]. exists []. split_and!; [cbn; lia| |done].
  destruct (s_robust s); [|done]. cbn. by rewrite app_nil_r.
Qed.
#[local] Instance kept_trans : Transitive kept.
Proof.
  intros s1 s2 s3 (E1 & ws1 & C1 & L1 & M1) (E2 & ws2 & C2 & L2 & M2). split; [congruence|].
  exists (ws1 ++ ws2). split_and!; [by eapply chain_app| |].
  - rewrite L2, L1. destruct (s_robust s1); [|done]. cbn. unfold switched. by rewrite fmap_app, concat_app, app_assoc.
  - intros Hm. rewrite M1, M2 by congruence. done.
Qed.

Lemma prefix_zlen (l k : gostr) : l `prefix_of` k -> zlen l <= zlen k.
Proof. intros Hp. apply prefix_length in Hp. unfold zlen. lia. Qed.

Lemma untouched_kept s s' : untouched s s' -> kept s s'.
Proof.
  intros (Hm & Hr & Ho). split; [done|]. exists []. split_and!; [cbn; by apply prefix_zlen| |done].
  rewrite Hr. destruct (s_robust s); [|done]. cbn. by rewrite app_nil_r.
Qed.
Lemma steps_kept {A} (m : sess A) : steps untouched m -> steps kept m.
Proof. intros Hm s x s' E. by eapply untouched_kept, Hm. Qed.

Lemma ut_nextLine pe : steps untouched (sess_nextLine pe).
Proof. by apply steps_nextLine. Qed.
Lemma ut_write b : steps untouched (write b).
Proof. apply steps_modify. intros s. split_and!; [done..|]. cbn. by apply prefix_app_r. Qed.
Lemma ut_with_h {A} (f : M -> A * M) : steps untouched (with_h f).
Proof. by apply steps_with_h. Qed.
Lemma ut_outbound : steps untouched sess_outbound.
Proof. intros s x s' E. exact (steps_lift untouched (outbound s) s x s' E). Qed.
Lemma ut_readCompressed p : steps untouched (sess_readCompressed p).
Proof.
  intros s x s'. unfold sess_readCompressed. destruct (readCompressed p s.(s_rd)) as [[[e q] rd]| |]; try discriminate.
  destruct e; by intros [= <- <-].
Qed.
Hint Resolve ut_nextLine ut_write ut_with_h ut_outbound ut_readCompressed : steps.
Ltac untouched := step; auto with steps; by apply steps_modify.

Lemma ut_fetch props : steps untouched (fetch dfuel ks props).
Proof. induction props as [|p props IH]; cbn [fetch]; unfold sess_Message; untouched. Qed.
Hint Resolve ut_fetch : steps.
Lemma ut_fetch_all props : steps untouched (fetch_all dfuel ks props).
Proof. unfold fetch_all. untouched. Qed.
Lemma ut_answer props : steps untouched (writeProposalsAnswer props).
Proof. unfold writeProposalsAnswer. untouched. Qed.
Hint Resolve ut_fetch_all ut_answer : steps.
Lemma ut_inbound n sum props : steps untouched (handleInbound_loop dfuel ks n sum props).
Proof. revert sum props. induction n as [|n IH]; intros sum props; cbn [handleInbound_loop]; untouched. Qed.
Lemma ut_read_reply n : steps untouched (read_reply n).
Proof. induction n as [|n IH]; cbn [read_reply]; untouched. Qed.
Lemma ut_send_answered props sent : steps untouched (send_answered props sent).
Proof.
  revert sent. induction props as [|p props IH]; intros sent; cbn [send_answered]; unfold sess_writeCompressed; untouched.
Qed.
Lemma ut_report l : steps untouched (report l).
Proof. induction l as [|[mid rej] l IH]; cbn [report]; untouched. Qed.

(** Robust mode is switched off right before the messages of a block and on again
    right after them, when it is automatic. *)
Lemma robust_send_block props s x s' : props <> [] -> send_block props s = Ok (x, s') ->
  s'.(s_mode) = s.(s_mode) /\ s.(s_out) `prefix_of` s'.(s_out) /\
  s'.(s_robust) = (fun calls => calls ++ if bool_decide (s.(s_mode) = RobustAuto)
    then [(false, zlen s.(s_out)); (true, zlen s'.(s_out))] else []) <$> s.(s_robust).
Proof.
  unfold send_block. destruct props as [|p props]; [done|]. intros _. unfold unrobust.
  pose proof (ut_send_answered (p :: props) ∅) as Hu. destruct (s_robust s) as [r|] eqn:Er.
  2:{ intros E. apply Hu in E as (E1 & E2 & E3). by rewrite E2, Er. }
  destruct (s_mode s) eqn:Em.
  2,3: intros E; apply Hu in E as (E1 & E2 & E3); rewrite E2, Er; cbn; by rewrite E1, app_nil_r.
  destruct (send_answered _ _ _) as [[y s1]| |] eqn:E; try discriminate. intros [= <- <-]. apply Hu in E as (E1 & E2 & E3).
  unfold SetRobust in E1, E2, E3 |- *. rewrite Er in E1, E2, E3. cbn in E1, E2, E3. rewrite E2. cbn. rewrite <- app_assoc. split_and!; [congruence|done|done].
Qed.

Lemma kept_send_block props : steps kept (send_block props).
Proof.
  destruct props as [|p props]; [apply steps_ret; typeclasses eauto|]. intros s x s' E.
  apply robust_send_block in E as (E1 & E2 & E3); [|done]. split; [done|]. rewrite E3. apply prefix_zlen in E2.
  case_bool_decide as Hm; [exists [(zlen s.(s_out), zlen s'.(s_out))]|exists []]; (split_and!; cbn; try done; lia).
Qed.

Lemma kept_sendOutbound : steps kept sendOutbound.
Proof.
  unfold sendOutbound. step; auto using kept_send_block; apply steps_kept; auto with steps. apply ut_read_reply.
Qed.

Lemma kept_outbound_loop n : steps kept (handleOutbound_loop n).
Proof.
  induction n as [|n IH]; cbn [handleOutbound_loop]; step; auto using kept_sendOutbound; apply steps_kept; auto using ut_report with steps.
Qed.

Lemma kept_turns n b : steps kept (turns dfuel ks n b).
Proof.
  revert b. induction n as [|n IH]; intros b; cbn [turns]; step; auto; try (apply steps_kept; by apply steps_modify).
  - intros s x s' E. exact (kept_outbound_loop _ s x s' E).
  - apply steps_kept. intros s x s' E. exact (ut_inbound _ _ _ s x s' E).
Qed.

Lemma ut_handshake_line l data : steps untouched (handshake_line l data).
Proof. unfold handshake_line. untouched. Qed.
Hint Resolve ut_handshake_line : steps.
Lemma ut_readHandshake : steps untouched readHandshake.
Proof.
  intros s. unfold readHandshake. generalize (S (length s.(s_rd))) (mkHS [] [] []). intros n data. revert s.
  change (steps untouched (readHandshake_loop n data)). revert data. induction n as [|n IH]; intros data; cbn [readHandshake_loop]; step; auto with steps.
Qed.
Lemma ut_sendHandshake ch : steps untouched (sendHandshake ch).
Proof.
  intros s x s'. unfold sendHandshake. destruct ch as [|c ch], (s_login s) as [f|]; try (by (intros [= <- <-]; split_and!; cbn; try done; rewrite <- ?app_assoc; apply prefix_app_r));
    (destruct (fw_words _ _ _ _); cbn [mbind res_bind]; try discriminate;
     destruct (response_line _ _) as [[e|pr]| |]; cbn [mbind res_bind]; try discriminate; by (intros [= <- <-]; split_and!; cbn; try done; rewrite <- ?app_assoc; apply prefix_app_r)).
Qed.
Hint Resolve ut_readHandshake ut_sendHandshake : steps.
Lemma ut_handshake : steps untouched handshake.
Proof. unfold handshake. untouched. Qed.
Lemma ut_prepare : steps untouched prepare.
Proof. unfold prepare. untouched. Qed.

Lemma prepare_cases s : exists s1,
  prepare s = Ok (match s.(s_h) ≫= (fun h => (Prepare h).1) with Some e => inl e | None => inr () end, s1) /\
  s1.(s_robust) = s.(s_robust) /\ s1.(s_mode) = s.(s_mode) /\ s1.(s_out) = s.(s_out).
Proof.
  unfold prepare, with_h, mbind at 1, sess_bind, gets. cbn [mbind res_bind]. destruct (s_h s) as [h|] eqn:Eh; [|by exists s].
  unfold mbind at 1. cbn [mbind res_bind option_bind]. rewrite Eh. destruct (Prepare h) as [o h'] eqn:Ep.
  exists (set_h s (Some h')). cbn. by destruct o.
Qed.

Lemma ut_inbound_turn : steps untouched (handleInbound dfuel ks).
Proof. intros s x s' E. exact (ut_inbound _ _ _ s x s' E). Qed.

Lemma SetRobust_calls r s : (SetRobust r s).(s_robust) = (fun calls => calls ++ [(r, zlen s.(s_out))]) <$> s.(s_robust).
Proof. unfold SetRobust. destruct (s_robust s) eqn:E; [done|by rewrite E]. Qed.
Lemma SetRobust_out r s : (SetRobust r s).(s_out) = s.(s_out).
Proof. unfold SetRobust. by destruct (s_robust s). Qed.
Lemma SetRobust_mode r s : (SetRobust r s).(s_mode) = s.(s_mode).
Proof. unfold SetRobust. by destruct (s_robust s). Qed.

Lemma finish_robust e s : (finish e s).2.(s_robust) = s.(s_robust) /\ s.(s_out) `prefix_of` (finish e s).2.(s_out).
Proof. unfold finish. destruct e as [e|]; [|done]. destruct (is_EOF e); [done|]. split; [done|]. cbn. by apply prefix_app_r. Qed.

(** The end of an exchange whose steps from [s] were [kept]. *)
Lemma finish_calls r s s1 e : kept (SetRobust r s) s1 ->
  exists ws n, (finish e (SetRobust false s1)).2.(s_robust)
    = (fun calls => calls ++ (r, zlen s.(s_out)) :: switched ws ++ [(false, n)]) <$> s.(s_robust) /\
    chain (zlen s.(s_out)) ws n /\ n <= zlen (finish e (SetRobust false s1)).2.(s_out) /\ (s.(s_mode) <> RobustAuto -> ws = []).
Proof.
  intros (E1 & ws & C & L & W). rewrite SetRobust_out in C. rewrite SetRobust_mode in W. exists ws, (zlen s1.(s_out)).
  destruct (finish_robust e (SetRobust false s1)) as [F1 F2]. rewrite F1, SetRobust_calls, L, SetRobust_calls.
  rewrite SetRobust_out in F2. split_and!; [|done|by apply prefix_zlen|done].
  destruct (s_robust s); [|done]. cbn. by rewrite <- !app_assoc.
Qed.

Lemma kept_exchange_turns : steps kept (exchange_turns dfuel ks).
Proof. intros s x s' E. exact (kept_turns _ _ s x s' E). Qed.
End robust.

(** C15. The calls of [SetRobust] an exchange makes on its connection, with the number of
    bytes it had written by each.  The first comes before anything is written, and
    switches robust mode on unless it is disabled; the last, after the turns, with or
    without an error, switches it off; between them it is switched off and on again
    by turns, and only if it is automatic.  A block of messages is written exactly
    between two such calls; receiving makes none.  An exchange whose mailbox cannot
    be prepared makes none at all. *)
Theorem robust_mode {M : Type} `{Charset} `{Clock} `{Gzip} `{MD5} `{Environment} `{MapOrder} `{MBoxHandler M} dfuel ks (s : session M) :
  (forall props x s', props <> [] -> send_block props s = Ok (x, s') ->
    s'.(s_robust) = (fun calls => calls ++ if bool_decide (s.(s_mode) = RobustAuto)
      then [(false, zlen s.(s_out)); (true, zlen s'.(s_out))] else []) <$> s.(s_robust)) /\
  (forall x s', handleInbound dfuel ks s = Ok (x, s') -> s'.(s_robust) = s.(s_robust)) /\
  (forall stats e s', Done s = false -> Exchange dfuel ks s = Ok (stats, (e, s')) ->
    match s.(s_h) ≫= (fun h => (Prepare h).1) with
    | Some _ => s'.(s_robust) = s.(s_robust)
    | None => exists ws n,
        s'.(s_robust) = (fun calls => calls ++ (negb (bool_decide (s.(s_mode) = RobustDisabled)), zlen s.(s_out)) :: switched ws ++ [(false, n)])
          <$> s.(s_robust) /\
        chain (zlen s.(s_out)) ws n /\ n <= zlen s'.(s_out) /\ (s.(s_mode) <> RobustAuto -> ws = [])
    end).
Proof.
  split; [intros props x s' Hp E; by apply robust_send_block in E as (_ & _ & E)|].
  split; [intros x s' E; by apply ut_inbound_turn in E as (_ & E & _)|].
  intros stats e s' Hd. unfold Exchange. rewrite Hd. set (s0 := if _ && _ then _ else _).
  assert (E0 : s0.(s_robust) = s.(s_robust) /\ s0.(s_h) = s.(s_h) /\ s0.(s_mode) = s.(s_mode) /\ s0.(s_out) = s.(s_out))
    by (unfold s0; by destruct (_ && _)).
  destruct E0 as (<- & <- & <- & <-). clear Hd. clearbody s0. clear s. rename s0 into s.
  destruct (prepare_cases s) as (s1 & -> & <- & <- & <-). cbn [mbind res_bind].
  destruct (s_h s ≫= _) as [er|].
  - remember (finish (inl er) s1) as f eqn:Ef. intros [= _ ->].
    apply (f_equal snd) in Ef. cbn [snd] in Ef. subst s'. apply finish_robust.
  - set (s2 := SetRobust _ s1). destruct (handshake s2) as [[[er|[]] s3]| |] eqn:E3; cbn [mbind res_bind]; try discriminate;
      apply ut_handshake, untouched_kept in E3.
    + remember (finish (inl er) (SetRobust false s3)) as f eqn:Ef. intros [= _ ->].
      apply (f_equal snd) in Ef. cbn [snd] in Ef. subst s'. by apply finish_calls.
    + destruct (exchange_turns dfuel ks s3) as [[x s4]| |] eqn:E4; cbn [mbind res_bind]; try discriminate.
      apply kept_exchange_turns in E4. cbn [fst snd]. remember (finish x (SetRobust false s4)) as f eqn:Ef. intros [= _ ->].
      apply (f_equal snd) in Ef. cbn [snd] in Ef. subst s'. apply finish_calls. by eapply kept_trans.
Qed.

(** A session with a CMS on a connection with robust mode. *)
Definition sample_robust : session () :=
  set_robust (set_rd sample_client (str "[WL2K-5.0-B2FWIHJM$]" ++ [13] ++ str "CMS>" ++ [13] ++ str "FQ" ++ [13])) (Some []).

Lemma robust_mode_witness : exists stats e s' ws n,
  Exchange (H := raw_charset) (H0 := any_clock) (H1 := store_gzip) (H2 := zero_md5) (H3 := plain_env)
      (H4 := list_order) (H5 := empty_box) 10 (fun _ => 512) sample_robust
  = Ok (stats, (e, s')) /\ s'.(s_robust) = Some ((true, 0) :: switched ws ++ [(false, n)]).
Proof.
  assert (Hok : match Exchange (H := raw_charset) (H0 := any_clock) (H1 := store_gzip) (H2 := zero_md5) (H3 := plain_env)
      (H4 := list_order) (H5 := empty_box) 10 (fun _ => 512) sample_robust
                with Ok _ => True | _ => False end) by (vm_compute; exact I).
  destruct (robust_mode (H := raw_charset) (H0 := any_clock) (H1 := store_gzip) (H2 := zero_md5) (H3 := plain_env)
    (H4 := list_order) (H5 := empty_box) 10 (fun _ => 512) sample_robust) as (_ & _ & T).
  revert Hok T. generalize (Exchange (H := raw_charset) (H0 := any_clock) (H1 := store_gzip) (H2 := zero_md5) (H3 := plain_env)
      (H4 := list_order) (H5 := empty_box) 10 (fun _ => 512) sample_robust).
  intros [[stats [e s']]| |]; [|done..]. intros _ T.
  destruct (T stats e s' eq_refl eq_refl) as (ws & n & E & _). exists stats, e, s', ws, n. split; [done|exact E].
Defined.

Lemma status_bounds_witness :
  let p := mkProp Wl2kProposal (str "EM") (str "ABC") Accept (str "Hi") 0 false 300 [1; 2; 3; 4; 5; 6] 6 in
  Forall (fun st => 0 <= BytesTransferred st <= BytesTotal st) (send_statuses p (fun l => 2)) /\
  last (send_statuses p (fun l => 2)) = Some (mkStatus 6 6 true).
Proof. intros p. apply (status_bounds p (fun l => 2)); [intros; lia|vm_compute; discriminate|reflexivity]. Defined.
