(* ===== verification/Station.v ===== *)
(** What a session relies on from its mailbox, as an interface of its own:
    [StationMailbox], which the directory mailbox (MailboxStation.v) and the
    mailbox in memory of Delivery.v implement. *)
From S2P Require Import Prelude Crc GoStr Helpers Words Proposal Transfer Message MessageFormat Session Handshake.
From S2P Require Import Exchange Delivery.
From stdpp Require Import gmap.
Open Scope Z_scope.

(** ** Lists *)
Section lists.
Context {A : Type}.
Implicit Types (P Q : A -> Prop) (l : list A).

Lemma filter_iff_in P Q `{forall x, Decision (P x)} `{forall x, Decision (Q x)} l :
  (forall x, x ∈ l -> P x <-> Q x) -> filter P l = filter Q l.
Proof.
  induction l as [|x l IH]; intros Hpq; [done|]. rewrite !filter_cons, IH by (intros; apply Hpq; by right).
  specialize (Hpq x ltac:(by left)). repeat case_decide; tauto.
Qed.

Lemma filter_every P `{forall x, Decision (P x)} l : (forall x, x ∈ l -> P x) -> filter P l = l.
Proof.
  induction l as [|x l IH]; intros Hp; [done|]. rewrite filter_cons, decide_True by (apply Hp; by left).
  f_equal. apply IH. intros. apply Hp. by right.
Qed.

Lemma filter_split P `{forall x, Decision (P x)} l : filter P l ++ filter (fun x => ~ P x) l ≡ₚ l.
Proof.
  induction l as [|x l IH]; [done|]. rewrite !filter_cons.
  destruct (decide (P x)); [rewrite decide_False by tauto|rewrite decide_True by done].
  - cbn [app]. by rewrite IH.
  - rewrite <- Permutation_middle. by rewrite IH.
Qed.

Lemma Forall_filter_keep P Q `{forall x, Decision (Q x)} l : Forall P l -> Forall P (filter Q l).
Proof. intros Hp. apply Forall_forall. intros x Hx. apply list_elem_of_filter in Hx as [_ Hx]. by eapply Forall_forall in Hx. Qed.

Lemma filter_none P `{forall x, Decision (P x)} l : (forall x, x ∈ l -> ~ P x) -> filter P l = [].
Proof.
  induction l as [|x l IH]; intros Hp; [done|]. rewrite filter_cons, decide_False by (apply Hp; by left).
  apply IH. intros. apply Hp. by right.
Qed.

Lemma filter_prefix {B} `{EqDecision B} (f : A -> B) l k : NoDup (f <$> l ++ k) -> filter (fun x => f x ∈ f <$> l) (l ++ k) = l.
Proof.
  rewrite fmap_app. intros (_ & Hd & _)%NoDup_app. rewrite filter_app, filter_every by (intros; by apply list_elem_of_fmap_2).
  rewrite filter_none; [apply app_nil_r|]. intros x Hx Hin. by apply (Hd _ Hin), list_elem_of_fmap_2.
Qed.

Lemma foldl_map {B C} (g : C -> A -> C) (f : B -> A) (k : list B) c : foldl g c (f <$> k) = foldl (fun c x => g c (f x)) c k.
Proof. revert c. induction k as [|x k IH]; intros c; [done|]. exact (IH _). Qed.

Lemma chosen_filter (f : A -> Z) l : chosen l (f <$> l) = filter (fun x => f x = Accept) l.
Proof.
  induction l as [|x l IH]; [done|]. cbn [fmap list_fmap chosen]. rewrite filter_cons. cbn [fmap] in IH. rewrite IH.
  destruct (Z.eqb_spec (f x) Accept); case_decide; done.
Qed.
End lists.

(** ** The mailbox *)

(** [find] says what a mailbox holds under an identifier, [store] as what it
    keeps a message.  From [h] to [h'] the messages [ms] were taken in. *)
Record kept {M C} (find : M -> gostr -> option C) (store : message -> C) (ms : list message) (h h' : M) : Prop := {
  kp_new : NoDup (MID <$> ms) -> forall m, m ∈ ms -> find h' (MID m) = Some (store m);
  kp_old : forall mid, mid ∉ MID <$> ms -> find h' mid = find h mid }.

(** What settling messages does: they are no longer offered, nothing else
    changes.  (The state is one that is consistent, [inv]; [good] are the
    identifiers the mailbox can deal with.) *)
Record settled {M C} `{MBoxHandler M} (inv : M -> Prop) (good : gostr -> Prop) (find : M -> gostr -> option C)
    (mids : list gostr) (h h' : M) : Prop := {
  st_inv : inv h';
  st_out : forall fw, GetOutbound fw h' ≡ₚ filter (fun m => MID m ∉ mids) (GetOutbound fw h);
  st_in : forall mid, find h' mid = find h mid;
  st_answer : forall p, good p.(p_mid) -> GetInboundAnswer p h' = GetInboundAnswer p h }.

(** What taking in messages does: they are there, and only proposals of these
    messages may be answered otherwise than before. *)
Record took {M C} `{MBoxHandler M} (inv : M -> Prop) (good : gostr -> Prop) (find : M -> gostr -> option C) (store : message -> C)
    (ms : list message) (h h' : M) : Prop := {
  tk_inv : inv h';
  tk_out : forall fw, GetOutbound fw h' ≡ₚ GetOutbound fw h;
  tk_in : kept find store ms h h';
  tk_answer : forall p, good p.(p_mid) -> p.(p_mid) ∉ MID <$> ms -> GetInboundAnswer p h' = GetInboundAnswer p h }.

(** A mailbox that does not fail: [mb_storable] says of which messages that is
    promised. *)
Class StationMailbox (M : Type) `{MBoxHandler M} := {
  mb_content : Type;
  mb_find : M -> gostr -> option mb_content;
  mb_store : message -> mb_content;
  mb_inv : M -> Prop;
  mb_good : gostr -> Prop;
  mb_storable : message -> Prop;
  mb_storable_good m : mb_storable m -> mb_good (MID m);
  mb_answered p h : answered (GetInboundAnswer p h);
  mb_SetSent fw mid rejected h : mb_inv h -> mid ∈ MID <$> GetOutbound fw h ->
    settled mb_inv mb_good mb_find [mid] h (SetSent mid rejected h);
  mb_SetDeferred fw mid h : mb_inv h -> mid ∈ MID <$> GetOutbound fw h ->
    settled mb_inv mb_good mb_find [mid] h (SetDeferred mid h);
  mb_ProcessInbound m h : mb_inv h -> mb_storable m ->
    (ProcessInbound m h).1 = None /\ took mb_inv mb_good mb_find mb_store [m] h (ProcessInbound m h).2 }.

Definition settles {M} `{StationMailbox M} : list gostr -> M -> M -> Prop := settled mb_inv (mb_good (M := M)) mb_find.
Definition takes_in {M} `{StationMailbox M} : list message -> M -> M -> Prop := took mb_inv (mb_good (M := M)) mb_find (mb_store (M := M)).

Section kept.
Context {M C : Type} (find : M -> gostr -> option C) (store : message -> C).

Lemma kept_nil h h' : (forall mid, find h' mid = find h mid) -> kept find store [] h h'.
Proof. intros Hf. split; [|done]. intros _ m Hm. by apply elem_of_nil in Hm. Qed.

Lemma kept_both a b h h1 h2 : kept find store a h h1 -> kept find store b h1 h2 -> kept find store (a ++ b) h h2.
Proof.
  intros [N1 O1] [N2 O2]. split; rewrite fmap_app.
  - intros (Na & Hd & Nb)%NoDup_app m Hm. apply elem_of_app in Hm as [Hm|Hm]; [|by apply N2].
    rewrite O2; [by apply N1|]. by apply Hd, list_elem_of_fmap_2.
  - intros mid Hm. apply not_elem_of_app in Hm as [H1 H2]. by rewrite O2, O1.
Qed.
End kept.

Section mailbox.
Context {M : Type} `{StationMailbox M}.
Implicit Types h : M.

Lemma settles_nil h : mb_inv h -> settles [] h h.
Proof. intros Hi. split; auto. intros fw. rewrite filter_every; [done|]. intros m _. by apply not_elem_of_nil. Qed.

Lemma settles_trans a b h h1 h2 : settles a h h1 -> settles b h1 h2 -> settles (a ++ b) h h2.
Proof.
  intros [_ O1 I1 A1] [Hi O2 I2 A2]. split; [done| |intros mid; by rewrite I2|intros p Hp; by rewrite A2, A1].
  intros fw. rewrite O2, O1, list_filter_filter. rewrite (list_filter_iff _ (fun m => MID m ∉ a ++ b)); [done|].
  intros m. rewrite not_elem_of_app. tauto.
Qed.

Lemma settles_perm a b h h' : a ≡ₚ b -> settles a h h' -> settles b h h'.
Proof.
  intros P [Hi O I A]. split; auto. intros fw. rewrite O. rewrite (list_filter_iff _ (fun m => MID m ∉ b)); [done|].
  intros m. by rewrite P.
Qed.

Lemma takes_in_nil h : mb_inv h -> takes_in [] h h.
Proof. intros Hi. split; auto. by apply kept_nil. Qed.

Lemma takes_in_trans a b h h1 h2 : takes_in a h h1 -> takes_in b h1 h2 -> takes_in (a ++ b) h h2.
Proof.
  intros [_ O1 I1 A1] [Hi O2 I2 A2]. split; [done|intros fw; by rewrite O2|by eapply kept_both|].
  intros p Hg Hp. rewrite fmap_app, not_elem_of_app in Hp. rewrite A2, A1 by tauto. done.
Qed.

(** The loops over the messages of a block. *)
Lemma takes_all ms h : mb_inv h -> Forall mb_storable ms ->
  takes h ms /\ takes_in ms h (foldl (fun h m => (ProcessInbound m h).2) h ms).
Proof.
  intros Hi Hm. revert h Hi. induction Hm as [|m ms Hm _ IH]; intros h Hi; [split; [done|by apply takes_in_nil]|].
  destruct (mb_ProcessInbound m h Hi Hm) as [E T]. destruct (IH _ (tk_inv _ _ _ _ _ _ _ T)) as [IH1 IH2].
  split; [done|]. exact (takes_in_trans [m] ms _ _ _ T IH2).
Qed.

(** A step that settles one message, for each of some. *)
Lemma settle_all {A} (mid : A -> gostr) (f : A -> M -> M) fw l h :
  (forall x h, x ∈ l -> mb_inv h -> mid x ∈ MID <$> GetOutbound fw h -> settles [mid x] h (f x h)) ->
  mb_inv h -> NoDup (mid <$> l) -> (mid <$> l) ⊆ MID <$> GetOutbound fw h ->
  settles (mid <$> l) h (foldl (fun h x => f x h) h l).
Proof.
  revert h. induction l as [|x l IH]; intros h Hf Hi Hn Hs; [by apply settles_nil|].
  cbn [fmap list_fmap] in *. apply NoDup_cons in Hn as [Hx Hn].
  assert (S1 : settles [mid x] h (f x h)) by (apply Hf; [by left|done|apply Hs; by left]).
  apply (settles_trans [mid x] (mid <$> l) _ _ _ S1). apply IH; auto.
  - intros y h' Hy. apply Hf. by right.
  - by apply (st_inv _ _ _ _ _ _ S1).
  - intros i Hy. pose proof (Hs i ltac:(by right)) as Hin. apply list_elem_of_fmap in Hin as (m & -> & Hm).
    apply list_elem_of_fmap. exists m. split; [done|]. rewrite (st_out _ _ _ _ _ _ S1 fw). apply list_elem_of_filter. split; [|done].
    rewrite list_elem_of_singleton. intros E. by rewrite E in Hy.
Qed.
End mailbox.


(** ** The mailbox in memory *)
#[export] Instance memory_station : StationMailbox box.
Proof.
  refine {| mb_content := message; mb_find := fun b mid => last (filter (fun m => MID m = mid) b.(b_in)); mb_store := fun m => m;
            mb_inv := fun _ => True; mb_good := fun _ => True; mb_storable := fun _ => True |}; auto.
  - intros p h. cbn [GetInboundAnswer memory_box]. unfold answered. destruct (bool_decide _); auto.
  - intros fw mid rej h _ _. split; [done| |done|done]. intros fw'. cbn [GetOutbound SetSent memory_box b_out b_deferred].
    rewrite !list_filter_filter. rewrite (list_filter_iff _ (fun m => MID m ∉ [mid] /\ MID m ∉ b_deferred h)); [done|].
    intros m. rewrite list_elem_of_singleton. tauto.
  - intros fw mid h _ _. split; [done| |done|done]. intros fw'. cbn [GetOutbound SetDeferred memory_box b_out b_deferred].
    rewrite !list_filter_filter. rewrite (list_filter_iff _ (fun m => MID m ∉ [mid] /\ MID m ∉ b_deferred h)); [done|].
    intros m. rewrite list_elem_of_singleton, not_elem_of_cons. tauto.
  - intros m h _ _. split; [done|]. cbn [ProcessInbound memory_box snd]. split; [done|done| |].
    + split; cbn [b_in].
      * intros _ x Hx%list_elem_of_singleton. subst x. rewrite filter_app, filter_cons, decide_True by done. apply last_snoc.
      * intros mid Hm. cbn [fmap list_fmap] in Hm. rewrite filter_app, filter_cons, decide_False; [by rewrite app_nil_r|].
        intros E. apply Hm. rewrite E. by left.
    + intros p _ Hp. cbn [GetInboundAnswer memory_box b_in]. rewrite (bool_decide_ext _ (p.(p_mid) ∈ MID <$> h.(b_in))); [done|].
      rewrite fmap_app, elem_of_app. tauto.
Defined.
