(* ===== verification/SessionTurn.v ===== *)
(** A turn of a session from both sides: the side that has the turn offers its
    messages in blocks, the other side answers and takes in what it wants.  The
    mailboxes of the two sides may be different implementations of
    [StationMailbox]. *)
From S2P Require Import Prelude Crc GoStr Helpers Mid Words Reader Proposal Transfer Message MessageFormat Session Handshake.
From S2P Require Import Exchange Delivery SessionSafety Station.
From stdpp Require Import gmap.
Open Scope Z_scope.

(** ** What happens to a session *)

(** From [s] to [s'] the bytes [w] were written and the messages [sent] and [got]
    counted; the remote stays what it is. *)
Record moved {M} (s s' : session M) (w : gostr) (sent got : list gostr) : Prop := {
  mv_fw : s'.(s_remoteFW) = s.(s_remoteFW);
  mv_sid : s'.(s_remoteSID) = s.(s_remoteSID);
  mv_done : Done s' = Done s;
  mv_out : s'.(s_out) = s.(s_out) ++ w;
  mv_sent : s'.(s_stats).(Sent) ≡ₚ s.(s_stats).(Sent) ++ sent;
  mv_got : s'.(s_stats).(Received) = s.(s_stats).(Received) ++ got }.

Section moved.
Context {M : Type}.
Implicit Types s : session M.

Lemma moved_trans s s1 s2 w1 w2 a1 a2 b1 b2 : moved s s1 w1 a1 b1 -> moved s1 s2 w2 a2 b2 ->
  moved s s2 (w1 ++ w2) (a1 ++ a2) (b1 ++ b2).
Proof.
  intros [F1 I1 D1 O1 S1 R1] [F2 I2 D2 O2 S2 R2]. split; [congruence..| | |].
  - by rewrite O2, O1, app_assoc.
  - by rewrite S2, S1, app_assoc.
  - by rewrite R2, R1, app_assoc.
Qed.

Lemma moved_h s s' h w a b : moved s s' w a b -> moved s (set_h s' h) w a b.
Proof. by intros []. Qed.

Lemma moved_perm s s' w a a' b : a ≡ₚ a' -> moved s s' w a b -> moved s s' w a' b.
Proof. intros P [F I D O S R]. split; auto. by rewrite <- P. Qed.

Lemma moved_out s w : moved s (set_out s (s.(s_out) ++ w)) w [] [].
Proof. split; cbn; by rewrite ?app_nil_r. Qed.

Lemma moved_same s s' : s'.(s_remoteFW) = s.(s_remoteFW) -> s'.(s_remoteSID) = s.(s_remoteSID) -> Done s' = Done s ->
  s'.(s_out) = s.(s_out) -> s'.(s_stats) = s.(s_stats) -> moved s s' [] [] [].
Proof. intros F I D O S. split; rewrite ?app_nil_r; try congruence. by rewrite S. Qed.
End moved.

(** Robust mode is none of it. *)
Lemma robust_again_same {M} n (s : session M) : (robust_again n s).(s_h) = s.(s_h) /\
  (robust_again n s).(s_remoteNoMsgs) = s.(s_remoteNoMsgs) /\ forall x, set_rd (robust_again n s) x = robust_again n (set_rd s x).
Proof.
  unfold robust_again. cbn [s_mode s_robust set_rd]. by destruct (bool_decide _), (s_robust s).
Qed.

Lemma moved_robust {M} n (s s' : session M) w a b : moved s s' w a b -> moved s (robust_again n s') w a b.
Proof.
  intros Hm. rewrite <- (app_nil_r w), <- (app_nil_r a), <- (app_nil_r b). apply (moved_trans _ _ _ _ _ _ _ _ _ Hm).
  unfold robust_again. destruct (bool_decide _), (s_robust s'); by apply moved_same.
Qed.

(** Reporting messages. *)
Lemma moved_report {M} (s s' : session M) w a b h x : moved s s' w a b ->
  moved s (set_stats (set_h s' h) (mkStats s'.(s_stats).(Received) (s'.(s_stats).(Sent) ++ x))) w (a ++ x) b.
Proof. intros [F I D O S R]. split; auto. cbn [s_stats set_stats Sent]. by rewrite S, app_assoc. Qed.

Lemma moved_code {M} (E : Environment) (s s' : session M) w a b : moved s s' w a b -> highestPropCode s' = highestPropCode s.
Proof. intros Hm. unfold highestPropCode. by rewrite (mv_sid _ _ _ _ _ Hm). Qed.

(** ** Settling a block *)
Section settling.
Context {M : Type} `{MBoxHandler M}.
Implicit Types s : session M.

Lemma report_state l s h : s.(s_h) = Some h ->
  report l s = Ok (inr (), set_stats (set_h s (Some (foldl (fun h x => SetSent x.1 x.2 h) h l)))
    (mkStats s.(s_stats).(Received) (s.(s_stats).(Sent) ++ (filter (fun x => x.2 = false) l).*1))).
Proof.
  revert s h. induction l as [|[mid rej] l IH]; intros s h Hh; cbn [report foldl].
  { cbn. rewrite app_nil_r, <- Hh. by destruct s as [? ? ? ? ? ? ? ? ? ? []]. }
  set (s1 := set_h s (Some (SetSent mid rej h))).
  rewrite (sess_bind_inr _ _ s () s1) by (unfold with_h; by rewrite Hh). rewrite filter_cons. destruct rej.
  - rewrite (sess_bind_inr _ _ s1 () s1) by done. rewrite decide_False by done. by rewrite (IH s1 (SetSent mid true h)).
  - set (s2 := set_stats s1 (mkStats s1.(s_stats).(Received) (s1.(s_stats).(Sent) ++ [mid]))).
    rewrite (sess_bind_inr _ _ s1 () s2) by done. rewrite decide_True by done. rewrite (IH s2 (SetSent mid false h)) by done.
    unfold s2, s1. cbn. by rewrite <- app_assoc.
Qed.

(** The answers being those of a function. *)
Lemma sent_after_list (f : proposal -> Z) props m : NoDup (p_mid <$> props) -> (forall p, p ∈ props -> m !! p.(p_mid) = None) ->
  map_to_list (sent_after props (f <$> props) m)
  ≡ₚ ((fun p => (p.(p_mid), true)) <$> filter (fun p => f p = Reject) props)
    ++ ((fun p => (p.(p_mid), false)) <$> filter (fun p => f p = Accept) props) ++ map_to_list m.
Proof.
  revert m. induction props as [|p props IH]; intros m Hn Hm; [done|]. cbn [fmap list_fmap sent_after] in *.
  apply NoDup_cons in Hn as [Hp Hn]. assert (Hm' : m !! p.(p_mid) = None) by (apply Hm; by left).
  assert (Hi : forall b q, q ∈ props -> (<[p.(p_mid) := b]> m) !! q.(p_mid) = None).
  { intros b q Hq. rewrite lookup_insert_ne; [apply Hm; by right|]. intros E. apply Hp. rewrite E. by apply list_elem_of_fmap_2. }
  rewrite !filter_cons. destruct (Z.eqb_spec (f p) Reject) as [Er|Er].
  - rewrite (decide_True (P := f p = Reject)), decide_False by (done || by rewrite Er).
    rewrite IH by auto. rewrite map_to_list_insert by done. cbn [fmap list_fmap app].
    rewrite <- !Permutation_middle. done.
  - rewrite (decide_False (P := f p = Reject)) by done. destruct (Z.eqb_spec (f p) Accept) as [Ea|Ea].
    + rewrite decide_True by done. rewrite IH by auto. rewrite map_to_list_insert by done. cbn [fmap list_fmap app].
      rewrite <- !Permutation_middle. done.
    + rewrite decide_False by done. apply IH; [done|]. intros. apply Hm. by right.
Qed.

Lemma deferred_after_fold (f : proposal -> Z) props (h : M) :
  deferred_after props (f <$> props) h = foldl (fun h p => SetDeferred p.(p_mid) h) h (filter (fun p => f p = Defer) props).
Proof.
  revert h. induction props as [|p props IH]; intros h; [done|]. cbn [fmap list_fmap deferred_after]. rewrite filter_cons.
  destruct (Z.eqb_spec (f p) Defer); [rewrite decide_True by done|rewrite decide_False by done]; apply IH.
Qed.
End settling.

Lemma map_filter_list {A} (P : gostr * A -> Prop) `{forall x, Decision (P x)} (m : gmap gostr A) :
  map_to_list (filter P m) ≡ₚ filter P (map_to_list m).
Proof.
  rewrite map_filter_alt. apply map_to_list_to_map. eapply sublist_NoDup; [apply (NoDup_fst_map_to_list m)|].
  apply fmap_sublist, sublist_filter.
Qed.

(** ** The proposals of a mailbox *)
Section proposals.
Context `{Charset} `{Clock} `{Gzip} (dfuel : nat) (ks : nat -> Z).
Context (Hks : forall i, 0 < ks i) (Hfuel : 3867 < Z.of_nat dfuel).

(** The proposal of a message. *)
Definition proposal_of (m : message) : proposal :=
  match msg_Proposal m Wl2kProposal with Ok (inr p) => p | _ => newProposal end.

Lemma proposal_of_ok m : outgoing m ->
  msg_Proposal m Wl2kProposal = Ok (inr (proposal_of m)) /\ p_mid (proposal_of m) = MID m /\
  carries dfuel ks (proposal_of m) (received_as m).
Proof using Hks Hfuel.
  intros Hm. destruct (outgoing_carried dfuel ks m Hm Hks Hfuel) as (p & Ep & Hp & Hc). unfold proposal_of. rewrite Ep.
  by split.
Qed.
#[local] Opaque proposal_of.

Lemma mids_of msgs : Forall outgoing msgs -> p_mid <$> (proposal_of <$> msgs) = MID <$> msgs.
Proof using Hks Hfuel.
  induction 1 as [|m msgs Hm _ IH]; [done|]. cbn [fmap list_fmap]. cbn [fmap] in IH. rewrite IH.
  by rewrite (proj1 (proj2 (proposal_of_ok m Hm))).
Qed.

Lemma carried msgs : Forall outgoing msgs -> Forall2 (carries dfuel ks) (proposal_of <$> msgs) (received_as <$> msgs).
Proof using Hks Hfuel. induction 1 as [|m msgs Hm _ IH]; [constructor|]. cbn. constructor; [|exact IH]. by apply proposal_of_ok. Qed.

Context {M : Type} `{StationMailbox M}.

(** A mailbox whose messages can all be sent to a station. *)
Record offers (fw : list address) (h : M) : Prop := {
  of_inv : mb_inv h;
  of_out : Forall outgoing (GetOutbound fw h);
  of_mids : NoDup (MID <$> GetOutbound fw h) }.

Lemma offers_settled fw mids h h' : offers fw h -> settles mids h h' -> offers fw h'.
Proof.
  intros [Hi Ho Hn] [Hi' O _ _]. split; [done|..]; rewrite O; [by apply (Forall_filter_keep _ _)|].
  eapply sublist_NoDup; [exact Hn|]. apply fmap_sublist, sublist_filter.
Qed.

Lemma offers_took fw ms h h' : offers fw h -> takes_in ms h h' -> offers fw h'.
Proof. intros [Hi Ho Hn] [Hi' O _ _]. split; [done|..]; by rewrite O. Qed.

Lemma outbound_msgs (E : Environment) (s : session M) h : s.(s_h) = Some h -> highestPropCode s = Wl2kProposal ->
  offers s.(s_remoteFW) h -> exists msgs, msgs ≡ₚ GetOutbound s.(s_remoteFW) h /\ outbound s = Ok (proposal_of <$> msgs).
Proof using Hks Hfuel.
  intros Hh Hc Ho. unfold outbound. rewrite Hh, Hc. apply of_out in Ho. revert Ho. generalize (GetOutbound s.(s_remoteFW) h).
  intros msgs Hm. assert (prepare_all Wl2kProposal msgs = Ok (proposal_of <$> msgs)) as ->.
  { induction Hm as [|m msgs Hm _ IH]; [done|]. cbn [prepare_all]. rewrite (og_valid m Hm), (proj1 (proposal_of_ok m Hm)), bind_Ok, IH.
    done. }
  rewrite bind_Ok. assert (P : sortProposals (proposal_of <$> msgs) ≡ₚ proposal_of <$> msgs) by (unfold sortProposals; by rewrite !sort_by_perm).
  apply (Permutation_map_inv proposal_of) in P as (l & E1 & P). exists l. split; [by symmetry|]. unfold mret, res_ret. by rewrite E1.
Qed.
End proposals.

(** ** The sender's part of a turn *)

(** The calls that settle a message. *)
Definition op_mid (x : gostr + gostr * bool) : gostr := match x with inl mid => mid | inr y => y.1 end.
Definition op_do {M} `{MBoxHandler M} (x : gostr + gostr * bool) : M -> M :=
  match x with inl mid => SetDeferred mid | inr y => SetSent y.1 y.2 end.

Lemma settle_ops {M} `{StationMailbox M} fw ops (h : M) : mb_inv h -> NoDup (op_mid <$> ops) ->
  op_mid <$> ops ⊆ MID <$> GetOutbound fw h -> settles (op_mid <$> ops) h (foldl (fun h x => op_do x h) h ops).
Proof.
  intros Hi Hn Hs. apply (settle_all op_mid op_do fw); auto. intros [mid|y] h' _; [apply mb_SetDeferred|apply mb_SetSent].
Qed.

Lemma by_answer (f : proposal -> Z) props : (forall p, answered (f p)) ->
  filter (fun p => f p = Defer) props ++ filter (fun p => f p = Reject) props ++ filter (fun p => f p = Accept) props ≡ₚ props.
Proof.
  intros Ha. induction props as [|p props IH]; [done|]. rewrite !filter_cons. destruct (Ha p) as [E|[E|E]]; rewrite E.
  - rewrite 2!decide_False, decide_True by done. rewrite <- !Permutation_middle. by rewrite IH.
  - rewrite decide_False, decide_True, decide_False by done. cbn [app]. rewrite <- Permutation_middle. by rewrite IH.
  - rewrite decide_True, 2!decide_False by done. cbn [app]. by rewrite IH.
Qed.

(** The lists that are reported. *)
Lemma reported `{MapOrder} (f : proposal -> Z) props : NoDup (p_mid <$> props) ->
  let sent := sent_after props (f <$> props) ∅ in
  filter (fun x => x.2 = true) (range sent) ≡ₚ (fun p => (p.(p_mid), true)) <$> filter (fun p => f p = Reject) props /\
  range (filter (fun x => x.2 = false) sent) ≡ₚ (fun p => (p.(p_mid), false)) <$> filter (fun p => f p = Accept) props.
Proof.
  intros Hn sent. pose proof (sent_after_list f props ∅ Hn (fun p _ => lookup_empty _)) as P. fold sent in P.
  rewrite map_to_list_empty, app_nil_r in P.
  assert (F : forall (b : bool) (l : list proposal), filter (fun x : gostr * bool => x.2 = b) ((fun p => (p.(p_mid), b)) <$> l) = (fun p => (p.(p_mid), b)) <$> l).
  { intros b l. apply filter_every. intros x Hx. by apply list_elem_of_fmap in Hx as (p & -> & _). }
  assert (G : forall (b : bool) (l : list proposal), filter (fun x : gostr * bool => x.2 = b) ((fun p => (p.(p_mid), negb b)) <$> l) = []).
  { intros b l. induction l as [|p l IH]; [done|]. cbn [fmap list_fmap]. cbn [fmap] in IH. rewrite filter_cons, decide_False, IH; by destruct b. }
  split.
  - rewrite (range_perm sent), P, filter_app, F. by rewrite (G true), app_nil_r.
  - rewrite range_perm, map_filter_list, P, filter_app, F. by rewrite (G false).
Qed.

#[local] Opaque proposal_of.

Section sender.
Context `{Charset} `{Clock} `{Gzip} (dfuel : nat) (ks : nat -> Z).
Context (Hks : forall i, 0 < ks i) (Hfuel : 3867 < Z.of_nat dfuel).
Context (E : Environment) `{MapOrder} {M : Type} `{StationMailbox M}.
Implicit Types (s : session M) (h : M).

(** The loop once a block has been settled. *)
Lemma after_block s rest sent s1 s2 s3 all out2 l1 :
  let s0 := set_rd s rest in
  outbound s0 = Ok all -> all <> [] -> sendOutbound s0 = Ok (inr sent, s1) ->
  filter (fun x => x.2 = true) (range sent) = l1 -> report l1 s1 = Ok (inr (), s2) ->
  outbound s2 = Ok out2 -> report (range (filter (fun x => x.2 = false) sent)) s2 = Ok (inr (), s3) ->
  (filter (fun x => x.2 = false) sent = ∅ -> s3 = s2 /\ forall k, handleOutbound_loop (S (S k)) s0 = handleOutbound_loop (S k) s2) /\
  (filter (fun x => x.2 = false) sent <> ∅ -> HasPrefix s2.(s_rd) (str "F") = true ->
   forall k, handleOutbound_loop (S k) s0 = Ok (inr false, s3)).
Proof.
  intros s0 Eo Hne Es El Er Eo2 Er2.
  assert (Ho : forall s l, outbound s = Ok l -> sess_outbound s = Ok (inr l, s)) by (intros ? ? E0; unfold sess_outbound, lift; by rewrite E0).
  split.
  - intros Em. rewrite Em, range_empty in Er2. injection Er2 as <-. split; [done|]. intros k.
    remember (S k) as k1 eqn:Ek. cbn [handleOutbound_loop]. rewrite (sess_bind_inr _ _ s0 all s0) by auto.
    destruct all as [|p all]; [done|]. rewrite (sess_bind_inr _ _ s0 sent s1) by done. rewrite El.
    rewrite (sess_bind_inr _ _ s1 () s2) by done. rewrite Em. rewrite (sess_bind_inr _ _ s2 out2 s2) by auto.
    rewrite (sess_bind_inr _ _ s2 s2.(s_remoteNoMsgs) s2) by done. rewrite bool_decide_eq_true_2 by done.
    destruct out2 as [|q out2]; [|done]. rewrite bool_decide_eq_true_2 by done. cbn [negb andb].
    subst k1. cbn [handleOutbound_loop]. rewrite (sess_bind_inr _ _ s2 [] s2) by auto.
    rewrite (sess_bind_inr _ _ s2 ∅ s2) by done. rewrite range_empty. cbn [filter list_filter report].
    rewrite (sess_bind_inr _ _ s2 () s2) by done. rewrite map_filter_empty. rewrite (sess_bind_inr _ _ s2 [] s2) by auto.
    rewrite (sess_bind_inr _ _ s2 s2.(s_remoteNoMsgs) s2) by done. rewrite bool_decide_eq_true_2 by done.
    rewrite (bool_decide_eq_true_2 (@nil proposal = [])) by done. by rewrite range_empty.
  - intros Em Hp k. cbn [handleOutbound_loop]. rewrite (sess_bind_inr _ _ s0 all s0) by auto.
    destruct all as [|p all]; [done|]. rewrite (sess_bind_inr _ _ s0 sent s1) by done. rewrite El.
    rewrite (sess_bind_inr _ _ s1 () s2) by done. rewrite (sess_bind_inr _ _ s2 out2 s2) by auto.
    rewrite (sess_bind_inr _ _ s2 s2.(s_remoteNoMsgs) s2) by done. rewrite bool_decide_eq_false_2 by done. cbn [andb].
    rewrite (sess_bind_inr _ _ s2 () s2) by done.
    destruct (s_rd s2) as [|c rd] eqn:Erd; [done|]. assert (c = 70) as -> by (apply bool_decide_eq_true in Hp; by injection Hp).
    rewrite (sess_bind_inr _ _ s2 70 s2) by (unfold peek; by rewrite Erd). cbn [Z.eqb Pos.eqb negb andb].
    by rewrite (sess_bind_inr _ _ s2 () s3).
Qed.

Lemma chosen_block (f : proposal -> Z) block :
  let props := proposal_of <$> block in
  chosen props (f <$> props) = proposal_of <$> filter (fun m => f (proposal_of m) = Accept) block.
Proof.
  intros props. assert (f <$> props = (fun m => f (proposal_of m)) <$> block) as -> by exact (eq_sym (list_fmap_compose proposal_of f block)).
  unfold props. by rewrite chosen_fmap, (chosen_filter (fun m => f (proposal_of m))).
Qed.

(** The mailbox after a block answered by [f]: first the deferred messages, then
    the rejected and the accepted ones are settled. *)
Lemma settle_block (f : proposal -> Z) fw h block :
  offers fw h -> Forall outgoing block -> NoDup (MID <$> block) -> MID <$> block ⊆ MID <$> GetOutbound fw h ->
  (forall p, answered (f p)) ->
  let props := proposal_of <$> block in
  let sent := sent_after props (f <$> props) ∅ in
  let rej := filter (fun x => x.2 = true) (range sent) in
  let acc := range (filter (fun x => x.2 = false) sent) in
  let set_sent := foldl (fun h x => SetSent x.1 x.2 h) in
  let h2 := set_sent (deferred_after props (f <$> props) h) rej in
  offers fw h2 /\ settles (MID <$> block) h (set_sent h2 acc) /\
  filter (fun x => x.2 = false) rej = [] /\ filter (fun x => x.2 = false) acc = acc /\
  acc.*1 ≡ₚ MID <$> filter (fun m => f (proposal_of m) = Accept) block.
Proof using Hks Hfuel.
  intros Ho Hb Hn Hin Ha props sent rej acc set_sent h2.
  assert (Em : p_mid <$> props = MID <$> block) by (by apply (mids_of dfuel ks)).
  assert (Hn' : NoDup (p_mid <$> props)) by (by rewrite Em). destruct (reported f props Hn') as [Pr Pa].
  fold sent in Pr, Pa. fold rej in Pr. fold acc in Pa.
  set (defs := p_mid <$> filter (fun p => f p = Defer) props).
  set (op := fun x : gostr * bool => inr x : gostr + gostr * bool).
  assert (Ef : forall l h, set_sent h l = foldl (fun h x => op_do x h) h (op <$> l)) by (intros; by rewrite foldl_map).
  assert (Ed : deferred_after props (f <$> props) h = foldl (fun h x => op_do x h) h (inl <$> defs)).
  { rewrite deferred_after_fold. unfold defs. by rewrite !foldl_map. }
  assert (Eop : forall l, op_mid <$> (op <$> l) = l.*1) by (intros; by rewrite <- list_fmap_compose).
  assert (Edm : op_mid <$> (inl <$> defs) = defs) by (rewrite <- list_fmap_compose; apply list_fmap_id).
  assert (Pall : op_mid <$> (inl <$> defs) ++ (op <$> rej) ++ (op <$> acc) ≡ₚ MID <$> block).
  { rewrite !fmap_app, Edm, !Eop, Pr, Pa, <- !list_fmap_compose, <- Em. 
    etrans; [|exact (Permutation_map p_mid (by_answer f props Ha))]. change @map with (fun A B => @fmap list _ A B). cbv beta. by rewrite !fmap_app. }
  assert (Hsub : NoDup (op_mid <$> (inl <$> defs) ++ (op <$> rej) ++ (op <$> acc)) /\
    op_mid <$> (inl <$> defs) ++ (op <$> rej) ++ (op <$> acc) ⊆ MID <$> GetOutbound fw h) by (by rewrite Pall).
  destruct Hsub as [Hd Hs]. split_and!.
  - apply (offers_settled fw (op_mid <$> (inl <$> defs) ++ (op <$> rej)) h); [done|]. unfold h2. rewrite Ef, Ed, <- foldl_app.
    rewrite app_assoc, fmap_app in Hd, Hs. apply (settle_ops fw); [apply Ho|by apply NoDup_app in Hd as [Hd _]|].
    intros i Hi. apply Hs, elem_of_app. by left.
  - apply (settles_perm _ _ _ _ Pall). unfold h2. rewrite !Ef, Ed, <- !foldl_app. by apply (settle_ops fw); [apply Ho|..].
  - unfold rej. rewrite list_filter_filter. clear. induction (range sent) as [|x l IH]; [done|].
    rewrite filter_cons, decide_False; [done|]. intros [? ?]. congruence.
  - apply filter_every. intros x Hx. rewrite Pa in Hx. by apply list_elem_of_fmap in Hx as (p & -> & _).
  - rewrite Pa, <- list_fmap_compose. change (fst ∘ _) with p_mid. rewrite <- (chosen_filter f). unfold props.
    rewrite chosen_block, (mids_of dfuel ks Hks Hfuel); [done|]. by apply Forall_filter_keep.
Qed.

(** The block is part of what is offered. *)
Lemma first_block fw h msgs : offers fw h -> msgs ≡ₚ GetOutbound fw h ->
  let block := take 5 msgs in
  Forall outgoing block /\ NoDup (MID <$> block) /\ block ⊆ GetOutbound fw h /\ MID <$> block ⊆ MID <$> GetOutbound fw h /\
  filter (fun m => MID m ∈ MID <$> block) (GetOutbound fw h) ≡ₚ block.
Proof.
  intros [_ Ho Hn] P block. assert (Hin : block ⊆ GetOutbound fw h).
  { intros m Hm. rewrite <- P, <- (take_drop 5 msgs). apply elem_of_app. by left. }
  rewrite <- P in Ho, Hn. split_and!; [by apply Forall_take| |done| |].
  - eapply sublist_NoDup; [exact Hn|]. apply fmap_sublist, sublist_take.
  - intros i Hi. apply list_elem_of_fmap in Hi as (m & -> & Hm). by apply list_elem_of_fmap_2, Hin.
  - rewrite <- P. rewrite <- (take_drop 5 msgs) in Hn |- * at 1. fold block in Hn |- *. by rewrite filter_prefix.
Qed.

(** One block of a mailbox with messages, answered by [f]. *)
Lemma send_round s h msgs f :
  s.(s_h) = Some h -> highestPropCode s = Wl2kProposal -> offers s.(s_remoteFW) h ->
  msgs ≡ₚ GetOutbound s.(s_remoteFW) h -> outbound s = Ok (proposal_of <$> msgs) -> (forall p, answered (f p)) -> msgs <> [] ->
  let block := take 5 msgs in
  let props := proposal_of <$> block in
  let D := filter (fun m => f (proposal_of m) = Accept) block in
  exists s' h', s'.(s_h) = Some h' /\ settles (MID <$> block) h h' /\
    moved s s' (proposal_block props ++ concat (written <$> chosen props (f <$> props))) (MID <$> D) [] /\
    s'.(s_remoteNoMsgs) = s.(s_remoteNoMsgs) /\
    forall rest, let s0 := set_rd s (str "FS " ++ (f <$> props) ++ 13 :: rest) in
      (D = [] -> forall k, handleOutbound_loop (S (S k)) s0 = handleOutbound_loop (S k) (set_rd s' rest)) /\
      (D <> [] -> HasPrefix rest (str "F") = true -> forall k, handleOutbound_loop (S k) s0 = Ok (inr false, set_rd s' rest)).
Proof using Hks Hfuel.
  intros Hh Hc Ho P Eo Ha Hne block props D.
  destruct (first_block s.(s_remoteFW) h msgs Ho P) as (Hb & Hn & _ & Hin & _). fold block in Hb, Hn, Hin.
  destruct (settle_block f s.(s_remoteFW) h block Ho Hb Hn Hin Ha) as (Ho2 & Hst & Fr & Fa & Pa). fold props in Ho2, Hst, Fr, Fa, Pa. fold D in Pa.
  set (sent := sent_after props (f <$> props) ∅) in *. set (rej := filter _ (range sent)) in *. set (acc := range (filter _ sent)) in *.
  set (h1 := deferred_after props (f <$> props) h) in *. set (h2 := foldl _ h1 rej) in *. set (h3 := foldl _ h2 acc) in *.
  set (w := proposal_block props ++ _).
  set (n1 := zlen (s.(s_out) ++ proposal_block props)).
  set (s1 := robust_again n1 (set_h (set_out s (s.(s_out) ++ w)) (Some h1))).
  set (s2 := set_stats (set_h s1 (Some h2)) (mkStats s1.(s_stats).(Received) (s1.(s_stats).(Sent) ++ (filter (fun x => x.2 = false) rej).*1))).
  set (s3 := set_stats (set_h s2 (Some h3)) (mkStats s2.(s_stats).(Received) (s2.(s_stats).(Sent) ++ (filter (fun x => x.2 = false) acc).*1))).
  destruct (robust_again_same n1 (set_h (set_out s (s.(s_out) ++ w)) (Some h1))) as (Hr & Nr & Sr). fold s1 in Hr, Nr, Sr.
  assert (Ed : D = [] <-> filter (fun x : gostr * bool => x.2 = false) sent = ∅).
  { split; intros E0.
    - apply map_to_list_empty_iff, Permutation_nil_r. etrans; [symmetry; apply range_perm|]. fold acc. rewrite E0 in Pa.
      apply Permutation_nil_r, fmap_nil_inv in Pa. by rewrite Pa.
    - unfold acc in Pa. rewrite E0, range_empty in Pa. cbn [fmap list_fmap] in Pa.
      destruct D; [done|]. by apply Permutation_nil_cons in Pa. }
  assert (Mv : moved s s2 w ([] ++ (filter (fun x => x.2 = false) rej).*1) []) by apply moved_report, moved_robust, moved_h, moved_out.
  exists s3, h3. split; [done|]. split; [done|]. split; [|split; [exact Nr|]].
  - eapply moved_perm; [|exact (moved_report _ _ _ _ _ _ _ Mv)]. by rewrite Fr, Fa, Pa.
  - intros rest s0. destruct (outbound_msgs dfuel ks Hks Hfuel E (set_rd s2 rest) h2) as (msgs2 & _ & Eo2).
    + done.
    + rewrite <- Hc. exact (moved_code E _ _ _ _ _ Mv).
    + change (s_remoteFW (set_rd s2 rest)) with (s_remoteFW s2). by rewrite (mv_fw _ _ _ _ _ Mv).
    + destruct (after_block s (str "FS " ++ (f <$> props) ++ 13 :: rest) sent (set_rd s1 rest) (set_rd s2 rest) (set_rd s3 rest)
        (proposal_of <$> msgs) (proposal_of <$> msgs2) rej) as [A B].
      * exact Eo.
      * by destruct msgs.
      * assert (Et : take 5 (proposal_of <$> msgs) = props) by (symmetry; apply fmap_take).
        rewrite Sr. unfold sent, w, h1, n1. rewrite <- Et.
        refine (sendOutbound_ok E s h (proposal_of <$> msgs) (f <$> take 5 (proposal_of <$> msgs)) rest Hh Eo _ _ _ _); rewrite Et.
        -- clear -Hb Hks Hfuel. apply (carried dfuel ks Hks Hfuel) in Hb. fold props in Hb.
           induction Hb as [|p m l k (_ & Ht & _) _ IH]; by constructor.
        -- apply Forall_fmap, Forall_forall. intros p _. apply Ha.
        -- apply length_fmap.
        -- by destruct msgs.
      * done.
      * exact (report_state rej (set_rd s1 rest) h1 Hr).
      * exact Eo2.
      * exact (report_state acc (set_rd s2 rest) h2 eq_refl).
      * rewrite Ed. split; [intros E0|exact B]. destruct (A E0) as [E3 E4]. intros k. rewrite E3. apply E4.
Qed.

(** Nothing to send: the session is over if the remote has nothing either. *)
Lemma send_nothing s k : outbound s = Ok [] ->
  (s.(s_remoteNoMsgs) = true -> handleOutbound_loop (S k) s = Ok (inr true, set_out s (s.(s_out) ++ str "FQ" ++ [13]))) /\
  (s.(s_remoteNoMsgs) = false -> HasPrefix s.(s_rd) (str "F") = true ->
   handleOutbound_loop (S k) s = Ok (inr false, set_out s (s.(s_out) ++ str "FF" ++ [13]))).
Proof.
  intros Eo. assert (Ho : sess_outbound s = Ok (inr [], s)) by (unfold sess_outbound, lift; by rewrite Eo).
  cbn [handleOutbound_loop]. rewrite (sess_bind_inr _ _ s [] s) by done. rewrite (sess_bind_inr _ _ s ∅ s) by done.
  assert (Er : report (filter (fun x : gostr * bool => x.2 = true) (range ∅)) s = Ok (inr (), s)) by (by rewrite range_empty).
  rewrite (sess_bind_inr _ _ s () s) by done. rewrite map_filter_empty.
  rewrite (sess_bind_inr _ _ s [] s) by done. rewrite (sess_bind_inr _ _ s s.(s_remoteNoMsgs) s) by done.
  rewrite bool_decide_eq_true_2 by done. rewrite (bool_decide_eq_true_2 (@nil proposal = [])) by done. cbn [negb andb].
  split; intros En; rewrite En; [done|]. intros Hp. set (s1 := set_out s _). rewrite (sess_bind_inr _ _ s () s1) by done.
  destruct (s_rd s) as [|c rd] eqn:Erd; [done|]. assert (c = 70) as -> by (apply bool_decide_eq_true in Hp; by injection Hp).
  rewrite (sess_bind_inr _ _ s1 70 s1) by (unfold peek, s1; cbn [s_rd set_out]; by rewrite Erd). cbn [Z.eqb Pos.eqb negb andb].
  rewrite range_empty. by rewrite (sess_bind_inr _ _ s1 () s1).
Qed.
End sender.

(** ** The receiver's part of a turn *)
Section receiver.
Context `{Charset} `{Clock} `{Gzip} (dfuel : nat) (ks : nat -> Z).
Context (Hks : forall i, 0 < ks i) (Hfuel : 3867 < Z.of_nat dfuel).
Context {N : Type} `{StationMailbox N}.
Implicit Types (r : session N) (hr : N).

(** The answer to the proposal of a message. *)
Definition verdict hr (p : proposal) : Z := GetInboundAnswer (announced p) hr.

Lemma answers_verdicts hr props : NoDup (p_mid <$> props) -> Forall sendable props ->
  answers hr props = verdict hr <$> props.
Proof.
  intros Hn Hs. unfold answers. assert (G : forall seen, (forall p, p ∈ props -> p.(p_mid) ∉ seen) ->
    p_answer <$> (answer_proposals (Some hr) seen (announced <$> props)).1 = verdict hr <$> props); [|by apply G].
  induction Hs as [|p props Hp _ IH]; intros seen Hd; [done|]. rewrite fmap_cons in Hn. apply NoDup_cons in Hn as [Hnp Hn].
  rewrite !fmap_cons. cbn [answer_proposals]. change (p_mid (announced p)) with p.(p_mid). change (p_code (announced p)) with p.(p_code).
  specialize (IH Hn ({[p.(p_mid)]} ∪ seen)). destruct (answer_proposals _ _ (announced <$> props)) as [l n]. cbn [fst] in *.
  rewrite fmap_cons, IH; cbn [p_answer set_answer].
  - f_equal. rewrite bool_decide_eq_false_2 by (apply Hd; by left). by destruct (sb_code p Hp) as [-> | ->].
  - intros q Hq. rewrite elem_of_union, elem_of_singleton. intros [E|Hin]; [|exact (Hd q ltac:(by right) Hin)].
    apply Hnp. rewrite <- E. by apply list_elem_of_fmap_2.
Qed.

(** The commands that end a turn without messages. *)
Lemma recv_end r c (q : bool) rest k : (c = 70 /\ q = false) \/ (c = 81 /\ q = true) ->
  handleInbound_loop dfuel ks (S k) 0 [] (set_rd r ([70; c; 13] ++ rest)) = Ok (inr q, set_noMsgs (set_rd r rest) true).
Proof.
  intros Hc. cbn [handleInbound_loop]. set (r0 := set_rd r _).
  rewrite (sess_bind_inr _ _ r0 [70; c] (set_rd r rest)).
  2:{ apply (next_line true r0 [70; c] rest eq_refl); [|by right]. apply (tidy_line 70 [] c); [done| |by apply not_elem_of_nil].
      by destruct Hc as [[-> _]|[-> _]]. }
  by destruct Hc as [[-> ->]|[-> ->]].
Qed.

Lemma moved_received r r1 ms mids w : moved r r1 w [] [] -> moved r (received r1 ms mids) w [] mids.
Proof. intros [F I D O S R]. split; auto. cbn [received s_stats set_stats Received]. by rewrite R, app_nil_r. Qed.

(** A block of messages, all of them or some or none taken. *)
Lemma recv_round r hr block :
  r.(s_h) = Some hr -> mb_inv hr -> Forall outgoing block -> NoDup (MID <$> block) ->
  Forall (fun m => mb_storable (received_as m)) block -> block <> [] ->
  let props := proposal_of <$> block in
  let ans := verdict hr <$> props in
  let D := filter (fun m => verdict hr (proposal_of m) = Accept) block in
  exists r' hr', r'.(s_h) = Some hr' /\ takes_in (received_as <$> D) hr hr' /\
    moved r r' (str "FS " ++ ans ++ [13]) [] (MID <$> D) /\
    (D = [] -> r'.(s_remoteNoMsgs) = r.(s_remoteNoMsgs)) /\ (D <> [] -> r'.(s_remoteNoMsgs) = false) /\
    forall rest n, let r0 := set_rd r (proposal_block props ++ concat (written <$> chosen props ans) ++ rest) in
      (length r0.(s_rd) < n)%nat ->
      (D = [] -> exists k, (length rest < k)%nat /\ handleInbound_loop dfuel ks n 0 [] r0 = handleInbound_loop dfuel ks k 0 [] (set_rd r' rest)) /\
      (D <> [] -> handleInbound_loop dfuel ks n 0 [] r0 = Ok (inr false, set_rd r' rest)).
Proof using Hks Hfuel.
  intros Hh Hi Hb Hn Hst Hne props ans D. pose proof (carried dfuel ks Hks Hfuel block Hb) as Hc. fold props in Hc.
  assert (Hs : Forall sendable props) by (clear -Hc; induction Hc as [|p m ps ms (Hs & _ & _) _ IH]; by constructor).
  assert (Em : p_mid <$> props = MID <$> block) by (by apply (mids_of dfuel ks)).
  assert (Ea : answers hr props = ans) by (apply answers_verdicts; [rewrite Em|]; done).
  assert (Had : Forall answered (answers hr props)) by exact (answers_answered hr props (fun p => mb_answered p hr)).
  assert (Ec : chosen props ans = proposal_of <$> D) by exact (chosen_block (verdict hr) block).
  set (r1 := set_out r (r.(s_out) ++ str "FS " ++ ans ++ [13])).
  assert (Hpn : props <> []) by (by destruct block).
  destruct D as [|m D'] eqn:ED.
  - exists r1, hr. split; [done|]. split; [by apply takes_in_nil|]. split; [apply moved_out|]. split; [done|]. split; [done|].
    rewrite Ec. intros rest n r0 Hl. split; [|done]. intros _.
    destruct (in_answered dfuel ks n r hr props rest Hh Hs Hpn Had Hl) as (k & Hk & Ek). exists k. split; [done|].
    refine (eq_trans Ek _). by rewrite Ea, Ec.
  - rewrite <- ED in *. assert (HD : D <> []) by (by rewrite ED). clear ED.
    assert (Hms : chosen (received_as <$> block) ans = received_as <$> D).
    { assert (ans = (fun m => verdict hr (proposal_of m)) <$> block) as -> by exact (eq_sym (list_fmap_compose proposal_of (verdict hr) block)).
      by rewrite chosen_fmap, (chosen_filter (fun m => verdict hr (proposal_of m))). }
    destruct (takes_all (received_as <$> D) hr Hi) as [Ht Ht2]; [apply Forall_fmap; by apply Forall_filter_keep|].
    exists (received (set_noMsgs r1 false) (received_as <$> D) (MID <$> D)), (foldl (fun h m => (ProcessInbound m h).2) hr (received_as <$> D)).
    split; [unfold received; cbn [s_h set_stats set_h set_noMsgs r1 set_out]; by rewrite Hh|]. split; [done|].
    split; [apply moved_received; by destruct (moved_out r (str "FS " ++ ans ++ [13]))|]. split; [done|]. split; [done|].
    rewrite Ec. intros rest n r0 Hl. split; [done|]. intros _.
    pose proof (inbound_loop_ok dfuel ks n r hr props (received_as <$> block) rest Hh Hc Had) as L. cbv zeta in L.
    rewrite Ea, Hms, Ec, (mids_of dfuel ks Hks Hfuel) in L by (by apply Forall_filter_keep).
    refine (L _ Ht Hl). by destruct D.
Qed.
End receiver.

(** ** A turn of both sides *)
Section turn.
Context `{Charset} `{Clock} `{Gzip} (dfuel : nat) (ks : nat -> Z).
Context (Hks : forall i, 0 < ks i) (Hfuel : 3867 < Z.of_nat dfuel).

(** The messages a mailbox wants. *)
Definition wanted {N} `{MBoxHandler N} (hr : N) (ms : list message) : list message :=
  filter (fun m => verdict hr (proposal_of m) = Accept) ms.

#[global] Instance wanted_perm {N} `{MBoxHandler N} (hr : N) : Proper ((≡ₚ) ==> (≡ₚ)) (wanted hr).
Proof. intros l l' P. unfold wanted. by rewrite P. Qed.

(** A proposal of a message the mailbox could store. *)
Lemma good_proposal {N} `{StationMailbox N} m : outgoing m -> mb_storable (received_as m) -> mb_good (announced (proposal_of m)).(p_mid).
Proof using Hks Hfuel.
  intros Ho Hm. change (p_mid (announced (proposal_of m))) with (p_mid (proposal_of m)).
  rewrite (proj1 (proj2 (proposal_of_ok dfuel ks Hks Hfuel m Ho))). exact (mb_storable_good _ Hm).
Qed.

Definition storable_by (N : Type) `{StationMailbox N} (m : message) : Prop := outgoing m /\ mb_storable (received_as m).

Lemma wanted_after {N} `{StationMailbox N} (hr hr' : N) (x y : list gostr) D ms : Forall (storable_by N) ms ->
  takes_in (received_as <$> D) hr hr' -> D ≡ₚ wanted hr (filter (fun m => MID m ∈ x) ms) ->
  D ++ wanted hr' (filter (fun m => MID m ∈ y) (filter (fun m => MID m ∉ x) ms)) ≡ₚ wanted hr (filter (fun m => MID m ∈ x ++ y) ms).
Proof using Hks Hfuel.
  intros Hm Ht P. rewrite <- (filter_split (fun m => MID m ∈ x) (filter (fun m => MID m ∈ x ++ y) ms)). unfold wanted.
  rewrite filter_app. apply Permutation_app.
  { rewrite P. unfold wanted. by rewrite (list_filter_filter_l (fun m => MID m ∈ x) (fun m => MID m ∈ x ++ y)) by (intros; apply elem_of_app; by left). }
  rewrite !list_filter_filter. match goal with |- ?l ≡ₚ ?r => enough (l = r) as -> by done end. apply filter_iff_in.
  intros m Hin. rewrite elem_of_app. apply (proj1 (Forall_forall _ _) Hm) in Hin as [Hog Hst].
  enough (MID m ∉ x -> verdict hr' (proposal_of m) = verdict hr (proposal_of m)) as Hv.
  { destruct (decide (MID m ∈ x)) as [Hx|Hx]; [tauto|]. rewrite (Hv Hx). tauto. }
  intros Hx. apply (tk_answer _ _ _ _ _ _ _ Ht); [by apply good_proposal|]. rewrite <- list_fmap_compose.
  change (p_mid (announced (proposal_of m))) with (p_mid (proposal_of m)).
  rewrite (proj1 (proj2 (proposal_of_ok dfuel ks Hks Hfuel m Hog))).
  intros Hd. apply list_elem_of_fmap in Hd as (m' & Em & Hd). rewrite P in Hd. unfold wanted in Hd.
  apply list_elem_of_filter in Hd as [_ Hd]. apply list_elem_of_filter in Hd as [Hd _].
  apply Hx. rewrite Em. exact Hd.
Qed.

(** A side of a session that goes on. *)
Record ready {M} `{StationMailbox M} (E : Environment) (storable : message -> Prop) (s : session M) (h : M) : Prop := {
  rd_h : s.(s_h) = Some h;
  rd_done : Done s = false;
  rd_code : highestPropCode s = Wl2kProposal;
  rd_offers : offers s.(s_remoteFW) h;
  rd_store : Forall storable (GetOutbound s.(s_remoteFW) h) }.

Lemma ready_settled {M} `{StationMailbox M} E st (s s' : session M) h h' x w a b : ready E st s h ->
  s'.(s_h) = Some h' -> moved s s' w a b -> settles x h h' -> ready E st s' h'.
Proof.
  intros [Hh Hd Hc Ho Hs] Hh' Hm Hx. split; [done|by rewrite (mv_done _ _ _ _ _ Hm)|by rewrite (moved_code _ _ _ _ _ _ Hm)|..];
    rewrite (mv_fw _ _ _ _ _ Hm); [by eapply offers_settled|]. rewrite (st_out _ _ _ _ _ _ Hx). by apply Forall_filter_keep.
Qed.

Lemma ready_took {M} `{StationMailbox M} E st (s s' : session M) h h' ms w a b : ready E st s h ->
  s'.(s_h) = Some h' -> moved s s' w a b -> takes_in ms h h' -> ready E st s' h'.
Proof.
  intros [Hh Hd Hc Ho Hs] Hh' Hm Hx. split; [done|by rewrite (mv_done _ _ _ _ _ Hm)|by rewrite (moved_code _ _ _ _ _ _ Hm)|..];
    rewrite (mv_fw _ _ _ _ _ Hm); [by eapply offers_took|]. by rewrite (tk_out _ _ _ _ _ _ _ Hx).
Qed.

Section pair.
Context (E1 : Environment) {O1 : MapOrder} {M : Type} `{StationMailbox M}.
Context {N : Type} `{StationMailbox N}.

(** What a turn comes to: the sender [a] writes [oa] and the receiver [b] writes
    [ob]; the messages [x] are settled, [D] of them delivered; [q] says whether
    it was the last turn. *)
Record turn_done (a a' : session M) (ha ha' : M) (b b' : session N) (hb hb' : N) (oa ob : gostr) (x : list gostr)
    (D : list message) (q : bool) : Prop := {
  td_oa : HasPrefix oa (str "F") = true;
  td_ha : a'.(s_h) = Some ha'; td_hb : b'.(s_h) = Some hb';
  td_a : moved a a' oa (MID <$> D) []; td_b : moved b b' ob [] (MID <$> D);
  td_settles : settles x ha ha'; td_takes : takes_in (received_as <$> D) hb hb';
  td_D : D ≡ₚ wanted hb (filter (fun m => MID m ∈ x) (GetOutbound a.(s_remoteFW) ha));
  td_end : (q = true /\ a.(s_remoteNoMsgs) = true /\ GetOutbound a.(s_remoteFW) ha' = []) \/
           (q = false /\ a.(s_remoteNoMsgs) = false /\ GetOutbound a.(s_remoteFW) ha' = [] /\ b'.(s_remoteNoMsgs) = true) \/
           (q = false /\ D <> [] /\ b'.(s_remoteNoMsgs) = false);
  td_sender : forall rest k, q = true \/ HasPrefix rest (str "F") = true -> (length (ob ++ rest) < k)%nat ->
    handleOutbound_loop k (set_rd a (ob ++ rest)) = Ok (inr q, set_rd a' rest);
  td_receiver : forall rest k, (length (oa ++ rest) < k)%nat ->
    handleInbound_loop dfuel ks k 0 [] (set_rd b (oa ++ rest)) = Ok (inr q, set_rd b' rest) }.

(** With nothing to send. *)
Lemma turn_nothing (a : session M) (b : session N) ha hb : ready E1 (storable_by N) a ha -> b.(s_h) = Some hb -> mb_inv hb ->
  GetOutbound a.(s_remoteFW) ha = [] ->
  let c := if a.(s_remoteNoMsgs) then 81 else 70 in
  turn_done a (set_out a (a.(s_out) ++ [70; c; 13])) ha ha b (set_noMsgs b true) hb hb [70; c; 13] [] [] [] a.(s_remoteNoMsgs).
Proof using Hks Hfuel.
  intros Ha Hb Hi He c. destruct (outbound_msgs dfuel ks Hks Hfuel E1 a ha (rd_h _ _ _ _ Ha) (rd_code _ _ _ _ Ha) (rd_offers _ _ _ _ Ha))
    as (msgs & P & Eo). rewrite He in P. apply Permutation_nil_r in P as ->.
  split; try done.
  - apply Ha.
  - apply moved_out.
  - by apply moved_same.
  - apply settles_nil, Ha.
  - by apply takes_in_nil.
  - by rewrite He.
  - destruct (s_remoteNoMsgs a); [by left|by right; left].
  - intros rest k Hr Hk. destruct k as [|k]; [lia|]. destruct (send_nothing E1 (set_rd a rest) k Eo) as [S1 S2].
    cbn [s_remoteNoMsgs set_rd s_rd] in S1, S2. unfold c. destruct (s_remoteNoMsgs a); [by apply S1|].
    apply S2; [done|]. by destruct Hr.
  - intros rest k Hk. destruct k as [|k]; [lia|]. apply recv_end. unfold c. destruct (s_remoteNoMsgs a); auto.
Qed.

(** What a block comes to, in the same terms. *)
Record block_done (a a' : session M) (ha ha' : M) (b b' : session N) (hb hb' : N) (oa ob : gostr) (block : list message) : Prop := {
  bd_oa : HasPrefix oa (str "F") = true; bd_ob : ob <> []; bd_block : block <> [] /\ block ⊆ GetOutbound a.(s_remoteFW) ha;
  bd_ha : a'.(s_h) = Some ha'; bd_hb : b'.(s_h) = Some hb';
  bd_a : moved a a' oa (MID <$> wanted hb block) []; bd_b : moved b b' ob [] (MID <$> wanted hb block);
  bd_settles : settles (MID <$> block) ha ha'; bd_takes : takes_in (received_as <$> wanted hb block) hb hb';
  bd_D : wanted hb block ≡ₚ wanted hb (filter (fun m => MID m ∈ MID <$> block) (GetOutbound a.(s_remoteFW) ha));
  bd_noMsgs : a'.(s_remoteNoMsgs) = a.(s_remoteNoMsgs) /\ (wanted hb block <> [] -> b'.(s_remoteNoMsgs) = false);
  bd_none : wanted hb block = [] -> forall rest,
    (forall k, handleOutbound_loop (S (S k)) (set_rd a (ob ++ rest)) = handleOutbound_loop (S k) (set_rd a' rest)) /\
    (forall n, (length (oa ++ rest) < n)%nat -> exists k, (length rest < k)%nat /\
       handleInbound_loop dfuel ks n 0 [] (set_rd b (oa ++ rest)) = handleInbound_loop dfuel ks k 0 [] (set_rd b' rest));
  bd_some : wanted hb block <> [] -> forall rest,
    (forall k, HasPrefix rest (str "F") = true -> handleOutbound_loop (S k) (set_rd a (ob ++ rest)) = Ok (inr false, set_rd a' rest)) /\
    (forall n, (length (oa ++ rest) < n)%nat ->
       handleInbound_loop dfuel ks n 0 [] (set_rd b (oa ++ rest)) = Ok (inr false, set_rd b' rest)) }.

Lemma block_F block x : block <> [] -> Forall outgoing block -> HasPrefix (proposal_block (proposal_of <$> block) ++ x) (str "F") = true.
Proof using Hks Hfuel.
  intros Hb Ho. destruct block as [|m block]; [done|]. apply Forall_cons_1 in Ho as [Hm _].
  destruct (proposal_of_ok dfuel ks Hks Hfuel m Hm) as (_ & _ & Hs & _). destruct (propLine_tidy _ Hs) as (_ & _ & l & El).
  unfold proposal_block. cbn [fmap list_fmap concat]. by rewrite El.
Qed.

Lemma turn_block (a : session M) (b : session N) ha hb : ready E1 (storable_by N) a ha -> b.(s_h) = Some hb -> mb_inv hb ->
  GetOutbound a.(s_remoteFW) ha <> [] ->
  exists block a' b' ha' hb' oa ob, block_done a a' ha ha' b b' hb hb' oa ob block.
Proof using Hks Hfuel.
  intros Ha Hb Hi He. pose proof Ha as [Ahh _ Ac Ao As].
  destruct (outbound_msgs dfuel ks Hks Hfuel E1 a ha Ahh Ac Ao) as (msgs & P & Eo).
  assert (Hne : msgs <> []) by (intros ->; by apply Permutation_nil in P).
  destruct (send_round dfuel ks Hks Hfuel E1 a ha msgs (verdict hb) Ahh Ac Ao P Eo (fun p => mb_answered _ hb) Hne)
    as (a' & ha' & Ha' & Hst & Ma & Na & Sa). set (block := take 5 msgs) in *. fold (wanted hb block) in Ma, Sa.
  destruct (first_block a.(s_remoteFW) ha msgs Ao P) as (Hb' & Hn & Hsub & _ & Hf). fold block in Hb', Hn, Hsub, Hf.
  assert (Hbn : block <> []) by (by destruct msgs).
  assert (Hst' : Forall (fun m => mb_storable (received_as m)) block).
  { apply Forall_forall. intros m Hm. by apply (proj1 (Forall_forall _ _) As m), Hsub. }
  destruct (recv_round dfuel ks Hks Hfuel b hb block Hb Hi Hb' Hn Hst' Hbn) as (b' & hb' & Hb1 & Ht & Mb & Nb1 & Nb2 & Rb).
  fold (wanted hb block) in Ht, Mb, Nb1, Nb2, Rb.
  eexists block, a', b', ha', hb', _, (str "FS " ++ (verdict hb <$> (proposal_of <$> block)) ++ [13]).
  split; try done.
  - by apply block_F.
  - by rewrite Hf.
  - intros E0 rest. split.
    + rewrite <- !app_assoc. exact (proj1 (Sa rest) E0).
    + intros n. rewrite <- !app_assoc. intros Hl. exact (proj1 (Rb rest n Hl) E0).
  - intros E0 rest. split.
    + intros k Hp. rewrite <- !app_assoc. exact (proj2 (Sa rest) E0 Hp k).
    + intros n. rewrite <- !app_assoc. intros Hl. exact (proj2 (Rb rest n Hl) E0).
Qed.

(** A block of which something is wanted ends the turn. *)
Lemma block_ends (a a' : session M) (ha ha' : M) (b b' : session N) (hb hb' : N) oa ob block :
  block_done a a' ha ha' b b' hb hb' oa ob block -> wanted hb block <> [] ->
  turn_done a a' ha ha' b b' hb hb' oa ob (MID <$> block) (wanted hb block) false.
Proof.
  intros [Boa _ _ Bha Bhb Ba Bb Bst Bt BD [_ BN] _ B1] Hw. split; try done.
  - right; right. split; [done|]. split; [done|]. by apply BN.
  - intros rest [|k] [Hq|Hr] Hk; [done|lia|done|]. by apply (proj1 (B1 Hw rest)).
  - intros rest k Hk. by apply (proj2 (B1 Hw rest)).
Qed.

(** A block of which nothing is wanted, and the rest of the turn. *)
Lemma block_then (a a1 a' : session M) (ha ha1 ha' : M) (b b1 b' : session N) (hb hb1 hb' : N) oa oa1 ob ob1 block x D q :
  block_done a a1 ha ha1 b b1 hb hb1 oa ob block -> wanted hb block = [] -> Forall (storable_by N) (GetOutbound a.(s_remoteFW) ha) ->
  turn_done a1 a' ha1 ha' b1 b' hb1 hb' oa1 ob1 x D q ->
  turn_done a a' ha ha' b b' hb hb' (oa ++ oa1) (ob ++ ob1) ((MID <$> block) ++ x) D q.
Proof using Hks Hfuel.
  intros [Boa Bob _ _ _ Ba Bb Bst Bt BD [BN _] B0 _] Hw Ho [Toa Tha Thb Ta Tb Tst Tt TD Te Ts Tr].
  rewrite Hw in Ba, Bb, Bt, BD. split.
  - by destruct oa.
  - done.
  - done.
  - exact (moved_trans _ _ _ _ _ _ _ _ _ Ba Ta).
  - exact (moved_trans _ _ _ _ _ _ _ _ _ Bb Tb).
  - exact (settles_trans _ _ _ _ _ Bst Tst).
  - exact (takes_in_trans [] _ _ _ _ Bt Tt).
  - rewrite TD, (mv_fw _ _ _ _ _ Ba), (st_out _ _ _ _ _ _ Bst). exact (wanted_after hb hb1 _ x [] _ Ho Bt BD).
  - by rewrite BN, (mv_fw _ _ _ _ _ Ba) in Te.
  - intros rest k Hq Hk. rewrite <- app_assoc in *. rewrite length_app in Hk. assert (0 < length ob)%nat by (destruct ob; [done|cbn; lia]).
    destruct k as [|[|k]]; [lia|lia|]. rewrite (proj1 (B0 Hw _)). apply Ts; [done|lia].
  - intros rest k Hk. rewrite <- app_assoc in *. destruct (proj2 (B0 Hw _) k Hk) as (k' & Hk' & ->). by apply Tr.
Qed.

Lemma turn n (a : session M) (b : session N) ha hb : (length (GetOutbound a.(s_remoteFW) ha) <= n)%nat ->
  ready E1 (storable_by N) a ha -> b.(s_h) = Some hb -> mb_inv hb ->
  exists a' b' ha' hb' oa ob x D q, turn_done a a' ha ha' b b' hb hb' oa ob x D q.
Proof using Hks Hfuel.
  revert a b ha hb. induction n as [n IH] using lt_wf_ind. intros a b ha hb Hn Ha Hb Hi.
  destruct (decide (GetOutbound a.(s_remoteFW) ha = [])) as [He|He]; [do 9 eexists; by apply turn_nothing|].
  destruct (turn_block a b ha hb Ha Hb Hi He) as (block & a1 & b1 & ha1 & hb1 & oa & ob & B).
  destruct (decide (wanted hb block = [])) as [Hw|Hw]; [|do 9 eexists; by apply block_ends].
  pose proof B as [_ _ [Bn Bs] Bha Bhb Ba Bb Bst Bt BD _ _ _].
  assert (Hl : (length (GetOutbound a1.(s_remoteFW) ha1) < length (GetOutbound a.(s_remoteFW) ha))%nat).
  { rewrite (mv_fw _ _ _ _ _ Ba), (st_out _ _ _ _ _ _ Bst). destruct block as [|m block]; [done|].
    apply (length_filter_lt _ _ m); [apply Bs; by left|]. intros Hm. apply Hm. by left. }
  destruct (IH (length (GetOutbound a1.(s_remoteFW) ha1)) ltac:(lia) a1 b1 ha1 hb1 ltac:(lia)) as (a' & b' & ha' & hb' & oa1 & ob1 & x & D & q & T).
  - by eapply ready_settled.
  - done.
  - exact (tk_inv _ _ _ _ _ _ _ Bt).
  - do 9 eexists. eapply block_then; [done|done| |done]. exact (rd_store _ _ _ _ Ha).
Qed.
End pair.
End turn.

(** ** All the turns *)
