(* ===== verification/WholeExchange.v ===== *)
(** A whole exchange between two stations: what [Exchange] of one writes is what
    [Exchange] of the other reads, from the first line of the handshake to the
    quit command.  The mailboxes of the two sides may be different
    implementations of [StationMailbox]. *)
From S2P Require Import Prelude Crc GoStr Helpers Mid Words Reader Proposal Transfer Message MessageFormat Session Handshake.
From S2P Require Import Exchange Delivery SessionSafety Station SessionTurn.
From stdpp Require Import gmap.
Open Scope Z_scope.

#[local] Opaque proposal_of.

(** ** The turns *)
Section turns.
Context `{Charset} `{Clock} `{Gzip} (dfuel : nat) (ks : nat -> Z).
Context (Hks : forall i, 0 < ks i) (Hfuel : 3867 < Z.of_nat dfuel).

(** What a side has done when the exchange is over: it wrote [w], its outbox is
    empty, [gave] was sent and [got] is in its mailbox. *)
Record ended {M} `{StationMailbox M} (s s' : session M) (h h' : M) (w : gostr) (gave got : list message) : Prop := {
  en_h : s'.(s_h) = Some h';
  en_left : GetOutbound s.(s_remoteFW) h' = [];
  en_kept : kept mb_find (mb_store (M := M)) (received_as <$> got) h h';
  en_out : s'.(s_out) = s.(s_out) ++ w;
  en_sent : s'.(s_stats).(Sent) ≡ₚ s.(s_stats).(Sent) ++ (MID <$> gave);
  en_received : s'.(s_stats).(Received) = s.(s_stats).(Received) ++ (MID <$> got);
  en_inv : mb_inv h' }.

Lemma ended_after {M} `{StationMailbox M} (s s1 s' : session M) h h1 h' w1 w g1 g r1 r :
  moved s s1 w1 (MID <$> g1) (MID <$> r1) -> kept mb_find (mb_store (M := M)) (received_as <$> r1) h h1 ->
  ended s1 s' h1 h' w g r -> ended s s' h h' (w1 ++ w) (g1 ++ g) (r1 ++ r).
Proof.
  intros [F I Dn O S R] Hi [Eh El Ei Eo Es Er ?]. split; rewrite ?fmap_app.
  - done.
  - by rewrite <- F.
  - by eapply kept_both.
  - by rewrite Eo, O, app_assoc.
  - by rewrite Es, S, app_assoc.
  - by rewrite Er, R, app_assoc.
  - done.
Qed.

(** The session after a turn that was not the last one. *)
Lemma moved_turn {M} (s s' : session M) w a b p q : Done s = false -> moved s s' w a b -> p = false -> q = false ->
  moved s (set_quit s' p q) w a b.
Proof. intros Hd [F I D O S R] -> ->. by split. Qed.

Lemma quits_false {M} (s : session M) : Done s = false -> s.(s_quitReceived) = false /\ s.(s_quitSent) = false.
Proof. unfold Done. by destruct (s_quitReceived s), (s_quitSent s). Qed.

Lemma turns_done `{MapOrder} (E : Environment) {M} `{MBoxHandler M} k b (s : session M) : Done s = true -> turns dfuel ks (S k) b s = Ok (inr (), s).
Proof. intros Hd. cbn [turns]. by rewrite (sess_bind_inr _ _ s true s) by (unfold gets; by rewrite <- Hd). Qed.

Lemma turns_mine `{MapOrder} (E : Environment) {M} `{MBoxHandler M} k (s s1 : session M) q : Done s = false ->
  handleOutbound s = Ok (inr q, s1) ->
  turns dfuel ks (S k) true s = turns dfuel ks k false (set_quit s1 s1.(s_quitReceived) q).
Proof.
  intros Hd Eq. cbn [turns]. rewrite (sess_bind_inr _ _ s false s) by (unfold gets; by rewrite <- Hd).
  by rewrite (sess_bind_inr _ _ s () (set_quit s1 s1.(s_quitReceived) q)) by (by rewrite (sess_bind_inr _ _ s q s1)).
Qed.

Lemma turns_theirs `{MapOrder} (E : Environment) {M} `{MBoxHandler M} k (s s1 : session M) q : Done s = false ->
  handleInbound dfuel ks s = Ok (inr q, s1) ->
  turns dfuel ks (S k) false s = turns dfuel ks k true (set_quit s1 q s1.(s_quitSent)).
Proof.
  intros Hd Eq. cbn [turns]. rewrite (sess_bind_inr _ _ s false s) by (unfold gets; by rewrite <- Hd).
  by rewrite (sess_bind_inr _ _ s () (set_quit s1 q s1.(s_quitSent))) by (by rewrite (sess_bind_inr _ _ s q s1)).
Qed.

(** The side that has the turn is [a]. *)
Definition ends_well {M N} `{StationMailbox M} `{StationMailbox N} (E1 E2 : Environment) (O1 O2 : MapOrder)
    (a : session M) (b : session N) (ha : M) (hb : N) : Prop :=
  exists oa ob a' b' ha' hb' Da Db,
    HasPrefix oa (str "F") = true /\
    (forall k, (2 * length ob + 2 < k)%nat -> turns (H3 := E1) (H4 := O1) dfuel ks k true (set_rd a ob) = Ok (inr (), set_rd a' [])) /\
    (forall k, (2 * length oa + 1 < k)%nat -> turns (H3 := E2) (H4 := O2) dfuel ks k false (set_rd b oa) = Ok (inr (), set_rd b' [])) /\
    ended a a' ha ha' oa Da Db /\ ended b b' hb hb' ob Db Da /\
    Da ≡ₚ wanted hb (GetOutbound a.(s_remoteFW) ha) /\ Db ≡ₚ wanted ha (GetOutbound b.(s_remoteFW) hb).

Section both.
Context {M N : Type} `{StationMailbox M} `{StationMailbox N}.
Context (E1 E2 : Environment) (O1 O2 : MapOrder).
Implicit Types (a : session M) (b : session N) (ha : M) (hb : N).

(** What is left to be delivered after a turn. *)
Lemma wanted_rest ha ha' hb hb' fw x D : Forall (storable_by N) (GetOutbound fw ha) -> settles x ha ha' ->
  takes_in (received_as <$> D) hb hb' -> D ≡ₚ wanted hb (filter (fun m => MID m ∈ x) (GetOutbound fw ha)) ->
  D ++ wanted hb' (GetOutbound fw ha') ≡ₚ wanted hb (GetOutbound fw ha).
Proof using Hks Hfuel.
  intros Ho Hx Ht P. rewrite (st_out _ _ _ _ _ _ Hx). set (l := GetOutbound fw ha) in *.
  pose proof (wanted_after dfuel ks Hks Hfuel hb hb' x (MID <$> l) D l Ho Ht P) as W.
  rewrite (filter_every (fun m => MID m ∈ x ++ (MID <$> l)) l) in W.
  2:{ intros m Hm. apply elem_of_app. right. by apply list_elem_of_fmap_2. }
  rewrite filter_every in W; [done|]. intros m Hm. apply list_elem_of_filter in Hm as [_ Hm]. by apply list_elem_of_fmap_2.
Qed.

Lemma wanted_settled ha ha' x l : settles x ha ha' -> Forall (storable_by M) l -> wanted ha' l = wanted ha l.
Proof using Hks Hfuel.
  intros Hx Hl. apply filter_iff_in. intros m Hm. apply (proj1 (Forall_forall _ _) Hl) in Hm as [Ho Hst]. unfold verdict.
  by rewrite (st_answer _ _ _ _ _ _ Hx) by (by apply (good_proposal dfuel ks Hks Hfuel)).
Qed.

(** The last turn. *)
Lemma ends_last a a' ha ha' b b' hb hb' oa ob x D :
  turn_done dfuel ks E1 a a' ha ha' b b' hb hb' oa ob x D true (O1 := O1) ->
  ready E1 (storable_by N) a ha -> ready E2 (storable_by M) b hb ->
  GetOutbound a.(s_remoteFW) ha' = [] -> GetOutbound b.(s_remoteFW) hb = [] -> ends_well E1 E2 O1 O2 a b ha hb.
Proof using Hks Hfuel.
  intros T Ra Rb Ea Eb. pose proof T as [Toa Tha Thb Ta Tb Tst Tt TD _ Ts Tr].
  exists oa, ob, (set_quit a' a'.(s_quitReceived) true), (set_quit b' true b'.(s_quitSent)), ha', hb', D, [].
  split_and!; [done| | | | | |].
  - intros k Hk. destruct k as [|[|k]]; [lia|lia|]. rewrite (turns_mine E1 (S k) (set_rd a ob) (set_rd a' []) true).
    + apply (turns_done E1 k false). apply orb_true_r.
    + apply Ra.
    + pose proof (Ts [] (S (length ob)) (or_introl eq_refl)) as S1. rewrite app_nil_r in S1. apply S1. lia.
  - intros k Hk. destruct k as [|[|k]]; [lia|lia|]. rewrite (turns_theirs E2 (S k) (set_rd b oa) (set_rd b' []) true).
    + by apply (turns_done E2 k true).
    + apply Rb.
    + pose proof (Tr [] (S (length oa))) as R1. rewrite app_nil_r in R1. apply R1. lia.
  - split; [done|done| |apply Ta|apply Ta|apply Ta|apply Tst]. apply kept_nil, Tst.
  - split; [done| |apply Tt|apply Tb|apply Tb|apply Tb|apply Tt]. apply Permutation_nil_r. by rewrite (tk_out _ _ _ _ _ _ _ Tt), Eb.
  - pose proof (wanted_rest ha ha' hb hb' _ x D (rd_store _ _ _ _ Ra) Tst Tt TD) as W.
    rewrite Ea in W. by rewrite <- W, app_nil_r.
  - by rewrite Eb.
Qed.
End both.

(** Any other turn: then the other side has it. *)
Lemma turn_goes_on {M N} `{StationMailbox M} `{StationMailbox N} (E1 E2 : Environment) (O1 : MapOrder)
    (a a' : session M) ha ha' (b b' : session N) hb hb' oa ob x D :
  turn_done dfuel ks E1 a a' ha ha' b b' hb hb' oa ob x D false (O1 := O1) ->
  ready E1 (storable_by N) a ha -> ready E2 (storable_by M) b hb ->
  let a1 := set_quit a' a'.(s_quitReceived) false in
  let b1 := set_quit b' false b'.(s_quitSent) in
  moved a a1 oa (MID <$> D) [] /\ moved b b1 ob [] (MID <$> D) /\
  ready E1 (storable_by N) a1 ha' /\ ready E2 (storable_by M) b1 hb'.
Proof.
  intros T Ra Rb a1 b1. destruct T as [_ Tha Thb Ta Tb Tst Tt _ _ _ _].
  assert (Ma : moved a a1 oa (MID <$> D) []).
  { apply moved_turn; [apply Ra|done| |done]. apply quits_false. rewrite (mv_done _ _ _ _ _ Ta). apply Ra. }
  assert (Mb : moved b b1 ob [] (MID <$> D)).
  { apply moved_turn; [apply Rb|done|done|]. apply quits_false. rewrite (mv_done _ _ _ _ _ Tb). apply Rb. }
  split_and!; [done|done|by eapply ready_settled|by eapply ready_took].
Qed.

Lemma ends_step {M N} `{StationMailbox M} `{StationMailbox N} (E1 E2 : Environment) (O1 O2 : MapOrder)
    (a a' : session M) ha ha' (b b' : session N) hb hb' oa ob x D :
  turn_done dfuel ks E1 a a' ha ha' b b' hb hb' oa ob x D false (O1 := O1) ->
  ready E1 (storable_by N) a ha -> ready E2 (storable_by M) b hb ->
  ends_well E2 E1 O2 O1 (set_quit b' false b'.(s_quitSent)) (set_quit a' a'.(s_quitReceived) false) hb' ha' ->
  ends_well E1 E2 O1 O2 a b ha hb.
Proof using Hks Hfuel.
  intros T Ra Rb. pose proof T as [Toa Tha Thb Ta Tb Tst Tt TD _ Ts Tr].
  set (a1 := set_quit a' _ _). set (b1 := set_quit b' _ _).
  intros (ob2 & oa2 & b2 & a2 & hb2 & ha2 & Db & Da & Hp & Sb & Sa & Nb & Na & Pb & Pa).
  assert (La : (0 < length oa)%nat) by (destruct oa; [done|cbn; lia]).
  destruct (turn_goes_on E1 E2 O1 a a' ha ha' b b' hb hb' oa ob x D T Ra Rb) as (Ma & Mb & _). fold a1 in Ma. fold b1 in Mb.
  exists (oa ++ oa2), (ob ++ ob2), a2, b2, ha2, hb2, (D ++ Da), Db. split_and!; [by destruct oa| | | | | |].
  - intros k Hk. rewrite length_app in Hk. destruct k as [|k]; [lia|].
    rewrite (turns_mine E1 k (set_rd a (ob ++ ob2)) (set_rd a' ob2) false); [apply Sa; lia|apply Ra|].
    apply Ts; [by right|]. cbn [s_rd set_rd]. lia.
  - intros k Hk. rewrite length_app in Hk. destruct k as [|k]; [lia|].
    rewrite (turns_theirs E2 k (set_rd b (oa ++ oa2)) (set_rd b' oa2) false); [apply Sb; lia|apply Rb|].
    apply Tr. cbn [s_rd set_rd]. lia.
  - apply (ended_after a a1 a2 ha ha' ha2 oa oa2 D Da [] Db); [done| |done].
    apply kept_nil, Tst.
  - apply (ended_after b b1 b2 hb hb' hb2 ob ob2 [] Db D Da); [done|apply Tt|done].
  - rewrite Pa, (mv_fw _ _ _ _ _ Ma). exact (wanted_rest ha ha' hb hb' _ x D (rd_store _ _ _ _ Ra) Tst Tt TD).
  - rewrite Pb, (mv_fw _ _ _ _ _ Mb), (tk_out _ _ _ _ _ _ _ Tt). by rewrite (wanted_settled ha ha' x _ Tst (rd_store _ _ _ _ Rb)).
Qed.

(** However many messages there are on both sides, the session comes to a good
    end.  The side that has the turn has heard of the other side only that it
    has nothing to send if that is true. *)
Lemma all_turns n {M N} `{StationMailbox M} `{StationMailbox N} (E1 E2 : Environment) (O1 O2 : MapOrder)
    (a : session M) (b : session N) ha hb :
  (2 * (length (GetOutbound a.(s_remoteFW) ha) + length (GetOutbound b.(s_remoteFW) hb))
   + (if a.(s_remoteNoMsgs) then 0 else 1) <= n)%nat ->
  ready E1 (storable_by N) a ha -> ready E2 (storable_by M) b hb ->
  (a.(s_remoteNoMsgs) = true -> GetOutbound b.(s_remoteFW) hb = []) ->
  ends_well E1 E2 O1 O2 a b ha hb.
Proof using Hks Hfuel.
  revert M H2 H3 N H4 H5 E1 E2 O1 O2 a b ha hb. induction n as [n IH] using lt_wf_ind.
  intros M ?? N ?? E1 E2 O1 O2 a b ha hb Hn Ra Rb Hno.
  destruct (turn dfuel ks Hks Hfuel E1 (O1 := O1) _ a b ha hb (le_n _) Ra (rd_h _ _ _ _ Rb) (of_inv _ _ (rd_offers _ _ _ _ Rb)))
    as (a' & b' & ha' & hb' & oa & ob & x & D & q & T).
  pose proof (td_settles _ _ _ _ _ _ _ _ _ _ _ _ _ _ _ _ T) as Tst. pose proof (td_takes _ _ _ _ _ _ _ _ _ _ _ _ _ _ _ _ T) as Tt.
  assert (Lx : (length (GetOutbound a.(s_remoteFW) ha') + length D <= length (GetOutbound a.(s_remoteFW) ha))%nat).
  { rewrite (td_D _ _ _ _ _ _ _ _ _ _ _ _ _ _ _ _ T), (st_out _ _ _ _ _ _ Tst). rewrite <- (filter_split (fun m => MID m ∈ x) (GetOutbound _ ha)) at 3.
    rewrite length_app. unfold wanted. pose proof (length_filter (fun m => verdict hb (proposal_of m) = Accept) (filter (fun m => MID m ∈ x) (GetOutbound a.(s_remoteFW) ha))). lia. }
  destruct (td_end _ _ _ _ _ _ _ _ _ _ _ _ _ _ _ _ T) as [(-> & Hq & He)|Hgo]; [exact (ends_last E1 E2 O1 O2 a a' ha ha' b b' hb hb' oa ob x D T Ra Rb He (Hno Hq))|].
  assert (q = false) as -> by (by destruct Hgo as [[-> _]|[-> _]]).
  destruct (turn_goes_on E1 E2 O1 a a' ha ha' b b' hb hb' oa ob x D T Ra Rb) as (Ma & Mb & Ra1 & Rb1).
  assert (Eb : length (GetOutbound b.(s_remoteFW) hb') = length (GetOutbound b.(s_remoteFW) hb)) by (by rewrite (tk_out _ _ _ _ _ _ _ Tt)).
  apply (ends_step E1 E2 O1 O2 a a' ha ha' b b' hb hb' oa ob x D T Ra Rb).
  apply (IH (2 * (length (GetOutbound b.(s_remoteFW) hb) + length (GetOutbound a.(s_remoteFW) ha')) + if b'.(s_remoteNoMsgs) then 0 else 1)%nat);
    rewrite ?(mv_fw _ _ _ _ _ Ma), ?(mv_fw _ _ _ _ _ Mb), ?Eb. all: cbn [s_remoteNoMsgs set_quit]; auto.
  - destruct Hgo as [(_ & Hq & He & Hb)|(_ & HD & Hb)]; rewrite Hb.
    + rewrite Hq in Hn. lia.
    + destruct D; [done|]. cbn [length] in Lx. lia.
  - intros Hb. by destruct Hgo as [(_ & _ & He & _)|(_ & _ & Hb')]; [|rewrite Hb in Hb'].
Qed.
End turns.

(** ** The whole exchange *)

(** The addresses a station announces. *)
Definition announced_fw {M} (E : Environment) (s : session M) : list address :=
  if fwAuxOnlyExperiment && (1 <? zlen s.(s_localFW)) then drop 1 s.(s_localFW) else s.(s_localFW).

(** The session with its mailbox [h] prepared, when the handshake begins. *)
Definition prepared {M} (E : Environment) (s : session M) (h : M) : session M :=
  let s := set_h (set_localFW s (announced_fw E s)) (Some h) in
  SetRobust (negb (bool_decide (s.(s_mode) = RobustDisabled))) s.

(** What a station has to show after an exchange: it has read all there was and
    closed the connection, it wrote [w], it offers nothing any more, [gave] was
    sent, [got] is in its mailbox and nothing else there has changed. *)
Record concluded `{Charset} {M} `{StationMailbox M} (fw : list address) (s s' : session M) (h h' : M) (w : gostr) (gave got : list message) : Prop := {
  cl_h : s'.(s_h) = Some h';
  cl_rd : s'.(s_rd) = [];
  cl_closed : s'.(s_closed) = true;
  cl_out : s'.(s_out) = s.(s_out) ++ w;
  cl_left : GetOutbound fw h' = [];
  cl_new : forall x, x ∈ got -> mb_find h' (MID x) = Some (mb_store (received_as x));
  cl_old : forall mid, mid ∉ MID <$> got -> mb_find h' mid = mb_find h mid;
  cl_sent : s'.(s_stats).(Sent) ≡ₚ s.(s_stats).(Sent) ++ (MID <$> gave);
  cl_received : s'.(s_stats).(Received) = s.(s_stats).(Received) ++ (MID <$> got);
  cl_inv : mb_inv h' }.

Section whole.
Context `{Charset} `{Clock} `{Gzip} `{MD5} (dfuel : nat) (ks : nat -> Z).
Context {M : Type} `{MB : MBoxHandler M} `{SM : !StationMailbox M}.
Implicit Types s : session M.

Lemma prepared_rd E s h x : set_rd (prepared E s h) x = prepared E (set_rd s x) h.
Proof. unfold prepared, SetRobust. cbn. by destruct (s_robust s). Qed.

Lemma prepared_same E s h : let p := prepared E s h in
  p.(s_h) = Some h /\ p.(s_master) = s.(s_master) /\ p.(s_localFW) = announced_fw E s /\ p.(s_motd) = s.(s_motd) /\
  p.(s_out) = s.(s_out) /\ p.(s_stats) = s.(s_stats) /\ Done p = Done s /\ p.(s_remoteNoMsgs) = s.(s_remoteNoMsgs) /\
  (presentable s -> presentable p).
Proof.
  unfold prepared, SetRobust. cbn. assert (Hp : presentable s -> announced_fw E s <> [] /\ Forall station (announced_fw E s)).
  { intros [[Hn Hf] _ _]. unfold announced_fw. destruct (fwAuxOnlyExperiment && (1 <? zlen (s_localFW s))) eqn:Eb; [|done].
    apply andb_true_iff in Eb as [_ Eb]. split; [|by apply Forall_drop]. intros E0. apply (f_equal length) in E0.
    rewrite length_drop in E0. unfold zlen in Eb. cbn in E0. lia. }
  destruct (s_robust s); (split_and!; try done); intros Hs; destruct (Hp Hs); destruct Hs; by split.
Qed.

(** [Exchange] up to the handshake, and what is left of it when the turns come
    to a good end. *)
Lemma Exchange_good E (O : MapOrder) s h s2 s3 : Done s = false -> s.(s_h) = Some h -> (Prepare h).1 = None ->
  handshake (prepared E s (Prepare h).2) = Ok (inr (), s2) ->
  exchange_turns (H3 := E) dfuel ks s2 = Ok (inr (), s3) ->
  Exchange (H3 := E) dfuel ks s = Ok (s3.(s_stats), (None, set_closed (SetRobust false s3) true)).
Proof.
  intros Hd Hh Ep Ehs Et. unfold Exchange. rewrite Hd. set (s0 := if _ && _ then _ else _).
  assert (Es0 : s0 = set_localFW s (announced_fw E s)).
  { unfold s0, announced_fw. destruct (_ && _); [done|by destruct s]. }
  assert (prepare s0 = Ok (inr (), set_h s0 (Some (Prepare h).2))) as ->.
  { unfold prepare. rewrite (sess_bind_inr _ _ s0 (Some h) s0) by (unfold gets; by rewrite <- Hh, Es0).
    rewrite (sess_bind_inr _ _ s0 None (set_h s0 (Some (Prepare h).2))); [done|]. unfold with_h. rewrite Es0. cbn [s_h set_localFW].
    rewrite Hh. destruct (Prepare h). cbn in *. by rewrite Ep. }
  rewrite bind_Ok, Es0. unfold prepared in Ehs. rewrite Ehs, bind_Ok, Et, bind_Ok. done.
Qed.

(** From the turns to the whole exchange. *)
Lemma concluded_ended E (O : MapOrder) s h s2 t s3 h' x y w gave got :
  let s1 := prepared E s (Prepare h).2 in
  Done s = false -> s.(s_h) = Some h -> (Prepare h).1 = None -> NoDup (MID <$> got) -> s2.(s_stats) = s.(s_stats) -> s2.(s_out) = s.(s_out) ++ x ->
  handshake (set_rd s1 y) = Ok (inr (), set_rd s2 t) -> exchange_turns (H3 := E) dfuel ks (set_rd s2 t) = Ok (inr (), set_rd s3 []) ->
  ended s2 s3 (Prepare h).2 h' w gave got ->
  exists s', Exchange (H3 := E) dfuel ks (set_rd s y) = Ok (s'.(s_stats), (None, s')) /\
    concluded s2.(s_remoteFW) s s' (Prepare h).2 h' (x ++ w) gave got.
Proof.
  intros s1 Hd Hh Hpr Hn Es Eo Ehs Et [Eh El [Ei1 Ei2] Eout Est Er Hinv].
  rewrite <- list_fmap_compose in Ei1, Ei2. exists (set_closed (SetRobust false (set_rd s3 [])) true). split.
  - unfold s1 in Ehs. rewrite prepared_rd in Ehs. rewrite (Exchange_good E O (set_rd s y) h (set_rd s2 t) (set_rd s3 []) Hd Hh Hpr Ehs Et).
    do 2 f_equal. unfold SetRobust. cbn. by destruct (s_robust s3).
  - rewrite Es in Est, Er. rewrite Eo, <- app_assoc in Eout.
    assert (Hnew : forall z, z ∈ got -> mb_find h' (MID z) = Some (mb_store (received_as z))).
    { intros z Hz. by apply (Ei1 Hn (received_as z)), list_elem_of_fmap_2. }
    unfold SetRobust. cbn [s_robust set_rd]. by destruct (s_robust s3).
Qed.
End whole.

Lemma exchange_turns_from `{Charset} `{Clock} `{Gzip} dfuel ks (E : Environment) (O : MapOrder) {M} `{MBoxHandler M} (s s' : session M) rd b :
  s.(s_master) = negb b ->
  (forall k, (2 * length rd + 2 < k)%nat -> turns dfuel ks k b (set_rd s rd) = Ok (inr (), s')) ->
  exchange_turns dfuel ks (set_rd s rd) = Ok (inr (), s').
Proof.
  intros Hm Ht. unfold exchange_turns. set (s0 := set_rd s rd). rewrite (sess_bind_inr _ _ s0 (negb b) s0) by (unfold gets; by rewrite <- Hm).
  rewrite (sess_bind_inr _ _ s0 rd s0) by done. rewrite negb_involutive. apply Ht. lia.
Qed.

Lemma agreed_code (E1 E2 : Environment) {M} (s : session M) : s.(s_remoteSID) = sent_sid (H0 := E2) ->
  @gzipExperimentEnabled E1 && @gzipExperimentEnabled E2 = false -> highestPropCode (H2 := E1) s = Wl2kProposal.
Proof.
  intros Es Hz. unfold highestPropCode. rewrite Es. destruct E1 as [[] ?], E2 as [[] ?]; done.
Qed.

(** A station before an exchange, with its mailbox [h] ... *)
Record stands_by {M} `{MB : !MBoxHandler M} (s : session M) (h : M) : Prop := {
  sn_presentable : presentable s;
  sn_done : Done s = false;
  sn_noMsgs : s.(s_remoteNoMsgs) = false;
  sn_h : s.(s_h) = Some h;
  sn_prepare : (Prepare h).1 = None }.

(** ... and messages a station with a mailbox of type [N] can take. *)
Record has_mail `{Charset} `{Clock} {M} `{MB : !MBoxHandler M} `{SM : !StationMailbox M} (storable : message -> Prop) (fw : list address) (h : M) : Prop := {
  hm_offers : offers fw h;
  hm_storable : Forall (fun x => storable (received_as x)) (GetOutbound fw h) }.

Section result.
Context `{Charset} `{Clock} `{Gzip} `{MD5} (dfuel : nat) (ks : nat -> Z) {M N : Type}.
Context `{MBm : !MBoxHandler M} `{SMm : !StationMailbox M} `{MBn : !MBoxHandler N} `{SMn : !StationMailbox N}.
Context (E1 E2 : Environment) (O1 O2 : MapOrder).

(** Both sides of an exchange. *)
Definition exchanged (m : session M) (c : session N) (hm : M) (hc : N) : Prop :=
  let fm := announced_fw E1 m in let fc := announced_fw E2 c in
  exists om oc m' c' hm' hc' Dm Dc,
    Exchange (H3 := E1) (H4 := O1) dfuel ks (set_rd m oc) = Ok (m'.(s_stats), (None, m')) /\
    Exchange (H3 := E2) (H4 := O2) dfuel ks (set_rd c om) = Ok (c'.(s_stats), (None, c')) /\
    concluded fc m m' hm hm' om Dm Dc /\ concluded fm c c' hc hc' oc Dc Dm /\
    Dm ≡ₚ wanted hc (GetOutbound fc hm) /\ Dc ≡ₚ wanted hm (GetOutbound fm hc).

Lemma NoDup_wanted {A B} `{StationMailbox A} `{MBoxHandler B} fw (h : A) (h' : B) D : offers fw h ->
  D ≡ₚ wanted h' (GetOutbound fw h) -> NoDup (MID <$> D).
Proof.
  intros [_ _ Hn] P. rewrite P. eapply sublist_NoDup; [exact Hn|]. apply fmap_sublist, sublist_filter.
Qed.

Lemma exchange_ok (m : session M) (c : session N) (hm : M) (hc : N) :
  (forall i, 0 < ks i) -> 3867 < Z.of_nat dfuel ->
  @gzipExperimentEnabled E1 && @gzipExperimentEnabled E2 = false ->
  m.(s_master) = true -> c.(s_master) = false -> Forall harmless m.(s_motd) -> stands_by m hm -> stands_by c hc ->
  has_mail (mb_storable (M := N)) (announced_fw E2 c) (Prepare hm).2 -> has_mail (mb_storable (M := M)) (announced_fw E1 m) (Prepare hc).2 ->
  exchanged m c (Prepare hm).2 (Prepare hc).2.
Proof.
  intros Hks Hf Hz Mm Mc Hmotd [Pm Dm Nm Hm Em] [Pc Dc Nc Hc Ec] [Om Sm] [Oc Sc]. unfold exchanged.
  set (hm1 := (Prepare hm).2) in *. set (hc1 := (Prepare hc).2) in *.
  destruct (prepared_same E1 m hm1) as (Am & Bm & Fm & Tm & Wm & Xm & Ym & _ & Zm).
  destruct (prepared_same E2 c hc1) as (Ac & Bc & Fc & Tc & Wc & Xc & Yc & Vc & Zc).
  set (m1 := prepared E1 m hm1) in *. set (c1 := prepared E2 c hc1) in *.
  destruct (handshake_agrees E1 E2 m1 c1) as (om & oc & HSm & HSc); [congruence|congruence|auto|auto|by rewrite Tm|].
  set (m2 := set_remote (set_out m1 (m1.(s_out) ++ om)) (sent_sid (H0 := E2)) c1.(s_localFW)).
  set (c2 := set_out (set_remote c1 (sent_sid (H0 := E1)) m1.(s_localFW)) (c1.(s_out) ++ oc)).
  assert (Sm' : Forall (storable_by N) (GetOutbound (announced_fw E2 c) hm1)) by (apply Forall_and; by split; [apply Om|]).
  assert (Sc' : Forall (storable_by M) (GetOutbound (announced_fw E1 m) hc1)) by (apply Forall_and; by split; [apply Oc|]).
  destruct (all_turns dfuel ks Hks Hf _ E2 E1 O2 O1 c2 m2 hc1 hm1 (le_n _))
    as (tc & tm & c3 & m3 & hc' & hm' & Gc & Gm & Hp & Tuc & Tum & Uc & Um & Pc' & Pm').
  { split; [done|by rewrite <- Yc in Dc|apply (agreed_code E2 E1); [done|by rewrite andb_comm]| |]; cbn [s_remoteFW c2 set_out set_remote]; by rewrite Fm. }
  { split; [done|by rewrite <- Ym in Dm|by apply (agreed_code E1 E2)| |]; cbn [s_remoteFW m2 set_out set_remote]; by rewrite Fc. }
  { intros Hno. change (c1.(s_remoteNoMsgs) = true) in Hno. congruence. }
  cbn [s_remoteFW m2 c2 set_out set_remote] in Pc', Pm'. rewrite Fc in Pm'. rewrite Fm in Pc'.
  destruct (concluded_ended dfuel ks E1 O1 m hm m2 tc m3 hm' om (oc ++ tc) tm Gm Gc Dm Hm Em (NoDup_wanted _ _ _ _ Oc Pc')) as (m' & Xm' & Cm);
    [exact Xm|unfold m2; by rewrite <- Wm|exact (HSm tc Hp)|apply (exchange_turns_from dfuel ks E1 O1 m2 _ tc false); [exact (eq_trans Bm Mm)|intros; apply Tum; lia]|exact Um|].
  destruct (concluded_ended dfuel ks E2 O2 c hc c2 tm c3 hc' oc (om ++ tm) tc Gc Gm Dc Hc Ec (NoDup_wanted _ _ _ _ Om Pm')) as (c' & Xc' & Cc);
    [exact Xc|unfold c2; by rewrite <- Wc|exact (HSc tm)|apply (exchange_turns_from dfuel ks E2 O2 c2 _ tm true); [exact (eq_trans Bc Mc)|intros; apply Tuc; lia]|exact Uc|].
  cbn [s_remoteFW m2 c2 set_out set_remote] in Cm, Cc. rewrite Fc in Cm. rewrite Fm in Cc.
  exists (om ++ tm), (oc ++ tc), m', c', hm', hc', Gm, Gc. by split_and!.
Qed.
End result.

(** C1. Two stations run a whole exchange on nothing but each other's output.
    Whatever is in their outboxes, as long as it can be sent: both sides return
    without an error, having read all the other wrote and closed the connection;
    both outboxes are empty; and the messages that were sent, counted as sent,
    received and counted as received are exactly those the other mailbox
    wanted, unchanged. *)
Theorem exchange_delivers `{Charset} `{Clock} `{Gzip} `{MD5} (dfuel : nat) (ks : nat -> Z) {M N : Type} `{StationMailbox M} `{StationMailbox N}
    (E1 E2 : Environment) (O1 O2 : MapOrder) (m : session M) (c : session N) (hm : M) (hc : N) :
  (forall i, 0 < ks i) -> 3867 < Z.of_nat dfuel ->
  @gzipExperimentEnabled E1 && @gzipExperimentEnabled E2 = false ->
  m.(s_master) = true -> c.(s_master) = false -> Forall harmless m.(s_motd) -> stands_by m hm -> stands_by c hc ->
  has_mail (mb_storable (M := N)) (announced_fw E2 c) (Prepare hm).2 -> has_mail (mb_storable (M := M)) (announced_fw E1 m) (Prepare hc).2 ->
  exchanged dfuel ks E1 E2 O1 O2 m c (Prepare hm).2 (Prepare hc).2.
Proof. apply exchange_ok. Qed.

(** Two stations with mailboxes in memory and a message in each. *)
Definition full_box : box := mkBox [sample_outgoing] [] [].
Definition box_master : session box := IsMaster (NewSession (str "LA1B") (str "LA5NTA") (str "JP20qh") (Some full_box)) true.
Definition box_client : session box := NewSession (str "LA5NTA") (str "LA1B") (str "JO59jw") (Some full_box).

Lemma box_station (s : session box) : presentable s -> Done s = false -> s.(s_remoteNoMsgs) = false ->
  s.(s_h) = Some full_box -> stands_by s full_box.
Proof. by split. Qed.

Lemma box_mail fw : has_mail (H := raw_charset) (H0 := any_clock) (mb_storable (M := box)) fw full_box.
Proof.
  split; [split|].
  - done.
  - apply Forall_cons_2; [exact sample_outgoing_ok|constructor].
  - apply NoDup_singleton.
  - by apply Forall_cons_2; [|constructor].
Qed.

Lemma exchange_delivers_witness :
  exchanged (H := raw_charset) (H0 := any_clock) (H1 := store_gzip) (H2 := zero_md5) 3868 (fun _ => 512)
    gzip_env plain_env list_order list_order box_master box_client (Prepare full_box).2 (Prepare full_box).2.
Proof.
  apply (exchange_delivers (H := raw_charset) (H0 := any_clock) (H1 := store_gzip) (H2 := zero_md5) 3868 (fun _ => 512)
    gzip_env plain_env list_order list_order box_master box_client full_box full_box).
  - intros _. reflexivity.
  - reflexivity.
  - reflexivity.
  - reflexivity.
  - reflexivity.
  - constructor.
  - apply box_station; [|reflexivity..].
    split; [split; [done|]; constructor; [by apply station_check|constructor]| |]; split_and!; by apply printable_str.
  - apply box_station; [|reflexivity..].
    split; [split; [done|]; constructor; [by apply station_check|constructor]| |]; split_and!; by apply printable_str.
  - apply box_mail.
  - apply box_mail.
Defined.
