(* ===== verification/FileSys.v ===== *)
(** Paths and files: package path, and the part of packages os and io/ioutil the
    mailbox uses.

    A file system is a tree without symbolic links, kept as the nodes at their
    absolute paths.  What the operating system may refuse (permissions, a full
    disk) is a parameter of every call. *)
From S2P Require Import Prelude Crc GoStr Helpers Proposal.
From stdpp Require Import gmap.
Open Scope Z_scope.

(** ** Package path *)

(** One element of a path, on the elements that precede it in reverse order. *)
Definition clean_step (rooted : bool) (st : list gostr) (c : gostr) : list gostr :=
  if bool_decide (c = []) || bool_decide (c = str ".") then st
  else if bool_decide (c = str "..")
  then match st with
       | x :: st' => if bool_decide (x = str "..") then c :: st else st'
       | [] => if rooted then [] else [c]
       end
  else c :: st.

Definition is_rooted (p : gostr) : bool := HasPrefix p (str "/").

(** [path.Clean] *)
Definition Clean (p : gostr) : gostr :=
  let cs := reverse (foldl (clean_step (is_rooted p)) [] (Split 47 p)) in
  let out := (if is_rooted p then str "/" else []) ++ strings_Join cs (str "/") in
  if bool_decide (out = []) then str "." else out.

(** [path.Join] *)
Definition path_Join (elems : list gostr) : gostr :=
  match filter (fun e => e <> []) elems with
  | [] => []
  | es => Clean (strings_Join es (str "/"))
  end.

(** [path.Split]: the directory, with its final slash, and the last element. *)
Definition path_Split (p : gostr) : gostr * gostr :=
  let i := after_last (Z.eqb 47) p in (take i p, drop i p).

(** [filepath.Ext] *)
Definition filepath_Ext (p : gostr) : gostr :=
  let name := (path_Split p).2 in
  match after_last (Z.eqb 46) name with O => [] | S i => drop i name end.

(** ** The file system *)
Inductive node := Dir | File (data : gostr).
Abbreviation fpath := (list gostr).
Abbreviation fs := (gmap fpath node).

#[export] Instance node_eq_dec : EqDecision node.
Proof. solve_decision. Defined.

Inductive oserr := ENOENT | ENOTDIR | EISDIR | EEXIST | EINVAL | Refused (reason : gostr).

#[export] Instance oserr_eq_dec : EqDecision oserr.
Proof. solve_decision. Defined.

Definition oserr_text (e : oserr) : gostr :=
  match e with
  | ENOENT => str "no such file or directory"
  | ENOTDIR => str "not a directory"
  | EISDIR => str "is a directory"
  | EEXIST => str "file exists"
  | EINVAL => str "invalid argument"
  | Refused r => r
  end.

(** The working directory, the paths the system refuses to touch, and the writes
    that stop after some of the data. *)
Class OS := {
  cwd : fpath;
  refuses : fpath -> option gostr;
  stops : fpath -> gostr -> option (nat * gostr) }.

(** An error of package os: operation, path and reason. *)
Definition PathError (op p : gostr) (e : oserr) : error := New (op ++ str " " ++ p ++ str ": " ++ oserr_text e).

Definition node_at (f : fs) (p : fpath) : option node := match p with [] => Some Dir | _ => f !! p end.

(** Walks down from the directory [pre]. *)
Fixpoint look_from (f : fs) (pre rest : fpath) : oserr + node :=
  match node_at f pre, rest with
  | None, _ => inl ENOENT
  | Some n, [] => inr n
  | Some Dir, c :: rest => look_from f (pre ++ [c]) rest
  | Some (File _), _ :: _ => inl ENOTDIR
  end.

Definition look (f : fs) (p : fpath) : oserr + node := look_from f [] p.

(** The directory a path is in. *)
Definition dir_of (p : fpath) : fpath := take (length p - 1) p.

(** The directory a file is created in. *)
Definition parent (f : fs) (p : fpath) : option oserr :=
  match look f (dir_of p) with inl e => Some e | inr Dir => None | inr (File _) => Some ENOTDIR end.

(** The entries of a directory, with their nodes. *)
Definition children (f : fs) (p : fpath) : list (gostr * node) :=
  omap (fun kn => match reverse kn.1 with
                  | c :: rp => if bool_decide (reverse rp = p) then Some (c, kn.2) else None
                  | [] => None
                  end) (map_to_list f).

Section os.
Context `{OS}.

(** The absolute path the system uses for [p]. *)
Definition resolve (p : gostr) : fpath :=
  reverse (foldl (clean_step true) (if is_rooted p then [] else reverse cwd) (Split 47 p)).

(** [os.Open], and reading what it opened. *)
Definition Open_ (f : fs) (p : gostr) : oserr + node :=
  match refuses (resolve p) with Some r => inl (Refused r) | None => look f (resolve p) end.

(** [ioutil.WriteFile]: the file is truncated first, so that a write that stops
    leaves what it has written. *)
Definition WriteFile (f : fs) (p data : gostr) : option error * fs :=
  let a := resolve p in
  match refuses a with
  | Some r => (Some (PathError (str "open") p (Refused r)), f)
  | None =>
    match parent f a with
    | Some e => (Some (PathError (str "open") p e), f)
    | None =>
      match node_at f a with
      | Some Dir => (Some (PathError (str "open") p EISDIR), f)
      | _ => match stops a data with
             | Some (n, r) => (Some (PathError (str "write") p (Refused r)), <[a := File (take n data)]> f)
             | None => (None, <[a := File data]> f)
             end
      end
    end
  end.

(** A directory that moves takes along what is in it. *)
Definition move_tree (f : fs) (old new : fpath) : fs :=
  list_to_map ((fun kn : fpath * node =>
    (if bool_decide (old `prefix_of` kn.1) then new ++ drop (length old) kn.1 else kn.1, kn.2)) <$> map_to_list f).

(** [os.Rename] *)
Definition rename_err (f : fs) (old new : fpath) : option oserr :=
  match refuses old, refuses new, look f old with
  | Some r, _, _ | None, Some r, _ => Some (Refused r)
  | None, None, inl e => Some e
  | None, None, inr n =>
    match parent f new, node_at f new, n with
    | Some e, _, _ => Some e
    | None, Some Dir, _ => Some EEXIST
    | None, Some (File _), Dir => Some ENOTDIR
    | None, _, Dir => if bool_decide (old `prefix_of` new) then Some EINVAL else None
    | None, _, File _ => None
    end
  end.

Definition Rename (f : fs) (oldp newp : gostr) : option error * fs :=
  let old := resolve oldp in
  let new := resolve newp in
  match rename_err f old new with
  | Some e => (Some (New (str "rename " ++ oldp ++ str " " ++ newp ++ str ": " ++ oserr_text e)), f)
  | None => (None, match look f old with
                   | inr (File d) => <[new := File d]> (delete old f)
                   | _ => move_tree f old new
                   end)
  end.

(** [os.MkdirAll] *)
Fixpoint mkdirs (f : fs) (pre rest : fpath) : option oserr * fs :=
  match rest with
  | [] => (None, f)
  | c :: rest =>
    let a := pre ++ [c] in
    match node_at f a with
    | Some Dir => mkdirs f a rest
    | Some (File _) => (Some ENOTDIR, f)
    | None => match refuses a with
              | Some r => (Some (Refused r), f)
              | None => mkdirs (<[a := Dir]> f) a rest
              end
    end
  end.

Definition MkdirAll (f : fs) (p : gostr) : option error * fs :=
  let '(e, f) := mkdirs f [] (resolve p) in (PathError (str "mkdir") p <$> e, f).

(** [ioutil.ReadDir]: the entries by name. *)
Definition ReadDir (f : fs) (p : gostr) : error + list (gostr * node) :=
  match Open_ f p with
  | inl e => inl (PathError (str "open") p e)
  | inr (File _) => inl (PathError (str "readdirent") p ENOTDIR)
  | inr Dir => inr (sort_by (fun x y => str_less x.1 y.1) (children f (resolve p)))
  end.
End os.
