(* ===== verification/Mailbox.v ===== *)
(** The directory mailbox: [src/mailbox/syncdir.go] on the file system of
    FileSys.v.

    [log.Fatalf] ends the process; it is [inl] of the text it logs.  Other
    logging is left out. *)
From S2P Require Import Prelude Crc GoStr Helpers Words Proposal Message FileSys.
From stdpp Require Import gmap.
Open Scope Z_scope.

Definition DIR_INBOX := str "/in/".
Definition DIR_OUTBOX := str "/out/".
Definition DIR_SENT := str "/sent/".
Definition DIR_ARCHIVE := str "/archive/".
Definition Ext := str ".b2f".

(** [deferred] is a nil map until [Prepare]. *)
Record DirHandler := mkDir { MBoxPath : gostr; deferred : option (gset gostr); sendOnly : bool }.

Definition NewDirHandler (path : gostr) (sendOnly : bool) : DirHandler := mkDir path None sendOnly.

(** The file of a message in one of the directories. *)
Definition mbox_dir (h : DirHandler) (dir : gostr) : gostr := path_Join [h.(MBoxPath); dir].
Definition mbox_file (h : DirHandler) (dir mid : gostr) : gostr := path_Join [h.(MBoxPath); dir; mid ++ Ext].

Definition UserPath (root callsign : gostr) : gostr := path_Join [root; callsign].

Definition IsUnread (m : message) : bool := bool_decide (h_Get m.(m_header) (str "X-Unread") = str "true").

Definition del_hdr (m : message) (k : gostr) : message := mkMsg (h_Del m.(m_header) k) m.(m_body) m.(m_files).

Section mailbox.
Context `{OS} `{Charset} `{Clock}.

Fixpoint mkdir_list (f : fs) (ps : list gostr) : option error * fs :=
  match ps with
  | [] => (None, f)
  | p :: ps => match MkdirAll f p with (Some e, f) => (Some e, f) | (None, f) => mkdir_list f ps end
  end.

Definition ensureDirStructure (f : fs) (mboxPath : gostr) : option error * fs :=
  mkdir_list f ((fun d => path_Join [mboxPath; d]) <$> [DIR_INBOX; DIR_OUTBOX; DIR_SENT; DIR_ARCHIVE]).

Definition dir_Prepare (h : DirHandler) (f : fs) : option error * DirHandler * fs :=
  let h := mkDir h.(MBoxPath) (Some ∅) h.(sendOnly) in
  let '(e, f) := ensureDirStructure f h.(MBoxPath) in (e, h, f).

Definition OpenMessage (f : fs) (path : gostr) : res (error + message) :=
  match Open_ f path with
  | inl e => Ok (inl (New (str "Unable to open file (" ++ path ++ str "): " ++ Error (PathError (str "open") path e))))
  | inr Dir => Ok (inl (New (str "Unable to parse message (" ++ path ++ str "): "
                               ++ Error (PathError (str "read") path EISDIR))))
  | inr (File data) =>
    '(e, m) ← ReadFrom data;
    mret match e with
         | Some e => inl (New (str "Unable to parse message (" ++ path ++ str "): " ++ Error e))
         | None => inr (set_hdr m (str "X-FilePath") path)
         end
  end.

Fixpoint load_files (f : fs) (dirPath : gostr) (files : list (gostr * node)) : res (error + list message) :=
  match files with
  | [] => Ok (inr [])
  | (name, n) :: files =>
    c ← idx name 0;
    if bool_decide (n = Dir) || (c =? 46) then load_files f dirPath files
    else if negb (EqualFold (filepath_Ext name) Ext) then load_files f dirPath files
    else m ← OpenMessage f (path_Join [dirPath; name]);
         match m with
         | inl e => mret (inl e)
         | inr m => ms ← load_files f dirPath files; mret match ms with inl e => inl e | inr ms => inr (m :: ms) end
         end
  end.

Definition LoadMessageDir (f : fs) (dirPath : gostr) : res (error + list message) :=
  match ReadDir f dirPath with
  | inl e => Ok (inl (New (str "Unable to read dir (" ++ dirPath ++ str "): " ++ Error e)))
  | inr files => load_files f dirPath files
  end.

Definition Inbox (h : DirHandler) (f : fs) := LoadMessageDir f (mbox_dir h DIR_INBOX).
Definition Outbox (h : DirHandler) (f : fs) := LoadMessageDir f (mbox_dir h DIR_OUTBOX).
Definition SentBox (h : DirHandler) (f : fs) := LoadMessageDir f (mbox_dir h DIR_SENT).
Definition Archive (h : DirHandler) (f : fs) := LoadMessageDir f (mbox_dir h DIR_ARCHIVE).

Definition countFiles (f : fs) (dirPath : gostr) : Z :=
  match ReadDir f dirPath with inl _ => -1 | inr files => zlen files end.

Definition InboxCount (h : DirHandler) (f : fs) := countFiles f (mbox_dir h DIR_INBOX).
Definition OutboxCount (h : DirHandler) (f : fs) := countFiles f (mbox_dir h DIR_OUTBOX).
Definition SentCount (h : DirHandler) (f : fs) := countFiles f (mbox_dir h DIR_SENT).
Definition ArchiveCount (h : DirHandler) (f : fs) := countFiles f (mbox_dir h DIR_ARCHIVE).

Definition AddOut (h : DirHandler) (m : message) (f : fs) : option error * fs :=
  match Bytes m with
  | inl e => (Some e, f)
  | inr data => WriteFile f (mbox_file h DIR_OUTBOX (MID m)) data
  end.

Fixpoint dir_ProcessInbound (h : DirHandler) (msgs : list message) (f : fs) : option error * fs :=
  match msgs with
  | [] => (None, f)
  | m :: msgs =>
    let filename := path_Join [mbox_dir h DIR_INBOX; MID m ++ Ext] in
    let m := set_hdr m (str "X-Unread") (str "true") in
    match Bytes m with
    | inl e => (Some e, f)
    | inr data =>
      match WriteFile f filename data with
      | (Some e, f) => (Some (New (str "Unable to write received message (" ++ filename ++ str "): " ++ Error e)), f)
      | (None, f) => dir_ProcessInbound h msgs f
      end
    end
  end.

Definition dir_GetInboundAnswer (h : DirHandler) (p : proposal) (f : fs) : Z :=
  if h.(sendOnly) then Defer
  else match Open_ f (mbox_file h DIR_INBOX p.(p_mid)) with
       | inr _ => Reject
       | inl ENOENT => Accept
       | inl _ => Accept
       end.

Definition dir_SetSent (h : DirHandler) (mid : gostr) (rejected : bool) (f : fs) : gostr + fs :=
  let oldPath := mbox_file h DIR_OUTBOX mid in
  let newPath := mbox_file h DIR_SENT mid in
  match Rename f oldPath newPath with
  | (Some e, _) => inl (str "Unable to move " ++ oldPath ++ str " to " ++ newPath ++ str ": " ++ Error e)
  | (None, f) => inr f
  end.

Definition dir_SetDeferred (h : DirHandler) (mid : gostr) : res DirHandler :=
  match h.(deferred) with
  | None => Panic
  | Some d => Ok (mkDir h.(MBoxPath) (Some ({[mid]} ∪ d)) h.(sendOnly))
  end.

Definition is_deferred (h : DirHandler) (mid : gostr) : bool :=
  match h.(deferred) with None => false | Some d => bool_decide (mid ∈ d) end.

(** The body of the loop: the message to deliver, if any. *)
Definition deliver_one (h : DirHandler) (fws : list address) (m : message) : option message :=
  if is_deferred h (MID m) then None
  else if 0 <? zlen fws then if existsb (IsOnlyReceiver m) fws then Some m else None
  else if (zlen fws =? 0) && bool_decide (h_Get m.(m_header) (str "X-P2POnly") = str "true") then None
  else Some (del_hdr (del_hdr (del_hdr m (str "X-P2POnly")) (str "X-FilePath")) (str "X-Unread")).

Definition dir_GetOutbound (h : DirHandler) (fws : list address) (f : fs) : res (list message) :=
  all ← LoadMessageDir f (mbox_dir h DIR_OUTBOX);
  let all := match all with inl _ => [] | inr ms => ms end in
  mret (omap (deliver_one h fws) all).

Definition SetUnread (m : message) (unread : bool) (f : fs) : option error * message * fs :=
  if negb unread && bool_decide (h_Get m.(m_header) (str "X-Unread") = []) then (None, m, f)
  else
    let m := if unread then set_hdr m (str "X-Unread") (str "true") else del_hdr m (str "X-Unread") in
    match Bytes m with
    | inl e => (Some e, m, f)
    | inr data =>
      let filePath := h_Get m.(m_header) (str "X-FilePath") in
      if bool_decide (filePath = []) then (Some (New (str "Missing X-FilePath header")), m, f)
      else let '(e, f) := WriteFile f filePath data in (e, m, f)
    end.
End mailbox.
