(* ===== verification/MailboxProps.v ===== *)
(** The directory mailbox implements a mailbox: the file of a message is where
    its MID says, the operations on files are those of three finite maps, and
    what goes wrong when a write fails or a MID is a path. *)
From S2P Require Import Prelude Crc GoStr Helpers Mid Words Proposal Transfer Message MessageFormat FileSys Mailbox.
From stdpp Require Import gmap.
Open Scope Z_scope.

(** ** Paths *)

(** An element of a path that stands for itself. *)
Record plain (c : gostr) : Prop := {
  pl_ne : c <> []; pl_dot : c <> str "."; pl_dots : c <> str ".."; pl_slash : 47 ∉ c }.

Lemma step_plain r st c : plain c -> clean_step r st c = c :: st.
Proof. intros [? ? ? _]. unfold clean_step. by rewrite !bool_decide_false. Qed.

Lemma steps_slash r cs st : Forall (fun c => 47 ∉ c) st -> Forall (fun c => 47 ∉ c) cs ->
  Forall (fun c => 47 ∉ c) (foldl (clean_step r) st cs).
Proof.
  intros Hs Hc. revert st Hs. induction Hc as [|c cs Hc _ IH]; intros st Hs; [done|]. cbn. apply IH.
  unfold clean_step. destruct (_ || _); [done|]. destruct (bool_decide _); [|by constructor].
  destruct st as [|x st]; [by destruct r; repeat constructor|]. destruct (bool_decide _); [by constructor|by inversion Hs].
Qed.

(** The elements a path is cleaned to: none is empty or a dot, and with a root
    none is two dots. *)
Lemma steps_clean r cs st : Forall (fun c => c <> [] /\ c <> str "." /\ (r = true -> c <> str "..")) st ->
  Forall (fun c => c <> [] /\ c <> str "." /\ (r = true -> c <> str "..")) (foldl (clean_step r) st cs).
Proof.
  revert st. induction cs as [|c cs IH]; intros st Hs; [done|]. cbn. apply IH. unfold clean_step.
  destruct (bool_decide_reflect (c = [])); [done|]. destruct (bool_decide_reflect (c = str ".")); [done|]. cbn [orb].
  destruct (bool_decide_reflect (c = str "..")) as [->|]; [|by constructor].
  destruct st as [|x st]; [destruct r; by repeat constructor|]. inversion Hs as [|? ? Hx Hst]; subst.
  destruct (bool_decide_reflect (x = str "..")) as [->|]; [|done]. constructor; [|done]. split_and!; [done|done|].
  intros ->. by apply Hx.
Qed.

(** Cleaning a path does not change where it leads. *)
Lemma clean_again (r : bool) st cs : (r = true -> st = []) ->
  foldl (clean_step true) st (reverse (foldl (clean_step r) [] cs)) = foldl (clean_step true) st cs.
Proof.
  intros Hr. induction cs as [|c cs IH] using rev_ind; [done|]. rewrite !foldl_app. cbn [foldl]. rewrite <- IH. clear IH.
  pose proof (steps_clean r cs [] (Forall_nil_2 _)) as Hk. set (k := foldl (clean_step r) [] cs) in *. clearbody k.
  unfold clean_step at 2 3. destruct (bool_decide (c = []) || bool_decide (c = str ".")) eqn:E1; [done|].
  assert (Hpush : forall l, foldl (clean_step true) st (reverse (c :: l)) = clean_step true (foldl (clean_step true) st (reverse l)) c)
    by (intros; by rewrite reverse_cons, foldl_app).
  destruct (bool_decide (c = str "..")) eqn:E2; [|rewrite Hpush; unfold clean_step at 1; by rewrite E1, E2].
  destruct k as [|x k].
  - destruct r; [by rewrite (Hr eq_refl)|]. rewrite Hpush. unfold clean_step at 1. by rewrite E1, E2.
  - inversion Hk as [|? ? (Hx1 & Hx2 & Hx3) _]; subst.
    destruct (bool_decide_reflect (x = str "..")); [rewrite Hpush; unfold clean_step at 1; by rewrite E1, E2|].
    rewrite reverse_cons, foldl_app. cbn [foldl]. set (s := foldl _ _ _).
    assert (clean_step true s x = x :: s) as -> by (unfold clean_step; by rewrite !bool_decide_false).
    by rewrite bool_decide_false.
Qed.

Lemma rooted_cons c s : is_rooted (c :: s) = (c =? 47).
Proof.
  unfold is_rooted, HasPrefix. change (take (length (str "/")) (c :: s)) with [c]. change (str "/") with [47].
  destruct (Z.eqb_spec c 47) as [->|]; [by rewrite bool_decide_true|rewrite bool_decide_false; [done|congruence]].
Qed.

Lemma rooted_app e s : e <> [] -> is_rooted (e ++ s) = is_rooted e.
Proof. destruct e as [|c e]; [done|]. intros _. cbn [app]. by rewrite !rooted_cons. Qed.

Section paths.
Context `{OS}.

Lemma resolve_Clean p : resolve (Clean p) = resolve p.
Proof.
  unfold Clean. set (k := foldl (clean_step (is_rooted p)) [] (Split 47 p)).
  assert (Hs : Forall (fun c => 47 ∉ c) (reverse k)) by (apply Forall_reverse, steps_slash; [constructor|apply Split_pieces]).
  pose proof (steps_clean (is_rooted p) (Split 47 p) [] (Forall_nil_2 _)) as Hk. fold k in Hk. apply Forall_reverse in Hk.
  assert (Ek : forall st, (is_rooted p = true -> st = []) ->
      foldl (clean_step true) st (reverse k) = foldl (clean_step true) st (Split 47 p)) by (intros; by apply clean_again).
  clearbody k. unfold resolve. destruct (is_rooted p) eqn:Hr.
  - change (str "/" ++ ?l) with (47 :: l). rewrite bool_decide_false by done. rewrite rooted_cons. cbn [Z.eqb]. f_equal. rewrite <- Ek by done.
    change (47 :: strings_Join ?l _) with ([] ++ 47 :: strings_Join l (str "/")).
    rewrite Split_at. change (Split 47 []) with [[] : gostr]. cbn [app foldl]. change (clean_step true [] []) with (@nil gostr).
    destruct (reverse k) as [|c cs] eqn:E; [done|]. rewrite <- E in *. rewrite Split_join, concat_Split by (done || by rewrite E).
    done.
  - cbn [app]. rewrite <- Ek by done. destruct (reverse k) as [|c cs] eqn:E; [done|]. rewrite <- E in *.
    assert (Hj : exists d s, strings_Join (reverse k) (str "/") = d :: s /\ d <> 47).
    { rewrite E in *. inversion Hs as [|? ? Hc _]. inversion Hk as [|? ? [Hn _] _]. subst. destruct c as [|d c]; [done|].
      destruct cs; exists d; eexists; (split; [reflexivity|intros ->; apply Hc; constructor]). }
    destruct Hj as (d & s & Ej & Hd). rewrite bool_decide_false by (by rewrite Ej).
    rewrite Ej at 1. rewrite rooted_cons, (proj2 (Z.eqb_neq d 47) Hd).
    by rewrite Split_join, concat_Split by (done || by rewrite E).
Qed.

(** Where a joined path leads. *)
Lemma resolve_Join e es :
  e <> [] -> Forall (fun e => e <> []) es ->
  resolve (path_Join (e :: es)) = reverse (foldl (clean_step true) (reverse (resolve e)) (concat (Split 47 <$> es))).
Proof.
  intros He Hes. unfold path_Join. rewrite filter_cons_True by done.
  assert (filter (fun e : gostr => e <> []) es = es) as ->.
  { induction Hes as [|x es Hx _ IH]; [done|]. by rewrite filter_cons_True, IH. }
  rewrite resolve_Clean. unfold resolve. rewrite Split_join by done. cbn [fmap list_fmap concat].
  rewrite foldl_app, reverse_involutive. do 2 f_equal.
  assert (is_rooted (strings_Join (e :: es) (str "/")) = is_rooted e) as ->; [|done].
  destruct es; [done|]. by apply rooted_app.
Qed.

Lemma steps_plain st cs : Forall plain cs ->
  reverse (foldl (clean_step true) (reverse st) cs) = st ++ cs.
Proof.
  intros Hc. revert st. induction Hc as [|c cs Hc _ IH]; intros st; [cbn [foldl]; by rewrite app_nil_r, reverse_involutive|].
  cbn [foldl]. rewrite step_plain by done. rewrite <- reverse_snoc, IH, <- app_assoc. done.
Qed.

Lemma resolve_name q name : q <> [] -> plain name -> resolve (path_Join [q; name]) = resolve q ++ [name].
Proof.
  intros Hq Hn. rewrite resolve_Join by (done || by apply Forall_singleton, (pl_ne name)).
  rewrite concat_Split by apply Forall_singleton, (pl_slash name Hn). apply steps_plain. by apply Forall_singleton.
Qed.

(** The directory a mailbox is in: with an empty path its directories are at the
    root. *)
Definition mbox_root (h : DirHandler) : fpath := match h.(MBoxPath) with [] => [] | p => resolve p end.

Definition is_box (d : gostr) : Prop := d = DIR_INBOX \/ d = DIR_OUTBOX \/ d = DIR_SENT \/ d = DIR_ARCHIVE.
Definition box_name (d : gostr) : gostr := take (length d - 2) (drop 1 d).

Lemma box_step d st : is_box d -> foldl (clean_step true) st (Split 47 d) = box_name d :: st.
Proof. intros [-> | [-> | [-> | ->]]]; reflexivity. Qed.

Lemma box_ne d : is_box d -> d <> [].
Proof. by intros [-> | [-> | [-> | ->]]]. Qed.

Lemma box_inj d d' : is_box d -> is_box d' -> box_name d = box_name d' -> d = d'.
Proof. by intros [-> | [-> | [-> | ->]]] [-> | [-> | [-> | ->]]]. Qed.

Lemma mid_plain mid : 47 ∉ mid -> plain (mid ++ Ext).
Proof.
  assert (L : length (mid ++ Ext) = (length mid + 4)%nat) by apply length_app.
  intros Hm. split; [intros E|intros E|intros E|]; try (rewrite E in L; cbn in L; lia).
  apply not_elem_app; [done|by apply not_elem_existsb].
Qed.

(** The directories and the files of a mailbox. *)
Lemma resolve_dir h d : is_box d -> resolve (mbox_dir h d) = mbox_root h ++ [box_name d].
Proof.
  intros Hd. unfold mbox_dir, mbox_root. destruct (MBoxPath h) as [|c p] eqn:E.
  - by destruct Hd as [-> | [-> | [-> | ->]]].
  - rewrite resolve_Join by (done || by apply Forall_singleton, box_ne). cbn [fmap list_fmap concat].
    rewrite app_nil_r, box_step by done. by rewrite reverse_cons, reverse_involutive.
Qed.

Lemma mbox_dir_ne h d : is_box d -> mbox_dir h d <> [].
Proof.
  intros Hd. unfold mbox_dir, path_Join. destruct (MBoxPath h) as [|c p].
  - by destruct Hd as [-> | [-> | [-> | ->]]].
  - rewrite filter_cons_True by done. unfold Clean. by case_bool_decide.
Qed.

Lemma resolve_file h d mid : is_box d -> 47 ∉ mid -> resolve (mbox_file h d mid) = mbox_root h ++ [box_name d; mid ++ Ext].
Proof.
  intros Hd Hm. pose proof (mid_plain mid Hm) as Hp. unfold mbox_file, mbox_root. destruct (MBoxPath h) as [|c p] eqn:E.
  - assert (path_Join [[]; d; mid ++ Ext] = path_Join [d; mid ++ Ext]) as -> by done.
    rewrite resolve_name by (done || by apply box_ne). by destruct Hd as [-> | [-> | [-> | ->]]].
  - rewrite resolve_Join by (done || by apply Forall_cons_2; [apply box_ne|apply Forall_singleton, (pl_ne _ Hp)]). cbn [fmap list_fmap concat].
    rewrite app_nil_r, foldl_app, (box_step d _ Hd), (Split_none 47 _ (pl_slash _ Hp)). cbn [foldl].
    rewrite step_plain, !reverse_cons, reverse_involutive, <- app_assoc by done. done.
Qed.

(** [ProcessInbound] joins in two steps. *)
Lemma resolve_file2 h d mid : is_box d -> 47 ∉ mid ->
  resolve (path_Join [mbox_dir h d; mid ++ Ext]) = mbox_root h ++ [box_name d; mid ++ Ext].
Proof.
  intros Hd Hm. rewrite resolve_name by (by apply mbox_dir_ne || by apply mid_plain). rewrite resolve_dir, <- app_assoc by done. done.
Qed.
End paths.

(** ** Looking up files *)
Lemma look_from_insert f a n pre rest : ~ a `prefix_of` pre ++ rest ->
  look_from (<[a := n]> f) pre rest = look_from f pre rest.
Proof.
  revert pre. induction rest as [|c rest IH]; intros pre Ha.
  all: assert (Hne : a <> pre) by (intros ->; by apply Ha, prefix_app_r).
  all: assert (node_at (<[a := n]> f) pre = node_at f pre) as E by (destruct pre; [done|]; by apply lookup_insert_ne).
  all: cbn [look_from]; rewrite E.
  { done. }
  destruct (node_at f pre) as [[]|]; [|done|done].
  apply IH. by rewrite <- app_assoc.
Qed.

Lemma look_from_delete f a pre rest : ~ a `prefix_of` pre ++ rest ->
  look_from (delete a f) pre rest = look_from f pre rest.
Proof.
  revert pre. induction rest as [|c rest IH]; intros pre Ha.
  all: assert (Hne : a <> pre) by (intros ->; by apply Ha, prefix_app_r).
  all: assert (node_at (delete a f) pre = node_at f pre) as E by (destruct pre; [done|]; by apply lookup_delete_ne).
  all: cbn [look_from]; rewrite E.
  { done. }
  destruct (node_at f pre) as [[]|]; [|done|done].
  apply IH. by rewrite <- app_assoc.
Qed.

Lemma look_from_child f pre rest c : look_from f pre rest = inr Dir ->
  look_from f pre (rest ++ [c]) = match f !! (pre ++ rest ++ [c]) with Some n => inr n | None => inl ENOENT end.
Proof.
  revert pre. induction rest as [|d rest IH]; intros pre; cbn [look_from app].
  - destruct (node_at f pre) as [[]|]; [|done|done]. intros _. unfold node_at.
    destruct (pre ++ [c]) eqn:E; [by destruct pre|]. by destruct (f !! _) as [[]|].
  - destruct (node_at f pre) as [[]|]; [|done|done]. intros Hd. rewrite (IH _ Hd). by rewrite <- app_assoc.
Qed.

Lemma look_child f p c : look f p = inr Dir -> look f (p ++ [c]) = match f !! (p ++ [c]) with Some n => inr n | None => inl ENOENT end.
Proof. apply (look_from_child f []). Qed.

Lemma look_mono f g pre rest n : f ⊆ g -> look_from f pre rest = inr n -> look_from g pre rest = inr n.
Proof.
  intros Hs. revert pre. induction rest as [|c rest IH]; intros pre; cbn [look_from].
  all: assert (forall x, node_at f pre = Some x -> node_at g pre = Some x) as Hn
    by (destruct pre; [done|]; intros x Hx; exact (lookup_weaken f g _ x Hx Hs)).
  all: destruct (node_at f pre) as [x|]; [|done]; rewrite (Hn x eq_refl).
  { done. }
  destruct x; [apply IH|done].
Qed.

(** ** The mailbox as a finite map *)

(** What a mailbox holds: the data of each message by directory and MID. *)
Abbreviation mail := (gmap (gostr * gostr) gostr).

Section refinement.
Context `{OS} `{Charset} `{Clock}.

(** A system that refuses nothing and writes all it is given. *)
Record fair : Prop := { fair_refuses : forall p, refuses p = None; fair_stops : forall p d, stops p d = None }.

Record represents (h : DirHandler) (f : fs) (a : mail) : Prop := {
  rep_dirs : forall d, is_box d -> look f (mbox_root h ++ [box_name d]) = inr Dir;
  rep_files : forall d mid, is_box d -> 47 ∉ mid ->
    f !! (mbox_root h ++ [box_name d; mid ++ Ext]) = File <$> a !! (d, mid) }.

(** The operations that change the mailbox. *)
Inductive event := Queue (m : message) | Receive (m : message) | Settle (mid : gostr) (rejected : bool).

Definition event_mid (e : event) : gostr := match e with Queue m | Receive m => MID m | Settle mid _ => mid end.

(** What they promise; [None] is the end of the process. *)
Definition put_mail (d : gostr) (mid : gostr) (data : error + gostr) (a : mail) : option error * mail :=
  match data with inl e => (Some e, a) | inr x => (None, <[(d, mid) := x]> a) end.

Definition spec (e : event) (a : mail) : option (option error * mail) :=
  match e with
  | Queue m => Some (put_mail DIR_OUTBOX (MID m) (Bytes m) a)
  | Receive m => Some (put_mail DIR_INBOX (MID m) (Bytes (set_hdr m (str "X-Unread") (str "true"))) a)
  | Settle mid _ =>
    match a !! (DIR_OUTBOX, mid) with
    | None => None
    | Some x => Some (None, <[(DIR_SENT, mid) := x]> (delete (DIR_OUTBOX, mid) a))
    end
  end.

(** What they do. *)
Definition exec (h : DirHandler) (e : event) (f : fs) : option (option error * fs) :=
  match e with
  | Queue m => Some (AddOut h m f)
  | Receive m => Some (dir_ProcessInbound h [m] f)
  | Settle mid rejected => match dir_SetSent h mid rejected f with inl _ => None | inr f => Some (None, f) end
  end.

Fixpoint run {St} (step : event -> St -> option (option error * St)) (es : list event) (s : St)
  : option (list (option error) * St) :=
  match es with
  | [] => Some ([], s)
  | e :: es =>
    match step e s with
    | None => None
    | Some (err, s) => match run step es s with None => None | Some (errs, s) => Some (err :: errs, s) end
    end
  end.

(** The files of a mailbox are in its directories, apart from each other. *)
Lemma file_not_dir h d mid (x : gostr) : ~ mbox_root h ++ [box_name d; mid ++ Ext] `prefix_of` mbox_root h ++ [x].
Proof. intros [k E]. rewrite <- app_assoc in E. apply app_inv_head in E. discriminate. Qed.

Lemma file_inj h d mid d' mid' : is_box d -> is_box d' ->
  mbox_root h ++ [box_name d; mid ++ Ext] = mbox_root h ++ [box_name d'; mid' ++ Ext] -> (d, mid) = (d', mid').
Proof.
  intros Hd Hd' E. apply app_inv_head in E. injection E as E1 E2. apply app_inv_tail in E2. subst.
  by rewrite (box_inj d d').
Qed.

Lemma root_file h d mid : mbox_root h ++ [box_name d; mid ++ Ext] = (mbox_root h ++ [box_name d]) ++ [mid ++ Ext].
Proof. by rewrite <- app_assoc. Qed.

Lemma rep_insert h f a d mid x : represents h f a -> is_box d -> 47 ∉ mid ->
  represents h (<[mbox_root h ++ [box_name d; mid ++ Ext] := File x]> f) (<[(d, mid) := x]> a).
Proof.
  intros [Hd Hf] Hb Hm. split.
  - intros d' Hb'. unfold look. rewrite look_from_insert by apply file_not_dir. by apply Hd.
  - intros d' mid' Hb' Hm'. destruct (decide ((d, mid) = (d', mid'))) as [[= -> ->]|Hne].
    + by rewrite !lookup_insert_eq.
    + rewrite !lookup_insert_ne; [by apply Hf|done|]. intros E. by apply Hne, (file_inj h).
Qed.

Lemma rep_delete h f a d mid : represents h f a -> is_box d -> 47 ∉ mid ->
  represents h (delete (mbox_root h ++ [box_name d; mid ++ Ext]) f) (delete (d, mid) a).
Proof.
  intros [Hd Hf] Hb Hm. split.
  - intros d' Hb'. unfold look. rewrite look_from_delete by apply file_not_dir. by apply Hd.
  - intros d' mid' Hb' Hm'. destruct (decide ((d, mid) = (d', mid'))) as [[= -> ->]|Hne].
    + by rewrite !lookup_delete_eq.
    + rewrite !lookup_delete_ne; [by apply Hf|done|]. intros E. by apply Hne, (file_inj h).
Qed.

Lemma rep_look h f a d mid : represents h f a -> is_box d -> 47 ∉ mid ->
  look f (mbox_root h ++ [box_name d; mid ++ Ext]) = match a !! (d, mid) with Some x => inr (File x) | None => inl ENOENT end.
Proof.
  intros [Hd Hf] Hb Hm. rewrite root_file, look_child by auto. rewrite <- root_file, Hf by done. by destruct (a !! _).
Qed.

Lemma rep_parent h f a d mid : represents h f a -> is_box d -> parent f (mbox_root h ++ [box_name d; mid ++ Ext]) = None.
Proof.
  intros [Hd _] Hb. unfold parent, dir_of. rewrite root_file, length_app, Nat.add_sub, take_app_length. by rewrite Hd.
Qed.

Lemma file_ne h d mid : exists c p, mbox_root h ++ [box_name d; mid ++ Ext] = c :: p.
Proof. destruct (mbox_root h); cbn; eauto. Qed.

Lemma rep_node h f a d mid : represents h f a -> is_box d -> 47 ∉ mid ->
  node_at f (mbox_root h ++ [box_name d; mid ++ Ext]) = File <$> a !! (d, mid).
Proof. intros [_ Hf] Hb Hm. rewrite <- Hf by done. destruct (file_ne h d mid) as (c & p & E). by rewrite E. Qed.

(** Writing a file of the mailbox. *)
Lemma write_file h f a d mid p x : represents h f a -> is_box d -> 47 ∉ mid ->
  refuses (mbox_root h ++ [box_name d; mid ++ Ext]) = None ->
  resolve p = mbox_root h ++ [box_name d; mid ++ Ext] ->
  WriteFile f p x = match stops (mbox_root h ++ [box_name d; mid ++ Ext]) x with
                    | Some (n, r) => (Some (PathError (str "write") p (Refused r)),
                                      <[mbox_root h ++ [box_name d; mid ++ Ext] := File (take n x)]> f)
                    | None => (None, <[mbox_root h ++ [box_name d; mid ++ Ext] := File x]> f)
                    end.
Proof.
  intros Hr Hb Hm Hn Hp. unfold WriteFile. rewrite Hp, Hn, (rep_parent _ _ _ _ _ Hr Hb), (rep_node _ _ _ _ _ Hr Hb Hm).
  by destruct (a !! (d, mid)).
Qed.

Lemma in_box : is_box DIR_INBOX. Proof. by left. Qed.
Lemma out_box : is_box DIR_OUTBOX. Proof. by right; left. Qed.
Lemma sent_box : is_box DIR_SENT. Proof. by right; right; left. Qed.
Hint Resolve in_box out_box sent_box : core.

Lemma settle_ok h f a mid x : fair -> represents h f a -> 47 ∉ mid -> a !! (DIR_OUTBOX, mid) = Some x -> forall rej,
  dir_SetSent h mid rej f = inr (<[mbox_root h ++ [box_name DIR_SENT; mid ++ Ext] := File x]>
                                   (delete (mbox_root h ++ [box_name DIR_OUTBOX; mid ++ Ext]) f)).
Proof.
  intros Hf Hr Hm Ea rej. unfold dir_SetSent, Rename, rename_err. rewrite !resolve_file by auto.
  rewrite !(fair_refuses Hf), !(rep_look _ _ _ _ _ Hr), Ea by auto.
  rewrite (rep_parent _ _ _ _ _ Hr), (rep_node _ _ _ _ _ Hr) by auto.
  destruct (a !! (DIR_SENT, mid)); reflexivity.
Qed.

Lemma exec_spec h f a e : fair -> represents h f a -> 47 ∉ event_mid e ->
  match spec e a with
  | None => exec h e f = None
  | Some (err, a') => exists f', exec h e f = Some (err, f') /\ represents h f' a'
  end.
Proof.
  intros Hf Hr Hm. destruct e as [m|m|mid rej]; cbn [spec exec event_mid] in *.
  - unfold AddOut, put_mail. destruct (Bytes m) as [e|x]; [eauto 10|].
    rewrite (write_file h f a DIR_OUTBOX (MID m)), (fair_stops Hf) by (auto using resolve_file || apply (fair_refuses Hf)).
    eauto 10 using rep_insert.
  - cbn [dir_ProcessInbound]. unfold put_mail. destruct (Bytes _) as [e|x]; [eauto 10|].
    rewrite (write_file h f a DIR_INBOX (MID m)), (fair_stops Hf) by (auto using resolve_file2 || apply (fair_refuses Hf)).
    eauto 10 using rep_insert.
  - destruct (a !! (DIR_OUTBOX, mid)) as [x|] eqn:E.
    + rewrite (settle_ok h f a mid x) by done. eauto 10 using rep_insert, rep_delete.
    + unfold dir_SetSent, Rename, rename_err. rewrite !resolve_file by auto.
      by rewrite !(fair_refuses Hf), (rep_look _ _ _ _ _ Hr), E by auto.
Qed.

Lemma run_spec h f a es : fair -> represents h f a -> Forall (fun e => 47 ∉ event_mid e) es ->
  match run spec es a with
  | None => run (exec h) es f = None
  | Some (errs, a') => exists f', run (exec h) es f = Some (errs, f') /\ represents h f' a'
  end.
Proof.
  intros Hf Hr He. revert f a Hr. induction He as [|e es He _ IH]; intros f a Hr; cbn [run]; [eauto|].
  pose proof (exec_spec h f a e Hf Hr He) as He'. destruct (spec e a) as [[err a1]|]; [|by rewrite He'].
  destruct He' as (f1 & -> & Hr1). specialize (IH f1 a1 Hr1). destruct (run spec es a1) as [[errs a2]|]; [|by rewrite IH].
  destruct IH as (f2 & -> & Hr2). eauto.
Qed.

Lemma answer_spec h f a p : fair -> represents h f a -> 47 ∉ p.(p_mid) ->
  dir_GetInboundAnswer h p f =
    if h.(sendOnly) then Defer else if decide (is_Some (a !! (DIR_INBOX, p.(p_mid)))) then Reject else Accept.
Proof.
  intros Hf Hr Hm. unfold dir_GetInboundAnswer. destruct (sendOnly h); [done|].
  unfold Open_. rewrite resolve_file, (fair_refuses Hf), (rep_look _ _ _ _ _ Hr) by auto.
  destruct (a !! (DIR_INBOX, p_mid p)) as [x|].
  - by rewrite decide_True by eauto.
  - by rewrite decide_False by (by intros [? ?]).
Qed.

(** ** A new mailbox *)
Definition only_dirs (f : fs) : Prop := forall p n, f !! p = Some n -> n = Dir.

Lemma mkdirs_ok f pre rest : (forall p, refuses p = None) -> only_dirs f -> node_at f pre = Some Dir ->
  exists f', mkdirs f pre rest = (None, f') /\ only_dirs f' /\ f ⊆ f' /\ look_from f' pre rest = inr Dir /\
    forall q, f' !! q = f !! q \/ q `prefix_of` pre ++ rest.
Proof.
  intros Hn. revert f pre. induction rest as [|c rest IH]; intros f pre Hd Hp.
  - exists f. split_and!; auto. cbn [look_from]. by rewrite Hp.
  - assert (Hw : forall g f', g ⊆ f' -> f ⊆ g -> look_from f' (pre ++ [c]) rest = inr Dir ->
        look_from f' pre (c :: rest) = inr Dir).
    { intros g f' ? ? Hl. cbn [look_from]. assert (node_at f' pre = Some Dir) as ->; [|done].
      destruct pre; [done|]. refine (lookup_weaken f f' _ _ Hp _). by transitivity g. }
    cbn [mkdirs]. assert (Ha : forall g : fs, node_at g (pre ++ [c]) = g !! (pre ++ [c])) by (intros; by destruct pre).
    rewrite Ha. destruct (f !! (pre ++ [c])) as [n|] eqn:E.
    + pose proof (Hd _ _ E) as ->. destruct (IH f (pre ++ [c]) Hd) as (f' & -> & K1 & K2 & K3 & K4); [by rewrite Ha|].
      exists f'. split_and!; eauto. intros q. destruct (K4 q) as [?|Hq]; [by left|right]. by rewrite <- app_assoc in Hq.
    + rewrite Hn. destruct (IH (<[pre ++ [c] := Dir]> f) (pre ++ [c])) as (f' & -> & K1 & K2 & K3 & K4).
      * intros p n. rewrite lookup_insert_Some. intros [[_ <-]|[_ Hx]]; [done|by apply (Hd p)].
      * by rewrite Ha, lookup_insert_eq.
      * assert (f ⊆ <[pre ++ [c] := Dir]> f) by by apply insert_subseteq.
        exists f'. split_and!; eauto; [by transitivity (<[pre ++ [c] := Dir]> f)|].
        intros q. destruct (K4 q) as [Hq|Hq]; [|right; by rewrite <- app_assoc in Hq].
        destruct (decide (q = pre ++ [c])) as [->|Hne]; [right; exists rest; by rewrite <- app_assoc|].
        left. by rewrite Hq, lookup_insert_ne.
Qed.

Lemma mkdir_list_ok h f ds : (forall p, refuses p = None) -> only_dirs f -> Forall is_box ds ->
  exists f', mkdir_list f (mbox_dir h <$> ds) = (None, f') /\ f ⊆ f' /\
    Forall (fun d => look f' (mbox_root h ++ [box_name d]) = inr Dir) ds /\
    forall q, f' !! q = f !! q \/ exists d, q `prefix_of` mbox_root h ++ [box_name d].
Proof.
  intros Hn Hd Hb. revert f Hd. induction Hb as [|d ds Hb _ IH]; intros f Hd; [exists f; split_and!; auto|].
  cbn [fmap list_fmap mkdir_list]. unfold MkdirAll. rewrite resolve_dir by done.
  destruct (mkdirs_ok f [] (mbox_root h ++ [box_name d]) Hn Hd eq_refl) as (f1 & -> & D1 & S1 & L1 & K1).
  destruct (IH f1 D1) as (f2 & E2 & S2 & L2 & K2). exists f2. split_and!.
  - exact E2.
  - by transitivity f1.
  - constructor; [by apply (look_mono f1)|done].
  - intros q. destruct (K2 q) as [->|]; [|by right]. destruct (K1 q) as [->|]; [by left|right]. by exists d.
Qed.

(** Preparing a mailbox where there is nothing yet. *)
Lemma prepare_empty h : fair -> exists f, dir_Prepare h ∅ = (None, mkDir h.(MBoxPath) (Some ∅) h.(sendOnly), f) /\
  represents (mkDir h.(MBoxPath) (Some ∅) h.(sendOnly)) f ∅.
Proof.
  intros Hf. unfold dir_Prepare. set (h' := mkDir _ _ _).
  destruct (mkdir_list_ok h' ∅ [DIR_INBOX; DIR_OUTBOX; DIR_SENT; DIR_ARCHIVE] (fair_refuses Hf)) as (f & E & _ & L & K).
  - intros p n. by rewrite lookup_empty.
  - unfold is_box. repeat constructor; tauto.
  - unfold ensureDirStructure. cbv zeta. change (fun d => path_Join [MBoxPath h'; d]) with (mbox_dir h'). rewrite E.
    exists f. split; [done|]. split.
    + rewrite !Forall_cons in L. intros d [-> | [-> | [-> | ->]]]; apply L.
    + intros d mid _ _. rewrite lookup_empty. destruct (K (mbox_root h' ++ [box_name d; mid ++ Ext])) as [->|[x Hx]].
      * by rewrite lookup_empty.
      * by apply file_not_dir in Hx.
Qed.
End refinement.

(** C9. The directory mailbox implements a finite map from directory and MID to
    message: on a system that does not fail, whatever sequence of messages is
    queued, received and marked as sent, the operations return what the map says
    (an error only when a message has none, the end of the process only when a
    message to mark as sent is not in the outbox), the files on disk are the map
    afterwards, and a proposal is rejected exactly when its message is in the
    inbox. *)
Theorem mailbox_refines `{OS} `{Charset} `{Clock} h f a es :
  fair -> represents h f a -> Forall (fun e => 47 ∉ event_mid e) es ->
  match run spec es a with
  | None => run (exec h) es f = None
  | Some (errs, a') => exists f', run (exec h) es f = Some (errs, f') /\ represents h f' a' /\
      forall p, 47 ∉ p.(p_mid) -> dir_GetInboundAnswer h p f' =
        if h.(sendOnly) then Defer else if decide (is_Some (a' !! (DIR_INBOX, p.(p_mid)))) then Reject else Accept
  end.
Proof.
  intros Hf Hr He. pose proof (run_spec h f a es Hf Hr He) as Hs. destruct (run spec es a) as [[errs a']|]; [|done].
  destruct Hs as (f' & E & Hr'). exists f'. split_and!; auto using answer_spec.
Qed.

(** A system to try it on. *)
Definition quiet_os : OS := {| cwd := [str "home"]; refuses := fun _ => None; stops := fun _ _ => None |}.
Lemma quiet_fair : fair (H := quiet_os). Proof. by split. Qed.

Definition sample_handler : DirHandler := mkDir (str "../mbox") (Some ∅) false.

Lemma mailbox_refines_witness : exists f f',
  represents (H := quiet_os) sample_handler f ∅ /\
  run (exec (H := quiet_os) (H1 := any_clock) sample_handler)
    [Queue sample_message; Settle (str "ABCDEF") false; Receive sample_message] f = Some ([None; None; None], f') /\
  dir_GetInboundAnswer (H := quiet_os) sample_handler (set_mid newProposal (str "ABCDEF")) f' = Reject /\
  dir_GetInboundAnswer (H := quiet_os) sample_handler (set_mid newProposal (str "OTHER")) f' = Accept.
Proof.
  destruct (prepare_empty (H := quiet_os) sample_handler quiet_fair) as (f & _ & Hr).
  pose proof (mailbox_refines (H := quiet_os) (H0 := raw_charset) (H1 := any_clock) sample_handler f ∅
    [Queue sample_message; Settle (str "ABCDEF") false; Receive sample_message] quiet_fair Hr) as T.
  assert (Hm : Forall (fun e => 47 ∉ event_mid e) [Queue sample_message; Settle (str "ABCDEF") false; Receive sample_message])
    by (repeat apply Forall_cons_2; try apply Forall_nil_2; by apply not_elem_existsb).
  specialize (T Hm).
  assert (C : match run (spec (H1 := any_clock)) [Queue sample_message; Settle (str "ABCDEF") false; Receive sample_message] ∅ with
    | Some (errs, a) => bool_decide (errs = [None; None; None]) && bool_decide (is_Some (a !! (DIR_INBOX, str "ABCDEF")))
                        && negb (bool_decide (is_Some (a !! (DIR_INBOX, str "OTHER"))))
    | None => false end = true) by (vm_compute; reflexivity).
  destruct (run spec _ ∅) as [[errs a']|]; [|discriminate C]. rewrite !andb_true_iff, negb_true_iff in C.
  destruct C as [[C1 C2] C3]. apply bool_decide_eq_true in C1, C2. apply bool_decide_eq_false in C3. subst errs.
  destruct T as (f' & E & _ & Ha). exists f, f'. split_and!; [exact Hr|exact E|..].
  - rewrite Ha by (by apply not_elem_existsb). exact (decide_True Reject Accept C2).
  - rewrite Ha by (by apply not_elem_existsb). exact (decide_False Reject Accept C3).
Defined.

(** ** A message in the inbox *)
Definition X_Unread := str "X-Unread".

(** Another header field does not make it worse. *)
Lemma good_mark `{Clock} m k v : good_message m -> CanonicalKey k = k -> good_key k -> good_value v ->
  k ∉ [HEADER_MID; HEADER_BODY; HEADER_FILE; HEADER_DATE] -> good_message (set_hdr m k v).
Proof.
  intros [[Hm Ha] Hb Hf Hd] Ec Hk Hv Hn. rewrite !not_elem_of_cons in Hn. destruct Hn as (N1 & N2 & N3 & N4 & _).
  assert (K : forall k', k' <> k -> h_Set m.(m_header) k v !! k' = m.(m_header) !! k')
    by (intros k' Hk'; unfold h_Set; rewrite Ec; by apply lookup_insert_ne).
  split; cbn [m_header m_body m_files set_hdr].
  - split; [by rewrite K|]. intros k' vs. destruct (decide (k' = k)) as [->|Hk']; [|rewrite K by done; by apply Ha].
    unfold h_Set. rewrite Ec, lookup_insert_eq. intros [= <-]. split_and!; [done|done|by apply Forall_singleton].
  - unfold BodySize, h_Get, h_get, h_values in *. cbn [set_hdr m_header]. by rewrite K.
  - unfold h_values in *. by rewrite K.
  - unfold h_Get, h_get, h_values in *. by rewrite K.
Qed.

Lemma good_unread `{Clock} m : good_message m -> good_message (set_hdr m X_Unread (str "true")).
Proof.
  intros Hg. apply good_mark; [done|done|by split|by apply good_value_check|].
  by apply (bool_decide_unpack _); vm_compute.
Qed.

(** C12. A received message is in the inbox: it is read back with the same body, the
    same attachments and the same header, marked as unread, and from then on
    proposals of its MID are rejected. *)
Theorem received_message_kept `{OS} `{Charset} `{Clock} h f a m :
  fair -> represents h f a -> good_message m -> 47 ∉ MID m ->
  let path := path_Join [mbox_dir h DIR_INBOX; MID m ++ Ext] in
  exists f' m', dir_ProcessInbound h [m] f = (None, f') /\ OpenMessage f' path = Ok (inr m') /\
    m'.(m_header) = h_Set (h_Set m.(m_header) (str "X-Unread") (str "true")) (str "X-FilePath") path /\
    m'.(m_body) = m.(m_body) /\ f_data <$> m'.(m_files) = f_data <$> m.(m_files) /\ IsUnread m' = true /\
    forall p, p.(p_mid) = MID m -> dir_GetInboundAnswer h p f' = if h.(sendOnly) then Defer else Reject.
Proof.
  intros Hf Hr Hg Hm path. pose proof (resolve_file2 h DIR_INBOX (MID m) in_box Hm) as Hp. fold path in Hp.
  pose proof (good_unread m Hg) as Hu. destruct (read_message _ Hu) as (out & Eo & Ro).
  set (f' := <[mbox_root h ++ [box_name DIR_INBOX; MID m ++ Ext] := File out]> f).
  pose proof (rep_insert h f a DIR_INBOX (MID m) out Hr in_box Hm) as Hr'. fold f' in Hr'.
  exists f'. eexists. split.
  { cbn [dir_ProcessInbound]. fold path. fold X_Unread. rewrite Eo.
    by rewrite (write_file h f a DIR_INBOX (MID m)), (fair_stops Hf) by (auto using in_box || apply (fair_refuses Hf)). }
  split.
  { unfold OpenMessage, Open_. rewrite Hp, (fair_refuses Hf), (rep_look _ _ _ _ _ Hr') by auto using in_box.
    rewrite lookup_insert_eq, Ro, bind_Ok. reflexivity. }
  cbn [set_hdr m_header m_body m_files]. split; [reflexivity|]. split; [reflexivity|]. split; [|split].
  - pose proof (gm_files _ Hu) as F. cbn [set_hdr m_header m_files] in F.
    clear -F. induction F as [|v x vs xs _ _ IH]; [done|]. cbn. f_equal. exact IH.
  - unfold IsUnread. cbn [set_hdr m_header]. rewrite h_Get_Set_ne by discriminate. by rewrite h_Get_Set, bool_decide_true.
  - intros p Ep. rewrite (answer_spec h f' _ p Hf Hr') by (by rewrite Ep). rewrite Ep, lookup_insert_eq.
    by rewrite decide_True by eauto.
Qed.

Lemma received_message_kept_witness : exists f f' m',
  dir_ProcessInbound (H := quiet_os) (H1 := any_clock) sample_handler [sample_message] f = (None, f') /\
  OpenMessage (H := quiet_os) (H0 := raw_charset) (H1 := any_clock) f' (str "../mbox/in/ABCDEF.b2f") = Ok (inr m') /\
  m'.(m_body) = str "Hi" ++ [13; 10] /\ f_data <$> m'.(m_files) = [[1; 10; 2]] /\ IsUnread m' = true.
Proof.
  destruct (prepare_empty (H := quiet_os) sample_handler quiet_fair) as (f & _ & Hr).
  destruct (received_message_kept (H := quiet_os) (H0 := raw_charset) (H1 := any_clock) sample_handler f ∅ sample_message
    quiet_fair Hr sample_message_good) as (f' & m' & E & R & _ & Hb & Hd & Hu & _).
  - by apply not_elem_existsb.
  - exists f, f', m'. split_and!; [exact E|exact R|exact Hb|exact Hd|exact Hu].
Defined.

(** A write that stops part of the way leaves a file behind: the message is
    reported as not received, and yet every later proposal of it is rejected. *)
Theorem partial_write_rejects `{O : OS} `{Charset} `{Clock} h f a m data n reason :
  represents h f a -> 47 ∉ MID m -> Bytes (set_hdr m (str "X-Unread") (str "true")) = inr data ->
  (forall p, refuses p = None) -> stops (mbox_root h ++ [box_name DIR_INBOX; MID m ++ Ext]) data = Some (n, reason) ->
  exists e f', dir_ProcessInbound h [m] f = (Some e, f') /\
    f' !! (mbox_root h ++ [box_name DIR_INBOX; MID m ++ Ext]) = Some (File (take n data)) /\
    forall p, p.(p_mid) = MID m -> h.(sendOnly) = false -> dir_GetInboundAnswer h p f' = Reject.
Proof.
  intros Hr Hm Eb Hn Hs. set (x := mbox_root h ++ [box_name DIR_INBOX; MID m ++ Ext]) in *.
  eexists _, (<[x := File (take n data)]> f). split_and!.
  - cbn [dir_ProcessInbound]. rewrite Eb.
    rewrite (write_file h f a DIR_INBOX (MID m)) by (auto using in_box, resolve_file2). fold x. by rewrite Hs.
  - by rewrite lookup_insert_eq.
  - intros p Ep Hso. unfold x. unfold dir_GetInboundAnswer, Open_. rewrite Hso, Ep, resolve_file, Hn by auto using in_box.
    rewrite (rep_look h _ (<[(DIR_INBOX, MID m) := take n data]> a)) by auto using in_box, rep_insert.
    by rewrite lookup_insert_eq.
Qed.

Definition full_os : OS := {| cwd := []; refuses := fun _ => None; stops := fun _ _ => Some (10%nat, str "no space left on device") |}.

Lemma partial_write_rejects_witness : exists f e f',
  dir_ProcessInbound (H := full_os) (H1 := any_clock) sample_handler [sample_message] f = (Some e, f') /\
  f' !! [str "mbox"; str "in"; str "ABCDEF.b2f"] = Some (File (str "Mid: ABCDE")) /\
  dir_GetInboundAnswer (H := full_os) sample_handler (set_mid newProposal (str "ABCDEF")) f' = Reject.
Proof.
  destruct (prepare_empty (H := quiet_os) sample_handler quiet_fair) as (f & _ & Hr).
  destruct (read_message (H0 := any_clock) (H := raw_charset) _ (good_unread (H := any_clock) _ sample_message_good)) as (data & Ed & _).
  assert (T : take 10 data = str "Mid: ABCDE").
  { assert (C : match Bytes (H0 := any_clock) (set_hdr sample_message (str "X-Unread") (str "true")) with
      inr d => bool_decide (take 10 d = str "Mid: ABCDE") | inl _ => false end = true) by (vm_compute; reflexivity).
    unfold X_Unread in Ed. rewrite Ed in C. by apply bool_decide_eq_true in C. }
  destruct (partial_write_rejects (O := full_os) (H := raw_charset) (H0 := any_clock) sample_handler f ∅ sample_message data 10
    (str "no space left on device")) as (e & f' & E & F & A).
  - destruct Hr as [Hd Hf]. split; [exact Hd|exact Hf].
  - by apply not_elem_existsb.
  - exact Ed.
  - reflexivity.
  - reflexivity.
  - exists f, e, f'. rewrite T in F. split_and!; [exact E|exact F|]. by apply A.
Defined.

(** The MID of a received message is used as a path: one that begins with
    [../out/] is stored in the outbox, where it is offered to the next station
    as one's own. *)
Theorem mid_escapes_inbox `{OS} `{Charset} `{Clock} h f a m x data :
  fair -> represents h f a -> MID m = str "../out/" ++ x -> 47 ∉ x ->
  Bytes (set_hdr m (str "X-Unread") (str "true")) = inr data ->
  exists f', dir_ProcessInbound h [m] f = (None, f') /\ represents h f' (<[(DIR_OUTBOX, x) := data]> a).
Proof.
  intros Hf Hr Em Hx Eb. exists (<[mbox_root h ++ [box_name DIR_OUTBOX; x ++ Ext] := File data]> f).
  split; [|by apply rep_insert; auto using out_box]. cbn [dir_ProcessInbound]. rewrite Eb.
  rewrite (write_file h f a DIR_OUTBOX x), (fair_stops Hf); [done|done|apply out_box|done|apply (fair_refuses Hf)|].
  assert (Hs : Split 47 (MID m ++ Ext) = [str ".."; str "out"; x ++ Ext]).
  { rewrite Em, <- app_assoc. change (str "../out/" ++ x ++ Ext) with (str ".." ++ 47 :: str "out" ++ 47 :: x ++ Ext).
    rewrite !Split_at, (Split_none 47 (x ++ Ext)) by apply (pl_slash _ (mid_plain x Hx)). done. }
  rewrite resolve_Join; [|apply mbox_dir_ne, in_box|apply Forall_singleton; by rewrite Em].
  cbn [fmap list_fmap concat]. rewrite app_nil_r, Hs, resolve_dir, reverse_snoc by apply in_box. cbn [foldl].
  rewrite (step_plain true _ (x ++ Ext) (mid_plain x Hx)).
  change (clean_step true (clean_step true (box_name DIR_INBOX :: ?l) (str "..")) (str "out")) with (box_name DIR_OUTBOX :: l).
  rewrite !reverse_cons, reverse_involutive, <- app_assoc. done.
Qed.

Definition escaping_message : message :=
  mkMsg (<[HEADER_MID := [str "../out/X"]]> (<[HEADER_BODY := [str "0"]]> ∅)) [] [].

Lemma mid_escapes_inbox_witness : exists f f' data,
  dir_ProcessInbound (H := quiet_os) (H1 := any_clock) sample_handler [escaping_message] f = (None, f') /\
  represents (H := quiet_os) sample_handler f' (<[(DIR_OUTBOX, str "X") := data]> ∅).
Proof.
  destruct (prepare_empty (H := quiet_os) sample_handler quiet_fair) as (f & _ & Hr).
  assert (exists data, Bytes (H0 := any_clock) (set_hdr escaping_message (str "X-Unread") (str "true")) = inr data) as [data Ed]
    by (eexists; vm_compute; reflexivity).
  destruct (mid_escapes_inbox (H := quiet_os) (H0 := raw_charset) (H1 := any_clock) sample_handler f ∅ escaping_message (str "X") data
    quiet_fair Hr eq_refl) as (f' & E & R).
  - by apply not_elem_existsb.
  - exact Ed.
  - exists f, f', data. split; [exact E|exact R].
Defined.

(** ** The outbox *)
Lemma h_Get_Del h k : h_Get (h_Del h k) k = [].
Proof. unfold h_Get, h_get, h_values, h_Del. by rewrite lookup_delete_eq. Qed.

Lemma h_Get_Del_ne h k k' : CanonicalKey k <> CanonicalKey k' -> h_Get (h_Del h k) k' = h_Get h k'.
Proof. intros Hne. unfold h_Get, h_get, h_values, h_Del. by rewrite lookup_delete_ne. Qed.

Section outbox.
Context `{OS} `{Charset} `{Clock}.

Lemma load_paths f dir files ms : load_files f dir files = Ok (inr ms) ->
  Forall (fun m => exists name n, (name, n) ∈ files /\ n <> Dir /\ h_Get m.(m_header) (str "X-FilePath") = path_Join [dir; name]) ms.
Proof.
  revert ms. induction files as [|[name n] files IH]; intros ms; cbn [load_files]; [by intros [= <-]|].
  assert (W : forall ms, load_files f dir files = Ok (inr ms) -> Forall (fun m => exists name' n', (name', n') ∈ (name, n) :: files /\
      n' <> Dir /\ h_Get m.(m_header) (str "X-FilePath") = path_Join [dir; name']) ms).
  { intros ms' E. eapply Forall_impl; [by apply IH|]. intros m (name' & n' & Hi & Hx). exists name', n'. split; [by right|done]. }
  destruct (idx name 0) as [c| |]; [|done|done]. rewrite bind_Ok.
  destruct (bool_decide_reflect (n = Dir)) as [|Hn]; [by apply W|]. destruct (c =? 46); [by apply W|]. cbn [orb].
  destruct (negb _); [by apply W|]. destruct (OpenMessage f (path_Join [dir; name])) as [[e|m]| |] eqn:Em; [done| |done|done].
  rewrite bind_Ok. destruct (load_files f dir files) as [[e|ms']| |] eqn:El; [done| |done|done]. rewrite bind_Ok.
  intros [= <-]. constructor; [|by apply W]. exists name, n. split_and!; [left|done|].
  unfold OpenMessage in Em. destruct (Open_ _ _) as [|[|data]]; [done|done|].
  destruct (ReadFrom data) as [[[e|] m0]| |]; [done| |done|done]. rewrite bind_Ok in Em. injection Em as <-. apply h_Get_Set.
Qed.

Lemma deliver_spec h fws m m' : deliver_one h fws m = Some m' ->
  is_deferred h (MID m') = false /\
  match fws with
  | [] => h_Get m'.(m_header) (str "X-P2POnly") = [] /\ h_Get m'.(m_header) (str "X-FilePath") = [] /\
          h_Get m'.(m_header) (str "X-Unread") = []
  | _ => m' = m /\ existsb (IsOnlyReceiver m) fws = true
  end.
Proof.
  unfold deliver_one. destruct (is_deferred h (MID m)) eqn:Ed; [done|]. destruct fws as [|a fws].
  - cbn [zlen length Z.of_nat Z.ltb Z.compare Z.eqb andb]. destruct (bool_decide _); [done|]. intros [= <-].
    unfold MID, del_hdr. cbn [m_header]. rewrite !(h_Get_Del_ne _ _ HEADER_MID) by discriminate. split; [exact Ed|].
    rewrite h_Get_Del, !(h_Get_Del_ne _ (str "X-Unread")), h_Get_Del, h_Get_Del_ne, h_Get_Del by discriminate. done.
  - assert (0 <? zlen (a :: fws) = true) as -> by (rewrite zlen_cons; pose proof (zlen_nonneg fws); lia).
    destruct (existsb _ _) eqn:Ee; [|done]. intros [= <-]. done.
Qed.
End outbox.

(** What the mailbox offers to the remote: no message that has been deferred;
    to a remote without forwarder addresses, messages without the headers the
    mailbox keeps for itself; to a remote with forwarder addresses, messages
    whose only receiver is one of them, each still carrying the path of its file
    in the X-FilePath header. *)
Theorem outbound_headers `{OS} `{Charset} `{Clock} h fws f ms : dir_GetOutbound h fws f = Ok ms ->
  Forall (fun m => is_deferred h (MID m) = false /\
    match fws with
    | [] => h_Get m.(m_header) (str "X-P2POnly") = [] /\ h_Get m.(m_header) (str "X-FilePath") = [] /\
            h_Get m.(m_header) (str "X-Unread") = []
    | _ => existsb (IsOnlyReceiver m) fws = true /\
           exists name, h_Get m.(m_header) (str "X-FilePath") = path_Join [mbox_dir h DIR_OUTBOX; name]
    end) ms.
Proof.
  unfold dir_GetOutbound, LoadMessageDir. intros E.
  assert (L : exists all, ms = omap (deliver_one h fws) all /\
      Forall (fun m => exists name, h_Get m.(m_header) (str "X-FilePath") = path_Join [mbox_dir h DIR_OUTBOX; name]) all).
  { destruct (ReadDir _ _) as [e|files].
    - rewrite bind_Ok in E. injection E as <-. by exists [].
    - destruct (load_files _ _ files) as [[e|all]| |] eqn:El; [..|done|done]; rewrite bind_Ok in E; injection E as <-; [by exists []|].
      exists all. split; [done|]. eapply Forall_impl; [exact (load_paths f _ files all El)|]. intros m (name & n & _ & _ & ?). eauto. }
  destruct L as (all & -> & Hp). apply Forall_forall. intros m' Hm. apply list_elem_of_omap in Hm as (m & Hm & Hd).
  rewrite Forall_forall in Hp. specialize (Hp m Hm). apply deliver_spec in Hd as [Hd Hx]. split; [exact Hd|].
  destruct fws; [exact Hx|]. destruct Hx as [-> Hx]. eauto.
Qed.

Definition sample_disk : fs := <[[str "mbox"; str "out"; str "ABCDEF.b2f"] := File
    (str "Mid: ABCDEF" ++ [13; 10] ++ str "Body: 0" ++ [13; 10] ++ str "To: LA1B" ++ [13; 10] ++ str "X-Unread: true" ++ [13; 10; 13; 10])]>
  (<[[str "mbox"; str "out"] := Dir]> (<[[str "mbox"] := Dir]> ∅)).

Lemma outbound_headers_witness : exists m,
  dir_GetOutbound (H := quiet_os) (H0 := raw_charset) (H1 := any_clock) sample_handler [mkAddr [] (str "LA1B")] sample_disk = Ok [m] /\
  exists name, h_Get m.(m_header) (str "X-FilePath") = path_Join [str "../mbox/out"; name].
Proof.
  destruct (dir_GetOutbound (H := quiet_os) (H0 := raw_charset) (H1 := any_clock) sample_handler [mkAddr [] (str "LA1B")] sample_disk)
    as [[|m [|m' ms]]| |] eqn:E.
  2:{ exists m. split; [reflexivity|]. pose proof (outbound_headers (H := quiet_os) (H0 := raw_charset) (H1 := any_clock) _ _ _ _ E) as T.
      apply Forall_singleton in T as [_ [_ T]]. exact T. }
  all: exfalso; assert (C : match dir_GetOutbound (H := quiet_os) (H0 := raw_charset) (H1 := any_clock) sample_handler
    [mkAddr [] (str "LA1B")] sample_disk with Ok [_] => true | _ => false end = true) by (vm_compute; reflexivity);
    rewrite E in C; discriminate C.
Defined.
