(* ===== verification/MailboxDelivery.v ===== *)
(** The session and the directory mailbox together: [DirHandler] implements the
    mailbox interface of package fbb, and the messages a remote sends end up as
    files of the inbox.

    The interface has no outcome for a process that ends (a message to mark as
    sent that is not there) or panics; such a call is shown as one without
    effect, and the theorem is about calls that return. *)
From S2P Require Import Prelude Crc GoStr Helpers Mid Words Proposal Transfer Message MessageFormat Session Handshake Exchange Delivery.
From S2P Require Import FileSys Mailbox MailboxProps.
From stdpp Require Import gmap.
Open Scope Z_scope.

#[export] Instance dir_mailbox `{OS} `{Charset} `{Clock} : MBoxHandler (DirHandler * fs) := {|
  Prepare := fun hf => let '(e, h, f) := dir_Prepare hf.1 hf.2 in (e, (h, f));
  GetOutbound := fun fws hf => match dir_GetOutbound hf.1 fws hf.2 with Ok ms => ms | _ => [] end;
  SetSent := fun mid rejected hf => match dir_SetSent hf.1 mid rejected hf.2 with inr f => (hf.1, f) | inl _ => hf end;
  SetDeferred := fun mid hf => match dir_SetDeferred hf.1 mid with Ok h => (h, hf.2) | _ => hf end;
  ProcessInbound := fun m hf => let '(e, f) := dir_ProcessInbound hf.1 [m] hf.2 in (e, (hf.1, f));
  GetInboundAnswer := fun p hf => dir_GetInboundAnswer hf.1 p hf.2 |}.

Section take_in.
Context `{OS} `{Charset} `{Clock}.

Lemma take_in h f a ms : fair -> represents h f a ->
  Forall (fun m => 47 ∉ MID m /\ exists x, Bytes (set_hdr m (str "X-Unread") (str "true")) = inr x) ms ->
  takes (h, f) ms /\
  exists f' a', foldl (fun hf m => (ProcessInbound m hf).2) (h, f) ms = (h, f') /\ represents h f' a' /\
    (forall k, is_Some (a !! k) -> is_Some (a' !! k)) /\ Forall (fun m => is_Some (a' !! (DIR_INBOX, MID m))) ms.
Proof.
  intros Hf Hr Hm. revert f a Hr. induction Hm as [|m ms [Hs [x Ex]] _ IH]; intros f a Hr.
  { split; [done|]. exists f, a. split_and!; auto. }
  pose proof (exec_spec h f a (Receive m) Hf Hr Hs) as E. cbn [spec exec] in E. unfold put_mail in E. rewrite Ex in E.
  destruct E as (f1 & E1 & Hr1). apply (inj Some) in E1. destruct (IH f1 _ Hr1) as (Ht & f' & a' & El & Hr' & Ha & Hi).
  assert (Ep : ProcessInbound m (h, f) = (None, (h, f1))) by (cbn [ProcessInbound dir_mailbox fst snd]; by rewrite E1).
  cbn [takes foldl]. rewrite Ep. cbn [fst snd]. split; [done|]. exists f', a'. split_and!; [done|done| |].
  - intros k Hk. apply Ha. destruct (decide (k = (DIR_INBOX, MID m))) as [->|Hne]; [rewrite lookup_insert_eq; eauto|].
    by rewrite lookup_insert_ne.
  - constructor; [|done]. apply Ha. rewrite lookup_insert_eq. eauto.
Qed.

Lemma bytes_received m : good_message m -> exists x, Bytes (set_hdr (received_as m) (str "X-Unread") (str "true")) = inr x.
Proof.
  intros Hg. destruct (gm_date _ (good_unread m Hg)) as [t Ht]. unfold Bytes.
  change (m_header (set_hdr (received_as m) (str "X-Unread") (str "true"))) with (m_header (set_hdr m X_Unread (str "true"))).
  rewrite Ht. eauto.
Qed.

Lemma dir_answered h f p : answered (dir_GetInboundAnswer h p f).
Proof. unfold dir_GetInboundAnswer, answered. repeat case_match; auto. Qed.
End take_in.

(** A turn of an exchange with a directory mailbox at the receiving end: the
    accepted messages of the sender are all in files of the inbox afterwards,
    nothing else in the mailbox is lost, they are counted as received, and from
    then on proposals of them are rejected. *)
Theorem delivered_to_disk `{OS} `{Charset} `{Clock} `{Gzip} (E : Environment) {M : Type} `{MBoxHandler M}
    (dfuel : nat) (ks : nat -> Z) (s : session M) (r : session (DirHandler * fs)) (h : M) (hr : DirHandler) (f : fs) (a : mail) :
  (forall i, 0 < ks i) -> 3867 < Z.of_nat dfuel ->
  s.(s_h) = Some h -> highestPropCode s = Wl2kProposal ->
  Forall (fun m => outgoing m /\ 47 ∉ MID m) (GetOutbound s.(s_remoteFW) h) ->
  r.(s_h) = Some (hr, f) -> fair -> represents hr f a -> hr.(sendOnly) = false ->
  exists all msgs, outbound s = Ok all /\ msgs ≡ₚ GetOutbound s.(s_remoteFW) h /\
    (let props := take 5 all in
     let ans := answers (hr, f) props in
     let ms := chosen (take 5 msgs) ans in
     chosen props ans <> [] ->
     forall rest, exists r' f' a',
       handleInbound dfuel ks (set_rd r (proposal_block props ++ concat (written <$> chosen props ans) ++ rest)) = Ok (inr false, r') /\
       r'.(s_h) = Some (hr, f') /\ r'.(s_stats).(Received) = r.(s_stats).(Received) ++ (MID <$> ms) /\
       represents hr f' a' /\ (forall k, is_Some (a !! k) -> is_Some (a' !! k)) /\
       Forall (fun m => is_Some (a' !! (DIR_INBOX, MID m)) /\
                        forall p, p.(p_mid) = MID m -> dir_GetInboundAnswer hr p f' = Reject) ms).
Proof.
  intros Hk Hd Hs Hc Ho Hr Hf Hrep Hso.
  destruct (block_delivered E dfuel ks s r h (hr, f) Hk Hd Hs Hr Hc) as (all & msgs & Eo & P & B);
    [eapply Forall_impl; [exact Ho|]; by intros m []|intros p; apply dir_answered|].
  exists all, msgs. split; [done|]. split; [done|]. cbv zeta in *. intros Hne rest. destruct (B Hne) as [_ B2]. clear B.
  set (ms := chosen (take 5 msgs) _) in *.
  assert (Hms : Forall (fun m => outgoing m /\ 47 ∉ MID m) ms).
  { rewrite <- P in Ho. clear -Ho. apply (Forall_take _ 5%nat) in Ho. unfold ms. generalize (answers (hr, f) (take 5 all)). intros ans.
    revert ans. induction Ho as [|m l Hm _ IH]; intros [|x ans]; try constructor. cbn [chosen].
    destruct (x =? Accept); [constructor; [done|apply IH]|apply IH]. }
  destruct (take_in hr f a (received_as <$> ms) Hf Hrep) as (Ht & f' & a' & El & Hr' & Ha & Hi).
  { apply Forall_fmap. eapply Forall_impl; [exact Hms|]. intros m [Hm Hsl]. split; [exact Hsl|]. apply bytes_received, Hm. }
  specialize (B2 Ht rest). rewrite <- app_assoc in B2. eexists _, f', a'. split; [exact B2|].
  unfold received. cbn [s_h set_stats set_h s_stats set_noMsgs set_rd set_out Received].
  rewrite Hr. cbn [fmap option_fmap option_map]. rewrite El. split_and!; [done|done|done|done|].
  apply Forall_forall. intros m Hm.
  assert (Hin : is_Some (a' !! (DIR_INBOX, MID m))).
  { exact (proj1 (Forall_forall _ _) Hi (received_as m) (list_elem_of_fmap_2 received_as ms m Hm)). }
  pose proof (proj1 (Forall_forall _ _) Hms m Hm) as [_ Hsl]. split; [done|]. intros p Ep.
  rewrite (answer_spec hr f' a' p Hf Hr') by (by rewrite Ep). by rewrite Hso, Ep, decide_True.
Qed.

Lemma delivered_to_disk_witness : exists f all msgs,
  represents (H := quiet_os) sample_handler f ∅ /\
  outbound (H := raw_charset) (H0 := any_clock) (H1 := store_gzip) (H2 := plain_env) sample_sender = Ok all /\
  msgs ≡ₚ [sample_outgoing] /\
  (let props := take 5 all in
   let r := NewSession (str "LA1B") (str "LA5NTA") [] (Some (sample_handler, f)) in
   let ans := answers (H := dir_mailbox (H := quiet_os) (H0 := raw_charset) (H1 := any_clock)) (sample_handler, f) props in
   let ms := chosen (take 5 msgs) ans in
   chosen props ans <> [] ->
   forall rest, exists r' f' a',
     handleInbound (H := raw_charset) (H0 := any_clock) (H1 := store_gzip)
       (H5 := dir_mailbox (H := quiet_os) (H0 := raw_charset) (H1 := any_clock)) 3868 (fun _ => 512)
       (set_rd r (proposal_block props ++ concat (written <$> chosen props ans) ++ rest)) = Ok (inr false, r') /\
     r'.(s_h) = Some (sample_handler, f') /\ r'.(s_stats).(Received) = MID <$> ms /\
     represents (H := quiet_os) sample_handler f' a' /\
     Forall (fun m => is_Some (a' !! (DIR_INBOX, MID m))) ms).
Proof.
  destruct (prepare_empty (H := quiet_os) sample_handler quiet_fair) as (f & _ & Hr).
  change (mkDir (MBoxPath sample_handler) (Some ∅) (sendOnly sample_handler)) with sample_handler in Hr.
  destruct (delivered_to_disk (H := quiet_os) (H0 := raw_charset) (H1 := any_clock) (H2 := store_gzip) plain_env 3868 (fun _ => 512)
    sample_sender (NewSession (str "LA1B") (str "LA5NTA") [] (Some (sample_handler, f))) (mkBox [sample_outgoing] [] []) sample_handler f ∅)
    as (all & msgs & Eo & P & B); try reflexivity.
  - apply Forall_singleton. split; [exact sample_outgoing_ok|]. by apply not_elem_existsb.
  - exact quiet_fair.
  - exact Hr.
  - exists f, all, msgs. split; [exact Hr|]. split; [exact Eo|]. split; [exact P|]. intros props r ans ms Hne rest.
    destruct (B Hne rest) as (r' & f' & a' & E & Es & Et & Hr' & _ & Hi). exists r', f', a'.
    split; [exact E|]. split; [exact Es|]. split; [exact Et|]. split; [exact Hr'|]. eapply Forall_impl; [exact Hi|]. by intros m [].
Defined.
