(* ===== verification/MailboxStation.v ===== *)
(** The directory mailbox as the mailbox of a station: on a system that does not
    fail, [DirHandler] implements [StationMailbox].  Its offers are the files of
    the outbox directory, so the facts about the entries of a directory before
    and after a call are here too. *)
From S2P Require Import Prelude Crc GoStr Helpers Mid Words Proposal Transfer Message MessageFormat Session Handshake Exchange Delivery.
From S2P Require Import FileSys Mailbox MailboxProps MailboxDelivery Station SessionTurn WholeExchange.
From stdpp Require Import gmap.
Open Scope Z_scope.

(** ** The entries of a directory *)
Lemma reverse_cons_inv {A} (l : list A) c r : reverse l = c :: r -> l = reverse r ++ [c].
Proof. intros E. apply (f_equal reverse) in E. by rewrite reverse_involutive, reverse_cons in E. Qed.

Lemma children_spec (f : fs) p c n : (c, n) ∈ children f p <-> f !! (p ++ [c]) = Some n.
Proof.
  unfold children. rewrite list_elem_of_omap. split.
  - intros ([k n'] & Hin & E). apply elem_of_map_to_list in Hin. cbn [fst snd] in E.
    destruct (reverse k) as [|c' r] eqn:Er; [done|]. apply reverse_cons_inv in Er as ->.
    case_bool_decide as Hp; [|done]. injection E as <- <-. by rewrite <- Hp.
  - intros Hl. exists (p ++ [c], n). split; [by apply elem_of_map_to_list|]. cbn [fst snd].
    rewrite reverse_app, reverse_singleton. cbn [app]. by rewrite bool_decide_eq_true_2 by (by rewrite reverse_involutive).
Qed.

Lemma children_NoDup (f : fs) p : NoDup (children f p).
Proof.
  unfold children. pose proof (NoDup_fst_map_to_list f) as Hn. induction (map_to_list f) as [|[k n] l IH]; [constructor|].
  cbn [fmap list_fmap] in Hn. apply NoDup_cons in Hn as [Hk Hn]. specialize (IH Hn). cbn [omap list_omap fst snd].
  destruct (reverse k) as [|c r] eqn:Er; [done|]. case_bool_decide as Hp; [|done]. apply NoDup_cons. split; [|done].
  intros Hin. apply Hk. apply list_elem_of_omap in Hin as ([k' n'] & Hin & E). cbn [fst snd] in E.
  destruct (reverse k') as [|c' r'] eqn:Er'; [done|]. case_bool_decide as Hp'; [|done]. injection E as -> ->.
  apply reverse_cons_inv in Er, Er'. apply list_elem_of_fmap. exists (k', n). split; [|done]. by rewrite Er, Er', Hp, Hp'.
Qed.

(** Entries that appear or go away elsewhere are none of its business. *)
Lemma children_same (f g : fs) p : (forall c, f !! (p ++ [c]) = g !! (p ++ [c])) -> children f p ≡ₚ children g p.
Proof.
  intros E. apply NoDup_Permutation; [apply children_NoDup..|]. intros [c n]. by rewrite !children_spec, E.
Qed.

Lemma children_without (f g : fs) p x : (forall c, c <> x -> g !! (p ++ [c]) = f !! (p ++ [c])) -> g !! (p ++ [x]) = None ->
  children g p ≡ₚ filter (fun kn => kn.1 <> x) (children f p).
Proof.
  intros E En. apply NoDup_Permutation; [apply children_NoDup|apply NoDup_filter, children_NoDup|]. intros [c n].
  rewrite list_elem_of_filter, !children_spec. cbn [fst]. destruct (decide (c = x)) as [->|Hc]; [rewrite En; naive_solver|].
  rewrite E by done. tauto.
Qed.

(** Filters before and after [omap]. *)
Lemma omap_filter_before {A B C} (f : B -> option C) (g : A -> B) (P : C -> Prop) (Q : A -> Prop)
    `{forall x, Decision (P x)} `{forall x, Decision (Q x)} (l : list A) :
  (forall x y, x ∈ l -> f (g x) = Some y -> P y <-> Q x) -> omap f (g <$> filter Q l) = filter P (omap f (g <$> l)).
Proof.
  induction l as [|x l IH]; intros Hl; [done|]. rewrite filter_cons. specialize (IH (fun x y Hx => Hl x y (list_elem_of_further _ _ _ Hx))).
  specialize (Hl x). cbn [fmap list_fmap omap list_omap]. destruct (f (g x)) as [y|] eqn:E.
  - specialize (Hl y ltac:(by left) eq_refl). rewrite filter_cons. destruct (decide (Q x)), (decide (P y)); try tauto.
    cbn [fmap list_fmap omap list_omap]. rewrite E. f_equal. exact IH.
  - destruct (decide (Q x)); [|done]. cbn [fmap list_fmap omap list_omap]. by rewrite E.
Qed.

Lemma omap_filter {B C} (f g : B -> option C) (P : C -> Prop) `{forall x, Decision (P x)} (l : list B) :
  (forall x, g x = match f x with Some y => if decide (P y) then Some y else None | None => None end) ->
  omap g l = filter P (omap f l).
Proof.
  intros Hg. induction l as [|x l IH]; [done|]. cbn [omap list_omap]. rewrite Hg. destruct (f x) as [y|]; [|exact IH].
  rewrite filter_cons. destruct (decide (P y)); [f_equal|]; exact IH.
Qed.

Lemma NoDup_omap_keys {A B C I K} (f : B -> option C) (g : A -> B) (key : C -> I) (name : A -> K) (ext : I -> K) (l : list A) :
  (forall x y, x ∈ l -> f (g x) = Some y -> name x = ext (key y)) -> NoDup (name <$> l) -> NoDup (key <$> omap f (g <$> l)).
Proof.
  induction l as [|x l IH]; intros Hl Hn; [constructor|]. cbn [fmap list_fmap] in Hn. apply NoDup_cons in Hn as [Hx Hn].
  specialize (IH (fun x y Hx => Hl x y (list_elem_of_further _ _ _ Hx)) Hn). cbn [fmap list_fmap omap list_omap].
  destruct (f (g x)) as [y|] eqn:E; [|done]. cbn [fmap list_fmap]. apply NoDup_cons. split; [|done].
  intros Hin. apply list_elem_of_fmap in Hin as (y' & Ek & Hy). apply list_elem_of_omap in Hy as (b & Hb & Ef).
  apply list_elem_of_fmap in Hb as (x' & -> & Hx'). apply Hx. rewrite (Hl x y (list_elem_of_here _ _) E), Ek.
  rewrite <- (Hl x' y' (list_elem_of_further _ _ _ Hx') Ef). by apply list_elem_of_fmap_2.
Qed.

(** ** The outbox *)
Lemma deliver_defer p d so mid fws m :
  deliver_one (mkDir p (Some ({[mid]} ∪ d)) so) fws m
  = if decide (MID m = mid) then None else deliver_one (mkDir p (Some d) so) fws m.
Proof.
  unfold deliver_one, is_deferred. cbn [deferred]. destruct (decide (MID m = mid)) as [E|E].
  - by rewrite bool_decide_eq_true_2 by set_solver.
  - by rewrite (bool_decide_ext (MID m ∈ {[mid]} ∪ d) (MID m ∈ d)) by set_solver.
Qed.

Section outbox.
Context `{OS} `{Charset} `{Clock} (Hfair : fair).
Implicit Types (h : DirHandler) (f : fs).

(** A file of the outbox: the message it is named after. *)
Definition outbox_file (kn : gostr * node) : Prop :=
  exists c l data m, kn = ((c :: l) ++ Ext, File data) /\ c <> 46 /\ 47 ∉ (c :: l) /\ ReadFrom data = Ok (None, m) /\ MID m = c :: l.

Definition loaded h (kn : gostr * node) : message :=
  let m := match kn.2 with File data => match ReadFrom data with Ok (_, m) => m | _ => mkMsg ∅ [] [] end | Dir => mkMsg ∅ [] [] end in
  set_hdr m (str "X-FilePath") (path_Join [mbox_dir h DIR_OUTBOX; kn.1]).

Lemma MID_path m p : MID (set_hdr m (str "X-FilePath") p) = MID m.
Proof. unfold MID. cbn [m_header set_hdr]. by apply h_Get_Set_ne. Qed.

Lemma loaded_mid h kn : outbox_file kn -> kn.1 = MID (loaded h kn) ++ Ext.
Proof. intros (c & l & data & m & -> & _ & _ & Er & Em). unfold loaded. cbn [fst snd]. by rewrite MID_path, Er, Em. Qed.

Lemma ext_of l : 47 ∉ l -> filepath_Ext (l ++ Ext) = Ext.
Proof.
  intros Hl. unfold filepath_Ext, path_Split. cbn [snd].
  assert (after_last (Z.eqb 47) (l ++ Ext) = O) as ->.
  { assert (Hn : 47 ∉ l ++ Ext) by (apply not_elem_of_app; split; [done|by apply not_elem_existsb]). clear Hl.
    induction (l ++ Ext) as [|c s IH]; [done|]. apply not_elem_of_cons in Hn as [Hc Hn]. cbn [after_last]. rewrite IH by done.
    by destruct (Z.eqb_spec 47 c). }
  rewrite drop_0. change Ext with (46 :: str "b2f") at 1. rewrite after_last_app by first [done|repeat constructor].
  by rewrite drop_app_length.
Qed.

(** All the files of the directory are loaded. *)
Lemma load_outbox h f entries :
  (forall kn, kn ∈ entries -> outbox_file kn /\ look f (mbox_root h ++ [box_name DIR_OUTBOX; kn.1]) = inr kn.2) ->
  load_files f (mbox_dir h DIR_OUTBOX) entries = Ok (inr (loaded h <$> entries)).
Proof using Hfair.
  induction entries as [|kn entries IH]; intros Hf; [done|]. destruct (Hf kn ltac:(by left)) as [(c & l & data & m & -> & Hc & Hs & Er & Em) Hlk].
  cbn [fst snd] in Hlk. cbn [load_files]. change (idx ((c :: l) ++ Ext) 0) with (Ok c). rewrite bind_Ok.
  rewrite bool_decide_eq_false_2 by done. destruct (Z.eqb_spec c 46); [done|]. cbn [orb].
  rewrite ext_of by done. change (negb (EqualFold Ext Ext)) with false. cbv iota.
  assert (OpenMessage f (path_Join [mbox_dir h DIR_OUTBOX; (c :: l) ++ Ext])
          = Ok (inr (loaded h ((c :: l) ++ Ext, File data)))) as ->.
  { unfold OpenMessage, Open_. rewrite (resolve_file2 h DIR_OUTBOX (c :: l)) by (done || apply out_box).
    rewrite (fair_refuses Hfair), Hlk, Er, bind_Ok. unfold loaded. cbn [fst snd]. by rewrite Er. }
  rewrite bind_Ok, IH, bind_Ok; [done|]. intros kn Hk. apply Hf. by right.
Qed.

(** A mailbox that is in order. *)
Definition out_dir h : fpath := mbox_root h ++ [box_name DIR_OUTBOX].
Definition in_order (hf : DirHandler * fs) : Prop :=
  is_Some hf.1.(deferred) /\ (exists a, represents hf.1 hf.2 a) /\ forall kn, kn ∈ children hf.2 (out_dir hf.1) -> outbox_file kn.

Lemma offered_ok fws hf : in_order hf ->
  GetOutbound fws hf ≡ₚ omap (deliver_one hf.1 fws) (loaded hf.1 <$> children hf.2 (out_dir hf.1)).
Proof using Hfair.
  destruct hf as [h f]. intros (_ & [a Hr] & Ho). cbn [fst snd] in *. cbn [GetOutbound dir_mailbox fst snd].
  unfold dir_GetOutbound, LoadMessageDir, ReadDir, Open_. rewrite (resolve_dir h DIR_OUTBOX out_box), (fair_refuses Hfair).
  rewrite (rep_dirs _ _ _ Hr DIR_OUTBOX out_box). fold (out_dir h). set (es := sort_by _ _).
  assert (P : es ≡ₚ children f (out_dir h)) by apply sort_by_perm.
  rewrite load_outbox; [rewrite bind_Ok; unfold mret, res_ret; by rewrite P|].
  intros [c n] Hk. rewrite P in Hk. split; [by apply Ho|]. apply children_spec in Hk. cbn [fst snd].
  assert (mbox_root h ++ [box_name DIR_OUTBOX; c] = out_dir h ++ [c]) as -> by (unfold out_dir; by rewrite <- app_assoc).
  rewrite look_child by (by apply (rep_dirs _ _ _ Hr), out_box). by rewrite Hk.
Qed.

Lemma deliver_mid h fws m m' : deliver_one h fws m = Some m' -> MID m' = MID m.
Proof.
  unfold deliver_one. destruct (is_deferred h (MID m)); [done|]. destruct (0 <? zlen fws).
  - destruct (existsb _ _); [|done]. by intros [= <-].
  - destruct (_ && _); [done|]. intros [= <-]. unfold MID, del_hdr. cbn [m_header]. by rewrite !(h_Get_Del_ne _ _ HEADER_MID).
Qed.

(** What is in the inbox under an identifier. *)
Definition inbox_file (hf : DirHandler * fs) (mid : gostr) : option gostr :=
  match hf.2 !! (mbox_root hf.1 ++ [box_name DIR_INBOX; mid ++ Ext]) with Some (File d) => Some d | _ => None end.

Definition good_mid (mid : gostr) : Prop := 47 ∉ mid.

Abbreviation dir_settled := (settled in_order good_mid inbox_file).

Lemma defer_settles mid hf : in_order hf -> dir_settled [mid] hf (SetDeferred mid hf).
Proof using Hfair.
  intros Hi. pose proof Hi as ([d Ed] & [a Ha] & Ho). destruct hf as [[p od so] f]. cbn [fst deferred] in Ed. subst od.
  cbn [SetDeferred dir_mailbox fst snd dir_SetDeferred deferred MBoxPath sendOnly]. set (h := mkDir p (Some d) so) in *. set (h' := mkDir p _ so).
  assert (Hi' : in_order (h', f)) by (split; [by eexists|]; split; [exists a; destruct Ha; by split|exact Ho]).
  split; [exact Hi'| |done|done]. intros fws. rewrite (offered_ok fws _ Hi), (offered_ok fws _ Hi'). cbn [fst snd].
  change (loaded h') with (loaded h). change (out_dir h') with (out_dir h).
  rewrite (omap_filter (deliver_one h fws) (deliver_one h' fws) (fun m => MID m ∉ [mid])); [done|].
  intros m. unfold h' at 1. rewrite deliver_defer. fold h. destruct (deliver_one h fws m) as [m'|] eqn:E; [|by destruct (decide _)].
  rewrite (deliver_mid _ _ _ _ E). destruct (decide (MID m = mid)) as [->|Hn]; [rewrite decide_False|rewrite decide_True]; try done.
  - intros Hm. apply Hm. by left.
  - by rewrite list_elem_of_singleton.
Qed.

(** The entries after a message was moved. *)
Lemma out_dir_path h x : mbox_root h ++ [box_name DIR_OUTBOX; x] = out_dir h ++ [x].
Proof. unfold out_dir. by rewrite <- app_assoc. Qed.

Lemma other_box h d x c : d <> box_name DIR_OUTBOX -> mbox_root h ++ [d; x] <> out_dir h ++ [c].
Proof. intros Hd E. rewrite <- out_dir_path in E. apply app_inv_head in E. by injection E as ->. Qed.

Lemma send_settles fw mid rej hf : in_order hf -> mid ∈ MID <$> GetOutbound fw hf -> dir_settled [mid] hf (SetSent mid rej hf).
Proof using Hfair.
  intros Hi Hm. pose proof Hi as (Hd & [a Ha] & Ho). destruct hf as [h f]. cbn [fst snd] in *.
  rewrite (offered_ok fw _ Hi) in Hm. cbn [fst snd] in Hm. apply list_elem_of_fmap in Hm as (m' & -> & Hm).
  apply list_elem_of_omap in Hm as (m & Hm & Ed). rewrite (deliver_mid _ _ _ _ Ed). clear Ed m'.
  apply list_elem_of_fmap in Hm as (kn & -> & Hk). pose proof (loaded_mid h kn (Ho kn Hk)) as En.
  destruct (Ho _ Hk) as (c & l & data & m & -> & _ & Hg & _ & _). cbn [fst] in En. apply app_inv_tail in En. rewrite <- En.
  set (mid := c :: l) in *. clear En. apply children_spec in Hk. rewrite <- out_dir_path in Hk.
  assert (Ea : a !! (DIR_OUTBOX, mid) = Some data).
  { rewrite (rep_files _ _ _ Ha) in Hk by done || apply out_box. destruct (a !! (DIR_OUTBOX, mid)); [|done]. cbn in Hk. congruence. }
  cbn [SetSent dir_mailbox fst snd]. rewrite (settle_ok h f a mid data Hfair Ha Hg Ea). set (f' := <[_ := _]> _).
  assert (Ha' : represents h f' (<[(DIR_SENT, mid) := data]> (delete (DIR_OUTBOX, mid) a))).
  { apply rep_insert; [apply rep_delete; [done|apply out_box|done]|apply sent_box|done]. }
  assert (Pc : children f' (out_dir h) ≡ₚ filter (fun kn => kn.1 <> mid ++ Ext) (children f (out_dir h))).
  { apply children_without.
    - intros x Hx. unfold f'. rewrite lookup_insert_ne by (by apply other_box). rewrite lookup_delete_ne; [done|].
      rewrite out_dir_path. intros E. apply app_inv_head in E. congruence.
    - unfold f'. rewrite lookup_insert_ne by (by apply other_box). by rewrite out_dir_path, lookup_delete_eq. }
  assert (Hi' : in_order (h, f')).
  { split; [exact Hd|]. split; [by eexists|]. intros kn Hkn. rewrite Pc in Hkn. apply list_elem_of_filter in Hkn as [_ Hkn]. by apply Ho. }
  split; [exact Hi'| | |].
  - intros fws. rewrite (offered_ok fws _ Hi), (offered_ok fws _ Hi'). cbn [fst snd]. rewrite Pc.
    rewrite (omap_filter_before (deliver_one h fws) (loaded h) (fun m => MID m ∉ [mid]) (fun kn => kn.1 <> mid ++ Ext)); [done|].
    intros kn y Hkn Ey. rewrite (deliver_mid _ _ _ _ Ey), (loaded_mid h kn (Ho kn Hkn)), list_elem_of_singleton.
    split; intros Hx E; apply Hx; [by apply app_inv_tail in E|by rewrite E].
  - intros i. unfold inbox_file, f'. cbn [fst snd].
    rewrite lookup_insert_ne, lookup_delete_ne; [done|..]; intros E; apply app_inv_head in E; discriminate.
  - intros p Hp. cbn [GetInboundAnswer dir_mailbox fst snd]. rewrite (answer_spec h f a p Hfair Ha Hp), (answer_spec h f' _ p Hfair Ha' Hp).
    by rewrite lookup_insert_ne, lookup_delete_ne by done.
Qed.

(** A message that is taken in. *)
Definition storable_msg (m : message) : Prop := good_mid (MID m) /\ exists x, Bytes (set_hdr m (str "X-Unread") (str "true")) = inr x.
Definition as_stored (m : message) : gostr := match Bytes (set_hdr m (str "X-Unread") (str "true")) with inr x => x | inl _ => [] end.

Lemma receive_takes m hf : in_order hf -> storable_msg m ->
  (ProcessInbound m hf).1 = None /\ took in_order good_mid inbox_file as_stored [m] hf (ProcessInbound m hf).2.
Proof using Hfair.
  intros Hi [Hg [x Ex]]. pose proof Hi as (Hd & [a Ha] & Ho). destruct hf as [h f]. cbn [fst snd] in *.
  cbn [ProcessInbound dir_mailbox fst snd dir_ProcessInbound]. rewrite Ex.
  rewrite (write_file h f a DIR_INBOX (MID m)), (fair_stops Hfair); [|done|apply in_box|done|apply (fair_refuses Hfair)|by apply resolve_file2; [apply in_box|]].
  set (f' := <[_ := _]> f). cbn [fst snd]. split; [done|].
  assert (Ha' : represents h f' (<[(DIR_INBOX, MID m) := x]> a)) by (by apply rep_insert; [|apply in_box|]).
  assert (Pc : children f' (out_dir h) ≡ₚ children f (out_dir h)).
  { apply children_same. intros c. unfold f'. by rewrite lookup_insert_ne by (by apply other_box). }
  assert (Hi' : in_order (h, f')) by (split; [done|]; split; [by eexists|]; intros kn Hkn; rewrite Pc in Hkn; by apply Ho).
  split; [exact Hi'| |split|].
  - intros fws. rewrite (offered_ok fws _ Hi), (offered_ok fws _ Hi'). cbn [fst snd]. by rewrite Pc.
  - intros _ y Hy. apply list_elem_of_singleton in Hy as ->. unfold inbox_file, as_stored, f'. cbn [fst snd]. by rewrite lookup_insert_eq, Ex.
  - intros mid Hm. cbn [fmap list_fmap] in Hm. rewrite list_elem_of_singleton in Hm. unfold inbox_file, f'. cbn [fst snd].
    rewrite lookup_insert_ne; [done|]. intros E. apply Hm. apply app_inv_head in E. injection E as E. by apply app_inv_tail in E.
  - intros p Hp Hm. cbn [GetInboundAnswer dir_mailbox fst snd]. cbn [fmap list_fmap] in Hm. rewrite list_elem_of_singleton in Hm.
    rewrite (answer_spec h f a p Hfair Ha Hp), (answer_spec h f' _ p Hfair Ha' Hp). by rewrite lookup_insert_ne by congruence.
Qed.

(** Its verdict on a message. *)
Lemma dir_accepts (hf : DirHandler * fs) p : in_order hf -> good_mid p.(p_mid) -> hf.1.(sendOnly) = false ->
  GetInboundAnswer p hf = Accept <-> inbox_file hf p.(p_mid) = None.
Proof using Hfair.
  intros (_ & [a Ha] & _) Hp Hs. destruct hf as [h f]. cbn [GetInboundAnswer dir_mailbox fst snd] in *.
  rewrite (answer_spec h f a p Hfair Ha Hp), Hs. unfold inbox_file. cbn [fst snd]. rewrite (rep_files _ _ _ Ha) by (apply in_box || done).
  destruct (a !! _) as [x|]; cbn [fmap option_fmap option_map]; [rewrite decide_True by eauto|rewrite decide_False by (by intros [? ?])]; done.
Qed.

(** Every message offered is named after its file. *)
Lemma offered_mids fws hf : in_order hf ->
  NoDup (MID <$> GetOutbound fws hf) /\ Forall (fun m => good_mid (MID m)) (GetOutbound fws hf).
Proof using Hfair.
  intros Hi. pose proof Hi as (_ & _ & Ho). rewrite (offered_ok fws hf Hi). destruct hf as [h f]. cbn [fst snd] in *. split.
  - apply (NoDup_omap_keys (deliver_one h fws) (loaded h) MID fst (fun i => i ++ Ext)).
    + intros kn y Hk Ey. rewrite (deliver_mid _ _ _ _ Ey). by apply loaded_mid, Ho.
    + apply NoDup_fmap_2_strong; [|apply children_NoDup]. intros [c n] [c' n'] Hk1 Hk2 E. cbn in E. subst c'.
      apply children_spec in Hk1, Hk2. congruence.
  - apply Forall_forall. intros m Hm. apply list_elem_of_omap in Hm as (m' & Hm & Ed). rewrite (deliver_mid _ _ _ _ Ed).
    apply list_elem_of_fmap in Hm as (kn & -> & Hk). pose proof (loaded_mid h kn (Ho kn Hk)) as En.
    destruct (Ho _ Hk) as (c & l & data & m2 & -> & _ & Hs & _). cbn [fst] in En. apply app_inv_tail in En. by rewrite <- En.
Qed.

(** The directory mailbox as the mailbox of a station. *)
#[local] Instance dir_station : StationMailbox (DirHandler * fs).
Proof using Hfair.
  refine {| mb_content := gostr; mb_find := inbox_file; mb_store := as_stored; mb_inv := in_order; mb_good := good_mid; mb_storable := storable_msg |}.
  - by intros m [].
  - intros p h. apply dir_answered.
  - exact send_settles.
  - intros fw mid h Hi _. by apply defer_settles.
  - exact receive_takes.
Defined.

(** Whatever can be sent at all can be stored at the other end. *)
Lemma dir_has_mail (fws : list address) (hf : DirHandler * fs) : in_order hf -> Forall outgoing (GetOutbound fws hf) ->
  has_mail storable_msg fws hf.
Proof using Hfair.
  intros Hi Ho. destruct (offered_mids fws hf Hi) as [Hn Hg]. split; [by split|]. apply Forall_forall. intros m Hm.
  split; [exact (proj1 (Forall_forall _ _) Hg m Hm)|]. apply bytes_received, (og_good m).
  exact (proj1 (Forall_forall _ _) Ho m Hm).
Qed.
End outbox.
