(* ===== verification/DiskExchange.v ===== *)
(** Two stations that keep their mail in directories: a whole exchange between
    them, from the files of one disk to the files of the other. *)
From S2P Require Import Prelude Crc GoStr Helpers Mid Words Proposal Transfer Message MessageFormat Session Handshake Exchange Delivery.
From S2P Require Import FileSys Mailbox MailboxProps MailboxDelivery SessionSafety Station SessionTurn WholeExchange MailboxStation.
From stdpp Require Import gmap.
Open Scope Z_scope.

(** ** The files of messages *)
Lemma Bytes_data `{Clock} m m' : m.(m_header) = m'.(m_header) -> m.(m_body) = m'.(m_body) ->
  f_data <$> m.(m_files) = f_data <$> m'.(m_files) -> Bytes m = Bytes m'.
Proof.
  intros Eh Eb Ef. unfold Bytes. rewrite Eh, Eb.
  assert (G : forall l : list file, (fun f => f.(f_data) ++ [13; 10]) <$> l = (fun d => d ++ [13; 10]) <$> (f_data <$> l))
    by (intros l; by rewrite <- list_fmap_compose).
  rewrite !G, Ef. by destruct (m_files m), (m_files m').
Qed.

Lemma files_data `{Charset} vs fs : Forall2 announces vs fs ->
  f_data <$> zip_with (fun v f => mkFile f.(f_data) (announced_name v) None) vs fs = f_data <$> fs.
Proof. induction 1 as [|v f vs fs _ _ IH]; [done|]. cbn. f_equal. exact IH. Qed.

(** The file a message is kept in. *)
Lemma read_stored `{Charset} `{Clock} x : good_message x -> exists files,
  ReadFrom (as_stored (received_as x)) = Ok (None, mkMsg (h_Set x.(m_header) (str "X-Unread") (str "true")) x.(m_body) files) /\
  f_data <$> files = f_data <$> x.(m_files).
Proof.
  intros Hg. destruct (read_message _ (good_unread x Hg)) as (out & Eo & Ro). unfold as_stored.
  rewrite (Bytes_data _ (set_hdr x X_Unread (str "true"))), Eo, Ro by (done || apply files_data, (gm_files _ Hg)).
  eexists. split; [done|]. exact (files_data _ _ (gm_files _ (good_unread x Hg))).
Qed.

(** What a station that keeps its mail in a directory has to show after an
    exchange: it has read all there was and closed the connection; it offers
    nothing any more; every message of [got] is in a file of the inbox, from
    which it is read back unchanged and marked as unread; and nothing else in the
    inbox has changed. *)
Record filed `{OS} `{Charset} `{Clock} (fw : list address) (s s' : session (DirHandler * fs)) (hf : DirHandler * fs)
    (gave got : list message) : Prop := {
  fl_rd : s'.(s_rd) = [];
  fl_closed : s'.(s_closed) = true;
  fl_sent : s'.(s_stats).(Sent) ≡ₚ s.(s_stats).(Sent) ++ (MID <$> gave);
  fl_received : s'.(s_stats).(Received) = s.(s_stats).(Received) ++ (MID <$> got);
  fl_disk : exists hf', s'.(s_h) = Some hf' /\ in_order hf' /\ GetOutbound fw hf' = [] /\
    (forall mid, mid ∉ MID <$> got -> inbox_file hf' mid = inbox_file hf mid) /\
    forall x, x ∈ got -> exists data files, inbox_file hf' (MID x) = Some data /\
      ReadFrom data = Ok (None, mkMsg (h_Set x.(m_header) (str "X-Unread") (str "true")) x.(m_body) files) /\
      f_data <$> files = f_data <$> x.(m_files) }.

(** A mailbox on disk whose messages can all be sent. *)
Record mail_on_disk `{OS} `{Charset} `{Clock} (fw : list address) (hf : DirHandler * fs) : Prop := {
  md_order : in_order hf;
  md_mode : hf.1.(sendOnly) = false;
  md_out : Forall outgoing (GetOutbound fw hf) }.

(** The messages of the outbox the other station has no file of. *)
Definition missing_at `{OS} (hf : DirHandler * fs) (ms : list message) : list message :=
  filter (fun x => inbox_file hf (MID x) = None) ms.

(** The outcome of an exchange between two of them. *)
Lemma concluded_filed `{O : OS} `{Charset} `{Clock} (Hf : fair) (fw : list address) (s s' : session (DirHandler * fs)) (hf hf' : DirHandler * fs) w gave got :
  Forall good_message got ->
  concluded (H1 := dir_station Hf) fw s s' hf hf' w gave got -> filed fw s s' hf gave got.
Proof.
  intros Hg [Hh Hr Hc _ Hl Hn Ho Hs Ht Hi]. split; auto. exists hf'. split_and!; auto. intros x Hx.
  pose proof (proj1 (Forall_forall _ _) Hg x Hx) as Hgx. destruct (read_stored x Hgx) as (files & Er & Ef).
  exists (as_stored (received_as x)), files. split; [exact (Hn x Hx)|]. by split.
Qed.

#[local] Opaque proposal_of.

Lemma wanted_missing `{O : OS} `{Charset} `{Clock} `{Gzip} (dfuel : nat) (ks : nat -> Z) (hf : DirHandler * fs) ms :
  (forall i, 0 < ks i) -> 3867 < Z.of_nat dfuel -> fair -> in_order hf -> hf.1.(sendOnly) = false ->
  Forall outgoing ms -> Forall (fun m => good_mid (MID m)) ms -> wanted hf ms = missing_at hf ms.
Proof.
  intros Hk Hd Hf Hi Hs Ho Hg. apply filter_iff_in. intros m Hm.
  pose proof (proj1 (Forall_forall _ _) Ho m Hm) as Hom. pose proof (proj1 (Forall_forall _ _) Hg m Hm) as Hgm.
  pose proof (proj1 (proj2 (proposal_of_ok dfuel ks Hk Hd m Hom))) as Em. unfold verdict.
  rewrite (dir_accepts Hf hf (announced (proposal_of m)) Hi);
    change (p_mid (announced (proposal_of m))) with (p_mid (proposal_of m)); by rewrite ?Em.
Qed.

Lemma wanted_good `{O : OS} `{Charset} `{Clock} `{Gzip} {N} `{MBoxHandler N} (h : N) ms D :
  Forall outgoing ms -> D ≡ₚ wanted h ms -> Forall good_message D.
Proof.
  intros Ho P. rewrite P. apply Forall_filter_keep. eapply Forall_impl; [exact Ho|]. by intros m [].
Qed.

(** C8. Two stations that keep their mail in directories run a whole exchange on
    nothing but each other's output, on systems that do not fail. Both return
    without an error and offer nothing any more; the messages sent are exactly
    those of the one outbox that the other inbox had no file of, and each of them
    is in a file of that inbox now, from which it is read back with the same
    header, body and attachments; all other files of the inbox are as they were. *)
Theorem exchange_on_disk `{Charset} `{Clock} `{Gzip} `{MD5} (dfuel : nat) (ks : nat -> Z) (OSm OSc : OS) (E1 E2 : Environment) (O1 O2 : MapOrder)
    (m c : session (DirHandler * fs)) (hm hc : DirHandler * fs) :
  let mbm := dir_mailbox (H := OSm) in let mbc := dir_mailbox (H := OSc) in
  let m1 := (Prepare (MBoxHandler := mbm) hm).2 in let c1 := (Prepare (MBoxHandler := mbc) hc).2 in
  let fm := announced_fw E1 m in let fc := announced_fw E2 c in
  let queued_m := GetOutbound (MBoxHandler := mbm) fc m1 in let queued_c := GetOutbound (MBoxHandler := mbc) fm c1 in
  (forall i, 0 < ks i) -> 3867 < Z.of_nat dfuel ->
  @gzipExperimentEnabled E1 && @gzipExperimentEnabled E2 = false -> fair (H := OSm) -> fair (H := OSc) ->
  m.(s_master) = true -> c.(s_master) = false -> Forall harmless m.(s_motd) -> stands_by (MB := mbm) m hm -> stands_by (MB := mbc) c hc ->
  mail_on_disk (H := OSm) fc m1 -> mail_on_disk (H := OSc) fm c1 ->
  exists om oc m' c' Dm Dc,
    Exchange (H3 := E1) (H4 := O1) (H5 := mbm) dfuel ks (set_rd m oc) = Ok (m'.(s_stats), (None, m')) /\
    Exchange (H3 := E2) (H4 := O2) (H5 := mbc) dfuel ks (set_rd c om) = Ok (c'.(s_stats), (None, c')) /\
    m'.(s_out) = m.(s_out) ++ om /\ c'.(s_out) = c.(s_out) ++ oc /\
    Dm ≡ₚ missing_at (H := OSc) c1 queued_m /\ Dc ≡ₚ missing_at (H := OSm) m1 queued_c /\
    filed (H := OSm) fc m m' m1 Dm Dc /\ filed (H := OSc) fm c c' c1 Dc Dm.
Proof.
  intros mbm mbc m1 c1 fm fc qm qc Hk Hd Hz Fm Fc Mm Mc Hmo Sm Sc [Im Nm Om] [Ic Nc Oc].
  destruct (exchange_ok (SMm := dir_station Fm) (SMn := dir_station Fc) dfuel ks E1 E2 O1 O2 m c hm hc Hk Hd Hz Mm Mc Hmo Sm Sc)
    as (om & oc & m' & c' & hm' & hc' & Dm & Dc & Xm & Xc & Cm & Cc & Pm & Pc); [exact (dir_has_mail Fm fc m1 Im Om)|exact (dir_has_mail Fc fm c1 Ic Oc)|].
  assert (Gm : Forall good_message Dm) by exact (wanted_good _ _ _ Om Pm). assert (Gc : Forall good_message Dc) by exact (wanted_good _ _ _ Oc Pc).
  exists om, oc, m', c', Dm, Dc. split_and!; [done|done|apply Cm|apply Cc| | |by eapply concluded_filed|by eapply concluded_filed].
  - rewrite Pm, (wanted_missing dfuel ks c1 qm Hk Hd Fc Ic Nc Om (proj2 (offered_mids Fm fc m1 Im))). done.
  - rewrite Pc, (wanted_missing dfuel ks m1 qc Hk Hd Fm Im Nm Oc (proj2 (offered_mids Fc fm c1 Ic))). done.
Qed.

(** ** An example

    A client with a message in its outbox and a master without. *)
Definition empty_disk : fs := (dir_Prepare (H := quiet_os) sample_handler ∅).2.
Definition sample_file : gostr := match Bytes (H0 := any_clock) sample_outgoing with inr d => d | inl _ => [] end.
Definition full_disk : fs :=
  <[mbox_root (H := quiet_os) sample_handler ++ [box_name DIR_OUTBOX; MID sample_outgoing ++ Ext] := File sample_file]> empty_disk.
Definition disk_master : session (DirHandler * fs) :=
  IsMaster (NewSession (str "LA1B") (str "LA5NTA") (str "JP20qh") (Some (sample_handler, empty_disk))) true.
Definition disk_client : session (DirHandler * fs) :=
  NewSession (str "LA5NTA") (str "LA1B") (str "JO59jw") (Some (sample_handler, full_disk)).

Lemma empty_represents : represents (H := quiet_os) sample_handler empty_disk ∅.
Proof.
  destruct (prepare_empty (H := quiet_os) sample_handler quiet_fair) as (f & E & Hr).
  unfold empty_disk. by rewrite E.
Qed.

(** The message as it is offered to the master. *)
Definition queued_sample : message :=
  set_hdr (received_as (H := raw_charset) sample_outgoing) (str "X-Filepath")
    (path_Join [mbox_dir sample_handler DIR_OUTBOX; MID sample_outgoing ++ Ext]).

Lemma queued_sample_ok : outgoing (H := raw_charset) (H0 := any_clock) queued_sample.
Proof.
  split.
  - assert (G : good_message (H0 := any_clock) (received_as (H := raw_charset) sample_outgoing)).
    { pose proof (og_good _ sample_outgoing_ok) as [Hh Hb Hf Hd]. split; [exact Hh|exact Hb|exact Hf|exact Hd]. }
    apply good_mark; [exact G|reflexivity|by split|by apply good_value_check|]. by apply (bool_decide_unpack _); vm_compute.
  - vm_compute. reflexivity.
  - split; by apply not_elem_existsb.
  - intros d Hd.
    assert (E : match Bytes (H0 := any_clock) queued_sample with
                | inr d => forallb (fun c => (0 <=? c) && (c <? 256)) d && (zlen d <=? 3867) | inl _ => false end = true)
      by (vm_compute; reflexivity).
    rewrite Hd in E. apply andb_true_iff in E as [Hb Hl]. split; [|lia].
    apply Forall_forall. intros c Hc. rewrite forallb_forall in Hb. specialize (Hb c (proj1 (list_elem_of_In _ _) Hc)).
    unfold byte. lia.
  - exact (og_title _ sample_outgoing_ok).
Qed.

Lemma queued_sample_offered :
  GetOutbound (MBoxHandler := dir_mailbox (H := quiet_os) (H0 := raw_charset) (H1 := any_clock)) [AddressFromString (str "LA1B")]
    (sample_handler, full_disk) = [queued_sample].
Proof. vm_compute. reflexivity. Qed.

Lemma empty_in_order : in_order (H := quiet_os) (H0 := raw_charset) (H1 := any_clock) (sample_handler, empty_disk).
Proof.
  split; [by eexists|]. split; [exists ∅; exact empty_represents|]. intros kn Hk.
  assert (Ec : children empty_disk (out_dir (H := quiet_os) sample_handler) = []) by (vm_compute; reflexivity).
  cbn [fst snd] in Hk. rewrite Ec in Hk. clear Ec. by apply elem_of_nil in Hk.
Qed.

Lemma full_in_order : in_order (H := quiet_os) (H0 := raw_charset) (H1 := any_clock) (sample_handler, full_disk).
Proof.
  split; [by eexists|]. split.
  - eexists. apply rep_insert; [exact empty_represents|apply out_box|by apply not_elem_existsb].
  - intros kn Hk. assert (Ec : children full_disk (out_dir (H := quiet_os) sample_handler) = [(MID sample_outgoing ++ Ext, File sample_file)])
      by (vm_compute; reflexivity).
    cbn [fst snd] in Hk. rewrite Ec in Hk. clear Ec. apply list_elem_of_singleton in Hk as ->.
    destruct (read_message (H := raw_charset) (H0 := any_clock) sample_outgoing (og_good _ sample_outgoing_ok)) as (d & Ed & Er).
    exists 65, (str "BCDEF"), sample_file. eexists. split; [reflexivity|]. split; [discriminate|]. split; [by apply not_elem_existsb|].
    unfold sample_file. rewrite Ed. split; [exact Er|reflexivity].
Qed.

Lemma prepare_again (f : fs) : (ensureDirStructure (H := quiet_os) f (MBoxPath sample_handler)).1 = None ->
  bool_decide ((ensureDirStructure (H := quiet_os) f (MBoxPath sample_handler)).2 = f) = true ->
  dir_Prepare (H := quiet_os) sample_handler f = (None, sample_handler, f).
Proof.
  intros E1 E2. apply bool_decide_eq_true in E2. unfold dir_Prepare.
  change (mkDir (MBoxPath sample_handler) (Some ∅) (sendOnly sample_handler)) with sample_handler.
  destruct (ensureDirStructure f (MBoxPath sample_handler)). cbn in *. by subst.
Qed.

Lemma exchange_on_disk_witness :
  let mb := dir_mailbox (H := quiet_os) (H0 := raw_charset) (H1 := any_clock) in
  exists om oc m' c',
    Exchange (H := raw_charset) (H0 := any_clock) (H1 := store_gzip) (H2 := zero_md5) (H3 := gzip_env) (H4 := list_order) (H5 := mb)
      3868 (fun _ => 512) (set_rd disk_master oc) = Ok (m'.(s_stats), (None, m')) /\
    Exchange (H := raw_charset) (H0 := any_clock) (H1 := store_gzip) (H2 := zero_md5) (H3 := plain_env) (H4 := list_order) (H5 := mb)
      3868 (fun _ => 512) (set_rd disk_client om) = Ok (c'.(s_stats), (None, c')) /\
    filed (H := quiet_os) (H0 := raw_charset) (H1 := any_clock) (announced_fw plain_env disk_client) disk_master m' (sample_handler, empty_disk) [] [queued_sample] /\
    filed (H := quiet_os) (H0 := raw_charset) (H1 := any_clock) (announced_fw gzip_env disk_master) disk_client c' (sample_handler, full_disk) [queued_sample] [].
Proof.
  intros mb.
  assert (Pe : Prepare (MBoxHandler := mb) (sample_handler, empty_disk) = (None, (sample_handler, empty_disk)))
    by (cbn [mb dir_mailbox Prepare fst snd]; by rewrite prepare_again by (vm_compute; reflexivity)).
  assert (Pf : Prepare (MBoxHandler := mb) (sample_handler, full_disk) = (None, (sample_handler, full_disk)))
    by (cbn [mb dir_mailbox Prepare fst snd]; by rewrite prepare_again by (vm_compute; reflexivity)).
  assert (Qe : GetOutbound (MBoxHandler := mb) (announced_fw plain_env disk_client) (sample_handler, empty_disk) = []) by (vm_compute; reflexivity).
  assert (St : forall s : session (DirHandler * fs), presentable s -> Done s = false -> s.(s_remoteNoMsgs) = false -> forall f,
    s.(s_h) = Some (sample_handler, f) -> (Prepare (MBoxHandler := mb) (sample_handler, f)).1 = None -> stands_by (MB := mb) s (sample_handler, f)) by (by split).
  destruct (exchange_on_disk (H := raw_charset) (H0 := any_clock) (H1 := store_gzip) (H2 := zero_md5) 3868 (fun _ => 512) quiet_os quiet_os
    gzip_env plain_env list_order list_order disk_master disk_client (sample_handler, empty_disk) (sample_handler, full_disk))
    as (om & oc & m' & c' & Dm & Dc & Xm & Xc & _ & _ & Dm' & Dc' & Fm & Fc).
  - intros _. reflexivity.
  - reflexivity.
  - reflexivity.
  - exact quiet_fair.
  - exact quiet_fair.
  - reflexivity.
  - reflexivity.
  - constructor.
  - apply St; [|reflexivity..|by rewrite Pe].
    split; [split; [done|]; constructor; [by apply station_check|constructor]| |]; split_and!; by apply printable_str.
  - apply St; [|reflexivity..|by rewrite Pf].
    split; [split; [done|]; constructor; [by apply station_check|constructor]| |]; split_and!; by apply printable_str.
  - fold mb. rewrite Pe. split; [exact empty_in_order|reflexivity|cbn [snd]; fold mb; rewrite Qe; constructor].
  - fold mb. rewrite Pf. split; [exact full_in_order|reflexivity|]. cbn [snd].
    change (announced_fw gzip_env disk_master) with [AddressFromString (str "LA1B")].
    rewrite queued_sample_offered. apply Forall_singleton. exact queued_sample_ok.
  - fold mb in Dm', Dc', Xm, Xc, Fm, Fc. rewrite Pe, Pf in *. cbn [snd] in *. rewrite Qe in Dm'.
    change (announced_fw gzip_env disk_master) with [AddressFromString (str "LA1B")] in Dc'. unfold mb in Dc'. rewrite queued_sample_offered in Dc'.
    assert (Em : missing_at (H := quiet_os) (sample_handler, empty_disk) [queued_sample] = [queued_sample]) by (vm_compute; reflexivity).
    rewrite Em in Dc'. apply Permutation_singleton_r in Dc' as ->. apply Permutation_nil_r in Dm' as ->.
    exists om, oc, m', c'. by split_and!.
Defined.
