(* ===== verification/Bufio.v ===== *)
(** Package bufio over a stream that arrives in pieces.

    The reader is the list of pieces the reads of the underlying connection
    return; the first piece is what is buffered now.  The stream ends with
    io.EOF after the last piece.  Where a piece ends matters to [Read], which
    returns what is buffered, and to no other operation. *)
From S2P Require Import Prelude Crc GoStr.

Abbreviation rdr := (list (list Z)).

(** ** Operations *)
Fixpoint ReadByte (rd : rdr) : option Z * rdr :=
  match rd with
  | [] => (None, [])
  | [] :: rd => ReadByte rd
  | (c :: cs) :: rd => (Some c, cs :: rd)
  end.

(** [reader.Read(p)] with [len(p) = n > 0]: [None] is io.EOF. *)
Fixpoint Read_some (n : nat) (rd : rdr) : option (list Z) * rdr :=
  match rd with
  | [] => (None, [])
  | [] :: rd => Read_some n rd
  | c :: rd => (Some (take n c), drop n c :: rd)
  end.

(** [for read < n && err == nil { Read(data[read:]) }]: what was read. *)
Fixpoint Read_loop (fuel n : nat) (rd : rdr) : list Z * rdr :=
  match fuel, n with
  | S fuel, S _ =>
      match Read_some n rd with
      | (None, rd) => ([], rd)
      | (Some d, rd) => let '(ds, rd) := Read_loop fuel (n - length d) rd in (d ++ ds, rd)
      end
  | _, _ => ([], rd)
  end.

Fixpoint gather (acc : list Z) (n : nat) (rd : rdr) : rdr :=
  if (n <=? length acc)%nat then acc :: rd
  else match rd with [] => [acc] | c :: rd => gather (acc ++ c) n rd end.

(** [reader.Peek(n)]: [None] when the stream ends before. *)
Definition Peek (n : nat) (rd : rdr) : option (list Z) * rdr :=
  let rd := gather [] n rd in
  (if (length (concat rd) <? n)%nat then None else Some (take n (concat rd)), rd).

(** [reader.ReadBytes(d)]: [false] when the stream ends before the delimiter. *)
Fixpoint ReadBytes (d : Z) (rd : rdr) : list Z * bool * rdr :=
  match rd with
  | [] => ([], false, [])
  | c :: rd => match ReadString d c with
               | (l, true, c) => (l, true, c :: rd)
               | (l, false, _) => let '(m, ok, rd) := ReadBytes d rd in (l ++ m, ok, rd)
               end
  end.

(** A piece ends after [k] bytes of the stream. *)
Fixpoint cut_at (k : nat) (rd : rdr) : bool :=
  match rd with
  | [] => false
  | c :: rd => (k =? length c)%nat || ((length c <? k)%nat && cut_at (k - length c) rd)
  end.

(** ** The stream, whatever its pieces *)
Lemma ReadByte_concat rd :
  match ReadByte rd with
  | (Some c, rd') => concat rd = c :: concat rd'
  | (None, rd') => concat rd = [] /\ rd' = []
  end.
Proof. induction rd as [|[|c cs] rd IH]; cbn; done. Qed.

Lemma Read_some_concat n rd : (0 < n)%nat ->
  match Read_some n rd with
  | (Some d, rd') => concat rd = d ++ concat rd' /\ (0 < length d <= n)%nat
  | (None, rd') => concat rd = [] /\ rd' = []
  end.
Proof.
  intros Hn. induction rd as [|[|c cs] rd IH]; [done|exact IH|].
  cbn [Read_some]. split; [cbn [concat]; by rewrite app_assoc, take_drop|].
  rewrite length_take. cbn [length]. lia.
Qed.

Lemma Read_loop_concat f n rd : (n <= f)%nat ->
  exists rd', Read_loop f n rd = (take n (concat rd), rd') /\ concat rd' = drop n (concat rd).
Proof.
  revert n rd. induction f as [|f IH]; intros n rd Hf; [replace n with 0%nat by lia; by exists rd|].
  destruct n as [|n]; [by exists rd|]. cbn [Read_loop].
  pose proof (Read_some_concat (S n) rd ltac:(lia)) as H. destruct (Read_some (S n) rd) as [[d|] rd1].
  - destruct H as [-> Hd]. destruct (IH (S n - length d)%nat rd1 ltac:(lia)) as (rd' & -> & E).
    exists rd'. rewrite take_app, drop_app, E.
    by rewrite (take_ge d), (drop_ge d) by lia.
  - destruct H as [-> ->]. by exists [].
Qed.

Lemma gather_concat acc n rd : concat (gather acc n rd) = acc ++ concat rd.
Proof.
  revert acc. induction rd as [|c rd IH]; intros acc; cbn [gather];
    destruct (n <=? length acc)%nat; cbn [concat]; try done. by rewrite IH, <- app_assoc.
Qed.

Lemma Peek_concat n rd : Peek n rd =
  (if (length (concat rd) <? n)%nat then None else Some (take n (concat rd)), gather [] n rd).
Proof. unfold Peek. by rewrite gather_concat. Qed.

Lemma ReadString_split d s :
  match ReadString d s with
  | (l, true, r) => s = l ++ r /\ exists m, l = m ++ [d] /\ d ∉ m
  | (l, false, r) => l = s /\ r = [] /\ d ∉ s
  end.
Proof.
  induction s as [|c s IH]; cbn [ReadString]; [split; [done|]; split; [done|apply not_elem_of_nil]|].
  destruct (Z.eqb_spec c d) as [->|Hn]; [split; [done|]; exists []; split; [done|apply not_elem_of_nil]|].
  destruct (ReadString d s) as [[l [|]] r].
  - destruct IH as (-> & m & -> & H). split; [done|]. exists (c :: m). split; [done|].
    apply not_elem_of_cons. auto.
  - destruct IH as (-> & -> & H). split_and!; [done..|]. apply not_elem_of_cons. auto.
Qed.

Lemma ReadBytes_split d rd :
  match ReadBytes d rd with
  | (l, true, r) => concat rd = l ++ concat r /\ exists m, l = m ++ [d] /\ d ∉ m
  | (l, false, r) => l = concat rd /\ r = [] /\ d ∉ concat rd
  end.
Proof.
  induction rd as [|c rd IH]; cbn [ReadBytes concat]; [split; [done|]; split; [done|apply not_elem_of_nil]|].
  pose proof (ReadString_split d c) as H. destruct (ReadString d c) as [[l [|]] r].
  - destruct H as (-> & H). cbn [concat]. by rewrite <- app_assoc.
  - destruct H as (-> & -> & Hc). destruct (ReadBytes d rd) as [[m [|]] r'].
    + destruct IH as (-> & m' & -> & Hm). split; [by rewrite app_assoc|]. exists (c ++ m').
      split; [by rewrite app_assoc|]. rewrite not_elem_of_app. done.
    + destruct IH as (-> & -> & Hm). split_and!; [done..|]. by rewrite not_elem_of_app.
Qed.

(** ** Pieces after an operation *)
Lemma cut_drop k j c rd : (j < k)%nat -> (j <= length c)%nat ->
  cut_at (k - j) (drop j c :: rd) = cut_at k (c :: rd).
Proof.
  intros H1 H2. cbn [cut_at]. rewrite length_drop.
  replace (k - j =? length c - j)%nat with (k =? length c)%nat
    by (destruct (Nat.eqb_spec k (length c)), (Nat.eqb_spec (k - j) (length c - j)); lia || done).
  replace (length c - j <? k - j)%nat with (length c <? k)%nat
    by (destruct (Nat.ltb_spec (length c) k), (Nat.ltb_spec (length c - j) (k - j)); lia || done).
  by replace (k - j - (length c - j))%nat with (k - length c)%nat by lia.
Qed.

Lemma cut_nil k rd : (0 < k)%nat -> cut_at k ([] :: rd) = cut_at k rd.
Proof. destruct k as [|k]; [lia|]. intros _. cbn [cut_at length Nat.eqb orb]. by rewrite Nat.sub_0_r. Qed.

(** [rd'] is what is left of [rd] after [n] bytes. *)
Definition consumed (n : nat) (rd rd' : rdr) : Prop :=
  (n <= length (concat rd))%nat /\ concat rd' = drop n (concat rd)
  /\ forall k, (0 < k)%nat -> cut_at k rd' = cut_at (n + k) rd.

Lemma consumed_0 rd : consumed 0 rd rd.
Proof. unfold consumed. split_and!; [lia|done|done]. Qed.

Lemma consumed_trans n m rd rd1 rd2 :
  consumed n rd rd1 -> consumed m rd1 rd2 -> consumed (n + m) rd rd2.
Proof.
  intros (H1 & E1 & C1) (H2 & E2 & C2). rewrite E1, length_drop in H2. split_and!; [lia|..].
  - by rewrite E2, E1, drop_drop.
  - intros k Hk. rewrite C2, C1 by lia. f_equal. lia.
Qed.

Lemma consumed_nil n rd rd' : consumed n rd rd' -> consumed n ([] :: rd) rd'.
Proof.
  intros (H1 & H2 & H3). split_and!; [done..|]. intros k Hk. rewrite cut_nil by lia. by apply H3.
Qed.

Lemma consumed_drop n c rd : (n <= length c)%nat -> consumed n (c :: rd) (drop n c :: rd).
Proof.
  intros H. split_and!; [cbn [concat]; rewrite length_app; lia| |].
  - cbn [concat]. by rewrite drop_app_le.
  - intros k Hk. rewrite <- (cut_drop (n + k) n) by lia. f_equal. lia.
Qed.

Lemma consumed_skip n c rd rd' : consumed n rd rd' -> consumed (length c + n) (c :: rd) rd'.
Proof.
  intros (H1 & E & H). split_and!.
  - cbn [concat]. rewrite length_app. lia.
  - cbn [concat]. by rewrite E, drop_app_add.
  - intros k Hk. rewrite (H k Hk). cbn [cut_at].
    destruct (Nat.eqb_spec (length c + n + k) (length c)); [lia|].
    destruct (Nat.ltb_spec (length c) (length c + n + k)); [|lia]. cbn [orb andb]. f_equal. lia.
Qed.

Lemma ReadByte_consumed rd c s : concat rd = c :: s -> exists rd', ReadByte rd = (Some c, rd') /\ consumed 1 rd rd'.
Proof.
  induction rd as [|[|x cs] rd IH]; intros E; [done| |].
  - destruct (IH E) as (rd' & E' & H). exists rd'. split; [done|]. by apply consumed_nil.
  - cbn in E. injection E as -> E. exists (cs :: rd). split; [done|].
    apply (consumed_drop 1 (c :: cs)). cbn. lia.
Qed.

Lemma Read_some_consumed n rd d rd' : (0 < n)%nat -> Read_some n rd = (Some d, rd') -> consumed (length d) rd rd'.
Proof.
  intros Hn. induction rd as [|[|x cs] rd IH]; intros E; [done| |].
  - apply consumed_nil, IH, E.
  - cbn [Read_some] in E. injection E as <- <-. rewrite length_take.
    destruct (Nat.min_spec n (length (x :: cs))) as [[H ->]|[H ->]].
    + apply consumed_drop. lia.
    + rewrite (drop_ge _ n) by done. rewrite <- (drop_ge (x :: cs) (length (x :: cs))) by done.
      by apply consumed_drop.
Qed.

Lemma Read_loop_consumed f n rd : (n <= f)%nat -> (n <= length (concat rd))%nat ->
  exists rd', Read_loop f n rd = (take n (concat rd), rd') /\ consumed n rd rd'.
Proof.
  intros Hf. revert n rd Hf. induction f as [|f IH]; intros n rd Hf Hn.
  { replace n with 0%nat by lia. exists rd. split; [done|apply consumed_0]. }
  destruct n as [|n]; [exists rd; split; [done|apply consumed_0]|]. cbn [Read_loop].
  pose proof (Read_some_concat (S n) rd ltac:(lia)) as H.
  destruct (Read_some (S n) rd) as [[d|] rd1] eqn:E; [|destruct H as [H _]; rewrite H in Hn; cbn in Hn; lia].
  apply Read_some_consumed in E as Ec; [|lia]. destruct H as [H Hd].
  rewrite H, length_app in Hn. destruct (IH (S n - length d)%nat rd1 ltac:(lia) ltac:(lia)) as (rd' & -> & E').
  exists rd'. split.
  - rewrite H, take_app. by rewrite (take_ge d) by lia.
  - pose proof (consumed_trans _ _ _ _ _ Ec E') as Ht. by replace (length d + _)%nat with (S n) in Ht by lia.
Qed.

Lemma ReadBytes_consumed d rd m s : concat rd = m ++ d :: s -> d ∉ m ->
  exists rd', ReadBytes d rd = (m ++ [d], true, rd') /\ consumed (S (length m)) rd rd'.
Proof.
  revert m. induction rd as [|c rd IH]; intros m E Hm; [by destruct m|]. cbn [ReadBytes concat] in *.
  pose proof (ReadString_split d c) as H. destruct (ReadString d c) as [[l [|]] r].
  - destruct H as (-> & m' & -> & Hm'). rewrite <- !app_assoc in E. cbn [app] in E.
    assert (m = m') as ->.
    { clear -E Hm Hm'. revert m' E Hm'. induction m as [|x m IH]; intros [|y m'] E Hm'; try done; cbn in E.
      - injection E as -> E. apply not_elem_of_cons in Hm' as [??]. done.
      - injection E as -> E. apply not_elem_of_cons in Hm as [??]. done.
      - injection E as -> E. apply not_elem_of_cons in Hm as [??], Hm' as [??]. f_equal. by apply IH. }
    exists (r :: rd). split; [done|].
    replace (S (length m')) with (length (m' ++ [d])) by (rewrite length_app; cbn; lia).
    pose proof (consumed_drop (length (m' ++ [d])) ((m' ++ [d]) ++ r) rd) as Hc.
    rewrite drop_app_length in Hc. apply Hc. rewrite (length_app (m' ++ [d])). lia.
  - destruct H as (-> & -> & Hc).
    assert (exists m1, m = c ++ m1) as [m1 ->].
    { clear -E Hc. revert m E. induction c as [|x c IH]; intros m E; [by exists m|].
      apply not_elem_of_cons in Hc as [??]. destruct m as [|y m]; cbn in E; injection E as -> E; [done|].
      destruct (IH ltac:(done) m E) as [m1 ->]. by exists m1. }
    rewrite <- app_assoc in E. apply app_inv_head in E. apply not_elem_of_app in Hm as [_ Hm].
    destruct (IH m1 E Hm) as (rd' & -> & H). exists rd'. split; [by rewrite app_assoc|].
    replace (S (length (c ++ m1))) with (length c + S (length m1))%nat by (rewrite length_app; lia).
    by apply consumed_skip.
Qed.

Lemma gather_cut acc n rd k : (n <= k)%nat -> cut_at k (gather acc n rd) = cut_at k (acc :: rd).
Proof.
  intros Hk. revert acc. induction rd as [|c rd IH]; intros acc; cbn [gather];
    destruct (Nat.leb_spec n (length acc)); [done..|]. rewrite IH. cbn [cut_at]. rewrite length_app.
  destruct (Nat.eqb_spec k (length acc)); [lia|]. destruct (Nat.ltb_spec (length acc) k); [|lia]. cbn [orb andb].
  destruct (Nat.eqb_spec k (length acc + length c)), (Nat.eqb_spec (k - length acc) (length c)); try lia; cbn [orb].
  destruct (Nat.ltb_spec (length acc + length c) k), (Nat.ltb_spec (length c) (k - length acc)); try lia; cbn [andb]; try done.
  all: f_equal; lia.
Qed.

(** Two bytes asked for with one [Read]: both, unless a piece ends between them. *)
Lemma Read_two rd a b s : concat rd = a :: b :: s ->
  exists rd', Read_some 2 rd = (Some (if cut_at 1 rd then [a] else [a; b]), rd')
    /\ consumed (if cut_at 1 rd then 1 else 2) rd rd'.
Proof.
  intros E. assert (exists d rd', Read_some 2 rd = (Some d, rd') /\ d = if cut_at 1 rd then [a] else [a; b])
    as (d & rd' & H & ->).
  - induction rd as [|[|x [|y cs]] rd IH]; [done| |..].
    + destruct (IH E) as (d & rd' & E1 & E2). exists d, rd'. by rewrite cut_nil by lia.
    + cbn in E. injection E as -> E. by eexists _, _.
    + cbn in E. injection E as -> -> E. by eexists _, _.
  - exists rd'. split; [done|]. apply Read_some_consumed in H; [|lia]. by destruct (cut_at 1 rd).
Qed.
