(* ===== verification/Transport.v ===== *)
(** Dialing: [src/transport/url.go], [src/transport/dial.go], and the addresses
    and the dialer of package ax25 ([src/transport/ax25/ax25.go], [tnc.go]).

    Package net/url is a parameter that gives the parts of an URL; contexts and
    the lock around the table of dialers are left out. *)
From S2P Require Import Prelude Crc GoStr Helpers FileSys.
From stdpp Require Import gmap.
Open Scope Z_scope.

(** ** Package transport: URLs *)

(** What [url.Parse] returns; [u_query] holds the values of each parameter. *)
Record net_url := mkNet {
  u_Scheme : gostr; u_Host : gostr; u_User : option (gostr * option gostr); u_Path : gostr; u_Query : gmap gostr (list gostr) }.

Class NetURL := { url_Parse : gostr -> error + net_url }.

Record URL := mkURL {
  Scheme : gostr; Host : gostr; User : option (gostr * option gostr); Target : gostr; Digis : list gostr;
  url_Params : gmap gostr (list gostr) }.

Definition ErrInvalidTarget := New (str "Invalid or missing target callsign").
Definition ErrDigisUnsupported := New (str "Digipeater path is not supported by this scheme").
Definition ErrMissingDialer := New (str "No dialer has been registered for this scheme").
Definition ErrUnsupportedScheme := New (str "Unsupported URL scheme").

(** [url.Values.Get] *)
Definition values_Get (v : gmap gostr (list gostr)) (key : gostr) : gostr :=
  match default [] (v !! key) with x :: _ => x | [] => [] end.

(** [url.Userinfo.Username], which a nil pointer has too. *)
Definition Username (u : option (gostr * option gostr)) : gostr := match u with Some (name, _) => name | None => [] end.

(** [strings.Trim(s, "/")] *)
Definition trim_slashes (s : gostr) : gostr := trim_ends [[47]] s.

(** The URL and the error are both returned when digipeaters are not supported. *)
Definition ParseURL `{NetURL} (rawurl : gostr) : option error * option URL :=
  match url_Parse rawurl with
  | inl e => (Some e, None)
  | inr u =>
    let path := ToUpper u.(u_Path) in
    let '(via, target) := path_Split path in
    if zlen target <? 3 then (Some ErrInvalidTarget, None)
    else
      let host := values_Get u.(u_Query) (str "host") in
      let host := if bool_decide (host = []) then u.(u_Host) else host in
      let digis := Split 47 (trim_slashes via) in
      let digis := if bool_decide (digis = [[]]) then [] else digis in
      let url := mkURL u.(u_Scheme) host u.(u_User) target digis u.(u_Query) in
      let digisUnsupported := bool_decide (url.(Scheme) = str "ardop") || bool_decide (url.(Scheme) = str "telnet") in
      if (0 <? zlen digis) && digisUnsupported then (Some ErrDigisUnsupported, Some url) else (None, Some url)
  end.

Definition SetUser (u : URL) (call : gostr) : URL :=
  mkURL u.(Scheme) u.(Host) (Some (call, None)) u.(Target) u.(Digis) u.(url_Params).

(** ** Package transport: dialers *)
Section dialers.
Context {conn : Type}.

(** A dialer; one without a context ignores it. *)
Abbreviation Dialer := (URL -> error + conn).
Abbreviation dialers := (gmap gostr Dialer).

Definition RegisterContextDialer (scheme : gostr) (d : Dialer) (m : dialers) : dialers := <[scheme := d]> m.
Definition RegisterDialer (scheme : gostr) (d : Dialer) (m : dialers) : dialers := RegisterContextDialer scheme d m.
Definition UnregisterDialer (scheme : gostr) (m : dialers) : dialers := delete scheme m.

Definition DialURLContext (m : dialers) (url : URL) : error + conn :=
  match m !! url.(Scheme) with
  | None => inl ErrMissingDialer
  | Some dialer => dialer url
  end.
Definition DialURL (m : dialers) (url : URL) : error + conn := DialURLContext m url.
End dialers.

(** ** Package ax25: addresses *)
Record Address := mkAddress { Call : gostr; SSID : Z }.

#[export] Instance Address_eq_dec : EqDecision Address.
Proof. solve_decision. Defined.

Definition ax25_AddressFromString (s : gostr) : res Address :=
  let parts := Split 45 s in
  p0 ← idx parts 0;
  if 1 <? zlen parts then
    p1 ← idx parts 1;
    let '(ssid, err) := ParseInt 10 p1 in
    mret (if negb err && (0 <=? ssid) && (ssid <=? 255) then mkAddress p0 (u8 ssid) else mkAddress p0 0)
  else mret (mkAddress p0 0).

Definition Address_String (a : Address) : gostr :=
  if 0 <? a.(SSID) then a.(Call) ++ str "-" ++ itoa a.(SSID) else a.(Call).

Record tncAddr := mkTncAddr { t_address : Address; t_digis : list Address }.

Definition AX25Addr_String (a : tncAddr) : gostr :=
  Address_String a.(t_address) ++ (if 0 <? zlen a.(t_digis) then str " via" else [])
  ++ concat ((fun d => str " " ++ Address_String d) <$> a.(t_digis)).

Definition tncAddrFromString (s : gostr) : res tncAddr :=
  let parts := Split 32 s in
  p0 ← idx parts 0;
  address ← ax25_AddressFromString p0;
  if zlen parts <? 3 then mret (mkTncAddr address [])
  else
    p1 ← idx parts 1;
    if negb (bool_decide (p1 = str "via") || bool_decide (p1 = str "v")) then mret (mkTncAddr address [])
    else digis ← mapM ax25_AddressFromString (drop 2 parts); mret (mkTncAddr address digis).

(** ** Package ax25: the dialer *)
Definition Millisecond : Z := 1000000.
Definition Second : Z := 1000 * Millisecond.

Definition B9600 : Z := 9600.
Definition B1200 : Z := 1200.
Definition DefaultSerialBaud : Z := 9600.

Record Config := mkConfig {
  HBaud : Z; SerialBaud : Z; TXDelay : Z; PacketLength : Z; Persist : Z; SlotTime : Z; MaxFrame : Z; FRACK : Z;
  ResponseTime : Z }.

Definition NewConfig (hbaud serialBaud : Z) : Config :=
  if hbaud =? B1200 then mkConfig B1200 serialBaud (120 * Millisecond) 128 128 (50 * Millisecond) 6 (5 * Second) (100 * Millisecond)
  else if hbaud =? B9600 then mkConfig B9600 serialBaud (100 * Millisecond) 255 190 (50 * Millisecond) 6 (5 * Second) (0 * Millisecond)
  else mkConfig 0 0 0 0 0 0 0 0 0.

(** The station to call, as a TNC is given it. *)
Definition dial_target (url : URL) : gostr :=
  if 0 <? zlen url.(Digis) then url.(Target) ++ str " via " ++ strings_Join url.(Digis) (str " ") else url.(Target).

Definition positive_param (url : URL) (key : gostr) (dflt : Z) : Z :=
  let i := (Atoi (values_Get url.(url_Params) key)).1 in if 0 <? i then i else dflt.

(** [Dialer.DialURLContext], with the two ways to dial as parameters: host, own
    call and target; for the second the configuration of the TNC too.  The first
    tells whether its context expired. *)
Definition ax25_DialURLContext {conn} (DialAX25Context : gostr -> gostr -> gostr -> bool * (error + conn))
    (DialKenwood : gostr -> gostr -> gostr -> Config -> error + conn) (url : URL) : error + conn :=
  let target := dial_target url in
  if bool_decide (url.(Scheme) = str "ax25") || bool_decide (url.(Scheme) = str "ax25+linux") then
    match DialAX25Context url.(Host) (Username url.(User)) target with
    | (true, inl _) => inl (New (str "Dial timeout"))
    | (_, r) => r
    end
  else if bool_decide (url.(Scheme) = str "serial-tnc") || bool_decide (url.(Scheme) = str "ax25+serial-tnc") then
    DialKenwood url.(Host) (Username url.(User)) target
      (NewConfig (positive_param url (str "hbaud") B1200) (positive_param url (str "serial_baud") DefaultSerialBaud))
  else inl ErrUnsupportedScheme.
