(* ===== verification/TransportProps.v ===== *)
(** The route of an AX.25 connection: from an URL to the addresses a TNC is given. *)
From S2P Require Import Prelude Crc GoStr Helpers Proposal Message MessageFormat FileSys Transport.
From stdpp Require Import gmap.
Open Scope Z_scope.

(** ** Addresses *)

(** An address as it is printed: upper case, none of the separators. *)
Record good_address (a : Address) : Prop := {
  ga_upper : ToUpper a.(Call) = a.(Call); ga_ne : a.(Call) <> [];
  ga_dash : 45 ∉ a.(Call); ga_space : 32 ∉ a.(Call); ga_slash : 47 ∉ a.(Call); ga_ssid : 0 <= a.(SSID) <= 255 }.

Lemma address_print a : 45 ∉ a.(Call) -> 0 <= a.(SSID) <= 255 -> ax25_AddressFromString (Address_String a) = Ok a.
Proof.
  intros Hd Hs. destruct a as [call ssid]. cbn [Call SSID] in *. unfold ax25_AddressFromString, Address_String. cbn [Call SSID].
  destruct (Z.ltb_spec 0 ssid) as [Hp|Hp].
  - change (str "-" ++ itoa ssid) with (45 :: itoa ssid). rewrite Split_app by done.
    rewrite (Split_none 45 (itoa ssid)) by (apply not_in_digits; lia).
    change (idx [call; itoa ssid] 0) with (Ok call). change (idx [call; itoa ssid] 1) with (Ok (itoa ssid)).
    change (1 <? zlen [call; itoa ssid]) with true. cbv zeta iota. rewrite !bind_Ok.
    assert (Hi : ParseInt 10 (itoa ssid) = (ssid, false)) by (apply (Atoi_itoa ssid); lia).
    rewrite Hi. cbn [negb andb]. rewrite (proj2 (Z.leb_le 0 ssid)), (proj2 (Z.leb_le ssid 255)) by lia.
    cbn [andb]. by rewrite u8_small by lia.
  - rewrite Split_none by done. cbn. by replace ssid with 0 by lia.
Qed.

Lemma address_clean c a : 45 ∉ a.(Call) -> 0 <= a.(SSID) <= 255 -> c ∉ a.(Call) -> c <> 45 -> c < 48 -> c ∉ Address_String a.
Proof.
  intros Hd Hs Hc Hne Hl. unfold Address_String. destruct (0 <? SSID a); [|done].
  apply not_elem_app; [done|]. change (str "-" ++ itoa ?n) with (45 :: itoa n). apply not_elem_of_cons. split; [done|].
  apply not_in_digits; lia.
Qed.

Lemma address_upper a : good_address a -> ToUpper (Address_String a) = Address_String a.
Proof.
  intros [Hu _ _ _ _ Hs]. unfold Address_String. destruct (0 <? SSID a); [|done]. unfold ToUpper in *.
  rewrite !fmap_app, Hu. change (upper <$> str "-") with (str "-"). do 2 f_equal.
  pose proof (itoa_digits (SSID a) ltac:(lia)) as F. induction F as [|c s Hc _ IH]; [done|]. cbn. f_equal; [|exact IH].
  unfold upper. repeat case_match; lia.
Qed.

Lemma addresses_print ds : Forall good_address ds -> mapM ax25_AddressFromString (Address_String <$> ds) = Ok ds.
Proof.
  induction 1 as [|d ds [_ _ Hd _ _ Hs] _ IH]; [done|]. cbn [fmap list_fmap mapM]. rewrite address_print by done.
  rewrite bind_Ok. cbn [fmap] in IH. by rewrite IH.
Qed.

(** The target of a connection, as the TNC is given it, names the station and its
    digipeaters. *)
Lemma route_print a ds : good_address a -> Forall good_address ds ->
  tncAddrFromString (match ds with [] => Address_String a
    | _ => Address_String a ++ str " via " ++ strings_Join (Address_String <$> ds) (str " ") end) = Ok (mkTncAddr a ds).
Proof.
  intros Ha Hds. assert (Hsp : forall d, good_address d -> 32 ∉ Address_String d) by (intros d []; apply address_clean; done).
  assert (E : Split 32 (match ds with [] => Address_String a
    | _ => Address_String a ++ str " via " ++ strings_Join (Address_String <$> ds) (str " ") end)
    = Address_String a :: match ds with [] => [] | _ => str "via" :: (Address_String <$> ds) end).
  { destruct ds as [|d ds]; [by apply Split_none, Hsp|]. set (l := Address_String <$> d :: ds).
    change (str " via " ++ strings_Join l (str " ")) with (32 :: str "via" ++ 32 :: strings_Join l [32]).
    rewrite !Split_at, (Split_none 32 (Address_String a)) by auto. rewrite Split_join, concat_Split; [done| |done].
    apply Forall_fmap. eapply Forall_impl; [exact Hds|]. intros x Hx. by apply Hsp. }
  unfold tncAddrFromString. rewrite E. clear E. destruct ds as [|d ds].
  - change (idx [Address_String a] 0) with (Ok (Address_String a)). rewrite bind_Ok, address_print by apply Ha. done.
  - set (l := Address_String <$> d :: ds). change (idx (Address_String a :: ?x) 0) with (Ok (Address_String a)).
    rewrite bind_Ok, address_print by apply Ha. rewrite bind_Ok.
    assert ((zlen (Address_String a :: str "via" :: l) <? 3) = false) as ->
      by (unfold l; rewrite fmap_cons, !zlen_cons; pose proof (zlen_nonneg (Address_String <$> ds)); lia).
    change (idx (_ :: str "via" :: l) 1) with (Ok (str "via")). rewrite bind_Ok.
    change (negb _) with false. cbv iota. change (drop 2 (_ :: _ :: l)) with l. unfold l. rewrite addresses_print by done. done.
Qed.

(** ** URLs *)
Lemma trim_slashes_sides m c d m1 m2 : m = c :: m1 -> m = m2 ++ [d] -> c <> 47 -> d <> 47 ->
  trim_slashes (47 :: m ++ [47]) = m.
Proof.
  intros E1 E2 Hc Hd. unfold trim_slashes, trim_ends. change (reverse <$> [[47]]) with [[47]].
  assert (K : forall f x l, x <> 47 -> trim_front f [[47]] (x :: l) = x :: l).
  { intros f x l Hx. apply trim_front_keep, Forall_singleton. unfold HasPrefix. apply bool_decide_eq_false. cbn. congruence. }
  assert (T : forall l, trim_front (length (47 :: l)) [[47]] (47 :: l) = trim_front (length l) [[47]] l) by (intros; reflexivity).
  assert (A : trim_front (length (m ++ [47])) [[47]] (m ++ [47]) = m ++ [47]) by (rewrite E1; exact (K _ c (m1 ++ [47]) Hc)).
  assert (B : trim_front (length m) [[47]] (reverse m) = reverse m) by (rewrite E2, reverse_snoc; by apply K).
  cbv zeta. rewrite T, A, reverse_snoc.
  replace (length (m ++ [47])) with (length (47 :: reverse m)) by (rewrite length_app; cbn [length]; rewrite length_reverse; lia).
  rewrite T, length_reverse, B. apply reverse_involutive.
Qed.

Lemma join_ends ds : ds <> [] -> Forall (fun d => d <> [] /\ 47 ∉ d) ds ->
  exists c m1 m2 d, strings_Join ds [47] = c :: m1 /\ strings_Join ds [47] = m2 ++ [d] /\ c <> 47 /\ d <> 47.
Proof.
  intros Hne F. destruct ds as [|x ds]; [done|]. clear Hne. revert x F. induction ds as [|y ds IH]; intros x F.
  all: inversion F as [|? ? [Hx Hs] F']; subst.
  all: destruct x as [|c x]; [done|]; assert (Hc : c <> 47) by (intros ->; apply Hs; left).
  - destruct (exists_last (l := c :: x)) as (m2 & d & E); [done|]. exists c, x, m2, d. cbn [strings_Join].
    split_and!; [done|done|done|]. intros ->. apply Hs. rewrite E. apply elem_of_app. right. left.
  - destruct (IH y F') as (c' & m1 & m2 & d & E1 & E2 & _ & Hd).
    change (strings_Join ((c :: x) :: y :: ds) [47]) with ((c :: x) ++ 47 :: strings_Join (y :: ds) [47]).
    exists c. eexists. exists ((c :: x) ++ 47 :: m2), d. split_and!; [reflexivity| |done|done].
    rewrite E2. by rewrite <- app_assoc.
Qed.

(** The path of an URL that names digipeaters and a station. *)
Definition url_path (ds : list gostr) (t : gostr) : gostr := concat ((fun d => 47 :: d) <$> ds) ++ 47 :: t.

Lemma url_path_via ds : concat ((fun d : gostr => 47 :: d) <$> ds) ++ [47] =
  match ds with [] => [47] | _ => 47 :: strings_Join ds [47] ++ [47] end.
Proof.
  destruct ds as [|d ds]; [done|]. revert d. induction ds as [|e ds IH]; intros d; [cbn; by rewrite app_nil_r|].
  change (strings_Join (d :: e :: ds) [47]) with (d ++ 47 :: strings_Join (e :: ds) [47]). rewrite fmap_cons. cbn [concat].
  rewrite <- app_assoc, (IH e). cbn [app]. f_equal. by rewrite <- app_assoc.
Qed.

Lemma ParseURL_path `{NetURL} raw u ds t :
  url_Parse raw = inr u -> ToUpper u.(u_Path) = url_path ds t ->
  Forall (fun d => d <> [] /\ 47 ∉ d) ds -> 47 ∉ t -> 3 <= zlen t ->
  exists url, (ParseURL raw).2 = Some url /\ url.(Scheme) = u.(u_Scheme) /\ url.(Target) = t /\ url.(Digis) = ds /\
    url.(User) = u.(u_User) /\ url.(url_Params) = u.(u_Query) /\
    (ParseURL raw).1 = if (0 <? zlen ds) && (bool_decide (u.(u_Scheme) = str "ardop") || bool_decide (u.(u_Scheme) = str "telnet"))
                       then Some ErrDigisUnsupported else None.
Proof.
  intros Eu Ep Hds Ht Hl. unfold ParseURL. rewrite Eu, Ep. unfold path_Split, url_path.
  rewrite after_last_app; [|done|]; [|apply Forall_forall; intros x Hx; apply Z.eqb_neq; intros <-; done].
  set (p := concat _). assert (take (S (length p)) (p ++ 47 :: t) = p ++ [47]) as ->.
  { change (47 :: t) with ([47] ++ t). rewrite app_assoc. apply take_app_length'. rewrite length_app. cbn. lia. }
  assert (drop (S (length p)) (p ++ 47 :: t) = t) as ->.
  { change (47 :: t) with ([47] ++ t). rewrite app_assoc. apply drop_app_length'. rewrite length_app. cbn. lia. }
  assert ((zlen t <? 3) = false) as -> by lia. unfold p. rewrite url_path_via.
  assert (Ed : (if bool_decide (Split 47 (trim_slashes (match ds with [] => [47] | _ => 47 :: strings_Join ds [47] ++ [47] end)) = [[]])
      then [] else Split 47 (trim_slashes (match ds with [] => [47] | _ => 47 :: strings_Join ds [47] ++ [47] end))) = ds).
  { destruct ds as [|d ds]; [done|]. destruct (join_ends (d :: ds)) as (c & m1 & m2 & e & E1 & E2 & Hc & He); [done|done|].
    rewrite (trim_slashes_sides _ c e m1 m2 E1 E2 Hc He), Split_join, concat_Split; [| |done].
    - rewrite bool_decide_false; [done|]. inversion Hds as [|? ? [Hd _] _]. congruence.
    - eapply Forall_impl; [exact Hds|]. by intros x []. }
  cbv zeta. rewrite Ed. cbn [Scheme]. destruct (_ && _); eexists; split_and!; reflexivity.
Qed.

Lemma route_text a ds : AX25Addr_String (mkTncAddr a ds) = match ds with [] => Address_String a
  | _ => Address_String a ++ str " via " ++ strings_Join (Address_String <$> ds) (str " ") end.
Proof.
  unfold AX25Addr_String. cbn [t_address t_digis]. destruct ds as [|d ds]; [apply app_nil_r|].
  assert (0 <? zlen (d :: ds) = true) as -> by (rewrite zlen_cons; pose proof (zlen_nonneg ds); lia). f_equal.
  change (str " via ") with (str " via" ++ [32]). rewrite <- app_assoc. f_equal. revert d.
  induction ds as [|e ds IH]; intros d; [cbn; by rewrite app_nil_r|].
  change (strings_Join (Address_String <$> d :: e :: ds) (str " "))
    with (Address_String d ++ [32] ++ strings_Join (Address_String <$> e :: ds) (str " ")).
  rewrite <- (IH e). rewrite fmap_cons. cbn [concat]. by rewrite <- !app_assoc.
Qed.

(** C30. The route of an AX.25 connection is the one its URL names: the path of the
    URL, in whatever case, gives the station and the digipeaters in the order
    they are written; the text passed to the TNC is the printed form of that
    address, and the TNC's own parser gets the same address back. *)
Theorem digipeater_route `{NetURL} raw u a ds :
  url_Parse raw = inr u -> ToUpper u.(u_Path) = url_path (Address_String <$> ds) (Address_String a) ->
  good_address a -> Forall good_address ds -> 3 <= zlen (Address_String a) ->
  u.(u_Scheme) <> str "ardop" -> u.(u_Scheme) <> str "telnet" ->
  exists url, ParseURL raw = (None, Some url) /\ dial_target url = AX25Addr_String (mkTncAddr a ds) /\
    tncAddrFromString (dial_target url) = Ok (mkTncAddr a ds).
Proof.
  intros Eu Ep Ha Hds Hl H1 H2. destruct (ParseURL_path raw u (Address_String <$> ds) (Address_String a) Eu Ep)
    as (url & E2 & _ & Et & Edig & _ & _ & E1); [|destruct Ha; by apply address_clean|done|].
  - apply Forall_fmap. eapply Forall_impl; [exact Hds|]. intros d Hd. split; [|destruct Hd; by apply address_clean].
    destruct Hd. unfold Address_String. destruct (0 <? SSID d); [|done]. by destruct (Call d).
  - exists url. rewrite (bool_decide_false _ H1), (bool_decide_false _ H2) in E1. cbn [orb] in E1. rewrite andb_false_r in E1.
    assert (Ed : dial_target url = AX25Addr_String (mkTncAddr a ds)).
    { rewrite route_text. unfold dial_target. rewrite Et, Edig. destruct ds; [done|].
      rewrite fmap_cons, zlen_cons. assert (0 <? 1 + zlen (Address_String <$> ds) = true) as ->; [|done].
      pose proof (zlen_nonneg (Address_String <$> ds)). lia. }
    split_and!; [by rewrite (surjective_pairing (ParseURL raw)), E1, E2|exact Ed|].
    rewrite Ed, route_text. by apply route_print.
Qed.

Definition sample_net : NetURL := {| url_Parse := fun _ => inr (mkNet (str "ax25") (str "ax0") None (str "/ld5sk/la1b-10") ∅) |}.

Lemma good_address_check a : bool_decide (ToUpper a.(Call) = a.(Call)) && negb (bool_decide (a.(Call) = []))
    && negb (existsb (Z.eqb 45) a.(Call)) && negb (existsb (Z.eqb 32) a.(Call)) && negb (existsb (Z.eqb 47) a.(Call))
    && (0 <=? a.(SSID)) && (a.(SSID) <=? 255) = true -> good_address a.
Proof.
  rewrite !andb_true_iff, !negb_true_iff, bool_decide_eq_true, bool_decide_eq_false, !Z.leb_le. intros H.
  split; (by apply not_elem_existsb; tauto) || tauto.
Qed.

Lemma digipeater_route_witness : exists url,
  ParseURL (H := sample_net) (str "ax25://ax0/ld5sk/la1b-10") = (None, Some url) /\
  dial_target url = str "LA1B-10 via LD5SK" /\
  tncAddrFromString (dial_target url) = Ok (mkTncAddr (mkAddress (str "LA1B") 10) [mkAddress (str "LD5SK") 0]).
Proof.
  apply (digipeater_route (H := sample_net) (str "ax25://ax0/ld5sk/la1b-10")
    (mkNet (str "ax25") (str "ax0") None (str "/ld5sk/la1b-10") ∅) (mkAddress (str "LA1B") 10) [mkAddress (str "LD5SK") 0]).
  - reflexivity.
  - reflexivity.
  - by apply good_address_check.
  - apply Forall_singleton. by apply good_address_check.
  - vm_compute. discriminate.
  - discriminate.
  - discriminate.
Defined.
