(* ===== verification/AX25Linux.v ===== *)
(** The Linux AX.25 stack: [src/transport/ax25/ax25_linux.go],
    [beacon_linux.go] and [heard_linux.go], on top of the C library libax25, the
    kernel's sockets and the context of a dial, which are parameters.

    A descriptor that is opened or closed is entered in a ledger, and so are the
    results of bind and connect, so that what a failed call leaves behind, and when,
    can be stated. *)
From S2P Require Import Prelude Crc GoStr Helpers Transport.
From stdpp Require Import gmap.
Open Scope Z_scope.

(** ** Descriptor sets: [fdSet] and [fdIsSet] *)
Definition i64 (x : Z) : Z := (x + 2 ^ 63) mod 2 ^ 64 - 2 ^ 63.

(** The set of [syscall.FdSet]: [n] words of [32 * 32 / n] bits: 16 of 64 on a 64-bit
    system. *)
Definition fElemSize (bits : list Z) : Z := 32 * 32 / zlen bits.
Definition zero_set (n : nat) : list Z := replicate n 0.

(** [1 << uint(k)] in a word of [fElemSize] bits. *)
Definition word (size x : Z) : Z := (x + 2 ^ (size - 1)) mod 2 ^ size - 2 ^ (size - 1).
Definition bit (size k : Z) : Z := word size (Z.shiftl 1 k).

Fixpoint fdSet (p : list Z) (fds : list Z) (max : Z) : res (list Z * Z) :=
  match fds with
  | [] => mret (p, max)
  | i :: fds =>
      if 1024 <? i then Panic
      else
        let max := if max <? i then i else max in
        let size := fElemSize p in
        w ← idx p (i / size);
        p ← upd p (i / size) (Z.lor w (bit size (i mod size)));
        fdSet p fds max
  end.

Definition fdIsSet (p : list Z) (i : Z) : res bool :=
  let size := fElemSize p in
  w ← idx p (i / size);
  mret (negb (Z.land w (bit size (i mod size)) =? 0)).

(** ** Addresses and errors *)

(** struct full_sockaddr_ax25 *)
Record ax25Addr := mkSockAddr { sa_family : Z; sa_call : gostr; sa_ndigis : Z; sa_digis : list gostr }.
Definition noAddr : ax25Addr := mkSockAddr 0 [] 0 [].

Definition AF_AX25 : Z := 3.
Definition SOCK_DGRAM : Z := 2.
Definition SOCK_SEQPACKET : Z := 5.
Definition EINTR : Z := 4.
Definition EINVAL : Z := 22.
Definition EALREADY : Z := 114.
Definition EINPROGRESS : Z := 115.

Inductive sockerr :=
| Errno (n : Z)
| Msg (m : gostr)
| ErrPortNotExist (port : gostr)
| ErrMessageTooLong
| EOF
| Canceled | DeadlineExceeded   (* ctx.Err() *)
| Bind (e : sockerr).           (* "bind: %s" *)

#[export] Instance sockerr_eq_dec : EqDecision sockerr.
Proof. solve_decision. Defined.

(** libax25, the kernel and the context, on a state [W]; an errno of 0 is no error. *)
Class Linux (W : Type) := {
  ax25_aton : gostr -> option ax25Addr;
  ax25_aton_entry : gostr -> gostr;
  ax25_ntoa : gostr -> gostr;
  ax25_config_load_ports : W -> (Z * Z) * W;
  ax25_config_get_dev : gostr -> W -> bool;
  ax25_config_get_addr : gostr -> W -> gostr;
  sizeof_addr : Z;
  k_socket : Z -> W -> (Z + Z) * W;
  k_bind : Z -> ax25Addr -> W -> Z * W;
  k_listen : Z -> W -> Z * W;
  k_connect : Z -> ax25Addr -> W -> Z * W;
  k_setnonblock : Z -> bool -> W -> Z * W;
  k_select_write : Z -> list Z -> W -> (Z * Z) * W;        (* 10 ms; n, errno *)
  k_select_read : Z -> list Z -> W -> (Z * Z * list Z) * W; (* no timeout *)
  k_sockerror : Z -> W -> (Z * Z) * W;                      (* SO_ERROR, errno *)
  k_accept : Z -> W -> (Z * ax25Addr * Z * Z) * W;          (* fd, address, its length, errno *)
  k_sendto : Z -> gostr -> ax25Addr -> W -> Z * W;
  k_pipe : W -> (Z + Z * Z) * W;
  k_close : Z -> W -> Z * W;
  ctx_Err : W -> option sockerr }.

(** ** The system monad *)
Inductive event := Opened (fd : Z) | Closed (fd : Z) | Bound (fd errno : Z) | Connecting (fd errno : Z).

Record lx (W : Type) := mkLx { lx_w : W; numAXPorts : Z; lx_fds : list event }.
Arguments mkLx {W}. Arguments lx_w {W}. Arguments numAXPorts {W}. Arguments lx_fds {W}.

Section ax25.
Context {W : Type} `{Linux W}.

Definition sys (A : Type) : Type := lx W -> res ((sockerr + A) * lx W).

#[export] Instance sys_ret : MRet sys := fun A a s => Ok (inr a, s).
#[export] Instance sys_bind : MBind sys := fun A B f m s =>
  match m s with
  | Ok (inr a, s) => f a s
  | Ok (inl e, s) => Ok (inl e, s)
  | Panic => Panic
  | NoFuel => NoFuel
  end.

Definition fail {A} (e : sockerr) : sys A := fun s => Ok (inl e, s).
Definition lift_sys {A} (r : res A) : sys A := fun s => a ← r; mret (inr a, s).
Definition set_w (s : lx W) (w : W) : lx W := mkLx w s.(numAXPorts) s.(lx_fds).
(** A call of the system. *)
Definition call {A} (f : W -> A * W) : sys A := fun s => let '(a, w) := f s.(lx_w) in Ok (inr a, set_w s w).
Definition ask {A} (f : W -> A) : sys A := fun s => Ok (inr (f s.(lx_w)), s).
Definition log (e : event) : sys () := fun s => Ok (inr (), mkLx s.(lx_w) s.(numAXPorts) (s.(lx_fds) ++ [e])).
Definition check (e : Z) : sys () := if e =? 0 then mret () else fail (Errno e).
(** The error of a call as a value. *)
Definition try {A} (m : sys A) : sys (sockerr + A) := fun s => r ← m s; mret (inr r.1, r.2).
(** [defer d]; its error is not looked at. *)
Definition finally {A} (m : sys A) (d : sys ()) : sys A := fun s => r ← m s; r' ← d r.2; mret (r.1, r'.2).

(** [fd.close] *)
Definition fd_close (sock : Z) : sys () := log (Closed sock);; e ← call (k_close sock); check e.

(** ** Ports *)
Definition loadPorts : sys Z := fun s =>
  if 0 <? s.(numAXPorts) then Ok (inr s.(numAXPorts), s)
  else
    let '((n, e), w) := ax25_config_load_ports s.(lx_w) in
    if negb (e =? 0) then Ok (inl (Errno e), set_w s w)
    else if n =? 0 then Ok (inl (Msg (str "No AX.25 ports configured")), set_w s w)
    else Ok (inr n, mkLx w n s.(lx_fds)).

Definition portExists (port : gostr) : sys bool := ask (ax25_config_get_dev port).

Definition checkPort (axPort : gostr) : sys () :=
  match axPort with
  | [] => fail (Msg (str "Invalid empty axport"))
  | _ =>
      loadPorts;;
      b ← portExists axPort;
      if b : bool then mret () else fail (ErrPortNotExist axPort)
  end.

(** [newAX25Addr] panics on an address that is not one. *)
Definition newAX25Addr (address : gostr) : sys ax25Addr :=
  match ax25_aton address with
  | None => lift_sys Panic
  | Some a => mret (mkSockAddr AF_AX25 a.(sa_call) a.(sa_ndigis) a.(sa_digis))
  end.

(** [setPort]: the first digipeater is the callsign of the port. *)
Definition setPort (a : ax25Addr) (port : gostr) : sys ax25Addr :=
  c ← ask (ax25_config_get_addr port);
  mret (mkSockAddr a.(sa_family) a.(sa_call) 1 (ax25_aton_entry c :: drop 1 a.(sa_digis))).

Definition addr_Address (a : ax25Addr) : res Address := ax25_AddressFromString (ax25_ntoa a.(sa_call)).
Definition addr_Digis (a : ax25Addr) : res (list Address) :=
  mapM (fun c => ax25_AddressFromString (ax25_ntoa c)) (take (Z.to_nat a.(sa_ndigis)) a.(sa_digis)).

(** ** Sockets *)
Definition socket (kind : Z) : sys Z :=
  r ← call (k_socket kind);
  match r with inl e => fail (Errno e) | inr f => log (Opened f);; mret f end.
Definition bind_ (sock : Z) (a : ax25Addr) : sys () := e ← call (k_bind sock a); log (Bound sock e);; check e.
Definition fd_connect (sock : Z) (a : ax25Addr) : sys Z := e ← call (k_connect sock a); log (Connecting sock e);; mret e.
Definition set_nonblock (sock : Z) (b : bool) : sys () := e ← call (k_setnonblock sock b); check e.

(** [sock.close(); return err] *)
Definition close_fail {A} (sock : Z) (e : sockerr) : sys A := try (fd_close sock);; fail e.

(** The loop of [connectContext]. *)
Fixpoint wait_connected (words fuel : nat) (sock : Z) : sys () :=
  match fuel with
  | O => lift_sys NoFuel
  | S fuel =>
      c ← ask ctx_Err;
      match c with
      | Some e => close_fail sock e
      | None =>
          r ← lift_sys (fdSet (zero_set words) [sock] 0);
          n ← call (k_select_write (r.2 + 1) r.1);
          let '(n, e) := n in
          if (n <? 0) && negb (e =? EINTR) then close_fail sock (Errno e)
          else if 0 <? n then
            v ← call (k_sockerror sock);
            let '(nerr, e) := v in
            if negb (e =? 0) then close_fail sock (Errno e)
            else if negb (nerr =? 0) && negb (nerr =? EINPROGRESS) && negb (nerr =? EALREADY) && negb (nerr =? EINTR)
            then close_fail sock (Errno nerr)
            else mret ()
          else wait_connected words fuel sock
      end
  end.

Definition connectContext (words fuel : nat) (sock : Z) (a : ax25Addr) : sys () :=
  set_nonblock sock true;;
  finally
    (e ← fd_connect sock a;
     if e =? 0 then mret ()
     else if negb (e =? EINPROGRESS) then fail (Errno e)
     else wait_connected words fuel sock)
    (try (set_nonblock sock false);; mret ()).

(** ** Dialing *)
Record Conn := mkConn { c_fd : Z; c_local : ax25Addr; c_remote : ax25Addr }.

Definition DialAX25Context (words fuel : nat) (axPort mycall targetcall : gostr) : sys Conn :=
  checkPort axPort;;
  localAddr ← newAX25Addr mycall;
  localAddr ← setPort localAddr axPort;
  remoteAddr ← newAX25Addr targetcall;
  sock ← socket SOCK_SEQPACKET;
  bind_ sock localAddr;;
  r ← try (connectContext words fuel sock remoteAddr);
  match r with
  | inl e => close_fail sock e
  | inr _ => mret (mkConn sock localAddr remoteAddr)
  end.

(** [DialAX25]: the context is one that never ends. *)
Definition DialAX25 (words fuel : nat) (axPort mycall targetcall : gostr) : sys Conn := DialAX25Context words fuel axPort mycall targetcall.

(** [DialAX25Timeout]: the context is one that expires. *)
Definition DialAX25Timeout (words fuel : nat) (axPort mycall targetcall : gostr) : sys Conn :=
  r ← try (DialAX25Context words fuel axPort mycall targetcall);
  c ← ask ctx_Err;
  match r with
  | inl e => if bool_decide (c = Some DeadlineExceeded) then fail (Msg (str "Dial timeout")) else fail e
  | inr conn => mret conn
  end.

(** ** Listening *)
Record listener := mkListener { ln_sock : Z; ln_local : ax25Addr }.

Definition ListenAX25 (axPort mycall : gostr) : sys listener :=
  checkPort axPort;;
  localAddr ← newAX25Addr mycall;
  localAddr ← setPort localAddr axPort;
  sock ← socket SOCK_SEQPACKET;
  bind_ sock localAddr;;
  e ← call (k_listen sock);
  check e;;
  mret (mkListener sock localAddr).

Definition ln_Close (ln : listener) : sys () := fd_close ln.(ln_sock).

(** [waitRead]: the closing of the listener makes the pipe readable. *)
Definition waitRead (words : nat) (sock : Z) : sys () :=
  r ← call k_pipe;
  match r with
  | inl e => fail (Errno e)
  | inr (pr, pw) =>
      log (Opened pr);; log (Opened pw);;
      finally
        (r ← lift_sys (fdSet (zero_set words) [sock; pr] 0);
         try (set_nonblock sock true);;
         finally
           (x ← call (k_select_read (r.2 + 1) r.1);
            let '((n, e), set) := x in
            if (n <? 0) || negb (e =? 0) then check e
            else
              b ← lift_sys (fdIsSet set sock);
              if b : bool then mret () else fail (Errno EINVAL))
           (try (set_nonblock sock false);; mret ()))
        (try (fd_close pw);; mret ())
  end.

(** [fd.accept] *)
Definition accept (sock : Z) : sys (Z * ax25Addr) :=
  r ← call (k_accept sock);
  let '(n, a, len, e) := r in
  (if 0 <=? n then log (Opened n) else mret ());;
  if negb (len =? sizeof_addr) then lift_sys Panic
  else check e;; mret (n, a).

Definition ln_Accept (words : nat) (ln : listener) : sys Conn :=
  waitRead words ln.(ln_sock);;
  r ← accept ln.(ln_sock);
  mret (mkConn r.1 ln.(ln_local) r.2).

(** ** Connections

    The file of a connection reports its errors as the text of a [*os.PathError];
    other errors are passed on. *)
Inductive fileerr := PathError (text : gostr) | OtherError (e : sockerr).
Definition file_error (e : option fileerr) : option sockerr :=
  match e with None => None | Some (PathError t) => Some (Msg t) | Some (OtherError e) => Some e end.

Definition conn_Write (c : option Conn) (file : Z * option fileerr) : Z * option sockerr :=
  match c with
  | None => (0, Some (Errno EINVAL))
  | Some _ =>
      match file.2 with
      | Some (PathError t) => if bool_decide (t = str "message too long") then (file.1, Some ErrMessageTooLong) else (file.1, Some (Msg t))
      | e => (file.1, file_error e)
      end
  end.

Definition conn_Read (c : option Conn) (file : Z * option fileerr) : Z * option sockerr :=
  match c with
  | None => (0, Some (Errno EINVAL))
  | Some _ =>
      match file.2 with
      | Some (PathError t) => if bool_decide (t = str "transport endpoint is not connected") then (file.1, Some EOF) else (file.1, Some (Msg t))
      | e => (file.1, file_error e)
      end
  end.

(** The other methods; a nil connection has them too. *)
Definition ax25_Close (c : option Conn) : sys () := match c with None => fail (Errno EINVAL) | Some c => fd_close c.(c_fd) end.
Definition LocalAddr (c : option Conn) : option ax25Addr := c_local <$> c.
Definition RemoteAddr (c : option Conn) : option ax25Addr := c_remote <$> c.
Definition SetDeadline : sockerr := Msg (str "SetDeadline not implemented").
Definition SetReadDeadline : sockerr := Msg (str "SetReadDeadline not implemented").
Definition SetWriteDeadline : sockerr := Msg (str "SetWriteDeadline not implemented").

(** ** Beacons *)
Record beacon := mkBeacon { b_local : ax25Addr; b_remote : ax25Addr; b_message : gostr }.

Definition NewAX25Beacon (axPort mycall dest message : gostr) : sys beacon :=
  checkPort axPort;;
  localAddr ← newAX25Addr mycall;
  localAddr ← setPort localAddr axPort;
  remoteAddr ← newAX25Addr dest;
  mret (mkBeacon localAddr remoteAddr message).

Definition beacon_Now (b : beacon) : sys () :=
  sock ← socket SOCK_DGRAM;
  finally
    (r ← try (bind_ sock b.(b_local));
     match r with
     | inl e => fail (Bind e)
     | inr _ => e ← call (k_sendto sock b.(b_message) b.(b_remote)); check e
     end)
    (try (fd_close sock);; mret ()).

(** [Every] only returns with an error; the sleep is left out. *)
Fixpoint beacon_Every (fuel : nat) (b : beacon) : sys () :=
  match fuel with
  | O => lift_sys NoFuel
  | S fuel => beacon_Now b;; beacon_Every fuel b
  end.
End ax25.
#[export] Typeclasses Opaque sys.

(** ** Heard stations

    The record of the C library: its size, and how port, call sign and time are
    read from its bytes. *)
Class Mheard := {
  mheard_size : nat;
  mheard_port : list Z -> gostr;
  mheard_call : list Z -> gostr;
  mheard_time : list Z -> Z }.

Section heard.
Context `{Mheard}.

(** The loop of [Heard] on the rest of the file.  What is read overwrites the
    front of the record. *)
Fixpoint heard_loop (fuel : nat) (axPort : gostr) (rec : list Z) (heard : gmap gostr Z) (data : list Z) : res (gmap gostr Z) :=
  match fuel with
  | O => NoFuel
  | S fuel =>
      match data with
      | [] => mret heard
      | _ =>
          let got := take mheard_size data in
          let rec := got ++ drop (length got) rec in
          let data := drop mheard_size data in
          if negb (EqualFold (mheard_port rec) axPort) then heard_loop fuel axPort rec heard data
          else
            a ← ax25_AddressFromString (mheard_call rec);
            heard_loop fuel axPort rec (<[Address_String a := mheard_time rec]> heard) data
      end
  end.

(** [Heard] on the contents of the file; [None] when it cannot be opened. *)
Definition Heard (axPort : gostr) (file : option (list Z)) : res (option (gmap gostr Z)) :=
  match file with
  | None => mret None
  | Some data => m ← heard_loop (S (length data)) axPort (replicate mheard_size 0) ∅ data; mret (Some m)
  end.
End heard.
