(* ===== verification/AX25LinuxProps.v ===== *)
(** Properties of the Linux AX.25 transport: descriptor sets, what becomes of
    descriptors when a dial fails, that a dial ends with its context, beacons and
    the list of heard stations. *)
From S2P Require Import Prelude Crc GoStr Helpers Transport AX25Linux.
From stdpp Require Import gmap.
Open Scope Z_scope.

(** ** Descriptor sets *)
Section bits.
Context (s : Z) (Hs : 1 < s).

(** The bits above the sign bit repeat it. *)
Definition signed (w : Z) : Prop := forall j, s - 1 <= j -> Z.testbit w j = Z.testbit w (s - 1).

Lemma bit_spec k j : 0 <= k < s -> 0 <= j ->
  Z.testbit (bit s k) j = (j =? k) || ((k =? s - 1) && (s - 1 <=? j)).
Proof using Hs.
  intros Hk Hj. unfold bit, word. rewrite Z.shiftl_1_l.
  assert (Hp : 0 < 2 ^ (s - 1)) by (apply Z.pow_pos_nonneg; lia).
  assert (Ep : 2 ^ s = 2 * 2 ^ (s - 1)) by (rewrite <- Z.pow_succ_r by lia; f_equal; lia).
  destruct (Z.eqb_spec k (s - 1)) as [->|Hne].
  - replace (2 ^ (s - 1) + 2 ^ (s - 1)) with (2 ^ s) by lia. rewrite Z.mod_same by lia.
    replace (0 - 2 ^ (s - 1)) with (Z.lnot (Z.ones (s - 1))) by (rewrite Z.ones_equiv; unfold Z.lnot; lia).
    rewrite Z.lnot_spec by lia. rewrite Z.testbit_ones_nonneg by lia.
    destruct (Z.ltb_spec j (s - 1)), (Z.eqb_spec j (s - 1)), (Z.leb_spec (s - 1) j); cbn; done || lia.
  - assert (2 ^ k < 2 ^ (s - 1)) by (apply Z.pow_lt_mono_r; lia).
    assert (0 < 2 ^ k) by (apply Z.pow_pos_nonneg; lia).
    rewrite Z.mod_small by lia. rewrite Z.add_simpl_r. rewrite Z.pow2_bits_eqb by lia. rewrite orb_false_r. apply Z.eqb_sym.
Qed.

Lemma land_bit w k : signed w -> 0 <= k < s -> negb (Z.land w (bit s k) =? 0) = Z.testbit w k.
Proof using Hs.
  intros Hw Hk. destruct (Z.eqb_spec (Z.land w (bit s k)) 0) as [E|E]; cbn [negb].
  - apply (f_equal (fun x => Z.testbit x k)) in E. rewrite Z.land_spec, bit_spec, Z.eqb_refl, Z.bits_0 in E by lia.
    cbn [orb] in E. by rewrite andb_true_r in E.
  - destruct (Z.testbit w k) eqn:Ew; [done|]. destruct E. apply Z.bits_inj'. intros j Hj.
    rewrite Z.land_spec, bit_spec, Z.bits_0 by lia.
    destruct (Z.eqb_spec j k) as [->|]; [by rewrite Ew|]. cbn [orb].
    destruct (Z.eqb_spec k (s - 1)) as [->|]; [|by rewrite andb_false_r].
    destruct (Z.leb_spec (s - 1) j); [|by rewrite andb_false_r]. rewrite Hw, Ew by done. done.
Qed.

Lemma lor_bit w k : signed w -> 0 <= k < s -> signed (Z.lor w (bit s k)).
Proof using Hs.
  intros Hw Hk j Hj. rewrite !Z.lor_spec, !bit_spec by lia. rewrite (Hw j Hj). f_equal.
  destruct (Z.eqb_spec j k), (Z.eqb_spec (s - 1) k), (Z.eqb_spec k (s - 1)), (Z.leb_spec (s - 1) j), (Z.leb_spec (s - 1) (s - 1)); cbn; lia || done.
Qed.

Lemma testbit_lor_bit w k j : 0 <= k < s -> 0 <= j < s -> Z.testbit (Z.lor w (bit s k)) j = Z.testbit w j || (j =? k).
Proof using Hs.
  intros Hk Hj. rewrite Z.lor_spec, bit_spec by lia. f_equal.
  destruct (Z.eqb_spec j k), (Z.eqb_spec k (s - 1)), (Z.leb_spec (s - 1) j); cbn; lia || done.
Qed.
End bits.

(** A set of 16 or 32 words. *)
Definition fd_words (n : Z) : Prop := n = 16 \/ n = 32.
Definition good_set (p : list Z) : Prop := fd_words (zlen p) /\ forall i, 0 <= i < zlen p -> signed (fElemSize p) (get p i).
Definition member (p : list Z) (i : Z) : bool := Z.testbit (get p (i / fElemSize p)) (i mod fElemSize p).

Lemma fd_index p i : fd_words (zlen p) -> 0 <= i < 1024 ->
  1 < fElemSize p /\ 0 <= i / fElemSize p < zlen p /\ 0 <= i mod fElemSize p < fElemSize p /\
  i = fElemSize p * (i / fElemSize p) + i mod fElemSize p.
Proof.
  intros Hp Hi. assert (E : fElemSize p = 64 /\ zlen p = 16 \/ fElemSize p = 32 /\ zlen p = 32)
    by (unfold fElemSize; destruct Hp as [-> | ->]; [left|right]; done).
  destruct E as [[-> ->]|[-> ->]]; (split; [lia|]); Z.div_mod_to_equations; lia.
Qed.

Lemma fdIsSet_member p i : good_set p -> 0 <= i < 1024 -> fdIsSet p i = Ok (member p i).
Proof.
  intros [Hp Hg] Hi. destruct (fd_index p i Hp Hi) as (Hs & Hd & Hm & _). unfold fdIsSet.
  rewrite idx_bind by done. cbv zeta. rewrite land_bit by auto. done.
Qed.

Lemma fdSet_one p i fds max : good_set p -> 0 <= i < 1024 ->
  exists p', fdSet p (i :: fds) max = fdSet p' fds (Z.max max i) /\ good_set p' /\
    (forall j, 0 <= j < 1024 -> member p' j = member p j || (j =? i)).
Proof.
  intros [Hp Hg] Hi. destruct (fd_index p i Hp Hi) as (Hs & Hd & Hm & Ei). cbn [fdSet].
  destruct (Z.ltb_spec 1024 i); [lia|]. cbv zeta. rewrite idx_bind by done. rewrite upd_bind by done.
  set (p' := set p _ _). exists p'.
  assert (El : zlen p' = zlen p) by apply zlen_set. assert (Ef : fElemSize p' = fElemSize p) by (unfold fElemSize; by rewrite El).
  split; [f_equal; destruct (Z.ltb_spec max i); lia|]. split.
  - split; [by rewrite El|]. rewrite El, Ef. intros j Hj. unfold p'. rewrite get_set by lia.
    destruct (Z.eqb_spec j (i / fElemSize p)); [|by apply Hg]. subst j. by apply lor_bit; [|apply Hg|].
  - intros j Hj. destruct (fd_index p j Hp Hj) as (_ & Hd' & Hm' & Ej). unfold member. rewrite Ef. unfold p'. rewrite get_set by lia.
    destruct (Z.eqb_spec (j / fElemSize p) (i / fElemSize p)) as [E|E].
    + rewrite E, testbit_lor_bit by done. f_equal.
      destruct (Z.eqb_spec (j mod fElemSize p) (i mod fElemSize p)), (Z.eqb_spec j i); congruence || nia.
    + destruct (Z.eqb_spec j i); [congruence|by rewrite orb_false_r].
Qed.

Lemma fdSet_all fds p max : good_set p -> Forall (fun i => 0 <= i < 1024) fds ->
  exists p', fdSet p fds max = Ok (p', foldl Z.max max fds) /\ good_set p' /\
    (forall j, 0 <= j < 1024 -> member p' j = member p j || bool_decide (j ∈ fds)).
Proof.
  intros Hg Hf. revert p max Hg. induction Hf as [|i fds Hi _ IH]; intros p max Hg.
  - exists p. split; [done|]. split; [done|]. intros j _. rewrite bool_decide_eq_false_2 by apply not_elem_of_nil. by rewrite orb_false_r.
  - destruct (fdSet_one p i fds max Hg Hi) as (p1 & -> & Hg1 & Hm1). destruct (IH p1 (Z.max max i) Hg1) as (p' & -> & Hg' & Hm').
    exists p'. split; [done|]. split; [done|]. intros j Hj. rewrite Hm', Hm1, <- orb_assoc by done. f_equal.
    destruct (Z.eqb_spec j i) as [->|]; cbn [orb].
    + symmetry. apply bool_decide_eq_true_2. by left.
    + apply bool_decide_ext. rewrite elem_of_cons. naive_solver.
Qed.

Lemma zero_set_good n : fd_words (Z.of_nat n) -> good_set (zero_set n).
Proof.
  intros Hn. assert (El : zlen (zero_set n) = Z.of_nat n) by (unfold zlen, zero_set; by rewrite length_replicate).
  split; [by rewrite El|]. intros i Hi. assert (get (zero_set n) i = 0) as ->.
  { unfold get, zero_set. rewrite nth_lookup. destruct (replicate n 0 !! Z.to_nat i) eqn:E; [|done].
    apply lookup_replicate in E as [-> _]. done. }
  intros j _. by rewrite !Z.bits_0.
Qed.

Lemma zero_set_empty n j : member (zero_set n) j = false.
Proof.
  unfold member. assert (get (zero_set n) (j / fElemSize (zero_set n)) = 0) as ->; [|apply Z.bits_0].
  unfold get, zero_set. rewrite nth_lookup. destruct (replicate n 0 !! _) eqn:E; [|done]. by apply lookup_replicate in E as [-> _].
Qed.

(** A set built from descriptors below 1024 holds exactly these, on systems with
    words of 32 and of 64 bits, the top bit of a signed word included; the number
    returned is the greatest of them.  A greater descriptor panics. *)
Theorem fdSet_exact n fds : fd_words (Z.of_nat n) -> Forall (fun i => 0 <= i) fds ->
  (Forall (fun i => i < 1024) fds ->
     exists p, fdSet (zero_set n) fds 0 = Ok (p, foldl Z.max 0 fds) /\
       forall i, 0 <= i < 1024 -> fdIsSet p i = Ok (bool_decide (i ∈ fds))) /\
  (forall i, i ∈ fds -> 1024 <= i -> fdSet (zero_set n) fds 0 = Panic).
Proof.
  intros Hn H0. pose proof (zero_set_good n Hn) as Hg. split.
  - intros H1. destruct (fdSet_all fds (zero_set n) 0 Hg) as (p & E & Hp & Hm);
      [by apply Forall_and|]. exists p. split; [done|]. intros i Hi. rewrite fdIsSet_member by done. f_equal.
    by rewrite Hm, zero_set_empty.
  - intros i Hin Hi. revert Hg. generalize (zero_set n) 0. induction H0 as [|k fds Hk H0 IH]; [by apply elem_of_nil in Hin|].
    intros p max Hg. destruct (Z.ltb_spec k 1024) as [C|C].
    + destruct (fdSet_one p k fds max Hg ltac:(lia)) as (p' & -> & Hg' & _). apply IH; [|done].
      apply elem_of_cons in Hin as [->|Hin]; [lia|done].
    + cbn [fdSet]. destruct (Z.ltb_spec 1024 k); [done|]. assert (k = 1024) as -> by lia. cbv zeta.
      destruct Hg as [Hw _]. unfold fElemSize, idx.
      assert (1024 / (32 * 32 / zlen p) = zlen p) as -> by (destruct Hw as [-> | ->]; done).
      destruct (Z.ltb_spec (zlen p) 0); [done|]. unfold zlen. rewrite Nat2Z.id. by rewrite lookup_ge_None_2.
Qed.

Lemma fdSet_exact_witness :
  (exists p, fdSet (zero_set 16) [3; 63; 700] 0 = Ok (p, 700) /\ fdIsSet p 63 = Ok true /\ fdIsSet p 64 = Ok false) /\
  fdSet (zero_set 16) [3; 1024] 0 = Panic.
Proof.
  split.
  - destruct (fdSet_exact 16 [3; 63; 700]) as [(p & E & Hp) _]; [by left|repeat constructor; lia|repeat constructor; lia|].
    exists p. split; [exact E|]. split; apply Hp; lia.
  - apply (proj2 (fdSet_exact 16 [3; 1024] ltac:(by left) ltac:(repeat constructor; lia)) 1024); [by right; left|lia].
Defined.

(** ** The ledger of descriptors *)
Section ledger.
Context {W : Type} `{Linux W}.

Lemma bind_ask {A B} (f : W -> A) (k : A -> sys B) s : (ask f ≫= k) s = k (f s.(lx_w)) s.
Proof. done. Qed.
Lemma bind_call {A B} (f : W -> A * W) (k : A -> sys B) s a w : f s.(lx_w) = (a, w) -> (call f ≫= k) s = k a (set_w s w).
Proof. intros E. unfold mbind, sys_bind, call. by rewrite E. Qed.
Lemma bind_lift {A B} (a : A) (k : A -> sys B) (s : lx W) : (lift_sys (Ok a) ≫= k) s = k a s.
Proof. done. Qed.
Lemma sys_bind_run {A B} (m : sys A) (k : A -> sys B) (s s' : lx W) a : m s = Ok (inr a, s') -> (m ≫= k) s = k a s'.
Proof. intros E. unfold mbind, sys_bind. by rewrite E. Qed.

(** What [m] enters in the ledger, by its result. *)
Definition ledger {A} (m : sys (W := W) A) (Q : sockerr + A -> list event -> Prop) : Prop :=
  forall s r s', m s = Ok (r, s') -> exists evs, s'.(lx_fds) = s.(lx_fds) ++ evs /\ Q r evs.
Definition quiet {A} (m : sys (W := W) A) : Prop := ledger m (fun _ evs => evs = []).

Lemma ledger_weaken {A} (m : sys A) (Q Q' : sockerr + A -> list event -> Prop) :
  ledger m Q -> (forall r evs, Q r evs -> Q' r evs) -> ledger m Q'.
Proof. intros Hm HQ s r s' E. destruct (Hm s r s' E) as (evs & ? & ?). eauto. Qed.

Lemma ledger_bind {A B} (m : sys A) (f : A -> sys B) Q R :
  ledger m Q -> (forall a, ledger (f a) (R a)) ->
  ledger (m ≫= f) (fun r evs => (exists e, r = inl e /\ Q (inl e) evs) \/ exists a e1 e2, evs = e1 ++ e2 /\ Q (inr a) e1 /\ R a r e2).
Proof.
  intros Hm Hf s r s'. unfold mbind, sys_bind. destruct (m s) as [[[e|a] s1]| |] eqn:E; try discriminate.
  - intros [= <- <-]. destruct (Hm _ _ _ E) as (evs & ? & ?). exists evs. split; [done|]. left. by exists e.
  - intros E'. destruct (Hm _ _ _ E) as (e1 & E1 & H1). destruct (Hf a _ _ _ E') as (e2 & E2 & H2).
    exists (e1 ++ e2). split; [by rewrite E2, E1, app_assoc|]. right. by exists a, e1, e2.
Qed.

(** A part that opens and closes nothing, in front of [f]. *)
Lemma ledger_quiet_bind {A B} (m : sys A) (f : A -> sys B) Q :
  quiet m -> (forall a, ledger (f a) Q) -> (forall e, Q (inl e) []) -> ledger (m ≫= f) Q.
Proof.
  intros Hm Hf HQ. eapply ledger_weaken; [exact (ledger_bind m f _ _ Hm Hf)|].
  intros r evs [(e & -> & ->)|(a & e1 & e2 & -> & -> & HR)]; [apply HQ|exact HR].
Qed.

Lemma ledger_ret {A} (a : A) (Q : sockerr + A -> list event -> Prop) : Q (inr a) [] -> ledger (mret a) Q.
Proof. intros HQ s r s' [= <- <-]. exists []. by rewrite app_nil_r. Qed.
Lemma ledger_fail {A} e (Q : sockerr + A -> list event -> Prop) : Q (inl e) [] -> ledger (fail e) Q.
Proof. intros HQ s r s' [= <- <-]. exists []. by rewrite app_nil_r. Qed.
Lemma quiet_call {A} (f : W -> A * W) : quiet (call f).
Proof. intros s r s'. unfold call. destruct (f (lx_w s)). intros [= <- <-]. exists []. by rewrite app_nil_r. Qed.
Lemma quiet_ask {A} (f : W -> A) : quiet (ask f).
Proof. intros s r s' [= <- <-]. exists []. by rewrite app_nil_r. Qed.
Lemma quiet_lift {A} (x : res A) : quiet (lift_sys x).
Proof. intros s r s'. unfold lift_sys. destruct x; cbn; try discriminate. intros [= <- <-]. exists []. by rewrite app_nil_r. Qed.
Lemma quiet_check e : quiet (check e).
Proof. unfold check. destruct (e =? 0); [by apply ledger_ret|by apply ledger_fail]. Qed.
Lemma quiet_bind {A B} (m : sys A) (f : A -> sys B) : quiet m -> (forall a, quiet (f a)) -> quiet (m ≫= f).
Proof. intros. by apply ledger_quiet_bind. Qed.
Lemma ledger_log e : ledger (log e) (fun r evs => r = inr () /\ evs = [e]).
Proof. intros s r s' [= <- <-]. exists [e]. done. Qed.
Lemma ledger_try {A} (m : sys A) Q : ledger m Q -> ledger (try m) (fun r evs => exists x, r = inr x /\ Q x evs).
Proof.
  intros Hm s r s'. unfold try. destruct (m s) as [[x s1]| |] eqn:E; try discriminate. intros [= <- <-].
  destruct (Hm _ _ _ E) as (evs & ? & ?). exists evs. split; [done|]. by exists x.
Qed.
Lemma ledger_finally {A} (m : sys A) (d : sys ()) Q D : ledger m Q -> ledger d D ->
  ledger (finally m d) (fun r evs => exists r' e1 e2, evs = e1 ++ e2 /\ Q r e1 /\ D r' e2).
Proof.
  intros Hm Hd s r s'. unfold finally. destruct (m s) as [[x s1]| |] eqn:E; try discriminate. cbn [mbind res_bind fst snd].
  destruct (d s1) as [[y s2]| |] eqn:E'; try discriminate.  cbn [mbind res_bind fst snd]. intros [= <- <-].
  destruct (Hm _ _ _ E) as (e1 & E1 & H1). destruct (Hd _ _ _ E') as (e2 & E2 & H2).
  exists (e1 ++ e2). split; [by rewrite E2, E1, app_assoc|]. by exists y, e1, e2.
Qed.

Lemma quiet_nonblock sock b : quiet (set_nonblock sock b).
Proof. apply quiet_bind; [apply quiet_call|]. intros e. apply quiet_check. Qed.
Lemma quiet_unblock sock : quiet (try (set_nonblock sock false);; mret ()).
Proof.
  apply quiet_bind; [|intros _; by apply ledger_ret]. eapply ledger_weaken; [apply ledger_try, quiet_nonblock|]. by intros r evs (x & _ & ->).
Qed.
Lemma quiet_loadPorts : quiet loadPorts.
Proof.
  intros s r s'. unfold loadPorts. destruct (0 <? numAXPorts s); [intros [= <- <-]; exists []; by rewrite app_nil_r|].
  destruct (ax25_config_load_ports (lx_w s)) as [[n e] w]. destruct (negb (e =? 0)); [|destruct (n =? 0)];
    intros [= <- <-]; exists []; by rewrite app_nil_r.
Qed.
Lemma quiet_checkPort port : quiet (checkPort port).
Proof.
  destruct port; [by apply ledger_fail|]. apply quiet_bind; [apply quiet_loadPorts|]. intros _.
  apply quiet_bind; [apply quiet_ask|]. intros []; [by apply ledger_ret|by apply ledger_fail].
Qed.
Lemma quiet_newAX25Addr a : quiet (newAX25Addr a).
Proof. unfold newAX25Addr. destruct (ax25_aton a); [by apply ledger_ret|apply quiet_lift]. Qed.
Lemma quiet_setPort a port : quiet (setPort a port).
Proof. apply quiet_bind; [apply quiet_ask|]. intros c. by apply ledger_ret. Qed.

(** A part that cannot fail either, in front of [f]. *)
Definition sure {A} (m : sys (W := W) A) : Prop := ledger m (fun r evs => evs = [] /\ exists a, r = inr a).
Lemma ledger_sure_bind {A B} (m : sys A) (f : A -> sys B) Q : sure m -> (forall a, ledger (f a) Q) -> ledger (m ≫= f) Q.
Proof.
  intros Hm Hf. eapply ledger_weaken; [exact (ledger_bind m f _ _ Hm Hf)|].
  intros r evs [(e & _ & _ & a & [=])|(a & e1 & e2 & -> & [-> _] & HR)]. exact HR.
Qed.
Lemma sure_call {A} (f : W -> A * W) : sure (call f).
Proof. intros s r s'. unfold call. destruct (f (lx_w s)). intros [= <- <-]. exists []. rewrite app_nil_r. eauto. Qed.
Lemma sure_ask {A} (f : W -> A) : sure (ask f).
Proof. intros s r s' [= <- <-]. exists []. rewrite app_nil_r. eauto. Qed.
Lemma sure_lift {A} (x : res A) : sure (lift_sys x).
Proof. intros s r s'. unfold lift_sys. destruct x; cbn; try discriminate. intros [= <- <-]. exists []. rewrite app_nil_r. eauto. Qed.

Lemma ledger_log_bind {B} ev (f : () -> sys B) Q : ledger (f ()) (fun r evs => Q r (ev :: evs)) -> ledger (log ev ≫= f) Q.
Proof.
  intros Hf s r s' E. destruct (Hf (mkLx s.(lx_w) s.(numAXPorts) (s.(lx_fds) ++ [ev])) r s' E) as (evs & Ev & HQ).
  exists (ev :: evs). split; [|done]. rewrite Ev. cbn. by rewrite <- app_assoc.
Qed.

Lemma ledger_bind_ sock a :
  ledger (bind_ sock a) (fun r evs => exists e, evs = [Bound sock e] /\ r = if decide (e = 0) then inr () else inl (Errno e)).
Proof.
  apply ledger_sure_bind; [apply sure_call|]. intros e. apply ledger_log_bind. unfold check.
  destruct (Z.eqb_spec e 0) as [->|]; [apply ledger_ret; by exists 0|]. apply ledger_fail. exists e. by rewrite decide_False.
Qed.
Lemma ledger_fd_connect sock a : ledger (fd_connect sock a) (fun r evs => exists e, evs = [Connecting sock e] /\ r = inr e).
Proof. apply ledger_sure_bind; [apply sure_call|]. intros e. apply ledger_log_bind, ledger_ret. by exists e. Qed.
End ledger.

Create HintDb ledger.
#[export] Hint Resolve quiet_call quiet_ask sure_call sure_ask sure_lift quiet_lift quiet_check quiet_bind quiet_nonblock quiet_unblock quiet_loadPorts quiet_checkPort
  quiet_newAX25Addr quiet_setPort : ledger.

Section dial.
Context {W : Type} `{Linux W}.

Lemma ledger_close sock : ledger (fd_close sock) (fun _ evs => evs = [Closed sock]).
Proof.
  eapply ledger_weaken; [eapply (ledger_bind _ _ _ (fun _ _ evs => evs = [])); [apply ledger_log|]|].
  - intros []. apply quiet_bind; auto with ledger.
  - intros r evs [(e & _ & [=] & _)|([] & e1 & e2 & -> & [_ ->] & ->)]. done.
Qed.

Lemma ledger_close_fail {A} sock e : ledger (close_fail (A := A) sock e) (fun r evs => r = inl e /\ evs = [Closed sock]).
Proof.
  eapply ledger_weaken; [eapply (ledger_bind _ _ _ (fun _ r evs => r = inl e /\ evs = [])); [apply ledger_try, ledger_close|]|].
  - intros x. by apply ledger_fail.
  - intros r evs [(e' & -> & x & [=] & _)|(x & e1 & e2 & -> & (y & _ & ->) & -> & ->)]. done.
Qed.

Lemma ledger_socket kind : ledger (socket kind) (fun r evs => match r with inl _ => evs = [] | inr f => evs = [Opened f] end).
Proof.
  apply ledger_quiet_bind; [auto with ledger| |done]. intros [e|f]; [by apply ledger_fail|].
  eapply ledger_weaken; [eapply (ledger_bind _ _ _ (fun _ r evs => r = inr f /\ evs = [])); [apply ledger_log|]|].
  - intros []. by apply ledger_ret.
  - intros r evs [(e & _ & [=] & _)|(x & e1 & e2 & -> & [_ ->] & -> & ->)]. done.
Qed.

(** A descriptor the wait gives up on is closed. *)
Definition closes (sock : Z) : sockerr + () -> list event -> Prop :=
  fun r evs => match r with inl _ => evs = [Closed sock] | inr _ => evs = [] end.

Lemma ledger_closes_fail sock e : ledger (close_fail sock e) (closes sock).
Proof. eapply ledger_weaken; [apply ledger_close_fail|]. by intros r evs [-> ->]. Qed.

Lemma ledger_wait words fuel sock : ledger (wait_connected words fuel sock) (closes sock).
Proof.
  induction fuel as [|fuel IH]; cbn [wait_connected]; [by intros s r s'|].
  apply ledger_sure_bind; [auto with ledger|]. intros [e|]; [apply ledger_closes_fail|].
  apply ledger_sure_bind; [auto with ledger|]. intros [p mx].
  apply ledger_sure_bind; [auto with ledger|]. intros [n e].
  destruct ((n <? 0) && negb (e =? EINTR)); [apply ledger_closes_fail|]. destruct (0 <? n); [|exact IH].
  apply ledger_sure_bind; [auto with ledger|]. intros [nerr e']. destruct (negb (e' =? 0)); [apply ledger_closes_fail|].
  destruct (_ && _ && _ && _); [apply ledger_closes_fail|by apply ledger_ret].
Qed.

(** What connecting enters: nothing when the socket cannot be made non-blocking; the
    answer of connect; and when that is to wait, what waiting enters. *)
Definition connect_outcome (sock : Z) (r : sockerr + ()) (evs : list event) : Prop :=
  match r with
  | inr _ => evs = [Connecting sock 0] \/ evs = [Connecting sock EINPROGRESS]
  | inl err =>
      evs = []
      \/ (exists e, e <> 0 /\ e <> EINPROGRESS /\ err = Errno e /\ evs = [Connecting sock e])
      \/ evs = [Connecting sock EINPROGRESS; Closed sock]
  end.

Lemma ledger_connect words fuel sock a : ledger (connectContext words fuel sock a) (connect_outcome sock).
Proof.
  apply ledger_quiet_bind; [auto with ledger| |by left]. intros _.
  eapply ledger_weaken; [eapply ledger_finally; [|apply quiet_unblock]|].
  - instantiate (1 := connect_outcome sock).
    eapply ledger_weaken; [eapply (ledger_bind _ _ _ (fun e r evs => if e =? 0 then r = inr () /\ evs = []
      else if e =? EINPROGRESS then closes sock r evs else r = inl (Errno e) /\ evs = [])); [apply ledger_fd_connect|]|].
    + intros e. destruct (e =? 0); [by apply ledger_ret|]. destruct (e =? EINPROGRESS); [apply ledger_wait|by apply ledger_fail].
    + intros r evs [(e & -> & e' & -> & [=])|(e & e1 & e2 & -> & (e' & -> & [= <-]) & HR)].
      destruct (Z.eqb_spec e 0) as [->|He]; [destruct HR as [-> ->]; by left|].
      destruct (Z.eqb_spec e EINPROGRESS) as [->|Hp]; [|destruct HR as [-> ->]; right; left; by exists e].
      destruct r as [err|[]]; cbn in HR; subst e2; [by right; right|by right].
  - intros r evs (r' & e1 & e2 & -> & Hc & ->). by rewrite app_nil_r.
Qed.

(** What a dial leaves behind.  A connection is on the one descriptor that was
    opened, which is not closed.  An error before there is a socket leaves nothing.
    A socket that cannot be bound stays open.  One that cannot be made non-blocking, or
    for which connect fails at once, is closed.  One that was being connected when the dial
    failed is closed twice. *)
Definition dial_outcome (r : sockerr + Conn) (evs : list event) : Prop :=
  match r with
  | inr c => exists e, (e = 0 \/ e = EINPROGRESS) /\ evs = [Opened c.(c_fd); Bound c.(c_fd) 0; Connecting c.(c_fd) e]
  | inl err =>
      evs = [] \/ exists f,
        (exists e, e <> 0 /\ err = Errno e /\ evs = [Opened f; Bound f e])
        \/ evs = [Opened f; Bound f 0; Closed f]
        \/ (exists e, e <> 0 /\ e <> EINPROGRESS /\ err = Errno e /\ evs = [Opened f; Bound f 0; Connecting f e; Closed f])
        \/ evs = [Opened f; Bound f 0; Connecting f EINPROGRESS; Closed f; Closed f]
  end.

Lemma dial_bound words fuel sock local remote :
  ledger (bind_ sock local;; r ← try (connectContext words fuel sock remote);
          match r with inl e => close_fail sock e | inr _ => mret (mkConn sock local remote) end)
    (fun r evs => dial_outcome r (Opened sock :: evs)).
Proof.
  eapply ledger_weaken; [eapply (ledger_bind _ _ _ (fun _ r evs => exists x e1, connect_outcome sock x e1 /\
    match x with inl e => r = inl e /\ evs = e1 ++ [Closed sock] | inr _ => r = inr (mkConn sock local remote) /\ evs = e1 end));
    [apply ledger_bind_|]|].
  - intros []. eapply ledger_weaken; [eapply (ledger_bind _ _ _ (fun x r evs =>
      match x with inl e => r = inl e /\ evs = [Closed sock] | inr _ => r = inr (mkConn sock local remote) /\ evs = [] end));
      [apply ledger_try, ledger_connect|]|].
    + intros [e|[]]; [apply ledger_close_fail|by apply ledger_ret].
    + intros r evs [(e & _ & x & [=] & _)|(x & e1 & e2 & -> & (y & [= <-] & Hy) & HR)]. exists x, e1. split; [done|].
      destruct x as [e|[]]; destruct HR as [-> ->]; [done|by rewrite app_nil_r].
  - intros r evs [(err & -> & e & -> & Hr)|([] & e1 & e2 & -> & (e & -> & Hr) & x & c & Hc & HR)].
    + destruct (decide (e = 0)); [done|]. injection Hr as ->. right. exists sock. left. by exists e.
    + destruct (decide (e = 0)) as [->|]; [|done]. destruct x as [err|[]]; destruct HR as [-> ->].
      * right. exists sock. destruct Hc as [-> |[(e & He & Hp & -> & ->)| ->]]; cbn [app]; [by right; left| |by right; right; right].
        right; right; left. by exists e.
      * destruct Hc as [-> | ->]; [exists 0|exists EINPROGRESS]; (split; [by auto|done]).
Qed.

Lemma dial_ledger words fuel axPort mycall target : ledger (DialAX25Context words fuel axPort mycall target) dial_outcome.
Proof.
  unfold DialAX25Context. do 4 (apply ledger_quiet_bind; [auto with ledger| |by left]; intros ?).
  eapply ledger_weaken; [eapply (ledger_bind _ _ _ _ (ledger_socket _)); intros sock; apply dial_bound|].
  intros r evs [(e & -> & ->)|(sock & e1 & e2 & -> & -> & HR)]; [by left|exact HR].
Qed.

(** *** Beacons *)
Lemma beacon_ledger b : ledger (beacon_Now b) (fun _ evs => evs = [] \/ exists f e, evs = [Opened f; Bound f e; Closed f]).
Proof.
  unfold beacon_Now. eapply ledger_weaken; [eapply (ledger_bind _ _ _ (fun sock _ evs => exists e, evs = [Bound sock e; Closed sock]) (ledger_socket _))|].
  - intros sock. eapply ledger_weaken; [eapply ledger_finally|].
    + eapply (ledger_bind _ _ _ (fun _ _ evs => evs = [])); [apply ledger_try, ledger_bind_|].
      intros [e|[]]; [by apply ledger_fail|apply quiet_bind; auto with ledger].
    + instantiate (1 := fun _ evs => evs = [Closed sock]).
      eapply ledger_weaken; [eapply (ledger_bind _ _ _ (fun _ _ evs => evs = [])); [apply ledger_try, ledger_close|]|].
      * intros x. by apply ledger_ret.
      * intros r evs [(e & _ & x & [=] & _)|(x & e1 & e2 & -> & (y & _ & ->) & ->)]. done.
    + intros r evs (r' & e1 & e2 & -> & [(e & _ & x & [=] & _)|(x & f1 & f2 & -> & (y & _ & e & -> & _) & ->)] & ->). by exists e.
  - intros r evs [(e & -> & ->)|(sock & e1 & e2 & -> & -> & e & ->)]; [by left|]. right. by exists sock, e.
Qed.
End dial.

(** C16. Whatever the kernel answers, a dial that returns leaves the descriptors as
    [dial_outcome] says, by the answers of bind and connect: a connection is on the
    one open descriptor; a socket that could not be bound is leaked; one for which connect
    failed at once is closed once; one that failed while it was being connected is
    closed twice. *)
Theorem dial_descriptors {W : Type} `{Linux W} words fuel axPort mycall target s r s' :
  DialAX25Context words fuel axPort mycall target s = Ok (r, s') ->
  exists evs, s'.(lx_fds) = s.(lx_fds) ++ evs /\ dial_outcome r evs.
Proof. apply dial_ledger. Qed.

(** A beacon closes its socket whether it was sent or not. *)
Theorem beacon_descriptors {W : Type} `{Linux W} b s r s' : beacon_Now b s = Ok (r, s') ->
  s'.(lx_fds) = s.(lx_fds) \/ exists f e, s'.(lx_fds) = s.(lx_fds) ++ [Opened f; Bound f e; Closed f].
Proof.
  intros E. destruct (beacon_ledger b s r s' E) as (evs & -> & [-> |(f & e & ->)]); [left; by rewrite app_nil_r|right; by exists f, e].
Qed.

(** ** The end of a dial *)
Create HintDb in_time.

(** Time passes: [deadline] bounds the number of times a context that has not ended is
    asked again after 10 ms, and no call sets it back. *)
Record expires {W : Type} `{Linux W} (deadline : W -> nat) : Prop := {
  ex_select : forall p mx w, ctx_Err w = None -> (deadline (k_select_write mx p w).2 < deadline w)%nat;
  ex_ports : forall w, (deadline (ax25_config_load_ports w).2 <= deadline w)%nat;
  ex_socket : forall k w, (deadline (k_socket k w).2 <= deadline w)%nat;
  ex_bind : forall f a w, (deadline (k_bind f a w).2 <= deadline w)%nat;
  ex_connect : forall f a w, (deadline (k_connect f a w).2 <= deadline w)%nat;
  ex_nonblock : forall f b w, (deadline (k_setnonblock f b w).2 <= deadline w)%nat;
  ex_error : forall f w, (deadline (k_sockerror f w).2 <= deadline w)%nat;
  ex_close : forall f w, (deadline (k_close f w).2 <= deadline w)%nat }.

Section ends.
Context {W : Type} `{Linux W} (deadline : W -> nat) (Hex : expires deadline).

(** [m] returns, and does not set the clock back. *)
Definition in_time {A} (n : nat) (m : sys (W := W) A) : Prop :=
  forall s, (deadline s.(lx_w) <= n)%nat -> m s <> NoFuel /\ forall r s', m s = Ok (r, s') -> (deadline s'.(lx_w) <= n)%nat.

Lemma it_bind {A B} n (m : sys A) (f : A -> sys B) : in_time n m -> (forall a, in_time n (f a)) -> in_time n (m ≫= f).
Proof.
  intros Hm Hf s Hs. destruct (Hm s Hs) as [H1 H2]. unfold mbind, sys_bind.
  destruct (m s) as [[[e|a] s1]| |]; [|by apply Hf, (H2 _ _ eq_refl)|done|done].
  split; [done|]. intros r s' [= <- <-]. by eapply H2.
Qed.
Lemma it_pure {A} n (x : sockerr + A) : in_time n (fun s => Ok (x, s)).
Proof. intros s Hs. split; [done|]. by intros r s' [= <- <-]. Qed.
Lemma it_call {A} n (f : W -> A * W) : (forall w, (deadline (f w).2 <= deadline w)%nat) -> in_time n (call f).
Proof.
  intros Hf s Hs. unfold call. specialize (Hf (lx_w s)). destruct (f (lx_w s)) as [a w]. split; [done|].
  intros r s' [= <- <-]. cbn in *. lia.
Qed.
Lemma it_ask {A} n (f : W -> A) : in_time n (ask f).
Proof. intros s Hs. split; [done|]. by intros r s' [= <- <-]. Qed.
Lemma it_log n e : in_time n (log e).
Proof. intros s Hs. split; [done|]. by intros r s' [= <- <-]. Qed.
Lemma it_check n e : in_time n (check e).
Proof. unfold check. destruct (e =? 0); apply it_pure. Qed.
Lemma it_try {A} n (m : sys A) : in_time n m -> in_time n (try m).
Proof.
  intros Hm s Hs. destruct (Hm s Hs) as [H1 H2]. unfold try. destruct (m s) as [[x s1]| |]; [|done|done].
  split; [done|]. intros r s' [= <- <-]. by eapply H2.
Qed.
Lemma it_finally {A} n (m : sys A) d : in_time n m -> in_time n d -> in_time n (finally m d).
Proof.
  intros Hm Hd s Hs. destruct (Hm s Hs) as [H1 H2]. unfold finally. destruct (m s) as [[x s1]| |]; [|done|done].
  cbn [mbind res_bind fst snd]. destruct (Hd s1 (H2 _ _ eq_refl)) as [H3 H4]. destruct (d s1) as [[y s2]| |]; [|done|done].
  split; [done|]. intros r s' [= <- <-]. by eapply H4.
Qed.
Lemma it_fail {A} n e : in_time n (fail (A := A) e).
Proof. apply it_pure. Qed.
Lemma it_ret {A} n (a : A) : in_time n (mret a).
Proof. apply it_pure. Qed.
Lemma it_panic {A} n : in_time n (lift_sys (A := A) Panic).
Proof. by intros s Hs. Qed.

Hint Resolve it_ask it_log it_check it_try it_finally it_fail it_ret it_panic : in_time.

Lemma it_close n sock : in_time n (fd_close sock).
Proof using Hex. apply it_bind; [apply it_log|]. intros _. apply it_bind; [apply it_call, (ex_close _ Hex)|]. auto with in_time. Qed.
Lemma it_close_fail {A} n sock e : in_time n (close_fail (A := A) sock e).
Proof using Hex. apply it_bind; [apply it_try, it_close|]. auto with in_time. Qed.
Lemma it_nonblock n sock b : in_time n (set_nonblock sock b).
Proof using Hex. apply it_bind; [apply it_call, (ex_nonblock _ Hex)|]. auto with in_time. Qed.
Lemma it_checkPort n port : in_time n (checkPort port).
Proof using Hex.
  destruct port; [apply it_fail|]. apply it_bind.
  - intros s Hs. unfold loadPorts. destruct (0 <? numAXPorts s); [split; [done|by intros r s' [= <- <-]]|].
    pose proof (ex_ports _ Hex (lx_w s)) as Hp. destruct (ax25_config_load_ports (lx_w s)) as [[k e] w]. cbn in Hp.
    destruct (negb (e =? 0)); [|destruct (k =? 0)]; (split; [done|]); intros r s' [= <- <-]; cbn; lia.
  - intros _. apply it_bind; [apply it_ask|]. intros []; auto with in_time.
Qed.
Lemma it_newAX25Addr n a : in_time n (newAX25Addr a).
Proof. unfold newAX25Addr. destruct (ax25_aton a); auto with in_time. Qed.

Lemma fdSet_total p fds mx : fdSet p fds mx <> NoFuel.
Proof.
  revert p mx. induction fds as [|i fds IH]; intros p mx; cbn [fdSet]; [done|]. destruct (1024 <? i); [done|].
  unfold idx, upd. repeat case_match; cbn [mbind res_bind]; try done; apply IH.
Qed.

Lemma it_wait words n fuel sock : (n < fuel)%nat -> in_time n (wait_connected words fuel sock).
Proof using Hex.
  revert n. induction fuel as [|fuel IH]; intros n Hn s Hs; [lia|]. cbn [wait_connected].
  rewrite bind_ask. destruct (ctx_Err (lx_w s)) as [e|] eqn:Ec; [by apply it_close_fail|].
  pose proof (fdSet_total (zero_set words) [sock] 0) as Ht.
  destruct (fdSet (zero_set words) [sock] 0) as [[p mx]| |]; [|done|done]. rewrite bind_lift. cbn [fst snd].
  pose proof (ex_select _ Hex p (mx + 1) (lx_w s) Ec) as Hl.
  destruct (k_select_write (mx + 1) p (lx_w s)) as [[k e] w] eqn:Ew. cbn [snd] in Hl. rewrite (bind_call _ _ _ _ _ Ew).
  assert (Hs' : (deadline (lx_w (set_w s w)) <= n)%nat) by (cbn; lia).
  destruct ((k <? 0) && negb (e =? EINTR)); [by apply it_close_fail|]. destruct (0 <? k).
  - assert (Hi : in_time n (v ← call (k_sockerror sock); let '(nerr, e) := v in
      if negb (e =? 0) then close_fail sock (Errno e)
      else if negb (nerr =? 0) && negb (nerr =? EINPROGRESS) && negb (nerr =? EALREADY) && negb (nerr =? EINTR)
      then close_fail sock (Errno nerr) else mret ())).
    { apply it_bind; [apply it_call, (ex_error _ Hex)|]. intros [nerr e']. destruct (negb (e' =? 0)); [apply it_close_fail|].
      destruct (_ && _ && _ && _); [apply it_close_fail|apply it_ret]. }
    by apply Hi.
  - destruct n as [|n]; [lia|]. destruct (IH n ltac:(lia) (set_w s w) ltac:(cbn; lia)) as [H1 H2].
    split; [done|]. intros r s' E. specialize (H2 _ _ E). lia.
Qed.

Lemma it_dial words n fuel axPort mycall target : (n < fuel)%nat -> in_time n (DialAX25Context words fuel axPort mycall target).
Proof using Hex.
  intros Hn. unfold DialAX25Context. apply it_bind; [apply it_checkPort|]. intros _. apply it_bind; [apply it_newAX25Addr|]. intros l.
  apply it_bind; [apply it_bind; auto with in_time|]. intros l'. apply it_bind; [apply it_newAX25Addr|]. intros rm.
  apply it_bind.
  { apply it_bind; [apply it_call, (ex_socket _ Hex)|]. intros [e|f]; [apply it_fail|]. apply it_bind; auto with in_time. }
  intros sock. apply it_bind; [apply it_bind; [apply it_call, (ex_bind _ Hex)|intros e; apply it_bind; auto with in_time]|]. intros _. apply it_bind.
  - apply it_try, it_bind; [apply it_nonblock|]. intros _. apply it_finally.
    + apply it_bind; [apply it_bind; [apply it_call, (ex_connect _ Hex)|intros e; apply it_bind; auto with in_time]|]. intros e. destruct (e =? 0); [apply it_ret|].
      destruct (negb _); [apply it_fail|by apply it_wait].
    + apply it_bind; [apply it_try, it_nonblock|]. auto with in_time.
  - intros [e|[]]; [apply it_close_fail|apply it_ret].
Qed.
End ends.

(** C17. A dial whose context comes to an end comes to an end. *)
Theorem dial_ends {W : Type} `{Linux W} (deadline : W -> nat) words axPort mycall target s :
  expires deadline -> DialAX25Context words (S (deadline s.(lx_w))) axPort mycall target s <> NoFuel.
Proof. intros Hex. apply (it_dial deadline Hex words (deadline s.(lx_w))); lia. Qed.

(** *** A kernel to try it on

    The state counts down to the deadline; bind and connect give the errors [eb] and
    [ec], and the socket never becomes writable. *)
Definition sample_linux (eb ec : Z) : Linux nat := {|
  ax25_aton := fun s => match s with [] => None | _ => Some (mkSockAddr 0 s 0 []) end;
  ax25_aton_entry := fun c => c;
  ax25_ntoa := fun c => c;
  ax25_config_load_ports := fun w => ((1, 0), w);
  ax25_config_get_dev := fun _ _ => true;
  ax25_config_get_addr := fun p _ => p;
  sizeof_addr := 72;
  k_socket := fun _ w => (inr 7, w);
  k_bind := fun _ _ w => (eb, w);
  k_listen := fun _ w => (0, w);
  k_connect := fun _ _ w => (ec, w);
  k_setnonblock := fun _ _ w => (0, w);
  k_select_write := fun _ _ w => ((0, 0), Nat.pred w);
  k_select_read := fun _ p w => ((1, 0, p), w);
  k_sockerror := fun _ w => ((0, 0), w);
  k_accept := fun _ w => ((8, noAddr, 72, 0), w);
  k_sendto := fun _ _ _ w => (0, w);
  k_pipe := fun w => (inr (9, 10), w);
  k_close := fun _ w => (0, w);
  ctx_Err := fun w => match w with O => Some DeadlineExceeded | _ => None end |}.

Definition dial_sample (eb ec : Z) : res ((sockerr + Conn) * lx nat) :=
  DialAX25Context (H := sample_linux eb ec) 16 4 (str "wl2k") (str "LA5NTA") (str "LA1B") (mkLx 3%nat 0 []).

Lemma sample_expires eb ec : expires (H := sample_linux eb ec) (fun w => w).
Proof. split; cbn; intros; try lia. destruct w; [done|cbn; lia]. Qed.

Lemma dial_ends_witness : dial_sample 0 EINPROGRESS <> NoFuel.
Proof. apply (dial_ends (H := sample_linux 0 EINPROGRESS) (fun w => w) 16 _ _ _ (mkLx 3%nat 0 [])), sample_expires. Defined.

Lemma dial_descriptors_witness : exists c s', dial_sample 0 0 = Ok (inr c, s') /\
  exists e, (e = 0 \/ e = EINPROGRESS) /\ s'.(lx_fds) = [Opened c.(c_fd); Bound c.(c_fd) 0; Connecting c.(c_fd) e].
Proof.
  assert (H : exists c s', dial_sample 0 0 = Ok (inr c, s')) by (eexists _, _; vm_compute; reflexivity).
  destruct H as (c & s' & E). exists c, s'. split; [exact E|].
  destruct (dial_descriptors (H := sample_linux 0 0) 16 4 (str "wl2k") (str "LA5NTA") (str "LA1B") (mkLx 3%nat 0 []) (inr c) s' E)
    as (evs & E' & Ho). rewrite E'. exact Ho.
Defined.

(** The two ways in which a failed dial goes wrong. *)
Example unbound_socket_stays_open : exists s', dial_sample 98 0 = Ok (inl (Errno 98), s') /\ s'.(lx_fds) = [Opened 7; Bound 7 98].
Proof. eexists. split; vm_compute; reflexivity. Qed.

Example socket_closed_twice : exists s',
  dial_sample 0 EINPROGRESS = Ok (inl DeadlineExceeded, s') /\
  s'.(lx_fds) = [Opened 7; Bound 7 0; Connecting 7 EINPROGRESS; Closed 7; Closed 7].
Proof. eexists. split; vm_compute; reflexivity. Qed.

(** A target that is not a call sign is not an error of the dial: it panics. *)
Theorem bad_callsign_panics {W : Type} `{Linux W} words fuel axPort mycall target s a s' :
  checkPort axPort s = Ok (inr (), s') -> ax25_aton mycall = Some a -> ax25_aton target = None ->
  DialAX25Context words fuel axPort mycall target s = Panic.
Proof.
  intros E Ha Ht. unfold DialAX25Context. rewrite (sys_bind_run _ _ _ _ _ E).
  rewrite (sys_bind_run _ _ s' s' (mkSockAddr AF_AX25 a.(sa_call) a.(sa_ndigis) a.(sa_digis))) by (unfold newAX25Addr; by rewrite Ha).
  erewrite sys_bind_run by reflexivity. unfold mbind, sys_bind, newAX25Addr. by rewrite Ht.
Qed.

Lemma bad_callsign_panics_witness :
  DialAX25Context (H := sample_linux 0 0) 16 4 (str "wl2k") (str "LA5NTA") [] (mkLx 3%nat 0 []) = Panic.
Proof.
  eapply (bad_callsign_panics (H := sample_linux 0 0)); [vm_compute; reflexivity|vm_compute; reflexivity|reflexivity].
Defined.

(** ** Heard stations *)
Section heard.
Context `{Mheard}.

Lemma address_total c : exists a, ax25_AddressFromString c = Ok a.
Proof.
  unfold ax25_AddressFromString. destruct (Split_cons 45 c) as (p & ps & ->). cbv zeta. change (idx (p :: ps) 0) with (Ok p).
  rewrite bind_Ok. destruct (Z.ltb_spec 1 (zlen (p :: ps))) as [C|]; [|by eexists].
  destruct ps as [|q ps]; [unfold zlen in C; cbn [length] in C; lia|]. change (idx (p :: q :: ps) 1) with (Ok q). rewrite bind_Ok.
  destruct (ParseInt 10 q) as [ssid err]. by eexists.
Qed.

(** The call sign a station is listed under. *)
Definition station_key (rec : list Z) : gostr :=
  match ax25_AddressFromString (mheard_call rec) with Ok a => Address_String a | _ => [] end.
Definition on_port (axPort : gostr) (rec : list Z) : Prop := EqualFold (mheard_port rec) axPort = true.
#[export] Instance on_port_dec axPort rec : Decision (on_port axPort rec).
Proof. unfold on_port. apply _. Defined.

Definition heard_list (axPort : gostr) (m : gmap gostr Z) (recs : list (list Z)) : gmap gostr Z :=
  foldl (fun m r => <[station_key r := mheard_time r]> m) m (filter (on_port axPort) recs).

Lemma heard_list_lookup axPort m recs k :
  heard_list axPort m recs !! k =
  match last (filter (fun r => station_key r = k) (filter (on_port axPort) recs)) with
  | Some r => Some (mheard_time r)
  | None => m !! k
  end.
Proof.
  unfold heard_list. generalize (filter (on_port axPort) recs). intros l. clear recs. revert m.
  induction l as [|r l IH] using rev_ind; intros m; [done|]. rewrite foldl_app. cbn [foldl]. rewrite filter_app.
  destruct (decide (station_key r = k)) as [<-|Hne].
  - rewrite lookup_insert_eq. rewrite (filter_cons_True _ r []) by done. cbn [filter list_filter]. by rewrite last_snoc.
  - rewrite lookup_insert_ne by done. rewrite (filter_cons_False _ r []) by done. by rewrite app_nil_r.
Qed.

(** The records of a file: what is left of the last one over the one before. *)
Definition short_record (prev part : list Z) : list Z := part ++ drop (length part) prev.

Lemma heard_loop_step fuel axPort rec m data : data <> [] ->
  let rec' := short_record rec (take mheard_size data) in
  heard_loop (S fuel) axPort rec m data = heard_loop fuel axPort rec' (heard_list axPort m [rec']) (drop mheard_size data).
Proof.
  intros Hd rec'. destruct data as [|c data]; [done|]. cbn [heard_loop]. set (d := c :: data) in *.
  change (take mheard_size d ++ drop (length (take mheard_size d)) rec) with rec'. unfold heard_list.
  destruct (EqualFold (mheard_port rec') axPort) eqn:E; cbn [negb].
  - rewrite filter_cons_True by done. cbn [foldl filter list_filter]. unfold station_key.
    destruct (address_total (mheard_call rec')) as [a ->]. done.
  - rewrite filter_cons_False; [done|]. unfold on_port. by rewrite E.
Qed.

Lemma heard_list_cons axPort m r recs : heard_list axPort m (r :: recs) = heard_list axPort (heard_list axPort m [r]) recs.
Proof.
  unfold heard_list. destruct (decide (on_port axPort r)); [|by rewrite !filter_cons_False by done].
  by rewrite !filter_cons_True by done.
Qed.

Lemma heard_loop_records fuel axPort rec m recs part : (0 < mheard_size)%nat -> length rec = mheard_size ->
  Forall (fun r => length r = mheard_size) recs -> (length part < mheard_size)%nat ->
  (length (concat recs ++ part) < fuel)%nat ->
  heard_loop fuel axPort rec m (concat recs ++ part) =
  Ok (heard_list axPort m (recs ++ match part with [] => [] | _ => [short_record (default rec (last recs)) part] end)).
Proof.
  intros Hz Hrec Hr Hp. revert fuel rec m Hrec. induction Hr as [|r recs Hl Hr IH]; intros fuel rec m Hrec Hf.
  - destruct fuel as [|fuel]; [lia|]. destruct part as [|c part]; [done|]. cbn [concat app] in *.
    rewrite heard_loop_step by done. rewrite take_ge, drop_ge by lia. destruct fuel; [cbn [length] in Hf; lia|]. done.
  - cbn [concat] in *. rewrite <- app_assoc in *. destruct fuel as [|fuel]; [lia|].
    assert (Hne : r ++ concat recs ++ part <> []) by (destruct r; [cbn in Hl; lia|done]).
    rewrite heard_loop_step by done. rewrite (take_app_length' r), (drop_app_length' r) by done.
    assert (short_record rec r = r) as -> by (unfold short_record; rewrite drop_ge by lia; apply app_nil_r).
    rewrite IH; [|done|rewrite length_app in Hf; lia]. cbn [app]. rewrite (heard_list_cons _ m r (_ ++ _)).
    destruct part; [done|]. rewrite last_cons. by destruct (last recs).
Qed.
End heard.

(** The list of heard stations: for each call sign the time of the last record that
    names it on the port.  A record cut off at the end of the file counts, with the
    rest of the record before it. *)
Theorem heard_last `{Mheard} axPort recs part : (0 < mheard_size)%nat ->
  Forall (fun r => length r = mheard_size) recs -> (length part < mheard_size)%nat ->
  exists m, Heard axPort (Some (concat recs ++ part)) = Ok (Some m) /\
    forall k, m !! k = mheard_time <$> last (filter (fun r => station_key r = k) (filter (on_port axPort)
      (recs ++ match part with [] => [] | _ => [short_record (default (replicate mheard_size 0) (last recs)) part] end))).
Proof.
  intros Hz Hr Hp. unfold Heard. rewrite heard_loop_records; [|done|apply length_replicate|done|done|lia].
  eexists. split; [done|]. intros k. rewrite heard_list_lookup. by destruct (last _).
Qed.

(** Records of three bytes: port, call sign, time. *)
Definition tiny_mheard : Mheard :=
  {| mheard_size := 3; mheard_port := fun r => take 1 r; mheard_call := fun r => take 1 (drop 1 r); mheard_time := fun r => get r 2 |}.

Lemma heard_last_witness : exists m, Heard (H := tiny_mheard) [80] (Some [80; 65; 1; 80; 66; 2; 80; 65; 3; 80]) = Ok (Some m) /\
  m !! [65] = Some 3 /\ m !! [66] = Some 2 /\ m !! [67] = None.
Proof.
  destruct (heard_last (H := tiny_mheard) [80] [[80; 65; 1]; [80; 66; 2]; [80; 65; 3]] [80]) as (m & E & Hm);
    [cbn; lia|repeat constructor|cbn; lia|].
  exists m. split; [exact E|]. split_and!; apply Hm.
Defined.
