(* ===== verification/Kenwood.v ===== *)
(** Kenwood and similar TNCs on a serial line: [src/transport/ax25/kenwood.go].

    The line is the bytes the TNC sends and what it does after them: it is silent
    or it hangs up.  Reading from a silent line blocks, so that a timer decides.
    Writing succeeds; sleeping and logging are left out. *)
From S2P Require Import Prelude Crc GoStr Helpers Transport.
From stdpp Require Import gmap.
Open Scope Z_scope.

Record KenwoodConn := mkKw {
  k_in : gostr; k_silent : bool; k_out : gostr; k_closed : bool; k_local : tncAddr; k_remote : tncAddr }.

Definition kw_write (s : gostr) (c : KenwoodConn) : KenwoodConn :=
  mkKw c.(k_in) c.(k_silent) (c.(k_out) ++ s) c.(k_closed) c.(k_local) c.(k_remote).
Definition kw_read (rest : gostr) (c : KenwoodConn) : KenwoodConn :=
  mkKw rest c.(k_silent) c.(k_out) c.(k_closed) c.(k_local) c.(k_remote).
Definition kw_close (c : KenwoodConn) : KenwoodConn :=
  mkKw c.(k_in) c.(k_silent) c.(k_out) true c.(k_local) c.(k_remote).

(** [fbb.ReadLine] on the line; [None] when it blocks. *)
Definition kw_ReadLine (c : KenwoodConn) : res (option (error + gostr) * KenwoodConn) :=
  '(r, rest) ← ReadLine c.(k_in);
  mret (match r with inl _ => if c.(k_silent) then None else Some r | inr _ => Some r end, kw_read rest c).

Definition _CONFIG_TXDELAY_UNIT : Z := Millisecond * 10.
Definition _CONFIG_SLOT_TIME_UNIT : Z := Millisecond * 10.
Definition _CONFIG_FRACK_UNIT : Z := Second.
Definition _CONFIG_RESPONSE_TIME_UNIT : Z := Millisecond * 100.

(** The commands that set up the TNC. *)
Definition init_commands (mycall : gostr) (cfg : Config) : gostr :=
  let cr := [13] in
  concat ((fun s => s ++ cr) <$>
    [str "ECHO OFF"; str "FLOW OFF"; str "XFLOW ON"; str "LFIGNORE ON"; str "AUTOLF OFF"; str "CR ON"; str "8BITCONV ON";
     str "NEWMODE ON";
     str "MYCALL " ++ mycall; str "HBAUD " ++ itoa cfg.(HBaud); str "PACLEN " ++ itoa cfg.(PacketLength);
     str "TXDELAY " ++ itoa (cfg.(TXDelay) `quot` _CONFIG_TXDELAY_UNIT); str "PERSIST " ++ itoa cfg.(Persist);
     str "SLOTTIME " ++ itoa (cfg.(SlotTime) `quot` _CONFIG_SLOT_TIME_UNIT); str "FULLDUP OFF";
     str "MAXFRAME " ++ itoa cfg.(MaxFrame); str "FRACK " ++ itoa (cfg.(FRACK) `quot` _CONFIG_FRACK_UNIT);
     str "RESPTIME " ++ itoa (cfg.(ResponseTime) `quot` _CONFIG_RESPONSE_TIME_UNIT); str "NOMODE ON"]).

(** What a goroutine sends on its channel before it closes it; [Hangs] when it
    does not get that far. *)
Inductive sent := Hangs | Closes (errs : list error).

(** Receiving from a channel that is closed after [errs]: nil once it is empty. *)
Definition recv_closed (errs : list error) : option error * list error :=
  match errs with e :: errs => (Some e, errs) | [] => (None, []) end.

(** [KenwoodConn.Close]; [None] when it blocks. *)
Fixpoint close_loop (fuel : nat) (c : KenwoodConn) : res (option KenwoodConn) :=
  match fuel with
  | O => NoFuel
  | S fuel =>
    '(r, c) ← kw_ReadLine c;
    match r with
    | None => mret None
    | Some r =>
      let line := match r with inr l => l | inl _ => [] end in
      if Contains line (str "DISCONN") then mret (Some (kw_close c)) else close_loop fuel c
    end
  end.

Definition kenwood_Close (fuel : nat) (c : KenwoodConn) : res (option KenwoodConn) :=
  close_loop fuel (kw_write ([3] ++ [3] ++ [3] ++ [13; 10] ++ str "D" ++ [13; 10]) c).

(** The first goroutine: waits for the prompt, then sends the commands. *)
Fixpoint await_prompt (fuel : nat) (mycall : gostr) (cfg : Config) (c : KenwoodConn) : res (sent * KenwoodConn) :=
  match fuel with
  | O => NoFuel
  | S fuel =>
    '(r, c) ← kw_ReadLine c;
    match r with
    | None => mret (Hangs, c)
    | Some (inl e) =>
      r ← kenwood_Close fuel c;
      mret (match r with Some c => (Closes [e], c) | None => (Hangs, c) end)
    | Some (inr line) => if HasPrefix line (str "cmd:") then mret (Closes [], kw_write (init_commands mycall cfg) c)
                         else await_prompt fuel mycall cfg c
    end
  end.

(** The second goroutine: waits for the TNC to report the connection. *)
Fixpoint await_connect (fuel : nat) (c : KenwoodConn) : res (sent * KenwoodConn) :=
  match fuel with
  | O => NoFuel
  | S fuel =>
    '(r, c) ← kw_ReadLine c;
    match r with
    | None => mret (Hangs, c)
    | Some (inl e) => mret (Closes [e], c)
    | Some (inr line) =>
      let line := TrimSpace line in
      if Contains line (str "*** DISCONNECTED") then
        d ← idx line (zlen line - 1); mret (Closes [New (str "got disconnect " ++ itoa d)], c)
      else if Contains line (str "*** CONNECTED to") then mret (Closes [], c)
      else await_connect fuel c
    end
  end.

(** A line takes a byte at least. *)
Definition lines_fuel (c : KenwoodConn) : nat := S (length c.(k_in)).

(** Closing the connection before an error is returned; [None] when that blocks. *)
Definition fail_closed (fuel : nat) (e : error) (c : KenwoodConn) : res (option (option error * option KenwoodConn)) :=
  r ← kenwood_Close fuel c;
  mret (match r with Some _ => Some (Some e, None) | None => None end).

(** [DialKenwood] on the device [opened]; [first] tells whether the second
    goroutine writes its command before the main one its own.  The result is the
    error and the connection, or [None] when the call blocks.  The second
    goroutine goes on reading from the same line. *)
Definition DialKenwood (fuel : nat) (opened : error + (gostr * bool)) (first : bool) (dev mycall targetcall : gostr) (cfg : Config)
  : res (option (option error * option KenwoodConn)) :=
  localAddr ← tncAddrFromString mycall;
  remoteAddr ← tncAddrFromString targetcall;
  match opened with
  | inl e => if bool_decide (dev = str "socket") then Panic
             else mret (Some (Some e, Some (mkKw [] false [] false localAddr remoteAddr)))
  | inr (input, silent) =>
    let c := mkKw input silent [] false localAddr remoteAddr in
    let c := kw_write ([3; 3; 3] ++ [13; 10] ++ str "restart" ++ [13; 10]) c in
    '(s, c) ← await_prompt fuel mycall cfg c;
    match s with
    | Hangs => fail_closed fuel (New (str "initialization failed: deadline exceeded")) c
    | Closes initErr =>
      let '(err, initErr) := recv_closed initErr in
      match err with
      | Some e => fail_closed fuel (Wrap (str "initialization failed: ") e) c
      | None =>
        let call := [13] ++ str "c " ++ targetcall ++ [13] in
        (* the second select receives from initErr too *)
        let '(err, _) := recv_closed initErr in
        match err with
        | Some e => fail_closed fuel (Wrap (str "connect failed: ") e) c
        | None =>
          let trans := str "TRANS" ++ [13; 10] in
          mret (Some (None, Some (kw_write (if first then call ++ trans else trans ++ call) c)))
        end
      end
    end
  end.

(** ** Theorems *)
Lemma ReadLine_plain s c l d rest : s = c :: l ++ [d] -> solid c = true -> solid d = true -> 10 ∉ s -> 13 ∉ s ->
  ReadLine (s ++ 13 :: rest) = Ok (inr s, rest).
Proof.
  intros Es Hc Hd H10 H13. unfold ReadLine.
  assert (K : forall a b, 10 ∉ b -> 13 ∉ b -> ReadLine_from a (b ++ 13 :: rest) = ReadLine_from (a ++ b) (13 :: rest)).
  { intros a b. revert a. induction b as [|x b IH]; intros a N10 N13; [by rewrite app_nil_r|].
    apply not_elem_of_cons in N10 as [M10 N10], N13 as [M13 N13]. cbn [app ReadLine_from].
    rewrite (proj2 (Z.eqb_neq x 10)), (proj2 (Z.eqb_neq x 13)) by congruence. cbn [orb]. rewrite IH by done. by rewrite <- app_assoc. }
  rewrite K by done. cbn [app]. cbn [ReadLine_from]. change ((13 =? 10) || (13 =? 13)) with true. cbv iota.
  rewrite Es. by rewrite (cleanString_trimmed _ c l d (TrimSpace_keep c l d Hc Hd)).
Qed.

(** The answer of the TNC to the call is not waited for: once it has shown its
    prompt, dialing succeeds whatever it sends next, also when it reports that
    the station could not be reached, or hangs up. *)
Theorem kenwood_dial_blind fuel first dev mycall target cfg local remote rest silent :
  tncAddrFromString mycall = Ok local -> tncAddrFromString target = Ok remote ->
  exists c, DialKenwood (S fuel) (inr (str "cmd:" ++ 13 :: rest, silent)) first dev mycall target cfg = Ok (Some (None, Some c)) /\
    c.(k_in) = rest /\ c.(k_silent) = silent /\ c.(k_closed) = false /\ c.(k_remote) = remote.
Proof.
  intros El Er. unfold DialKenwood. rewrite El, Er, !bind_Ok. cbv zeta. set (c0 := kw_write _ _).
  assert (Ep : await_prompt (S fuel) mycall cfg c0 = Ok (Closes [], kw_write (init_commands mycall cfg) (kw_read rest c0))).
  { cbn [await_prompt]. unfold kw_ReadLine. change (k_in c0) with (str "cmd:" ++ 13 :: rest).
    rewrite (ReadLine_plain (str "cmd:") 99 (str "md") 58 rest) by (done || by apply not_elem_existsb). done. }
  rewrite Ep, bind_Ok. cbv beta iota. cbn [recv_closed]. eexists. split_and!; reflexivity.
Qed.

(** The answer that is lost. *)
Lemma kenwood_dial_blind_witness : exists c,
  DialKenwood 1 (inr (str "cmd:" ++ 13 :: str "*** DISCONNECTED" ++ [13], false)) true (str "/dev/ttyS0") (str "LA5NTA")
    (str "LA1B via LD5SK") (NewConfig B1200 9600) = Ok (Some (None, Some c)) /\
  await_connect (lines_fuel c) c = Ok (Closes [New (str "got disconnect 68")], kw_read [] c).
Proof.
  destruct (kenwood_dial_blind 0 true (str "/dev/ttyS0") (str "LA5NTA") (str "LA1B via LD5SK") (NewConfig B1200 9600)
    (mkTncAddr (mkAddress (str "LA5NTA") 0) []) (mkTncAddr (mkAddress (str "LA1B") 0) [mkAddress (str "LD5SK") 0])
    (str "*** DISCONNECTED" ++ [13]) false) as (c & E & Ei & Es & _).
  - vm_compute. reflexivity.
  - vm_compute. reflexivity.
  - exists c. split; [exact E|]. clear E. destruct c as [i s o cl l r]. cbn [k_in k_silent] in Ei, Es. subst i s. vm_compute. reflexivity.
Defined.

Lemma close_spins fuel c : c.(k_in) = [] -> c.(k_silent) = false -> kenwood_Close fuel c = NoFuel.
Proof.
  intros Hi Hs. unfold kenwood_Close. set (c' := kw_write _ c).
  assert (Hi' : c'.(k_in) = []) by done. assert (Hs' : c'.(k_silent) = false) by done. clearbody c'. clear Hi Hs c.
  revert c' Hi' Hs'. induction fuel as [|fuel IH]; intros c Hi Hs; [done|]. cbn [close_loop]. unfold kw_ReadLine.
  rewrite Hi. cbn [ReadLine ReadLine_from mret res_ret]. rewrite !bind_Ok. cbv beta iota. rewrite Hs. change (Contains [] _) with false.
  cbv iota. by apply IH.
Qed.

(** Closing the connection reads lines until the TNC says it has disconnected;
    a read that fails is an empty line.  When the device is gone this goes on
    for ever. *)
Theorem kenwood_close_spins fuel c : c.(k_in) = [] -> c.(k_silent) = false -> kenwood_Close fuel c = NoFuel.
Proof. apply close_spins. Qed.

Lemma kenwood_close_spins_witness :
  kenwood_Close 1000 (mkKw [] false [] false (mkTncAddr (mkAddress [] 0) []) (mkTncAddr (mkAddress [] 0) [])) = NoFuel.
Proof. by apply kenwood_close_spins. Defined.

(** The deadline of the initialization does not end it: before the error is
    returned the connection is closed, and that waits for the TNC.  With a TNC
    that says nothing the call blocks; with a device that is gone it spins. *)
Theorem kenwood_init_hangs fuel silent first dev mycall target cfg local remote :
  tncAddrFromString mycall = Ok local -> tncAddrFromString target = Ok remote ->
  DialKenwood (S fuel) (inr ([], silent)) first dev mycall target cfg = if silent then Ok None else NoFuel.
Proof.
  intros El Er. unfold DialKenwood. rewrite El, Er, !bind_Ok. cbv zeta. destruct silent; [done|].
  cbn [await_prompt]. unfold kw_ReadLine at 1. cbn [kw_write k_in k_silent ReadLine ReadLine_from mret res_ret]. rewrite !bind_Ok.
  cbv beta iota. by rewrite close_spins.
Qed.

Lemma kenwood_init_hangs_witness :
  DialKenwood 1000 (inr ([], true)) true (str "/dev/ttyS0") (str "LA5NTA") (str "LA1B") (NewConfig B1200 9600) = Ok None.
Proof.
  apply (kenwood_init_hangs 999 true true _ _ _ _ (mkTncAddr (mkAddress (str "LA5NTA") 0) [])
    (mkTncAddr (mkAddress (str "LA1B") 0) [])); vm_compute; reflexivity.
Defined.
