(* ===== verification/Telnet.v ===== *)
(** Connections over TCP: [src/transport/telnet].

    A connection is the pieces its reads return and what has been written.  The
    reader that is used to log in is buffered and is dropped afterwards, with
    what it holds.  Writing succeeds. *)
From S2P Require Import Prelude Crc GoStr Helpers Bufio Transport.
From stdpp Require Import gmap.
Open Scope Z_scope.

Definition CMSTargetCall := str "wl2k".
Definition CMSPassword := str "CMSTelnet".
Definition CMSAddress := str "server.winlink.org:8772".

Record TelnetConn := mkTel { tl_rd : rdr; tl_out : gostr; remoteCall : gostr }.

Definition RemoteCall (c : TelnetConn) : gostr := c.(remoteCall).

(** What the connection still returns when a buffered reader on it is dropped. *)
Definition unbuffered (rd : rdr) : rdr := tail rd.

(** ** Dialing *)
Fixpoint login_loop (fuel : nat) (mycall password : gostr) (rd : rdr) (out : gostr) : res (error + TelnetConn) :=
  match fuel with
  | O => NoFuel
  | S fuel =>
    let '(line, ok, rd) := ReadBytes 13 rd in
    let line := TrimSpace (ToLower line) in
    if negb ok then mret (inl (New (str "Error while logging in: " ++ Error io_EOF)))
    else if HasPrefix line (str "callsign") then login_loop fuel mycall password rd (out ++ mycall ++ [13])
    else if HasPrefix line (str "password") then mret (inr (mkTel (unbuffered rd) (out ++ password ++ [13]) CMSTargetCall))
    else login_loop fuel mycall password rd out
  end.

(** [DialContext], once the network has answered; a line has a byte at least. *)
Definition tel_DialContext (dialed : error + rdr) (mycall password : gostr) : res (error + TelnetConn) :=
  match dialed with
  | inl e => mret (inl e)
  | inr rd => login_loop (S (length (concat rd))) mycall password rd []
  end.

(** [DialCMS]: up to four attempts, of which [dialed] tells how they go. *)
Fixpoint dial_attempts (n : nat) (dialed : nat -> error + rdr) (mycall : gostr) (i : nat) : res (error + TelnetConn) :=
  r ← tel_DialContext (dialed i) mycall CMSPassword;
  match r, n with
  | inr _, _ | _, (O | 1%nat) => mret r
  | inl _, S n => dial_attempts n dialed mycall (S i)
  end.

Definition DialCMS (dialed : nat -> error + rdr) (mycall : gostr) : res (error + TelnetConn) :=
  dial_attempts 4 dialed mycall 0.

(** [Dialer.DialURLContext]: [dial] is given the timeout, 0 for none, and the
    address. *)
Definition tel_DialURLContext (ParseDuration : gostr -> error + Z) (Timeout : Z) (dial : Z -> gostr -> error + rdr) (url : URL)
  : res (error + TelnetConn) :=
  if negb (bool_decide (url.(Scheme) = str "telnet")) then mret (inl ErrUnsupportedScheme)
  else
    let '(user, pass) := match url.(User) with Some (u, p) => (u, default [] p) | None => ([], []) end in
    let s := values_Get url.(url_Params) (str "dial_timeout") in
    match (if bool_decide (s = []) then inr Timeout else ParseDuration s) with
    | inl e => mret (inl (Wrap (str "invalid dial_timeout value: ") e))
    | inr timeout => tel_DialContext (dial (Z.max 0 timeout) url.(Host)) user pass
    end.

(** ** Listening *)
Definition tel_Accept (accepted : error + rdr) : option error * option TelnetConn :=
  match accepted with
  | inl e => (Some e, None)
  | inr rd =>
    let out := str "Callsign :" ++ [13] in
    match ReadBytes 13 rd with
    | (_, false, rd) => (Some io_EOF, Some (mkTel (unbuffered rd) out []))
    | (line, true, rd) =>
      let call := TrimSpace line in
      let out := out ++ str "Password :" ++ [13] in
      let '(_, ok, rd) := ReadBytes 13 rd in
      (if ok then None else Some io_EOF, Some (mkTel (unbuffered rd) out call))
    end
  end.

(** ** Theorems *)
Lemma unbuffered_suffix rd : exists lost, concat rd = lost ++ concat (unbuffered rd).
Proof. destruct rd as [|c rd]; [by exists []|by exists c]. Qed.

Lemma login_step fuel mycall password rd out m s : concat rd = m ++ 13 :: s -> 13 ∉ m ->
  exists rd', concat rd' = s /\ ReadBytes 13 rd = (m ++ [13], true, rd') /\
    (length (concat rd') < length (concat rd))%nat /\
    login_loop (S fuel) mycall password rd out =
      let line := TrimSpace (ToLower (m ++ [13])) in
      if HasPrefix line (str "callsign") then login_loop fuel mycall password rd' (out ++ mycall ++ [13])
      else if HasPrefix line (str "password") then mret (inr (mkTel (unbuffered rd') (out ++ password ++ [13]) CMSTargetCall))
      else login_loop fuel mycall password rd' out.
Proof.
  intros E Hm. destruct (ReadBytes_consumed 13 rd m s E Hm) as (rd' & Er & _ & Ec & _).
  exists rd'. assert (Es : concat rd' = s).
  { rewrite Ec, E. change (m ++ 13 :: s) with (m ++ [13] ++ s). rewrite app_assoc. apply drop_app_length'.
    rewrite length_app. cbn. lia. }
  split_and!; [done|done| |]; [rewrite Es, E, length_app; cbn; lia|]. cbn [login_loop]. by rewrite Er.
Qed.

(** Logging in ends: with any server, the dialer has logged in or failed when
    the stream does. *)
Theorem telnet_login_terminates dialed mycall password : exists r, tel_DialContext dialed mycall password = Ok r.
Proof.
  destruct dialed as [e|rd]; [by eexists|]. unfold tel_DialContext.
  assert (K : forall fuel rd out, (length (concat rd) < fuel)%nat -> exists r, login_loop fuel mycall password rd out = Ok r).
  { intros fuel. induction fuel as [|fuel IH]; intros rd' out Hl; [lia|].
    pose proof (ReadBytes_split 13 rd') as Hs. destruct (ReadBytes 13 rd') as [[l [|]] r] eqn:Er.
    - destruct Hs as (Ec & m & -> & Hm). rewrite <- app_assoc in Ec.
      destruct (login_step fuel mycall password rd' out m (concat r) Ec Hm) as (rd2 & _ & _ & Hlt & ->). cbv zeta.
      destruct (HasPrefix _ _); [apply IH; lia|]. destruct (HasPrefix _ _); [by eexists|]. apply IH. lia.
    - cbn [login_loop]. rewrite Er. by eexists. }
  apply K. lia.
Qed.

(** The two sides of a login agree: the dialer answers the listener's prompts
    with its call sign and its password, and the listener takes the call sign
    from them.  Of the bytes that follow, each side gets what did not arrive
    together with the end of the login. *)
Theorem telnet_login mycall password c m d rd rd' more more' :
  mycall = c :: m ++ [d] -> solid c = true -> solid d = true -> 13 ∉ mycall -> 13 ∉ password ->
  concat rd = str "Callsign :" ++ 13 :: str "Password :" ++ 13 :: more ->
  concat rd' = mycall ++ 13 :: password ++ 13 :: more' ->
  exists client server lost lost', tel_DialContext (inr rd) mycall password = Ok (inr client) /\
    client.(tl_out) = mycall ++ 13 :: password ++ [13] /\ more = lost ++ concat client.(tl_rd) /\
    tel_Accept (inr rd') = (None, Some server) /\ RemoteCall server = mycall /\
    server.(tl_out) = str "Callsign :" ++ 13 :: str "Password :" ++ [13] /\ more' = lost' ++ concat server.(tl_rd).
Proof.
  intros Em Hc Hd Hm Hp Er Er'. unfold tel_DialContext.
  destruct (length (concat rd)) as [|fuel] eqn:El; [by rewrite Er in El|].
  destruct (login_step (S fuel) mycall password rd [] (str "Callsign :") _ Er) as (rd1 & E1 & _ & _ & ->); [by apply not_elem_existsb|].
  destruct (login_step fuel mycall password rd1 (mycall ++ [13]) (str "Password :") _ E1) as (rd2 & E2 & _ & _ & H2);
    [by apply not_elem_existsb|].
  destruct (ReadBytes_consumed 13 rd' mycall _ Er' Hm) as (rd3 & R3 & C3).
  assert (E3 : concat rd3 = password ++ 13 :: more').
  { destruct C3 as (_ & -> & _). rewrite Er'. change (mycall ++ 13 :: ?s) with (mycall ++ [13] ++ s). rewrite app_assoc.
    apply drop_app_length'. rewrite length_app. cbn. lia. }
  destruct (ReadBytes_consumed 13 rd3 password _ E3 Hp) as (rd4 & R4 & C4).
  assert (E4 : concat rd4 = more').
  { destruct C4 as (_ & -> & _). rewrite E3. change (password ++ 13 :: ?s) with (password ++ [13] ++ s). rewrite app_assoc.
    apply drop_app_length'. rewrite length_app. cbn. lia. }
  destruct (unbuffered_suffix rd2) as [lost L], (unbuffered_suffix rd4) as [lost' L']. rewrite E2 in L. rewrite E4 in L'.
  eexists (mkTel (unbuffered rd2) (mycall ++ 13 :: password ++ [13]) CMSTargetCall), (mkTel (unbuffered rd4) _ mycall), lost, lost'.
  split_and!; [|done|done| |done|done|done].
  - cbv zeta. change (HasPrefix (TrimSpace (ToLower (str "Callsign :" ++ [13]))) (str "callsign")) with true. cbv iota.
    change ([] ++ mycall ++ [13]) with (mycall ++ [13]). rewrite H2. cbv zeta.
    change (HasPrefix (TrimSpace (ToLower (str "Password :" ++ [13]))) (str "callsign")) with false.
    change (HasPrefix (TrimSpace (ToLower (str "Password :" ++ [13]))) (str "password")) with true. cbv iota.
    by rewrite <- app_assoc.
  - unfold tel_Accept. rewrite R3, R4. cbv iota zeta. do 3 f_equal. rewrite Em. by apply TrimSpace_cr.
Qed.

(** A banner in the same piece as the last prompt is lost. *)
Lemma telnet_login_witness : exists client server lost lost',
  tel_DialContext (inr [str "Callsign :" ++ [13]; str "Password :" ++ 13 :: str "[WL2K]"; [13]]) (str "LA5NTA") CMSPassword = Ok (inr client) /\
  client.(tl_out) = str "LA5NTA" ++ 13 :: CMSPassword ++ [13] /\ str "[WL2K]" ++ [13] = lost ++ concat client.(tl_rd) /\
  tel_Accept (inr [str "LA5NTA" ++ [13]; CMSPassword ++ [13]; str ";FW"]) = (None, Some server) /\ RemoteCall server = str "LA5NTA" /\
  server.(tl_out) = str "Callsign :" ++ 13 :: str "Password :" ++ [13] /\ str ";FW" = lost' ++ concat server.(tl_rd).
Proof.
  apply (telnet_login (str "LA5NTA") CMSPassword 76 (str "A5NT") 65).
  - reflexivity.
  - reflexivity.
  - reflexivity.
  - by apply not_elem_existsb.
  - by apply not_elem_existsb.
  - reflexivity.
  - reflexivity.
Defined.
