(* ===== verification/ArdopFrame.v ===== *)
(** The host interface of an ARDOP modem: checksum, frames, commands and
    bandwidths.  [src/transport/ardop/crc16.go], [frame.go], [command.go] and
    [ardop.go].

    A modem on a serial line sends and takes frames with a type letter and a
    checksum; over TCP it has one connection for commands and one for data, with
    neither.  Logging is left out. *)
From S2P Require Import Prelude Crc GoStr Helpers Bufio.

Definition streq (a b : gostr) : bool := bool_decide (a = b).
Definition one_of (a : gostr) (l : list gostr) : bool := existsb (streq a) l.

(** Package fmt, on a format that has no arguments: text without a percent sign
    is printed as it is. *)
Class Fmt := {
  Sprintf : gostr -> gostr;
  Sprintf_plain s : 37 ∉ s -> Sprintf s = s;
}.

(** ** crc16.go *)
Definition polynomial : Z := 0x8810.

Definition crc_bit (b mask sum : Z) : Z :=
  let divisible := negb (Z.land sum 0x8000 =? 0) in
  let sum := u16 (Z.shiftl sum 1) in
  let dataBit := Z.land b mask in
  let sum := if negb (dataBit =? 0) then u16 (sum + 1) else sum in
  if divisible then Z.lxor sum polynomial else sum.

(** [for mask := uint16(0x80); mask > 0; mask >>= 1] *)
Fixpoint crc_byte (n : nat) (b mask sum : Z) : Z :=
  match n with
  | O => sum
  | S n => if mask <=? 0 then sum else crc_byte n b (Z.shiftr mask 1) (crc_bit b mask sum)
  end.

Definition crc16Sum (data : gostr) : Z := foldl (fun sum b => crc_byte 9 b 0x80 sum) 0xffff data.

(** Big endian 16-bit numbers: package encoding/binary. *)
Definition PutUint16 (n : Z) : gostr := [n / 256; n mod 256].
Definition Uint16 (b : gostr) : Z := get b 0 * 256 + get b 1.

(** ** ardop.go *)
Inductive State := Unknown | Offline | Disconnected | ISS | IRS | Idle | FECSend | FECReceive.

#[export] Instance State_eq_dec : EqDecision State.
Proof. solve_decision. Defined.

Record Bandwidth := mkBW { Forced : bool; Max : Z }.

#[export] Instance Bandwidth_eq_dec : EqDecision Bandwidth.
Proof. solve_decision. Defined.

Definition Bandwidth200Max := mkBW false 200.
Definition Bandwidth500Max := mkBW false 500.
Definition Bandwidth1000Max := mkBW false 1000.
Definition Bandwidth2000Max := mkBW false 2000.
Definition Bandwidth200Forced := mkBW true 200.
Definition Bandwidth500Forced := mkBW true 500.
Definition Bandwidth1000Forced := mkBW true 1000.
Definition Bandwidth2000Forced := mkBW true 2000.

Definition bw_String (bw : Bandwidth) : gostr :=
  itoa bw.(Max) ++ (if bw.(Forced) then str "FORCED" else str "MAX").

Definition bw_IsZero (bw : Bandwidth) : bool := bw.(Max) =? 0.

Definition Bandwidths : list Bandwidth :=
  [Bandwidth200Max; Bandwidth500Max; Bandwidth1000Max; Bandwidth2000Max;
   Bandwidth200Forced; Bandwidth500Forced; Bandwidth1000Forced; Bandwidth2000Forced].

Definition ErrUnsupportedBandwidth := New (str "Unsupported ARQ bandwidth").
Definition ErrChecksumMismatch := New (str "Control protocol checksum mismatch").

Definition BandwidthFromString (s : gostr) : error + Bandwidth :=
  let s := if HasSuffix s (str "0") then s ++ str "MAX" else s in
  match List.find (fun bw => streq (bw_String bw) s) Bandwidths with
  | Some bw => inr bw
  | None => inl ErrUnsupportedBandwidth
  end.

Definition stateMap : list (gostr * State) :=
  [(str "", Unknown); (str "OFFLINE", Offline); (str "DISC", Disconnected); (str "ISS", ISS);
   (str "IRS", IRS); (str "IDLE", Idle); (str "FECRcv", FECReceive); (str "FECSend", FECSend)].

(** [stateMap[k]] *)
Definition state_lookup (k : gostr) : option State :=
  snd <$> List.find (fun e => streq e.1 k) stateMap.

Definition strToState (s : gostr) : State * bool :=
  match state_lookup (ToUpper s) with Some st => (st, true) | None => (Unknown, false) end.

(** ** command.go *)
Definition cmdPending := str "PENDING".
Definition cmdCancelPending := str "CANCELPENDING".
Definition cmdCRCFault := str "CRCFAULT".
Definition cmdAbort := str "ABORT".
Definition cmdARQBW := str "ARQBW".
Definition cmdARQTimeout := str "ARQTIMEOUT".
Definition cmdARQCall := str "ARQCALL".
Definition cmdBuffer := str "BUFFER".
Definition cmdClose := str "CLOSE".
Definition cmdCodec := str "CODEC".
Definition cmdCWID := str "CWID".
Definition cmdDisconnect := str "DISCONNECT".
Definition cmdCapture := str "CAPTURE".
Definition cmdDriveLevel := str "DRIVELEVEL".
Definition cmdGridSquare := str "GRIDSQUARE".
Definition cmdInitialize := str "INITIALIZE".
Definition cmdListen := str "LISTEN".
Definition cmdMyAux := str "MYAUX".
Definition cmdMyCall := str "MYCALL".
Definition cmdPlayback := str "PLAYBACK".
Definition cmdProtocolMode := str "PROTOCOLMODE".
Definition cmdTwoToneTest := str "TWOTONETEST".
Definition cmdVersion := str "VERSION".
Definition cmdStatus := str "STATUS".
Definition cmdNewState := str "NEWSTATE".
Definition cmdDisconnected := str "DISCONNECTED".
Definition cmdConnected := str "CONNECTED".
Definition cmdPTT := str "PTT".
Definition cmdFault := str "FAULT".
Definition cmdBusy := str "BUSY".
Definition cmdTarget := str "TARGET".
Definition cmdCaptureDevices := str "CATPUREDEVICES".
Definition cmdPlaybackDevices := str "PLAYBACKDEVICES".
Definition cmdAutoBreak := str "AUTOBREAK".
Definition cmdSendID := str "SENDID".
Definition cmdFrequency := str "FREQUENCY".
Definition cmdInputPeaks := str "INPUTPEAKS".
Definition cmdState := str "STATE".
Definition cmdFSKOnly := str "FSKONLY".

(** The dynamic types of a parameter. *)
Inductive value :=
| VNil | VBool (b : bool) | VState (s : State) | VString (s : gostr) | VList (l : list gostr) | VInt (i : Z).

Record ctrlMsg := mkMsg { cmd : gostr; val : value }.

(** The type assertions [msg.value.(T)] panic on any other type. *)
Definition msg_Bool (m : ctrlMsg) : res bool := match m.(val) with VBool b => Ok b | _ => Panic end.
Definition msg_State (m : ctrlMsg) : res State := match m.(val) with VState s => Ok s | _ => Panic end.
Definition msg_String (m : ctrlMsg) : res gostr := match m.(val) with VString s => Ok s | _ => Panic end.
Definition msg_Int (m : ctrlMsg) : res Z := match m.(val) with VInt i => Ok i | _ => Panic end.
Definition msg_List (m : ctrlMsg) : res (list gostr) := match m.(val) with VList l => Ok l | _ => Panic end.


Definition parseList (s : gostr) (sep : Z) : list gostr := TrimSpace <$> Split sep s.

(** The cases of the switch on the command. *)
Definition bool_cmds : list gostr :=
  [cmdCodec; cmdPTT; cmdBusy; cmdTwoToneTest; cmdCWID; cmdListen; cmdAutoBreak; cmdFSKOnly].
Definition bare_cmds : list gostr :=
  [cmdInputPeaks; cmdAbort; cmdDisconnect; cmdClose; cmdDisconnected; cmdCRCFault; cmdPending; cmdCancelPending;
   cmdSendID; cmdInitialize; cmdARQCall; cmdProtocolMode].
Definition state_cmds : list gostr := [cmdNewState; cmdState].
Definition string_cmds : list gostr :=
  [cmdFault; cmdMyCall; cmdGridSquare; cmdCapture; cmdPlayback; cmdVersion; cmdTarget; cmdStatus; cmdARQBW].
Definition comma_cmds : list gostr := [cmdCaptureDevices; cmdPlaybackDevices; cmdMyAux].
Definition int_cmds : list gostr := [cmdDriveLevel; cmdBuffer; cmdARQTimeout; cmdFrequency].

Definition parseCtrlMsg (s : gostr) : res ctrlMsg :=
  let s := TrimSpace s in
  let parts := Split2 32 s in
  p0 ← idx parts 0;
  let c := ToUpper p0 in
  let isEchoBack := (1 <? zlen parts) &&
    match parts with _ :: p1 :: _ => HasPrefix (ToLower p1) (str "now ") | _ => false end in
  (* parts[1], read where it is used *)
  let par := p1 ← idx parts 1; if isEchoBack : bool then slice p1 4 (zlen p1) else mret p1 in
  if one_of c bool_cmds then p ← par; mret (mkMsg c (VBool (streq (ToLower p) (str "true"))))
  else if one_of c bare_cmds then mret (mkMsg c VNil)
  else if one_of c state_cmds then p ← par; mret (mkMsg c (VState (default Unknown (state_lookup (ToUpper p)))))
  else if one_of c string_cmds then p ← par; mret (mkMsg c (VString p))
  else if streq c cmdConnected then p ← par; mret (mkMsg c (VList (parseList p 32)))
  else if one_of c comma_cmds then p ← par; mret (mkMsg c (VList (parseList p 44)))
  else if one_of c int_cmds then p ← par; mret (mkMsg c (VInt (Atoi p).1))
  else mret (mkMsg c VNil).

(** ** frame.go *)
Inductive frame := dFrame (dataType data : gostr) | cmdFrame (line : gostr).

Definition ARQFrame (dataType : gostr) : bool := streq dataType (str "ARQ").
Definition FECFrame (dataType : gostr) : bool := streq dataType (str "FEC").
Definition ErrFrame (dataType : gostr) : bool := streq dataType (str "ERR").
Definition IDFrame (dataType : gostr) : bool := streq dataType (str "IDF").

(** What [writeCtrlFrame] puts on the wire. *)
Definition writeCtrlFrame `{Fmt} (isTCP : bool) (format : gostr) : gostr :=
  let prefix := if isTCP then [] else str "C:" in
  let payload := Sprintf (format ++ [13]) in
  prefix ++ payload ++ (if isTCP then [] else PutUint16 (crc16Sum payload)).

(** Verify CRC sums: the two bytes are asked for with one [Read]. *)
Definition check_sum (isTCP : bool) (data : gostr) (rd : rdr) : bool * rdr :=
  if isTCP then (true, rd)
  else match Read_some 2 rd with
       | (Some sum, rd) => (crc16Sum data =? Uint16 sum, rd)
       | (None, rd) => (crc16Sum data =? 0, rd)
       end.

(** The frame or the error, and the stream left. *)
Fixpoint readFrameOfType (fuel : nat) (fType : Z) (rd : rdr) (isTCP : bool) : res ((error + frame) * rdr) :=
  match fuel with
  | O => NoFuel
  | S fuel =>
      if fType =? 42 then
        match ReadByte rd with
        | (None, rd) => mret (inl io_EOF, rd)
        | (Some fType, rd) => readFrameOfType fuel fType (ReadByte rd).2 isTCP
        end
      else if fType =? 99 then
        match ReadBytes 13 rd with
        | (_, false, rd) => mret (inl io_EOF, rd)
        | (data, true, rd) =>
            match check_sum isTCP data rd with
            | (false, rd) => mret (inl ErrChecksumMismatch, rd)
            | (true, rd) => data ← slice data 0 (zlen data - 1); mret (inr (cmdFrame data), rd)
            end
        end
      else if fType =? 100 then
        match Peek 2 rd with
        | (None, rd) => mret (inl io_EOF, rd)
        | (Some peeked, rd) =>
            let len := Z.to_nat (u16 (Uint16 peeked + 2)) in
            (* an error of the reads is not looked at: it is assigned to a variable of this block *)
            let '(got, rd) := Read_loop len len rd in
            let data := got ++ replicate (len - length got) 0 in
            match check_sum isTCP data rd with
            | (false, rd) => mret (inl ErrChecksumMismatch, rd)
            | (true, rd) =>
                dataType ← slice data 2 5;
                rest ← slice data 5 (zlen data);
                mret (inr (dFrame dataType rest), rd)
            end
        end
      else mret (inl (New (str "Unexpected frame type " ++ EncodeRune fType)), rd)
  end.

Definition frame_fuel (rd : rdr) : nat := S (length (concat rd)).

(** [decodeTNCStream]: the frames and errors of a stream, up to io.EOF. *)
Fixpoint decode_fuel (fuel : nat) (fType : Z) (rd : rdr) (isTCP : bool) : res (list (error + frame)) :=
  match fuel with
  | O => NoFuel
  | S fuel =>
      r ← readFrameOfType (frame_fuel rd) fType rd isTCP;
      match r with
      | (inl io_EOF, _) => mret [inl io_EOF]
      | (x, rd) => rest ← decode_fuel fuel fType rd isTCP; mret (x :: rest)
      end
  end.
Definition decodeTNCStream (fType : Z) (rd : rdr) (isTCP : bool) : res (list (error + frame)) :=
  decode_fuel (S (length (concat rd))) fType rd isTCP.

(** *** The identification frame: [(\w+)[:\s]*\[(\w+)\]]

    The three classes of the expression are disjoint, so a match is found by
    taking as much as each class allows, from the leftmost start. *)
Definition word_char (c : Z) : bool :=
  is_digit c || in_range 65 90 c || in_range 97 122 c || (c =? 95).
Definition sep_char (c : Z) : bool := (c =? 58) || existsb (Z.eqb c) [9; 10; 12; 13; 32].

Fixpoint span (P : Z -> bool) (s : gostr) : gostr * gostr :=
  match s with
  | c :: s' => if P c then let '(a, b) := span P s' in (c :: a, b) else ([], s)
  | [] => ([], [])
  end.

Definition id_here (s : gostr) : option (gostr * gostr) :=
  let '(call, s) := span word_char s in
  let '(_, s) := span sep_char s in
  match call, s with
  | _ :: _, 91 :: s =>
      let '(grid, s) := span word_char s in
      match grid, s with _ :: _, 93 :: _ => Some (call, grid) | _, _ => None end
  | _, _ => None
  end.

Fixpoint reID (s : gostr) : option (gostr * gostr) :=
  match id_here s with
  | Some m => Some m
  | None => match s with [] => None | _ :: s => reID s end
  end.

Definition parseIDFrame (dataType data : gostr) : error + gostr * gostr :=
  if negb (IDFrame dataType) then inl (New (str "Unexpected frame type"))
  else match reID data with
       | Some m => inr m
       | None => inl (New (str "Unexpected ID format"))
       end.
