(* ===== verification/ArdopWire.v ===== *)
(** Theorems on the ARDOP host interface: what the checksum detects, frames on
    the wire, the types of parsed messages, bandwidth strings. *)
From Stdlib Require Import Btauto.
From S2P Require Import Prelude Crc GoStr Helpers Bufio ArdopFrame.

(** ** The checksum register *)

(** One step of a register with the code's polynomial. *)
Definition areg (s : Z) (b : bool) : Z :=
  Z.lxor (Z.lxor (u16 (Z.shiftl s 1)) (Z.b2z b)) (if Z.testbit s 15 then polynomial else 0).

Lemma msb_land s : Z.land s 0x8000 = if Z.testbit s 15 then 0x8000 else 0.
Proof.
  apply Z.bits_inj'. intros n Hn. rewrite Z.land_spec. change 0x8000 with (2 ^ 15). rewrite Z.pow2_bits_eqb by lia.
  destruct (Z.eqb_spec 15 n) as [<-|H].
  - rewrite andb_true_r. destruct (Z.testbit s 15); [by rewrite Z.pow2_bits_true|by rewrite Z.bits_0].
  - rewrite andb_false_r. destruct (Z.testbit s 15); [by rewrite Z.pow2_bits_false|by rewrite Z.bits_0].
Qed.

Lemma bit_mask x k : 0 <= k -> (Z.land x (2 ^ k) =? 0) = negb (Z.testbit x k).
Proof.
  intros Hk. assert (E : Z.land x (2 ^ k) = if Z.testbit x k then 2 ^ k else 0).
  { apply Z.bits_inj'. intros n Hn. rewrite Z.land_spec, Z.pow2_bits_eqb by lia.
    destruct (Z.eqb_spec k n) as [<-|H].
    - rewrite andb_true_r. destruct (Z.testbit x k); [by rewrite Z.pow2_bits_true|by rewrite Z.bits_0].
    - rewrite andb_false_r. destruct (Z.testbit x k); [by rewrite Z.pow2_bits_false|by rewrite Z.bits_0]. }
  rewrite E. destruct (Z.testbit x k); [|done]. apply Z.eqb_neq. pose proof (Z.pow_pos_nonneg 2 k). lia.
Qed.

Lemma crc_bit_areg b k s : 0 <= k -> crc_bit b (2 ^ k) s = areg s (Z.testbit b k).
Proof.
  intros Hk. unfold crc_bit, areg. change 0x8000 with (2 ^ 15). rewrite !bit_mask, !negb_involutive by lia.
  assert (E : (if Z.testbit b k then u16 (u16 (Z.shiftl s 1) + 1) else u16 (Z.shiftl s 1))
              = Z.lxor (u16 (Z.shiftl s 1)) (Z.b2z (Z.testbit b k))).
  { destruct (Z.testbit b k); cbn [Z.b2z]; [|by rewrite Z.lxor_0_r].
    rewrite Z.shiftl_mul_pow2 by lia. unfold u16.
    rewrite <- Z.add_nocarry_lxor.
    - rewrite Z.mod_small; [done|]. pose proof (Z.mod_pos_bound (s * 2 ^ 1) (2 ^ 16) ltac:(lia)).
      assert ((s * 2 ^ 1) mod 2 ^ 16 mod 2 = 0) by (Z.div_mod_to_equations; lia).
      Z.div_mod_to_equations. lia.
    - change 1 with (Z.ones 1) at 2. rewrite Z.land_ones by lia. Z.div_mod_to_equations. lia. }
  rewrite E. destruct (Z.testbit s 15); [done|by rewrite Z.lxor_0_r].
Qed.

Definition aregs (s : Z) (bs : list bool) : Z := foldl areg s bs.

Lemma crc_byte_aregs b s : crc_byte 9 b 0x80 s = aregs s (bitsof b 7 8).
Proof.
  change 0x80 with (2 ^ 7). unfold aregs. cbn [bitsof foldl]. rewrite <- !crc_bit_areg by lia. reflexivity.
Qed.

Definition bits (p : gostr) : list bool := concat ((fun c => bitsof c 7 8) <$> p).

Lemma crc16Sum_aregs p : crc16Sum p = aregs 0xffff (bits p).
Proof.
  unfold crc16Sum, bits. generalize 0xffff. induction p as [|c p IH]; intros s; [done|].
  cbn [foldl fmap list_fmap concat]. unfold aregs. rewrite foldl_app, crc_byte_aregs. apply IH.
Qed.

(** The parity of the register is that of the bits it has seen: the polynomial
    with its leading term has an even number of terms. *)
Definition parity (bs : list bool) : bool := foldr xorb false bs.
Definition parity16 (s : Z) : bool := parity (Z.testbit s <$> seqZ 0 16).

Lemma parity_app l k : parity (l ++ k) = xorb (parity l) (parity k).
Proof.
  induction l as [|b l IH]; cbn [app parity foldr]; [by rewrite xorb_false_l|].
  fold (parity (l ++ k)) (parity l). by rewrite IH, xorb_assoc.
Qed.

Lemma parity16_lxor a b : parity16 (Z.lxor a b) = xorb (parity16 a) (parity16 b).
Proof.
  unfold parity16. induction (seqZ 0 16) as [|i l IH]; [done|]. cbn [fmap list_fmap parity foldr] in *.
  unfold parity in IH. rewrite IH, Z.lxor_spec. btauto.
Qed.

Lemma parity16_shift s : parity16 (u16 (Z.shiftl s 1)) = xorb (parity16 s) (Z.testbit s 15).
Proof.
  assert (E : forall i, 0 <= i < 15 -> Z.testbit (u16 (Z.shiftl s 1)) (i + 1) = Z.testbit s i).
  { intros i Hi. unfold u16. rewrite Z.mod_pow2_bits_low, Z.shiftl_spec by lia. f_equal. lia. }
  assert (E0 : Z.testbit (u16 (Z.shiftl s 1)) 0 = false).
  { unfold u16. rewrite Z.mod_pow2_bits_low, Z.shiftl_spec by lia. by apply Z.testbit_neg_r. }
  unfold parity16. change (seqZ 0 16) with (seqZ 0 15 ++ [15]) at 2. rewrite fmap_app, parity_app.
  change (seqZ 0 16) with (0 :: ((fun i => i + 1) <$> seqZ 0 15)). rewrite fmap_cons, E0, <- list_fmap_compose.
  replace ((Z.testbit (u16 (Z.shiftl s 1)) ∘ (fun i => i + 1)) <$> seqZ 0 15) with (Z.testbit s <$> seqZ 0 15).
  - cbn [parity foldr fmap list_fmap]. fold (parity (Z.testbit s <$> seqZ 0 15)). btauto.
  - apply list_fmap_ext. intros k i Hi. apply lookup_seqZ in Hi. cbn. symmetry. apply E. lia.
Qed.

Lemma areg_parity s b : parity16 (areg s b) = xorb (parity16 s) b.
Proof.
  unfold areg. rewrite !parity16_lxor, parity16_shift.
  replace (parity16 (Z.b2z b)) with b by (by destruct b).
  replace (parity16 (if Z.testbit s 15 then polynomial else 0)) with (Z.testbit s 15) by (by destruct (Z.testbit s 15)).
  btauto.
Qed.

Lemma aregs_parity s bs : parity16 (aregs s bs) = xorb (parity16 s) (parity bs).
Proof.
  revert s. induction bs as [|b bs IH]; intros s; cbn [aregs foldl parity foldr]; [by rewrite xorb_false_r|].
  fold (aregs (areg s b) bs) (parity bs). rewrite IH, areg_parity. by rewrite xorb_assoc.
Qed.

(** Every error that flips an odd number of bits of a frame changes its
    checksum. *)
Theorem crc16_detects_odd (p q : gostr) :
  parity (bits p) <> parity (bits q) -> crc16Sum p <> crc16Sum q.
Proof.
  intros Hne E. apply Hne. rewrite !crc16Sum_aregs in E. apply (f_equal parity16) in E.
  rewrite !aregs_parity in E. by destruct (parity (bits p)), (parity (bits q)), (parity16 0xffff).
Qed.

Lemma crc16_detects_odd_witness :
  parity (bits [1; 2]) <> parity (bits [1; 3]) /\ crc16Sum [1; 2] <> crc16Sum [1; 3].
Proof. assert (H : parity (bits [1; 2]) <> parity (bits [1; 3])) by done. split; [exact H|]. exact (crc16_detects_odd _ _ H). Defined.

(** *** The burst the checksum does not see

    The constant term of the polynomial is zero, so the register forgets. *)
Lemma areg_lxor s t a b : areg (Z.lxor s t) (xorb a b) = Z.lxor (areg s a) (areg t b).
Proof.
  unfold areg. rewrite Z.shiftl_lxor, u16_lxor, Z.lxor_spec.
  rewrite (lxor4 (Z.lxor (u16 (Z.shiftl s 1)) (Z.b2z a))), (lxor4 (u16 (Z.shiftl s 1))).
  f_equal; [f_equal; by destruct a, b|by destruct (Z.testbit s 15), (Z.testbit t 15)].
Qed.

Lemma aregs_lxor s t a b : length a = length b ->
  aregs (Z.lxor s t) (zip_with xorb a b) = Z.lxor (aregs s a) (aregs t b).
Proof.
  revert s t b. induction a as [|x a IH]; intros s t [|y b] H; try discriminate; [done|].
  cbn [zip_with aregs foldl]. rewrite areg_lxor. apply IH. cbn in H. lia.
Qed.

Lemma bitsof_lxor a b n hi : bitsof (Z.lxor a b) hi n = zip_with xorb (bitsof a hi n) (bitsof b hi n).
Proof. revert hi. induction n as [|n IH]; intros hi; cbn; [done|]. by rewrite IH, Z.lxor_spec. Qed.

Lemma aregs_app s x y : aregs s (x ++ y) = aregs (aregs s x) y.
Proof. apply foldl_app. Qed.

Lemma bits_app p q : bits (p ++ q) = bits p ++ bits q.
Proof. unfold bits. by rewrite fmap_app, concat_app. Qed.

Lemma bits_three a b c : bits [a; b; c] = bitsof a 7 8 ++ bitsof b 7 8 ++ bitsof c 7 8.
Proof. reflexivity. Qed.

Lemma aregs_blind s a b c :
  aregs s (bitsof (Z.lxor a 0x18) 7 8 ++ bitsof (Z.lxor b 0x81) 7 8 ++ bitsof c 7 8)
  = aregs s (bitsof a 7 8 ++ bitsof b 7 8 ++ bitsof c 7 8).
Proof.
  pose proof (aregs_lxor s 0 (bitsof a 7 8 ++ bitsof b 7 8 ++ bitsof c 7 8)
    (bitsof 0x18 7 8 ++ bitsof 0x81 7 8 ++ bitsof 0 7 8) eq_refl) as H.
  assert (Z0 : aregs 0 (bitsof 0x18 7 8 ++ bitsof 0x81 7 8 ++ bitsof 0 7 8) = 0) by (vm_compute; reflexivity).
  rewrite Z0, (Z.lxor_0_r (aregs s _)), (Z.lxor_0_r s) in H. clear Z0. rewrite <- H. f_equal.
  rewrite (zip_with_app _ (bitsof a 7 8)), (zip_with_app _ (bitsof b 7 8)), <- !bitsof_lxor by done.
  by rewrite (Z.lxor_0_r c).
Qed.

(** A burst of 13 bits within two bytes that are not the last ones is never
    seen; a checksum with the polynomial 0x1021 sees every burst of up to 16
    bits. *)
Theorem crc16_blind_burst (p q : gostr) (a b c : Z) :
  crc16Sum (p ++ Z.lxor a 0x18 :: Z.lxor b 0x81 :: c :: q) = crc16Sum (p ++ a :: b :: c :: q).
Proof.
  change (Z.lxor a 0x18 :: ?x :: c :: q) with ([Z.lxor a 0x18; x; c] ++ q).
  change (a :: b :: c :: q) with ([a; b; c] ++ q).
  by rewrite !crc16Sum_aregs, !bits_app, !aregs_app, !bits_three, aregs_blind.
Qed.

(** ** Frames on the wire *)

Lemma areg_word s b : word16 (areg s b).
Proof.
  unfold areg. apply word16_lxor; [apply word16_lxor|]; [apply word16_u16|destruct b; unfold word16; cbn; lia|].
  destruct (Z.testbit s 15); unfold word16, polynomial; lia.
Qed.

Lemma crc16Sum_word p : word16 (crc16Sum p).
Proof.
  rewrite crc16Sum_aregs. generalize (bits p). intros bs. unfold aregs.
  assert (H : word16 0xffff) by (unfold word16; lia). revert H. generalize 0xffff.
  induction bs as [|b bs IH]; intros s Hs; cbn [foldl]; [done|]. apply IH, areg_word.
Qed.

Lemma Uint16_Put n : Uint16 (PutUint16 n) = n.
Proof.
  unfold Uint16, PutUint16. change (get [n / 256; n mod 256] 0) with (n / 256).
  change (get [n / 256; n mod 256] 1) with (n mod 256). pose proof (Z.div_mod n 256 ltac:(lia)). lia.
Qed.

(** The bytes the checksum of a frame is taken of. *)
Definition frame_body (f : frame) : gostr :=
  match f with
  | cmdFrame line => line ++ [13]
  | dFrame dataType data => PutUint16 (zlen dataType + zlen data) ++ dataType ++ data
  end.

Definition frame_letter (f : frame) : Z := match f with cmdFrame _ => 99 | dFrame _ _ => 100 end.

(** A frame as a modem on a serial line sends it. *)
Definition serial_frame (f : frame) : gostr :=
  [frame_letter f; 58] ++ frame_body f ++ PutUint16 (crc16Sum (frame_body f)).

(** A frame that can be sent: no CR in a command, three letters of type, a
    length that fits. *)
Definition wf_frame (f : frame) : Prop :=
  match f with
  | cmdFrame line => 13 ∉ line
  | dFrame dataType data => length dataType = 3%nat /\ zlen data <= 65530
  end.

(** The host's commands have the same frame, with the letter in upper case. *)
Lemma writeCtrlFrame_serial `{Fmt} line : 37 ∉ line ->
  writeCtrlFrame false line = 67 :: tl (serial_frame (cmdFrame line)) /\ writeCtrlFrame true line = frame_body (cmdFrame line).
Proof.
  intros Hl. unfold writeCtrlFrame. rewrite Sprintf_plain by (rewrite not_elem_of_app; split; [done|by apply not_elem_existsb]).
  cbn [frame_body app]. by rewrite app_nil_r.
Qed.

(** The checksum is taken as sent unless a piece of the stream ends within it. *)
Definition sum_lost (data : gostr) (cut : bool) : bool := cut && negb (crc16Sum data mod 256 =? 0).

(** Bytes of the checksum that are read. *)
Definition sum_read (isTCP cut : bool) : nat := if isTCP then 0 else if cut then 1 else 2.

Lemma check_sum_spec (isTCP : bool) data rd rest :
  concat rd = (if isTCP then [] else PutUint16 (crc16Sum data)) ++ rest ->
  exists rd', check_sum isTCP data rd = (isTCP || negb (sum_lost data (cut_at 1 rd)), rd')
    /\ consumed (sum_read isTCP (cut_at 1 rd)) rd rd'.
Proof.
  unfold check_sum, sum_read. destruct isTCP; [intros _; exists rd; split; [done|apply consumed_0]|].
  intros E. cbn [app] in E. destruct (Read_two rd _ _ _ E) as (rd' & -> & H). exists rd'. split; [|done].
  f_equal. cbn [orb]. unfold sum_lost. destruct (cut_at 1 rd); cbn [andb negb].
  - rewrite negb_involutive. unfold Uint16. change (get [?x] 0) with x. change (get [?x] 1) with 0.
    pose proof (Z.div_mod (crc16Sum data) 256 ltac:(lia)).
    destruct (Z.eqb_spec (crc16Sum data mod 256) 0), (Z.eqb_spec (crc16Sum data) (crc16Sum data / 256 * 256 + 0)); lia || done.
  - change [crc16Sum data / 256; crc16Sum data mod 256] with (PutUint16 (crc16Sum data)).
    rewrite Uint16_Put. by apply Z.eqb_refl.
Qed.

(** The cut that matters for a frame whose body starts after [k] bytes. *)
Definition cut_sum (k : nat) (f : frame) (rd : rdr) : bool := cut_at (k + length (frame_body f) + 1) rd.

Lemma slice_init {A} (l : list A) x : slice (l ++ [x]) 0 (zlen (l ++ [x]) - 1) = Ok l.
Proof.
  rewrite slice_ok; rewrite zlen_app; change (zlen [x]) with 1; pose proof (zlen_nonneg l); [|lia..].
  rewrite drop_0. replace (Z.to_nat (zlen l + 1 - 1)) with (length l) by (unfold zlen; lia). by rewrite take_app_length.
Qed.

Lemma gather_consumed n m rd rd' : (m <= n)%nat -> consumed n (gather [] m rd) rd' -> consumed n rd rd'.
Proof.
  intros Hm (H1 & H2 & H3). rewrite gather_concat in *. split_and!; [done..|].
  intros k Hk. rewrite H3, gather_cut by lia. apply cut_nil. lia.
Qed.

(** A data frame is taken apart the way it was put together. *)
Lemma body_parts t d : length t = 3%nat ->
  let body := frame_body (dFrame t d) in slice body 2 5 = Ok t /\ slice body 5 (zlen body) = Ok d.
Proof.
  intros Ht. destruct t as [|a [|b [|c [|]]]]; try done. cbn [frame_body app PutUint16].
  rewrite !slice_ok; rewrite ?zlen_cons; pose proof (zlen_nonneg d); [|lia..].
  split; [done|]. f_equal. replace (Z.to_nat (1 + (1 + (1 + (1 + (1 + zlen d)))))) with (5 + length d)%nat by (unfold zlen; lia).
  cbn. by rewrite firstn_all.
Qed.

Lemma read_data_body t d rd rest : wf_frame (dFrame t d) -> concat rd = frame_body (dFrame t d) ++ rest ->
  let n := length (frame_body (dFrame t d)) in
  exists rd1, Peek 2 rd = (Some (PutUint16 (zlen t + zlen d)), gather [] 2 rd)
    /\ Z.to_nat (u16 (Uint16 (PutUint16 (zlen t + zlen d)) + 2)) = n
    /\ Read_loop n n (gather [] 2 rd) = (frame_body (dFrame t d), rd1) /\ consumed n rd rd1.
Proof.
  intros [Ht Hd] E n. assert (Hn : n = (2 + length t + length d)%nat).
  { unfold n. cbn [frame_body]. rewrite !length_app. cbn. lia. }
  destruct (Read_loop_consumed n n (gather [] 2 rd)) as (rd1 & H1 & H2); [lia| |].
  { rewrite gather_concat. cbn [app]. rewrite E, length_app. fold n. lia. }
  exists rd1. split_and!.
  - rewrite Peek_concat, E. destruct (Nat.ltb_spec (length (frame_body (dFrame t d) ++ rest)) 2) as [H|_]; [|done].
    rewrite length_app in H. fold n in H. lia.
  - rewrite Uint16_Put. unfold u16. rewrite Z.mod_small; unfold zlen in *; lia.
  - rewrite H1, gather_concat. cbn [app]. rewrite E. unfold n. by rewrite take_app_length.
  - apply (gather_consumed n 2); [lia|done].
Qed.

Lemma read_body fuel f rd rest (isTCP : bool) : wf_frame f ->
  concat rd = frame_body f ++ (if isTCP then [] else PutUint16 (crc16Sum (frame_body f))) ++ rest ->
  exists rd', readFrameOfType (S fuel) (frame_letter f) rd isTCP
      = Ok (if isTCP || negb (sum_lost (frame_body f) (cut_sum 0 f rd)) then inr f else inl ErrChecksumMismatch, rd')
    /\ consumed (length (frame_body f) + sum_read isTCP (cut_sum 0 f rd)) rd rd'.
Proof.
  intros Hf E. unfold cut_sum. cbn [Nat.add]. destruct f as [t d|l]; cbn [frame_letter readFrameOfType Z.eqb Pos.eqb].
  - destruct (read_data_body t d rd _ Hf E) as (rd1 & -> & -> & -> & C1).
    rewrite Nat.sub_diag. cbn [replicate]. rewrite app_nil_r.
    destruct (check_sum_spec isTCP (frame_body (dFrame t d)) rd1 rest) as (rd2 & -> & C2).
    { destruct C1 as (_ & -> & _). by rewrite E, drop_app_length. }
    pose proof C1 as (_ & _ & C). rewrite (C 1%nat) in * by lia.
    exists rd2. pose proof (consumed_trans _ _ _ _ _ C1 C2). destruct Hf as [Ht _], (body_parts t d Ht) as [S1 S2].
    destruct (isTCP || negb _); [|done]. by rewrite S1, bind_Ok, S2, bind_Ok.
  - cbn [frame_body] in *. rewrite <- app_assoc in E.
    destruct (ReadBytes_consumed 13 rd l _ E Hf) as (rd1 & -> & C1).
    destruct (check_sum_spec isTCP (l ++ [13]) rd1 rest) as (rd2 & -> & C2).
    { destruct C1 as (_ & -> & _). rewrite E. change (l ++ [13] ++ ?x) with (l ++ [13] ++ x).
      rewrite app_assoc. replace (S (length l)) with (length (l ++ [13%Z])) by (rewrite length_app; cbn; lia).
      by rewrite drop_app_length. }
    pose proof C1 as (_ & _ & C). rewrite (C 1%nat) in * by lia.
    replace (length (l ++ [13%Z]) + 1)%nat with (S (length l) + 1)%nat by (rewrite length_app; cbn; lia).
    exists rd2. destruct (isTCP || negb _).
    + rewrite slice_init, bind_Ok. split; [done|]. rewrite length_app, Nat.add_1_r. by apply (consumed_trans _ _ _ rd1).
    + split; [done|]. rewrite length_app, Nat.add_1_r. by apply (consumed_trans _ _ _ rd1).
Qed.

Lemma read_serial fuel f rd rest : wf_frame f -> concat rd = serial_frame f ++ rest ->
  exists rd', readFrameOfType (S (S fuel)) 42 rd false
      = Ok (if negb (sum_lost (frame_body f) (cut_sum 2 f rd)) then inr f else inl ErrChecksumMismatch, rd')
    /\ consumed (2 + (length (frame_body f) + sum_read false (cut_sum 2 f rd))) rd rd'.
Proof.
  intros Hf E. unfold serial_frame in E. cbn [app] in E.
  destruct (ReadByte_consumed rd _ _ E) as (rd1 & E1 & C1). pose proof C1 as (_ & X1 & _). rewrite E in X1. cbn [drop] in X1.
  destruct (ReadByte_consumed rd1 _ _ X1) as (rd2 & E2 & C2). pose proof C2 as (_ & X2 & _). rewrite X1 in X2. cbn [drop] in X2.
  rewrite <- app_assoc in X2. destruct (read_body fuel f rd2 rest false Hf X2) as (rd3 & E3 & C3).
  change (readFrameOfType (S (S fuel)) 42 rd false) with
    (match ReadByte rd with
     | (None, rd) => Ok (inl io_EOF, rd)
     | (Some fType, rd) => readFrameOfType (S fuel) fType (ReadByte rd).2 false
     end).
  rewrite E1, E2. cbn [snd]. rewrite E3. pose proof (consumed_trans _ _ _ _ _ C1 C2) as C12.
  assert (Hc : cut_sum 0 f rd2 = cut_sum 2 f rd).
  { unfold cut_sum. destruct C12 as (_ & _ & C). rewrite C by lia. f_equal. }
  rewrite Hc in *. exists rd3. split; [done|]. by apply (consumed_trans 2 _ _ rd2).
Qed.

(** A stream of frames, and no piece of it ends within a checksum. *)
Definition wire (isTCP : bool) (f : frame) : gostr := if isTCP then frame_body f else serial_frame f.

Fixpoint uncut (k : nat) (fs : list frame) (rd : rdr) : Prop :=
  match fs with
  | [] => True
  | f :: fs => cut_sum (k + 2) f rd = false /\ uncut (k + length (serial_frame f)) fs rd
  end.

Lemma uncut_consumed n k fs rd rd' : consumed n rd rd' -> uncut (n + k) fs rd -> uncut k fs rd'.
Proof.
  intros C. revert k. induction fs as [|f fs IH]; intros k; [done|]. intros [H1 H2]. split.
  - unfold cut_sum in *. destruct C as (_ & _ & ->); [|lia]. rewrite <- H1. f_equal. lia.
  - apply IH. by rewrite Nat.add_assoc.
Qed.

Lemma length_serial f : length (serial_frame f) = (2 + (length (frame_body f) + 2))%nat.
Proof. unfold serial_frame. rewrite !length_app. done. Qed.

Lemma read_eof fuel k rd isTCP : concat rd = [] -> k = 42 \/ k = 99 \/ k = 100 ->
  exists rd', readFrameOfType (S fuel) k rd isTCP = Ok (inl io_EOF, rd').
Proof.
  intros E [->|[->| ->]]; cbn [readFrameOfType Z.eqb Pos.eqb].
  - pose proof (ReadByte_concat rd) as H. rewrite E in H. destruct (ReadByte rd) as [[?|] rd']; [done|by exists rd'].
  - pose proof (ReadBytes_split 13 rd) as H. destruct (ReadBytes 13 rd) as [[l [|]] rd']; [|by exists rd'].
    destruct H as (H & m & -> & _). rewrite E in H. by destruct m.
  - rewrite Peek_concat, E. by eexists.
Qed.

Lemma decode_frames fuel (isTCP : bool) k fs rd :
  Forall wf_frame fs -> (if isTCP then Forall (fun f => frame_letter f = k) fs /\ (k = 99 \/ k = 100)
                         else k = 42 /\ uncut 0 fs rd) ->
  concat rd = concat (wire isTCP <$> fs) -> (length fs < fuel)%nat ->
  decode_fuel fuel k rd isTCP = Ok ((inr <$> fs) ++ [inl io_EOF]).
Proof.
  intros Hf. revert fuel rd. induction Hf as [|f fs Hf Hfs IH]; intros fuel rd Hk E Hn;
    (destruct fuel as [|fuel]; [cbn in Hn; lia|]); cbn [decode_fuel fmap list_fmap app].
  - unfold frame_fuel. destruct (read_eof (length (concat rd)) k rd isTCP) as (rd' & ->); [done| |done].
    destruct isTCP; [tauto|]. left. apply Hk.
  - cbn [fmap list_fmap concat wire] in E. unfold frame_fuel.
    assert (Hr : exists rd', readFrameOfType (S (length (concat rd))) k rd isTCP = Ok (inr f, rd')
       /\ consumed (length (wire isTCP f)) rd rd').
    { destruct isTCP; cbn [wire] in *.
      - destruct Hk as [Hk _]. apply Forall_cons_1 in Hk as [<- _].
        destruct (read_body (length (concat rd)) f rd _ true Hf E) as (rd' & E' & C).
        exists rd'. split; [done|]. cbn [sum_read] in C. by rewrite Nat.add_0_r in C.
      - destruct Hk as [-> [Hc _]]. cbn [Nat.add] in Hc.
        destruct (length (concat rd)) as [|m] eqn:Hl; [by rewrite E in Hl|].
        destruct (read_serial m f rd _ Hf E) as (rd' & E' & C). rewrite Hc in *. exists rd'. split; [done|].
        by rewrite length_serial. }
    destruct Hr as (rd' & -> & C). rewrite bind_Ok. rewrite (IH fuel rd'); [done| | |cbn in Hn; lia].
    + destruct isTCP; [destruct Hk as [Hk ?]; by apply Forall_cons_1 in Hk as [_ Hk]|].
      destruct Hk as [-> [_ Hu]]. split; [done|]. apply (uncut_consumed (length (serial_frame f))) with (rd := rd); [done|].
      by rewrite Nat.add_0_r.
    + destruct C as (_ & -> & _). by rewrite E, drop_app_length.
Qed.

(** C11. What a modem sends is what the control loop gets: a stream of frames is
    decoded as these frames, in order, however it is cut into pieces, as long as
    no piece ends between the two bytes of a checksum; over TCP there is no
    checksum and nothing to cut. *)
Theorem ardop_stream_roundtrip (isTCP : bool) (k : Z) (fs : list frame) (rd : rdr) :
  Forall wf_frame fs ->
  (if isTCP then Forall (fun f => frame_letter f = k) fs /\ (k = 99 \/ k = 100) else k = 42 /\ uncut 0 fs rd) ->
  concat rd = concat (wire isTCP <$> fs) ->
  decodeTNCStream k rd isTCP = Ok ((inr <$> fs) ++ [inl io_EOF]).
Proof.
  intros Hf Hk E. apply decode_frames; [done..|]. rewrite E. clear. induction fs as [|f fs IH]; cbn [fmap list_fmap concat length]; [lia|].
  rewrite length_app. pose proof (length_serial f). destruct isTCP; cbn [wire] in *; [|lia].
  assert (0 < length (frame_body f))%nat by (destruct f; cbn; rewrite ?length_app; cbn; lia). lia.
Qed.

Definition sample_frames : list frame :=
  [cmdFrame (str "PTT true"); dFrame (str "ARQ") (str "hello"); cmdFrame (str "BUFFER 0")].

Lemma ardop_stream_roundtrip_witness :
  let rd := [take 20 (concat (serial_frame <$> sample_frames)); drop 20 (concat (serial_frame <$> sample_frames))] in
  decodeTNCStream 42 rd false = Ok ((inr <$> sample_frames) ++ [inl io_EOF]).
Proof.
  intros rd. apply (ardop_stream_roundtrip false 42 sample_frames rd).
  - repeat constructor; try (apply not_elem_existsb; vm_compute; reflexivity); vm_compute; discriminate.
  - split; [reflexivity|]. vm_compute. repeat split.
  - vm_compute. reflexivity.
Defined.

(** A checksum whose two bytes arrive in different pieces is taken for its first
    byte alone, and the good frame it belongs to is dropped. *)
Theorem split_checksum_drops (f : frame) (rd : rdr) (rest : gostr) :
  wf_frame f -> concat rd = serial_frame f ++ rest ->
  cut_sum 2 f rd = true -> crc16Sum (frame_body f) mod 256 <> 0 ->
  exists rd', readFrameOfType (frame_fuel rd) 42 rd false = Ok (inl ErrChecksumMismatch, rd').
Proof.
  intros Hf E Hc Hn. unfold frame_fuel. destruct (length (concat rd)) as [|m] eqn:Hl; [by rewrite E in Hl|].
  destruct (read_serial m f rd rest Hf E) as (rd' & -> & _). exists rd'. rewrite Hc. unfold sum_lost.
  by rewrite (proj2 (Z.eqb_neq _ _) Hn).
Qed.

Lemma split_checksum_drops_witness :
  let f := cmdFrame (str "PTT true") in
  exists rd', readFrameOfType 14 42 [take 12 (serial_frame f); drop 12 (serial_frame f)] false = Ok (inl ErrChecksumMismatch, rd').
Proof.
  intros f. apply (split_checksum_drops f [take 12 (serial_frame f); drop 12 (serial_frame f)] []).
  - apply not_elem_existsb. vm_compute. reflexivity.
  - vm_compute. reflexivity.
  - vm_compute. reflexivity.
  - vm_compute. discriminate.
Defined.

(** ** Any input *)
Lemma check_sum_shorter isTCP data rd ok rd' : check_sum isTCP data rd = (ok, rd') ->
  (length (concat rd') <= length (concat rd))%nat
  /\ (isTCP = false -> (0 < length (concat rd))%nat -> (length (concat rd') < length (concat rd))%nat).
Proof.
  unfold check_sum. destruct isTCP; [by intros [= _ <-]|]. pose proof (Read_some_concat 2 rd ltac:(lia)) as H.
  destruct (Read_some 2 rd) as [[d|] rd1]; intros [= _ <-].
  - destruct H as [-> H]. rewrite length_app. lia.
  - destruct H as [-> ->]. done.
Qed.

Definition progress (strict : bool) (rd : rdr) (r : res ((error + frame) * rdr)) : Prop :=
  match r with
  | NoFuel => False
  | Panic => True
  | Ok (x, rd') => x = inl io_EOF \/ (length (concat rd') + (if strict then 1 else 0) <= length (concat rd))%nat
  end.

Lemma progress_slice strict rd {A} (l : list A) a b k :
  (forall x, progress strict rd (k x)) -> progress strict rd (slice l a b ≫= k).
Proof. intros H. unfold slice. destruct (_ && _); [apply H|done]. Qed.

Lemma read_cmd_progress fuel rd isTCP : progress true rd (readFrameOfType (S fuel) 99 rd isTCP).
Proof.
  cbn [readFrameOfType Z.eqb Pos.eqb]. pose proof (ReadBytes_split 13 rd) as H.
  destruct (ReadBytes 13 rd) as [[l [|]] rd1]; [|by left].
  destruct H as (H & m & -> & _). destruct (check_sum isTCP _ rd1) as [ok rd2] eqn:E.
  apply check_sum_shorter in E as [E _].
  assert (length (concat rd2) + 1 <= length (concat rd))%nat by (rewrite H, !length_app; cbn [length]; lia).
  destruct ok; [apply progress_slice; intros|]; by right.
Qed.

Lemma read_data_progress fuel rd isTCP : progress true rd (readFrameOfType (S fuel) 100 rd isTCP).
Proof.
  cbn [readFrameOfType Z.eqb Pos.eqb]. rewrite Peek_concat.
  destruct (Nat.ltb_spec (length (concat rd)) 2) as [|H2]; [by left|].
  set (n := Z.to_nat _).
  destruct (Read_loop_concat n n (gather [] 2 rd) ltac:(lia)) as (rd1 & -> & E1).
  rewrite gather_concat in *. cbn [app] in *. set (data := _ ++ replicate _ _).
  assert (Hd : length data = n) by (unfold data; rewrite length_app, length_replicate; rewrite length_take; lia).
  destruct (check_sum isTCP data rd1) as [ok rd2] eqn:Ec. apply check_sum_shorter in Ec as E. destruct E as [E E'].
  rewrite E1, length_drop in *. destruct ok.
  - destruct (slice data 2 5) as [t| |] eqn:Hs; cbn [mbind res_bind]; [|done|unfold slice in Hs; by destruct (_ && _)].
    unfold slice in Hs. destruct (Z.leb_spec 5 (zlen data)) as [H5|]; [|discriminate].
    apply progress_slice. intros x. right. unfold zlen in H5. lia.
  - right. destruct isTCP; [discriminate|]. destruct (Nat.eq_dec n 0) as [Hz|]; [|lia].
    rewrite Hz in *. specialize (E' eq_refl ltac:(lia)). lia.
Qed.

Lemma read_progress fuel k rd isTCP : (length (concat rd) < fuel)%nat ->
  progress (existsb (Z.eqb k) [42; 99; 100]) rd (readFrameOfType fuel k rd isTCP).
Proof.
  revert k rd. induction fuel as [|fuel IH]; intros k rd Hf; [lia|].
  destruct (Z.eqb_spec k 42) as [->|N1]; [|destruct (Z.eqb_spec k 99) as [->|N2]; [apply read_cmd_progress|
    destruct (Z.eqb_spec k 100) as [->|N3]; [apply read_data_progress|]]].
  - change (readFrameOfType (S fuel) 42 rd isTCP) with
      (match ReadByte rd with
       | (None, rd) => Ok (inl io_EOF, rd)
       | (Some fType, rd) => readFrameOfType fuel fType (ReadByte rd).2 isTCP
       end).
    pose proof (ReadByte_concat rd) as H1. destruct (ReadByte rd) as [[t|] rd1]; [|by left].
    assert (H2 : (length (concat (ReadByte rd1).2) <= length (concat rd1))%nat).
    { pose proof (ReadByte_concat rd1) as H. destruct (ReadByte rd1) as [[c|] rd2]; cbn [snd].
      - rewrite H. cbn. lia.
      - by destruct H as [-> ->]. }
    rewrite H1 in Hf. cbn [length] in Hf. specialize (IH t (ReadByte rd1).2 ltac:(lia)).
    unfold progress in *. destruct (readFrameOfType fuel t _ isTCP) as [[x rd']| |]; [|done..].
    destruct IH as [->|IH]; [by left|right]. rewrite H1. cbn [length].
    change (existsb (Z.eqb 42) [42; 99; 100]) with true. destruct (existsb (Z.eqb t) _); lia.
  - apply Z.eqb_neq in N1, N2, N3. cbn [readFrameOfType existsb]. rewrite N1, N2, N3. right. cbn. lia.
Qed.

Lemma decode_total fuel k rd isTCP : existsb (Z.eqb k) [42; 99; 100] = true -> (length (concat rd) < fuel)%nat ->
  decode_fuel fuel k rd isTCP <> NoFuel.
Proof.
  intros Hk. revert rd. induction fuel as [|fuel IH]; intros rd Hf; [lia|]. cbn [decode_fuel].
  pose proof (read_progress (frame_fuel rd) k rd isTCP ltac:(unfold frame_fuel; lia)) as H. rewrite Hk in H.
  destruct (readFrameOfType _ k rd isTCP) as [[x rd']| |]; cbn [progress mbind res_bind] in *; [|done..].
  destruct H as [->|H]; [done|].
  specialize (IH rd' ltac:(lia)).
  destruct x as [[]|]; try done; by destruct (decode_fuel fuel k rd' isTCP).
Qed.

(** The decoding goroutine ends when the stream does, whatever the bytes are: it
    reports io.EOF, or panics on a data frame too short to hold a type. *)
Theorem decode_terminates (k : Z) (rd : rdr) (isTCP : bool) :
  k = 42 \/ k = 99 \/ k = 100 -> decodeTNCStream k rd isTCP <> NoFuel.
Proof. intros Hk. apply decode_total; [|lia]. by destruct Hk as [->|[->| ->]]. Qed.

(** A connection that ends within a data frame: the frame is delivered with
    zeros in the place of the bytes that never came. *)
Theorem truncated_data_padded (t d : gostr) (n : nat) :
  length t = 3%nat -> zlen d + Z.of_nat n <= 65530 ->
  exists rd', readFrameOfType 1 100 [PutUint16 (3 + zlen d + Z.of_nat n) ++ t ++ d] true
    = Ok (inr (dFrame t (d ++ replicate n 0)), rd').
Proof.
  intros Ht Hn. cbn [readFrameOfType Z.eqb Pos.eqb]. rewrite Peek_concat. cbn [concat app]. rewrite app_nil_r.
  set (s := PutUint16 _ ++ t ++ d).
  assert (Hl : length s = (5 + length d)%nat) by (unfold s; rewrite !length_app, Ht; done).
  destruct (Nat.ltb_spec (length s) 2); [lia|].
  change (take 2 s) with (PutUint16 (3 + zlen d + Z.of_nat n)). rewrite Uint16_Put.
  assert (Hk : Z.to_nat (u16 (3 + zlen d + Z.of_nat n + 2)) = (length s + n)%nat).
  { rewrite Hl. unfold u16, zlen in *. rewrite Z.mod_small; lia. }
  rewrite Hk. destruct (Read_loop_concat (length s + n) (length s + n) (gather [] 2 [s]) ltac:(lia)) as (rd1 & -> & _).
  rewrite gather_concat. cbn [concat app]. rewrite app_nil_r, take_ge by lia.
  replace (length s + n - length s)%nat with n by lia. unfold check_sum.
  assert (Hb : s ++ replicate n 0 = frame_body (dFrame t (d ++ replicate n 0))).
  { unfold s. cbn [frame_body]. rewrite <- !app_assoc. do 2 f_equal. unfold zlen. rewrite length_app, length_replicate, Ht. lia. }
  rewrite Hb. destruct (body_parts t (d ++ replicate n 0) Ht) as [-> ->]. by exists rd1.
Qed.

Lemma truncated_data_padded_witness :
  exists rd', readFrameOfType 1 100 [PutUint16 (3 + zlen (str "ab") + Z.of_nat 2) ++ str "ARQ" ++ str "ab"] true
    = Ok (inr (dFrame (str "ARQ") (str "ab" ++ replicate 2 0)), rd').
Proof. apply (truncated_data_padded (str "ARQ") (str "ab") 2); [reflexivity|vm_compute; discriminate]. Defined.

(** ** The types of messages *)
Inductive kind := KNil | KBool | KState | KString | KList | KInt.

Definition value_kind (v : value) : kind :=
  match v with
  | VNil => KNil | VBool _ => KBool | VState _ => KState | VString _ => KString | VList _ => KList | VInt _ => KInt
  end.

(** The type of the parameter of each command, by its name. *)
Definition cmd_kinds : list (list gostr * kind) :=
  [(str <$> ["CODEC"; "PTT"; "BUSY"; "TWOTONETEST"; "CWID"; "LISTEN"; "AUTOBREAK"; "FSKONLY"]%string, KBool);
   (str <$> ["INPUTPEAKS"; "ABORT"; "DISCONNECT"; "CLOSE"; "DISCONNECTED"; "CRCFAULT"; "PENDING"; "CANCELPENDING";
             "SENDID"; "INITIALIZE"; "ARQCALL"; "PROTOCOLMODE"]%string, KNil);
   (str <$> ["NEWSTATE"; "STATE"]%string, KState);
   (str <$> ["FAULT"; "MYCALL"; "GRIDSQUARE"; "CAPTURE"; "PLAYBACK"; "VERSION"; "TARGET"; "STATUS"; "ARQBW"]%string, KString);
   ([str "CONNECTED"], KList);
   (str <$> ["CATPUREDEVICES"; "PLAYBACKDEVICES"; "MYAUX"]%string, KList);
   (str <$> ["DRIVELEVEL"; "BUFFER"; "ARQTIMEOUT"; "FREQUENCY"]%string, KInt)].

(** The switch of the parser goes by the same names. *)
Lemma cmd_kinds_cases : cmd_kinds = [(bool_cmds, KBool); (bare_cmds, KNil); (state_cmds, KState); (string_cmds, KString);
  ([cmdConnected], KList); (comma_cmds, KList); (int_cmds, KInt)].
Proof. reflexivity. Qed.

Definition cmd_kind (c : gostr) : kind :=
  match List.find (fun e => one_of c e.1) cmd_kinds with Some e => e.2 | None => KNil end.

(** The first word of a line, and whether there is another one. *)
Definition first_word (s : gostr) : gostr := hd [] (Split2 32 (TrimSpace s)).
Definition has_param (s : gostr) : bool := existsb (Z.eqb 32) (TrimSpace s).

Lemma Split2_cases sep s :
  if existsb (Z.eqb sep) s then exists p q, Split2 sep s = [p; q] else exists p, Split2 sep s = [p].
Proof.
  induction s as [|c s IH]; cbn [existsb Split2]; [by eexists|]. rewrite (Z.eqb_sym sep c).
  destruct (c =? sep); cbn [orb]; [by eexists _, _|].
  destruct (existsb _ s); [destruct IH as (p & q & ->)|destruct IH as (p & ->)]; eauto.
Qed.

Lemma ToLower_prefix p s : HasPrefix (ToLower p) s = true -> (length s <= length p)%nat.
Proof.
  unfold HasPrefix. intros H. apply bool_decide_eq_true_1 in H. rewrite <- H, length_take. unfold ToLower.
  rewrite length_fmap. lia.
Qed.

Lemma parseList_cons s sep : VList (parseList s sep) <> VList [].
Proof. unfold parseList. destruct (Split_cons sep s) as (p & ps & ->). done. Qed.

Ltac typed_case := cbn; split_and!; auto using parseList_cons; try discriminate; apply parseList_cons.

Lemma parse_typed (s : gostr) :
  let c := ToUpper (first_word s) in
  match parseCtrlMsg s with
  | Ok m => m.(cmd) = c /\ value_kind m.(val) = cmd_kind c /\ m.(val) <> VList []
            /\ (cmd_kind c = KNil \/ has_param s = true)
  | Panic => cmd_kind c <> KNil /\ has_param s = false
  | NoFuel => False
  end.
Proof.
  intros c. unfold parseCtrlMsg, has_param. subst c. unfold first_word.
  pose proof (Split2_cases 32 (TrimSpace s)) as H.
  destruct (existsb (Z.eqb 32) (TrimSpace s)); [destruct H as (p & q & ->)|destruct H as (p & ->)];
    cbn [hd].
  - change (idx [p; q] 0) with (Ok p). rewrite bind_Ok. set (c := ToUpper p). set (echo := _ && _).
    assert (Hp : exists q', (if echo then slice q 4 (zlen q) else mret q) = Ok q').
    { destruct echo eqn:E; [|by eexists]. subst echo. apply andb_prop in E as [_ E]. apply ToLower_prefix in E.
      rewrite slice_ok; [by eexists|change (length (str "now ")) with 4%nat in E; unfold zlen; lia|lia]. }
    destruct Hp as (q' & Hq).
    change (idx [p; q] 1) with (Ok q). rewrite !bind_Ok, Hq. unfold cmd_kind. rewrite cmd_kinds_cases. cbn [List.find fst].
    destruct (one_of c bool_cmds); [typed_case|]. destruct (one_of c bare_cmds); [typed_case|].
    destruct (one_of c state_cmds); [typed_case|]. destruct (one_of c string_cmds); [typed_case|].
    change (one_of c [cmdConnected]) with (streq c cmdConnected || false). rewrite orb_false_r.
    destruct (streq c cmdConnected); [typed_case|]. destruct (one_of c comma_cmds); [typed_case|].
    destruct (one_of c int_cmds); typed_case.
  - change (idx [p] 0) with (Ok p). rewrite bind_Ok. set (c := ToUpper p). change (idx [p] 1) with (@Panic gostr). cbn [mbind res_bind].
    unfold cmd_kind. rewrite cmd_kinds_cases. cbn [List.find fst].
    destruct (one_of c bool_cmds); [by cbn|]. destruct (one_of c bare_cmds); [typed_case|].
    destruct (one_of c state_cmds); [by cbn|]. destruct (one_of c string_cmds); [by cbn|].
    change (one_of c [cmdConnected]) with (streq c cmdConnected || false). rewrite orb_false_r.
    destruct (streq c cmdConnected); [by cbn|]. destruct (one_of c comma_cmds); [by cbn|].
    destruct (one_of c int_cmds); [by cbn|]. typed_case.
Qed.

(** The type assertions on a message of these names, in the control loop
    ([tnc.go]), the listener, the broadcaster and the calls that wait for a reply,
    succeed. *)
Record assertions_hold (m : ctrlMsg) : Prop := {
  ah_bool : In m.(cmd) (str <$> ["PTT"; "BUSY"]%string) -> exists b, msg_Bool m = Ok b;
  ah_int : m.(cmd) = str "BUFFER" -> exists n, msg_Int m = Ok n;
  ah_state : m.(cmd) = str "NEWSTATE" -> exists st, msg_State m = Ok st;
  ah_list : m.(cmd) = str "CONNECTED" -> exists c cs, msg_List m = Ok (c :: cs);
  ah_string : In m.(cmd) (str <$> ["FAULT"; "TARGET"]%string) -> exists t, msg_String m = Ok t }.

Lemma kind_assertions m : value_kind m.(val) = cmd_kind m.(cmd) -> m.(val) <> VList [] -> assertions_hold m.
Proof.
  intros Hk Hl. destruct m as [c v]. cbn in *. split; cbn [cmd].
  - intros [<-|[<-|[]]]; (destruct v; try discriminate Hk; by eexists).
  - intros ->. destruct v; try discriminate Hk; by eexists.
  - intros ->. destruct v; try discriminate Hk; by eexists.
  - intros ->. destruct v as [| | | |[|x l]|]; try discriminate Hk; [done|by eexists _, _].
  - intros [<-|[<-|[]]]; (destruct v; try discriminate Hk; by eexists).
Qed.

(** C27. A command line is parsed to a message for the first word in upper case
    whose value has the type the command has by the table [cmd_kinds] of names, a
    list with at least one entry; so no type assertion on PTT, BUSY, BUFFER, NEWSTATE,
    CONNECTED, FAULT or TARGET fails.  It panics exactly when the command needs a
    parameter and there is none. *)
Theorem parsed_message_typed (s : gostr) :
  let c := ToUpper (first_word s) in
  match parseCtrlMsg s with
  | Ok m => m.(cmd) = c /\ value_kind m.(val) = cmd_kind c /\ m.(val) <> VList [] /\ assertions_hold m
            /\ (cmd_kind c = KNil \/ has_param s = true)
  | Panic => cmd_kind c <> KNil /\ has_param s = false
  | NoFuel => False
  end.
Proof.
  pose proof (parse_typed s) as H. cbv zeta in *. destruct (parseCtrlMsg s) as [m| |]; [|done..].
  destruct H as (H1 & H2 & H3 & H4). split_and!; [done..| |done]. apply kind_assertions; [by rewrite H1|done].
Qed.

(** ** Bandwidths *)

(** The names of the supported bandwidths are read back, with the suffix MAX
    left out too. *)
Theorem bandwidth_roundtrip (bw : Bandwidth) :
  In bw Bandwidths ->
  BandwidthFromString (bw_String bw) = inr bw
  /\ (bw.(Forced) = false -> BandwidthFromString (itoa bw.(Max)) = inr bw).
Proof.
  intros H. repeat (destruct H as [<-|H]; [split; [vm_compute; reflexivity|intros E; first [discriminate E|vm_compute; reflexivity]]|]).
  destruct H.
Qed.

Lemma bandwidth_roundtrip_witness :
  BandwidthFromString (str "500MAX") = inr Bandwidth500Max /\ (false = false -> BandwidthFromString (str "500") = inr Bandwidth500Max).
Proof. apply (bandwidth_roundtrip Bandwidth500Max). right. left. reflexivity. Defined.

(** The two states of FEC mode are in the table of states in mixed case, and
    the lookup is done in upper case: no string gives them. *)
Theorem fec_states_unreachable (s : gostr) : (strToState s).1 <> FECReceive /\ (strToState s).1 <> FECSend.
Proof.
  assert (H : forall t, ToUpper s = t -> forallb (fun c => upper c =? c) t = true).
  { intros t <-. unfold ToUpper. induction s as [|c s' IH]; [done|]. cbn [fmap list_fmap forallb]. rewrite IH, andb_true_r.
    apply Z.eqb_eq. unfold upper. destruct ((97 <=? c) && (c <=? 122)) eqn:E; [|by rewrite E].
    destruct (Z.leb_spec 97 (c - 32)), (Z.leb_spec (c - 32) 122); cbn; lia. }
  unfold strToState, state_lookup, stateMap. cbn [List.find fst]. unfold streq.
  repeat (case_bool_decide as E;
    [cbn; split; first [by intros ?|exfalso; specialize (H _ (eq_sym E)); vm_compute in H; discriminate H]|clear E]).
  cbn. by split.
Qed.
