(* ===== verification/ArdopTNC.v ===== *)
(** The ARDOP modem driver: [src/transport/ardop/tnc.go], [conn.go], [lock.go],
    [dial.go] and [listen.go].

    Connections and channels are objects in a store: the TNC and the user of a
    connection share them.  [handle] is one round of the control loop.  An
    operation of the host runs in the monad [host]; while it waits for a message
    of the modem the control loop handles the frames that come in, one by one,
    and the operation sees each message before the next frame is handled.
    [conn_Close] is told after how many rounds and messages its two timeouts come; a
    send into a full channel of data times out.  A listener hears the modem while
    [Accept] waits.  Finalizers, the beacon and logging are left out. *)
From S2P Require Import Prelude Crc GoStr Helpers Bufio ArdopFrame.
From stdpp Require Import gmap.
#[global] Open Scope Z_scope.

(** ** lock.go

    A channel that is only closed is a flag; [None] is the nil channel. *)
Record lock := mkLock { wait : option nat; waits : list bool }.

Definition unlocked : lock := mkLock None [].

Definition Lock (l : lock) : lock :=
  match l.(wait) with
  | Some _ => l
  | None => mkLock (Some (length l.(waits))) (l.(waits) ++ [false])
  end.

(** [close(c)] panics on a closed channel. *)
Definition close_flag (c : nat) (cs : list bool) : res (list bool) :=
  match cs !! c with Some false => Ok (<[c := true]> cs) | _ => Panic end.

Definition Unlock (l : lock) : res lock :=
  match l.(wait) with
  | None => mret l
  | Some c => cs ← close_flag c l.(waits); mret (mkLock None cs)
  end.

Definition WaitChan (l : lock) : nat * lock :=
  match l.(wait) with
  | Some c => (c, l)
  | None => (length l.(waits), mkLock None (l.(waits) ++ [true]))
  end.

(** ** The objects *)
Record tncConn := mkConn {
  c_remote : gostr; c_local : gostr;
  c_dataIn : nat;                (* channel of received data *)
  c_eof : nat;                   (* eofChan *)
  c_isTCP : bool;
  c_onClose : list Bandwidth;    (* the bandwidth to set back on Close *)
  c_flush : lock; c_buffer : Z; c_nWritten : Z }.

Record chan := mkChan { queue : list gostr; chan_closed : bool }.

Record TNC := mkTNC {
  t_data : option nat;           (* the current connection *)
  t_dataIn : nat;
  t_busy : bool; t_state : State; t_heard : gmap gostr Z;
  t_ptt : option (list bool);    (* the calls of SetPTT, when there is a controller *)
  t_isTCP : bool; t_connected : bool; t_listenerActive : bool; t_closed : bool;
  t_hangups : Z;                 (* goroutines started to disconnect *)
  t_conns : list tncConn; t_chans : list chan; t_eofs : list bool }.

Definition set_busy b t := mkTNC t.(t_data) t.(t_dataIn) b t.(t_state) t.(t_heard) t.(t_ptt) t.(t_isTCP) t.(t_connected)
  t.(t_listenerActive) t.(t_closed) t.(t_hangups) t.(t_conns) t.(t_chans) t.(t_eofs).
Definition set_state s t := mkTNC t.(t_data) t.(t_dataIn) t.(t_busy) s t.(t_heard) t.(t_ptt) t.(t_isTCP) t.(t_connected)
  t.(t_listenerActive) t.(t_closed) t.(t_hangups) t.(t_conns) t.(t_chans) t.(t_eofs).
Definition set_heard h t := mkTNC t.(t_data) t.(t_dataIn) t.(t_busy) t.(t_state) h t.(t_ptt) t.(t_isTCP) t.(t_connected)
  t.(t_listenerActive) t.(t_closed) t.(t_hangups) t.(t_conns) t.(t_chans) t.(t_eofs).
Definition set_ptt p t := mkTNC t.(t_data) t.(t_dataIn) t.(t_busy) t.(t_state) t.(t_heard) p t.(t_isTCP) t.(t_connected)
  t.(t_listenerActive) t.(t_closed) t.(t_hangups) t.(t_conns) t.(t_chans) t.(t_eofs).
Definition set_connected c t := mkTNC t.(t_data) t.(t_dataIn) t.(t_busy) t.(t_state) t.(t_heard) t.(t_ptt) t.(t_isTCP) c
  t.(t_listenerActive) t.(t_closed) t.(t_hangups) t.(t_conns) t.(t_chans) t.(t_eofs).
Definition set_listenerActive l t := mkTNC t.(t_data) t.(t_dataIn) t.(t_busy) t.(t_state) t.(t_heard) t.(t_ptt) t.(t_isTCP)
  t.(t_connected) l t.(t_closed) t.(t_hangups) t.(t_conns) t.(t_chans) t.(t_eofs).
Definition set_closed c t := mkTNC t.(t_data) t.(t_dataIn) t.(t_busy) t.(t_state) t.(t_heard) t.(t_ptt) t.(t_isTCP)
  t.(t_connected) t.(t_listenerActive) c t.(t_hangups) t.(t_conns) t.(t_chans) t.(t_eofs).
Definition set_hangups n t := mkTNC t.(t_data) t.(t_dataIn) t.(t_busy) t.(t_state) t.(t_heard) t.(t_ptt) t.(t_isTCP)
  t.(t_connected) t.(t_listenerActive) t.(t_closed) n t.(t_conns) t.(t_chans) t.(t_eofs).
Definition set_data d t := mkTNC d t.(t_dataIn) t.(t_busy) t.(t_state) t.(t_heard) t.(t_ptt) t.(t_isTCP)
  t.(t_connected) t.(t_listenerActive) t.(t_closed) t.(t_hangups) t.(t_conns) t.(t_chans) t.(t_eofs).
Definition set_dataIn c t := mkTNC t.(t_data) c t.(t_busy) t.(t_state) t.(t_heard) t.(t_ptt) t.(t_isTCP)
  t.(t_connected) t.(t_listenerActive) t.(t_closed) t.(t_hangups) t.(t_conns) t.(t_chans) t.(t_eofs).
Definition set_conns cs t := mkTNC t.(t_data) t.(t_dataIn) t.(t_busy) t.(t_state) t.(t_heard) t.(t_ptt) t.(t_isTCP)
  t.(t_connected) t.(t_listenerActive) t.(t_closed) t.(t_hangups) cs t.(t_chans) t.(t_eofs).
Definition set_chans cs t := mkTNC t.(t_data) t.(t_dataIn) t.(t_busy) t.(t_state) t.(t_heard) t.(t_ptt) t.(t_isTCP)
  t.(t_connected) t.(t_listenerActive) t.(t_closed) t.(t_hangups) t.(t_conns) cs t.(t_eofs).
Definition set_eofs es t := mkTNC t.(t_data) t.(t_dataIn) t.(t_busy) t.(t_state) t.(t_heard) t.(t_ptt) t.(t_isTCP)
  t.(t_connected) t.(t_listenerActive) t.(t_closed) t.(t_hangups) t.(t_conns) t.(t_chans) es.

Definition newTNC (isTCP : bool) : TNC :=
  mkTNC None 0 false Unknown ∅ None isTCP false false false 0 [] [mkChan [] false] [].

Definition SetPTT (present : bool) (t : TNC) : TNC := set_ptt (if present then Some [] else None) t.

(** [*conn] of a valid pointer. *)
Definition deref (c : nat) (t : TNC) : res tncConn :=
  match t.(t_conns) !! c with Some x => Ok x | None => Panic end.
Definition put (c : nat) (x : tncConn) (t : TNC) : TNC := set_conns (<[c := x]> t.(t_conns)) t.

(** ** Channels *)
Definition capacity : nat := 4096.

Definition close_chan (c : nat) (t : TNC) : res TNC :=
  match t.(t_chans) !! c with
  | Some (mkChan q false) => Ok (set_chans (<[c := mkChan q true]> t.(t_chans)) t)
  | _ => Panic
  end.

(** [select { case c <- data: case <-time.After(time.Minute): }]: [false] is the
    timeout, which a full buffer nobody reads from leads to; a send on a closed
    channel panics. *)
Definition send_chan (c : nat) (d : gostr) (t : TNC) : res (bool * TNC) :=
  match t.(t_chans) !! c with
  | Some (mkChan q false) =>
      if (length q <? capacity)%nat then Ok (true, set_chans (<[c := mkChan (q ++ [d]) false]> t.(t_chans)) t)
      else Ok (false, t)
  | _ => Panic
  end.

(** ** conn.go: updateBuffer, signalClosed *)
Definition updateBuffer (conn : option nat) (b : Z) (t : TNC) : res TNC :=
  match conn with
  | None => mret t
  | Some c =>
      x ← deref c t;
      fl ← (if b =? 0 then Unlock x.(c_flush) else mret x.(c_flush));
      mret (put c (mkConn x.(c_remote) x.(c_local) x.(c_dataIn) x.(c_eof) x.(c_isTCP) x.(c_onClose) fl b x.(c_nWritten)) t)
  end.

Definition signalClosed (c : nat) (t : TNC) : res TNC :=
  x ← deref c t;
  es ← close_flag x.(c_eof) t.(t_eofs);
  mret (set_eofs es t).

(** ** tnc.go: the control loop *)
Definition eof (t : TNC) : res TNC :=
  match t.(t_data) with
  | None => mret t
  | Some c =>
      t ← close_chan t.(t_dataIn) t;
      t ← signalClosed c t;
      let t := set_connected false t in
      let t := set_dataIn (length t.(t_chans)) (set_chans (t.(t_chans) ++ [mkChan [] false]) t) in
      mret (set_data None t)
  end.

(** The switch on the command of a message. *)
Definition handle_msg (msg : ctrlMsg) (t : TNC) : res TNC :=
  if streq msg.(cmd) cmdPTT then
    match t.(t_ptt) with
    | Some calls => b ← msg_Bool msg; mret (set_ptt (Some (calls ++ [b])) t)
    | None => mret t
    end
  else if streq msg.(cmd) cmdDisconnected then eof (set_state Disconnected t)
  else if streq msg.(cmd) cmdBuffer then b ← msg_Int msg; updateBuffer t.(t_data) b t
  else if streq msg.(cmd) cmdNewState then
    s ← msg_State msg;
    let t := set_state s t in
    if bool_decide (s = Disconnected) then eof t else mret t
  else if streq msg.(cmd) cmdBusy then b ← msg_Bool msg; mret (set_busy b t)
  else mret t.

(** One frame: the new state and the message broadcast to the listeners. *)
Definition handle (now : Z) (f : frame) (t : TNC) : res (TNC * option ctrlMsg) :=
  match f with
  | dFrame dataType data =>
      if ARQFrame dataType then
        if negb t.(t_connected) then mret (t, None)
        else
          r ← send_chan t.(t_dataIn) data t;
          let '(sent, t) := r in
          mret (if sent : bool then t else set_hangups (t.(t_hangups) + 1) t, None)
      else if IDFrame dataType then
        match parseIDFrame dataType data with
        | inr (call, _) => mret (set_heard (<[call := now]> t.(t_heard)) t, None)
        | inl _ => mret (t, None)
        end
      else mret (t, None)
  | cmdFrame line =>
      msg ← parseCtrlMsg line;
      t ← handle_msg msg t;
      mret (t, Some msg)
  end.

(** [close].  The flag stands for all that is closed with it: the connection to the modem,
    the channels [out] and [dataOut] and that of the broadcaster.  A send on one of them
    panics from then on, and so would closing them again. *)
Definition close (t : TNC) : res TNC :=
  if t.(t_closed) then mret t else eof (set_closed true t).

Definition tnc_Idle (t : TNC) : bool := bool_decide (t.(t_state) = Disconnected) || bool_decide (t.(t_state) = Offline).

(** ** The host

    The frames still to come, the commands and the data sent so far. *)
Record world := mkWorld {
  w_tnc : TNC; w_in : list (error + frame); w_out : list gostr; w_data : list gostr; w_now : Z }.

Definition host (A : Type) : Type := world -> res (A * world).
#[export] Instance host_ret : MRet host := fun A a w => Ok (a, w).
#[export] Instance host_bind : MBind host := fun A B f m w => r ← m w; f r.1 r.2.

Definition pure {A} (r : res A) : host A := fun w => a ← r; mret (a, w).
(** An operation that needs no more rounds than there are frames to come. *)
Definition rounds {A} (k : nat -> host A) : host A := fun w => k (length w.(w_in)) w.
Definition tnc : host TNC := fun w => mret (w.(w_tnc), w).
Definition set_tnc (t : TNC) : host unit := fun w => mret (tt, mkWorld t w.(w_in) w.(w_out) w.(w_data) w.(w_now)).
Definition on_tnc (f : TNC -> res TNC) : host unit :=
  t ← tnc; t ← pure (f t); set_tnc t.
(** [tnc.out <- s] panics on the closed channel. *)
Definition send (s : gostr) : host unit := fun w =>
  if w.(w_tnc).(t_closed) then Panic
  else mret (tt, mkWorld w.(w_tnc) w.(w_in) (w.(w_out) ++ [s]) w.(w_data) w.(w_now)).
(** [tnc.dataOut <- p] *)
Definition send_data (p : gostr) : host unit := fun w =>
  if w.(w_tnc).(t_closed) then Panic
  else mret (tt, mkWorld w.(w_tnc) w.(w_in) w.(w_out) (w.(w_data) ++ [p]) w.(w_now)).

(** One round of the control loop: [None] when the modem has hung up or the connection to
    it was closed, else the message of the frame, if it has one. *)
Definition round : host (option (option ctrlMsg)) := fun w =>
  if w.(w_tnc).(t_closed) then mret (None, mkWorld w.(w_tnc) [] w.(w_out) w.(w_data) w.(w_now))
  else match w.(w_in) with
  | [] | inl io_EOF :: _ =>
      t ← close w.(w_tnc);
      mret (None, mkWorld t [] w.(w_out) w.(w_data) w.(w_now))
  | inl _ :: rest => mret (Some None, mkWorld w.(w_tnc) rest w.(w_out) w.(w_data) w.(w_now))
  | inr f :: rest =>
      r ← handle w.(w_now) f w.(w_tnc);
      mret (Some r.2, mkWorld r.1 rest w.(w_out) w.(w_data) w.(w_now))
  end.

(** [<-r.Msgs()]: the next message, [None] when the channel is closed. *)
Fixpoint recv_fuel (fuel : nat) : host (option ctrlMsg) :=
  match fuel with
  | O => fun _ => NoFuel
  | S fuel =>
      r ← round;
      match r with
      | None => mret None
      | Some None => recv_fuel fuel
      | Some (Some m) => mret (Some m)
      end
  end.
Definition recv : host (option ctrlMsg) := rounds (fun n => recv_fuel (S n)).

(** [tnc.in.Listen()] blocks forever once the broadcaster has ended. *)
Definition Listen : host unit := fun w =>
  if w.(w_tnc).(t_closed) then NoFuel else mret (tt, w).

Definition ErrTNCClosed := New (str "TNC closed").
Definition ErrBusy := New (str "TNC control port is busy.").
Definition ErrConnectInProgress := New (str "A connect is in progress.").
Definition ErrConnectTimeout := New (str "Connect timeout").
Definition ErrActiveListenerExists := New (str "An active listener is already registered with this TNC.").

(** [for msg := range r.Msgs()]: messages up to the one the body returns on. *)
Fixpoint range_msgs {A} (fuel : nat) (body : ctrlMsg -> host (option A)) (closed : A) : host A :=
  match fuel with
  | O => fun _ => NoFuel
  | S fuel =>
      m ← recv;
      match m with
      | None => mret closed
      | Some m => r ← body m; match r with Some a => mret a | None => range_msgs fuel body closed end
      end
  end.
Definition msgs {A} (body : ctrlMsg -> host (option A)) (closed : A) : host A :=
  rounds (fun n => range_msgs (S n) body closed).

Definition fmt_bool (b : bool) : gostr := if b then str "true" else str "false".

Definition tnc_set (c : gostr) (param : option gostr) : host (option error) :=
  t ← tnc;
  if t.(t_closed) : bool then mret (Some ErrTNCClosed)
  else
    Listen;;
    send (match param with Some p => c ++ str " " ++ p | None => c end);;
    msgs (fun m => if streq m.(cmd) c then mret (Some None)
                   else if streq m.(cmd) cmdFault then s ← pure (msg_String m); mret (Some (Some (New s)))
                   else mret None) (Some ErrTNCClosed).

Definition tnc_get (c : gostr) : host (error + value) :=
  t ← tnc;
  if t.(t_closed) : bool then mret (inl ErrTNCClosed)
  else
    Listen;;
    send c;;
    msgs (fun m => if streq m.(cmd) c then mret (Some (inr m.(val)))
                   else if streq m.(cmd) cmdFault then s ← pure (msg_String m); mret (Some (inl (New s)))
                   else mret None) (inl ErrTNCClosed).

(** The first three forget the error. *)
Definition getString (c : gostr) : host (error + gostr) :=
  r ← tnc_get c;
  match r with
  | inl _ => mret (inr [])
  | inr v => s ← pure (msg_String (mkMsg c v)); mret (inr s)
  end.

Definition getBool (c : gostr) : host (error + bool) :=
  r ← tnc_get c;
  match r with
  | inl _ => mret (inr false)
  | inr v => b ← pure (msg_Bool (mkMsg c v)); mret (inr b)
  end.

Definition getState : host (error + State) :=
  r ← tnc_get cmdState;
  match r with
  | inl _ => mret (inr Offline)
  | inr v => s ← pure (msg_State (mkMsg cmdState v)); mret (inr s)
  end.

Definition getInt (c : gostr) : host (error + Z) :=
  r ← tnc_get c;
  match r with
  | inl e => mret (inl e)
  | inr v => i ← pure (msg_Int (mkMsg c v)); mret (inr i)
  end.

(** *** Settings *)
Definition SetARQBandwidth (bw : Bandwidth) : host (option error) := tnc_set cmdARQBW (Some (bw_String bw)).

Definition ARQBandwidth : host (error + Bandwidth) :=
  r ← getString cmdARQBW;
  match r with
  | inl e => mret (inl e)
  | inr s => match BandwidthFromString s with
             | inl e => mret (inl (Wrap (str "invalid ARQBW response: ") e))
             | inr bw => mret (inr bw)
             end
  end.

(** A duration counts nanoseconds; the division truncates towards zero. *)
Definition Second : Z := 1000000000.
Definition DefaultARQTimeout : Z := 90 * Second.
Definition SetARQTimeout (d : Z) : host (option error) := tnc_set cmdARQTimeout (Some (itoa (Z.quot d Second))).

Definition ARQTimeout : host (error + Z) :=
  r ← getInt cmdARQTimeout;
  match r with
  | inl e => mret (inl e)
  | inr seconds => mret (inr ((seconds * Second + 2 ^ 63) mod 2 ^ 64 - 2 ^ 63))
  end.

Definition SetGridSquare (gs : gostr) : host (option error) := tnc_set cmdGridSquare (Some gs).
Definition SetMycall (mycall : gostr) : host (option error) := tnc_set cmdMyCall (Some mycall).
Definition SetCWID (enabled : bool) : host (option error) := tnc_set cmdCWID (Some (fmt_bool enabled)).
Definition CWID : host (error + bool) := getBool cmdCWID.
Definition SendID : host (option error) := tnc_set cmdSendID None.
Definition SetAutoBreak (on : bool) : host (option error) := tnc_set cmdAutoBreak (Some (fmt_bool on)).
Definition AutoBreak : host (error + bool) := getBool cmdAutoBreak.
Definition SetCodec (state : bool) : host (option error) := tnc_set cmdCodec (Some (fmt_bool state)).
Definition SetListenEnabled (listen : bool) : host (option error) := tnc_set cmdListen (Some (fmt_bool listen)).
Definition setFSKOnly (b : bool) : host (option error) := tnc_set cmdFSKOnly (Some (fmt_bool b)).
Definition Abort_ : host (option error) := tnc_set cmdAbort None.
Definition tnc_Version : host (error + gostr) := getString cmdVersion.
Definition GridSquare : host (error + gostr) := getString cmdGridSquare.
Definition MyCall : host (error + gostr) := getString cmdMyCall.

Definition SetAuxiliaryCalls (calls : list gostr) : host (option error) :=
  tnc_set cmdMyAux (Some (strings_Join calls (str ", "))).

Definition Ping : host (option error) :=
  t ← tnc;
  if t.(t_closed) : bool then mret (Some ErrTNCClosed)
  else r ← getString cmdVersion; mret (match r with inl e => Some e | inr _ => None end).

(** *** Opening *)

(** [if err = m; err != nil { return wrap(err) }] *)
Definition or_fail (m : host (option error)) (wrap : error -> error) (k : host (option error)) : host (option error) :=
  e ← m;
  match e with Some e => mret (Some (wrap e)) | None => k end.

(** [fmt.Errorf(text+"%s", err)] *)
Definition Errorf (text : String.string) (e : error) : error := New (str text ++ Error e).
Arguments Errorf text%_string e.

Definition init (fskonly : bool) : host (option error) :=
  or_fail (tnc_set cmdInitialize None) id
  (s ← getState;
   match s with
   | inl e => mret (Some e)
   | inr s =>
       on_tnc (fun t => Ok (set_state s t));;
       or_fail (if bool_decide (s = Offline) then SetCodec true else mret None) (Errorf "Enable codec failed: ")
       (or_fail (tnc_set cmdProtocolMode (Some (str "ARQ"))) (Errorf "Set protocol mode ARQ failed: ")
       (or_fail (SetARQTimeout DefaultARQTimeout) (Errorf "Set ARQ timeout failed: ")
       (or_fail (SetListenEnabled false) (Errorf "Disable listen failed: ")
       (if fskonly then or_fail (setFSKOnly true) (Errorf "Set FSK only failed: ") (mret None) else mret None))))
   end).

Definition tnc_open (fskonly : bool) (mycall gridSquare : gostr) : host (option error) :=
  or_fail (init fskonly)
    (fun e => if bool_decide (e = io_EOF) then ErrBusy else Errorf "Failed to initialize TNC: " e)
  (or_fail (SetMycall mycall) (Errorf "Set my call failed: ")
  (or_fail (SetGridSquare gridSquare) (Errorf "Set grid square failed: ") (mret None))).

(** *** Connecting and disconnecting *)
Definition Disconnect : host (option error) :=
  t ← tnc;
  if tnc_Idle t : bool then mret None
  else
    on_tnc eof;;
    Listen;;
    send cmdDisconnect;;
    msgs (fun m => if streq m.(cmd) cmdDisconnected then mret (Some None)
                   else t ← tnc; if tnc_Idle t : bool then mret (Some None) else mret None) (Some ErrTNCClosed).

Definition arqCall `{Fmt} (targetcall : gostr) (repeat : Z) : host (option error) :=
  t ← tnc;
  if negb (tnc_Idle t) then mret (Some ErrConnectInProgress)
  else
    Listen;;
    send (cmdARQCall ++ str " " ++ targetcall ++ str " " ++ itoa repeat);;
    msgs (fun m =>
      if streq m.(cmd) cmdFault then s ← pure (msg_String m); mret (Some (Some (New (Sprintf s))))
      else if streq m.(cmd) cmdNewState then
        t ← tnc; if bool_decide (t.(t_state) = Disconnected) then mret (Some (Some ErrConnectTimeout)) else mret None
      else if streq m.(cmd) cmdConnected then on_tnc (fun t => Ok (set_connected true t));; mret (Some None)
      else mret None) (Some ErrTNCClosed).

(** [tnc.data = &tncConn{...}]: the address of the new connection. *)
Definition new_conn (remote local : gostr) (onClose : list Bandwidth) (t : TNC) : TNC :=
  let c := mkConn remote local t.(t_dataIn) (length t.(t_eofs)) t.(t_isTCP) onClose unlocked 0 0 in
  set_data (Some (length t.(t_conns))) (set_eofs (t.(t_eofs) ++ [false]) (set_conns (t.(t_conns) ++ [c]) t)).

(** Runs the functions put off, their errors ignored. *)
Fixpoint run_defers (defers : list Bandwidth) : host unit :=
  match defers with [] => mret tt | bw :: defers => SetARQBandwidth bw;; run_defers defers end.

Definition DialBandwidth `{Fmt} (targetcall : gostr) (bw : Bandwidth) : host (error + nat) :=
  t ← tnc;
  if t.(t_closed) : bool then mret (inl ErrTNCClosed)
  else
    d ← (if bw_IsZero bw then mret (inr [])
         else
           cur ← ARQBandwidth;
           match cur with
           | inl e => mret (inl e)
           | inr currentBw =>
               e ← SetARQBandwidth bw;
               mret (match e with Some e => inl e | None => inr [currentBw] end)
           end);
    match d with
    | inl e => mret (inl e)
    | inr defers =>
        e ← arqCall targetcall 10;
        match e with
        | Some e => run_defers defers;; mret (inl e)
        | None =>
            r ← MyCall;
            match r with
            | inl e => run_defers defers;; mret (inl (Errorf "Error when getting mycall: " e))
            | inr mycall =>
                t ← tnc;
                set_tnc (new_conn targetcall mycall defers t);;
                mret (inr (length t.(t_conns)))
            end
        end
    end.

Definition Dial `{Fmt} (targetcall : gostr) : host (error + nat) := DialBandwidth targetcall (mkBW false 0).

Definition tnc_Close : host (option error) :=
  t ← tnc;
  if t.(t_closed) : bool then mret None
  else or_fail (SetListenEnabled false) id
       (or_fail Disconnect id (on_tnc close;; mret None)).

(** *** Accepting *)

(** A listener: whether [quit] is closed, and whether its goroutine has returned, which
    closes [incoming]. *)
Record listener := mkListener { ln_quit : bool; ln_done : bool }.

(** [close(l.quit)] panics when it is closed. *)
Definition listener_Close (l : listener) : res listener :=
  if l.(ln_quit) then Panic else Ok (mkListener true l.(ln_done)).

(** [Listen] up to the start of its goroutine: the call sign listened on. *)
Definition tnc_Listen : host (error + gostr) :=
  t ← tnc;
  if t.(t_closed) : bool then mret (inl ErrTNCClosed)
  else if t.(t_listenerActive) : bool then mret (inl ErrActiveListenerExists)
  else
    on_tnc (fun t => Ok (set_listenerActive true t));;
    r ← MyCall;
    match r with
    | inl e => mret (inl (Errorf "Unable to get mycall: " e))
    | inr mycall =>
        e ← SetListenEnabled true;
        match e with
        | Some e => mret (inl (Errorf "TNC failed to enable listening: " e))
        | None => mret (inr mycall)
        end
    end.

(** One message of the goroutine: its target call sign and the connection it
    hands to Accept. *)
Definition listen_msg (targetcall : gostr) (m : ctrlMsg) (t : TNC) : res (gostr * option nat * TNC) :=
  if streq m.(cmd) cmdCancelPending || streq m.(cmd) cmdDisconnected then mret ([], None, t)
  else if streq m.(cmd) cmdTarget then s ← msg_String m; mret (s, None, t)
  else if streq m.(cmd) cmdConnected then
    match targetcall with
    | [] => mret ([], None, t)
    | _ =>
        l ← msg_List m;
        remotecall ← idx l 0;
        let t' := set_connected true (new_conn remotecall targetcall [] t) in
        mret ([], Some (length t.(t_conns)), t')
    end
  else mret (targetcall, None, t).

(** The goroutine, up to the next connection; [None] when the modem hangs up.  It runs
    while [Accept] waits; a listener that was closed stops it first. *)
Fixpoint accept_fuel (fuel : nat) (targetcall : gostr) : host (option nat) :=
  match fuel with
  | O => fun _ => NoFuel
  | S fuel =>
      m ← recv;
      match m with
      | None => mret None
      | Some m =>
          t ← tnc;
          r ← pure (listen_msg targetcall m t);
          let '(targetcall, conn, t) := r in
          set_tnc t;;
          match conn with Some c => mret (Some c) | None => accept_fuel fuel targetcall end
      end
  end.

Definition Accept (l : listener) : host ((error + nat) * listener) :=
  if l.(ln_done) then mret (inl io_EOF, l)
  else if l.(ln_quit) then
    SetListenEnabled false;;
    on_tnc (fun t => Ok (set_listenerActive false t));;
    mret (inl (New (str "Closed")), mkListener true true)
  else
    r ← rounds (fun n => accept_fuel (S n) []);
    match r with
    | Some c => mret (inr c, l)
    | None => on_tnc (fun t => Ok (set_listenerActive false t));; mret (inl ErrTNCClosed, mkListener false true)
    end.

(** *** A connection *)

(** [Read(p)] with [len(p) = n]: the data, or io.EOF. *)
Fixpoint read_fuel (fuel : nat) (c : nat) : host (error + gostr) :=
  match fuel with
  | O => fun _ => NoFuel
  | S fuel =>
      t ← tnc;
      x ← pure (deref c t);
      match t.(t_chans) !! x.(c_dataIn) with
      | Some (mkChan (d :: q) b) =>
          set_tnc (set_chans (<[x.(c_dataIn) := mkChan q b]> t.(t_chans)) t);;
          mret (inr d)
      | Some (mkChan [] true) => mret (inl io_EOF)
      | Some (mkChan [] false) => round;; read_fuel fuel c
      | None => pure Panic
      end
  end.

Definition conn_Read (c : nat) (n : Z) : host (error + gostr) :=
  if n =? 0 then mret (inr [])
  else
    r ← rounds (fun k => read_fuel (S (S k)) c);
    match r with
    | inr data => if n <? zlen data then pure Panic else mret (inr data)
    | inl e => mret (inl e)
    end.

(** The bytes of a data frame to the modem. *)
Definition data_frame (isTCP : bool) (p : gostr) : gostr :=
  let body := PutUint16 (u16 (zlen p)) ++ p in
  if isTCP then body else str "D:" ++ body ++ PutUint16 (crc16Sum body).

Definition is_eof (c : nat) : host bool :=
  t ← tnc;
  x ← pure (deref c t);
  mret (match t.(t_eofs) !! x.(c_eof) with Some b => b | None => false end).

Inductive write_event := GotBuffer | GotCRCFault | GotEOF.

(** The inner loop of Write: a closed connection is noticed first. *)
Fixpoint await_buffer (fuel : nat) (c : nat) : host write_event :=
  match fuel with
  | O => fun _ => NoFuel
  | S fuel =>
      closed ← is_eof c;
      if closed : bool then mret GotEOF
      else
        m ← recv;
        match m with
        | Some m => if streq m.(cmd) cmdBuffer then mret GotBuffer
                    else if streq m.(cmd) cmdCRCFault then mret GotCRCFault
                    else await_buffer fuel c
        | None => await_buffer fuel c
        end
  end.

Definition lock_flush (c : nat) (t : TNC) : res TNC :=
  x ← deref c t;
  mret (put c (mkConn x.(c_remote) x.(c_local) x.(c_dataIn) x.(c_eof) x.(c_isTCP) x.(c_onClose) (Lock x.(c_flush))
    x.(c_buffer) x.(c_nWritten)) t).

Definition count_written (c : nat) (n : Z) (t : TNC) : res TNC :=
  x ← deref c t;
  mret (put c (mkConn x.(c_remote) x.(c_local) x.(c_dataIn) x.(c_eof) x.(c_isTCP) x.(c_onClose) x.(c_flush)
    x.(c_buffer) (x.(c_nWritten) + n)) t).

(** [tries] more times: the number of bytes and the error. *)
Fixpoint write_tries (tries : nat) (c : nat) (buf : gostr) (n : Z) : host (Z * option error) :=
  match tries with
  | O => mret (0, Some (New (str "CRC failure")))
  | S tries =>
      send_data buf;;
      on_tnc (count_written c n);;
      e ← rounds (fun n => await_buffer (S (S n)) c);
      match e with
      | GotBuffer => on_tnc (lock_flush c);; mret (n, None)
      | GotCRCFault => write_tries tries c buf n
      | GotEOF => mret (n, Some io_EOF)
      end
  end.

Definition conn_Write (c : nat) (p : gostr) : host (Z * option error) :=
  let p := if 65535 <? zlen p then take (Z.to_nat 65535) p else p in
  t ← tnc;
  x ← pure (deref c t);
  Listen;;
  write_tries 3 c (data_frame x.(c_isTCP) p) (zlen p).

Definition TxBufferLen (c : nat) : host Z := t ← tnc; x ← pure (deref c t); mret x.(c_buffer).

(** The channel of the flush lock, and the lock it leaves. *)
Definition wait_chan (c : nat) : host nat :=
  t ← tnc;
  x ← pure (deref c t);
  let '(ch, fl) := WaitChan x.(c_flush) in
  set_tnc (put c (mkConn x.(c_remote) x.(c_local) x.(c_dataIn) x.(c_eof) x.(c_isTCP) x.(c_onClose) fl
    x.(c_buffer) x.(c_nWritten)) t);;
  mret ch.

Definition is_flushed (c ch : nat) : host bool :=
  t ← tnc;
  x ← pure (deref c t);
  mret (match x.(c_flush).(waits) !! ch with Some b => b | None => false end).

Fixpoint flush_fuel (fuel : nat) (c ch : nat) : host (option error) :=
  match fuel with
  | O => fun _ => NoFuel
  | S fuel =>
      flushed ← is_flushed c ch;
      if flushed : bool then mret None
      else
        closed ← is_eof c;
        if closed : bool then mret (Some io_EOF) else round;; flush_fuel fuel c ch
  end.
Definition Flush (c : nat) : host (option error) :=
  ch ← wait_chan c;
  rounds (fun n => flush_fuel (S (S n)) c ch).

(** The first part of Close: until the buffer is flushed, or the timeout, which comes
    after [t1] rounds of the control loop or with the last frame. *)
Fixpoint drain_fuel (fuel : nat) (c ch : nat) : host unit :=
  match fuel with
  | O => mret tt
  | S fuel =>
      flushed ← is_flushed c ch;
      if flushed : bool then mret tt else round;; drain_fuel fuel c ch
  end.

(** [for { select { case msg, ok := <-r.Msgs(): case <-timeout: } }], where the timeout
    comes after [n] messages. *)
Fixpoint until {A} (n : nat) (body : ctrlMsg -> host (option A)) (closed : A) (timeout : host A) : host A :=
  match n with
  | O => timeout
  | S n =>
      m ← recv;
      match m with
      | None => mret closed
      | Some m => r ← body m; match r with Some a => mret a | None => until n body closed timeout end
      end
  end.

Definition ErrDisconnectTimeout := New (str "Disconnect timeout: aborted connection.").

Definition conn_Close (t1 t2 : nat) (c : nat) : host (option error) :=
  t ← tnc;
  x ← pure (deref c t);
  ch ← wait_chan c;
  rounds (fun n => drain_fuel (n `min` t1) c ch);;
  Listen;;
  send cmdDisconnect;;
  e ← until t2 (fun m =>
        if streq m.(cmd) cmdDisconnected then mret (Some None)
        else if streq m.(cmd) cmdNewState then
          s ← pure (msg_State m); if bool_decide (s = Disconnected) then mret (Some None) else mret None
        else mret None)
      (Some (New (str "TNC hung up while waiting for requested disconnect")))
      (send cmdAbort;; mret (Some ErrDisconnectTimeout));
  run_defers x.(c_onClose);;
  mret e.
