(* ===== verification/ArdopSafety.v ===== *)
(** Theorems on the ARDOP driver: the flush lock, freedom from panics, delivery
    of received data in order, the commands of a dial and the tries of a write. *)
From S2P Require Import Prelude Crc GoStr Helpers Bufio ArdopFrame ArdopWire ArdopTNC.
From stdpp Require Import gmap.
#[local] Open Scope Z_scope.

(** ** The lock *)

(** Exactly the channel a locked lock waits on is open. *)
Definition lock_ok (l : lock) : Prop :=
  (forall c, l.(waits) !! c = Some false <-> l.(wait) = Some c).

Lemma unlocked_ok : lock_ok unlocked.
Proof. intros c. cbn. by rewrite lookup_nil. Qed.

Lemma Lock_ok l : lock_ok l -> lock_ok (Lock l).
Proof.
  intros H. unfold Lock. destruct (wait l) eqn:E; [done|]. intros c. cbn [waits wait]. split.
  - intros Hc. apply lookup_app_Some in Hc as [Hc|[Hc Hd]]; [apply H in Hc; congruence|].
    f_equal. destruct (c - length (waits l))%nat eqn:Ec; [lia|done].
  - intros [= <-]. by rewrite lookup_app_r, Nat.sub_diag.
Qed.

Lemma Unlock_ok l : lock_ok l -> exists l', Unlock l = Ok l' /\ lock_ok l' /\ wait l' = None
  /\ (forall c, waits l' !! c = Some true <-> waits l !! c = Some true \/ wait l = Some c) /\ length (waits l') = length (waits l).
Proof.
  intros H. unfold Unlock. destruct (wait l) as [c|] eqn:E.
  - pose proof (proj2 (H c) E) as Hc. unfold close_flag. rewrite Hc. cbn [mbind res_bind mret res_ret].
    assert (Hl : (c < length (waits l))%nat) by (by apply lookup_lt_is_Some; eexists).
    eexists. split; [done|]. cbn [wait waits]. split_and!; [|done| |by rewrite length_insert].
    + intros d. cbn [wait waits]. split; [|done]. destruct (decide (c = d)) as [->|].
      * rewrite list_lookup_insert_eq by done. done.
      * rewrite list_lookup_insert_ne by done. intros Hd. apply H in Hd. congruence.
    + intros d. destruct (decide (c = d)) as [->|].
      * rewrite list_lookup_insert_eq by done. naive_solver.
      * rewrite list_lookup_insert_ne by done. naive_solver.
  - exists l. split_and!; [done|done|done| |done]. naive_solver.
Qed.

Inductive lock_op := OpLock | OpUnlock.
Definition lock_step (l : lock) (o : lock_op) : res lock :=
  match o with OpLock => Ok (Lock l) | OpUnlock => Unlock l end.
Fixpoint lock_run (os : list lock_op) (l : lock) : res lock :=
  match os with [] => Ok l | o :: os => l ← lock_step l o; lock_run os l end.

Lemma Lock_waits l c : (c < length (waits l))%nat -> waits (Lock l) !! c = waits l !! c /\ (length (waits l) <= length (waits (Lock l)))%nat.
Proof. unfold Lock. destruct (wait l); [done|]. intros H. cbn [waits]. rewrite lookup_app_l, length_app by done. split; [done|cbn; lia]. Qed.

Lemma lock_run_spec os l c : lock_ok l -> (c < length (waits l))%nat ->
  exists l', lock_run os l = Ok l' /\ lock_ok l' /\
    (waits l' !! c = Some true <-> waits l !! c = Some true \/ In OpUnlock os).
Proof.
  revert l. induction os as [|o os IH]; intros l Hl Hc; cbn [lock_run In].
  - exists l. naive_solver.
  - destruct o; cbn [lock_step mbind res_bind].
    + destruct (Lock_waits l c Hc) as [Hw Hlen].
      destruct (IH (Lock l)) as (l' & -> & H1 & H2); [by apply Lock_ok|lia|].
      exists l'. split_and!; [done..|]. rewrite H2, Hw. naive_solver.
    + destruct (Unlock_ok l Hl) as (l1 & -> & H1 & H2 & H3 & H4). cbn [mbind res_bind].
      destruct (IH l1 H1 ltac:(lia)) as (l' & -> & H5 & H6). exists l'. split_and!; [done..|]. rewrite H6, H3.
      destruct (lookup_lt_is_Some_2 (waits l) c Hc) as [[] Hb]; [naive_solver|].
      pose proof (proj1 (Hl c) Hb). naive_solver.
Qed.

(** The channel [WaitChan] hands out is closed, and so a wait on it over, from
    the start when the lock is unlocked, and from the next Unlock on otherwise,
    however Lock and Unlock are called before and after; neither ever panics. *)
Theorem lock_waits (before after : list lock_op) :
  exists l, lock_run before unlocked = Ok l /\
    let '(c, l1) := WaitChan l in
    exists l2, lock_run after l1 = Ok l2 /\
      (waits l2 !! c = Some true <-> wait l = None \/ In OpUnlock after).
Proof.
  assert (exists l, lock_run before unlocked = Ok l /\ lock_ok l) as (l & E & Hl).
  { generalize unlocked, unlocked_ok. induction before as [|o os IH]; intros l Hl; cbn [lock_run]; [by exists l|].
    destruct o; cbn [lock_step mbind res_bind]; [by apply IH, Lock_ok|].
    destruct (Unlock_ok l Hl) as (l1 & -> & H & _). by apply IH. }
  exists l. split; [done|]. unfold WaitChan. destruct (wait l) as [c|] eqn:Ew.
  - pose proof (proj2 (Hl c) Ew) as Hc.
    destruct (lock_run_spec after l c Hl) as (l2 & H1 & _ & H2); [by apply lookup_lt_is_Some; eexists|].
    exists l2. split; [done|]. rewrite H2, Hc. naive_solver.
  - set (l1 := mkLock None (waits l ++ [true])). assert (Hl1 : lock_ok l1).
    { intros d. cbn [waits wait l1]. split; [|done]. intros Hd. apply lookup_app_Some in Hd as [Hd|[_ Hd]].
      - apply Hl in Hd. congruence.
      - by destruct (d - length (waits l))%nat. }
    destruct (lock_run_spec after l1 (length (waits l)) Hl1) as (l2 & H1 & _ & H2).
    { cbn. rewrite length_app. cbn. lia. }
    exists l2. split; [done|]. rewrite H2. cbn [waits l1]. rewrite lookup_app_r, Nat.sub_diag by done. naive_solver.
Qed.

(** ** Freedom from panics *)

(** What a data frame can carry: its length field has 16 bits. *)
Definition MaxData : Z := 65530.
Definition chan_ok (c : chan) : Prop := Forall (fun d : gostr => zlen d <= MaxData) c.(queue).

(** The channel of received data is open; the current connection reads from it
    and has not been told of its end; locks and queues are well formed. *)
Record tnc_ok (t : TNC) : Prop := mkOk {
  ok_dataIn : exists q, t.(t_chans) !! t.(t_dataIn) = Some (mkChan q false);
  ok_data : forall c, t.(t_data) = Some c -> exists x, t.(t_conns) !! c = Some x
    /\ x.(c_dataIn) = t.(t_dataIn) /\ t.(t_eofs) !! x.(c_eof) = Some false;
  ok_conns : Forall (fun x => lock_ok x.(c_flush) /\ (x.(c_dataIn) < length t.(t_chans))%nat) t.(t_conns);
  ok_chans : Forall chan_ok t.(t_chans) }.

(** A frame of a modem that gives every command its parameter. *)
Definition frame_ok (f : frame) : Prop :=
  match f with
  | cmdFrame line => parseCtrlMsg line <> Panic
  | dFrame _ data => zlen data <= MaxData
  end.
Definition input_ok (x : error + frame) : Prop := match x with inr f => frame_ok f | inl _ => True end.

(** A message as the parser makes it. *)
Definition msg_ok (m : ctrlMsg) : Prop :=
  value_kind m.(val) = cmd_kind m.(cmd) /\ m.(val) <> VList [].

Lemma parse_ok line m : parseCtrlMsg line = Ok m -> msg_ok m.
Proof. intros E. pose proof (parse_typed line) as H. rewrite E in H. destruct H as (<- & H1 & H2 & _). done. Qed.

Lemma streq_true a b : streq a b = true -> a = b.
Proof. apply bool_decide_eq_true_1. Qed.

Lemma assert_Bool m : msg_ok m -> cmd_kind m.(cmd) = KBool -> exists b, msg_Bool m = Ok b.
Proof. intros [H _] E. rewrite E in H. unfold msg_Bool. destruct (val m); try discriminate. eauto. Qed.
Lemma assert_State m : msg_ok m -> cmd_kind m.(cmd) = KState -> exists s, msg_State m = Ok s.
Proof. intros [H _] E. rewrite E in H. unfold msg_State. destruct (val m); try discriminate. eauto. Qed.
Lemma assert_String m : msg_ok m -> cmd_kind m.(cmd) = KString -> exists s, msg_String m = Ok s.
Proof. intros [H _] E. rewrite E in H. unfold msg_String. destruct (val m); try discriminate. eauto. Qed.
Lemma assert_Int m : msg_ok m -> cmd_kind m.(cmd) = KInt -> exists i, msg_Int m = Ok i.
Proof. intros [H _] E. rewrite E in H. unfold msg_Int. destruct (val m); try discriminate. eauto. Qed.
Lemma assert_List m : msg_ok m -> cmd_kind m.(cmd) = KList -> exists x l, msg_List m = Ok (x :: l).
Proof.
  intros [H H'] E. rewrite E in H. unfold msg_List. destruct (val m) as [| | | |[|x l]|]; try discriminate; [done|eauto].
Qed.

(** A state that differs only in fields the invariant does not speak of. *)
Ltac ok_same := match goal with H : tnc_ok ?t |- tnc_ok _ => destruct H; constructor; cbn in *; done end.

Lemma newTNC_ok isTCP : tnc_ok (newTNC isTCP).
Proof. constructor; cbn; [by exists []|done|constructor|repeat constructor]. Qed.

(** A step from one good state to another that drops no connection. *)
Definition keeps (t t' : TNC) : Prop := tnc_ok t' /\ length t'.(t_conns) = length t.(t_conns).

Ltac keeps_same := split; [ok_same|cbn; done].

(** *** Connections *)
Lemma deref_ok t c x : tnc_ok t -> t.(t_conns) !! c = Some x -> lock_ok x.(c_flush) /\ (x.(c_dataIn) < length t.(t_chans))%nat.
Proof. intros [_ _ H _] E. by apply (Forall_lookup_1 _ _ _ _ H E). Qed.

(** A connection changed in its lock and counters only. *)
Lemma put_ok t c x fl b n : tnc_ok t -> t.(t_conns) !! c = Some x -> lock_ok fl ->
  tnc_ok (put c (mkConn x.(c_remote) x.(c_local) x.(c_dataIn) x.(c_eof) x.(c_isTCP) x.(c_onClose) fl b n) t).
Proof.
  intros H E Hl. pose proof (deref_ok t c x H E) as [_ Hd]. destruct H as [H1 H2 H3 H4]. constructor; cbn; [done| | |done].
  - intros d Hc. destruct (H2 d Hc) as (y & Hy & H5 & H6). destruct (decide (c = d)) as [->|].
    + rewrite list_lookup_insert_eq by (by apply lookup_lt_is_Some; eexists). eexists. split; [done|].
      rewrite E in Hy. injection Hy as <-. done.
    + rewrite list_lookup_insert_ne by done. eauto.
  - apply Forall_insert; done.
Qed.

Lemma updateBuffer_ok t b : tnc_ok t -> exists t', updateBuffer t.(t_data) b t = Ok t' /\ keeps t t'.
Proof.
  intros H. unfold updateBuffer. destruct (t_data t) as [c|] eqn:E; [|by exists t].
  destruct (ok_data t H c E) as (x & Ex & _). unfold deref. rewrite Ex, bind_Ok.
  destruct (deref_ok t c x H Ex) as [Hl _].
  destruct (Unlock_ok (c_flush x) Hl) as (fl & Ef & Hf & _).
  destruct (b =? 0); cbn [mret res_ret]; rewrite ?Ef, bind_Ok; eexists; (split; [done|]); (split; [by apply put_ok|cbn; by rewrite length_insert]).
Qed.

Lemma eof_ok t : tnc_ok t -> exists t', eof t = Ok t' /\ keeps t t' /\ t'.(t_data) = None.
Proof.
  intros H. unfold eof. destruct (t_data t) as [c|] eqn:E; [|by exists t].
  destruct (ok_data t H c E) as (x & Ex & Hd & He). destruct (ok_dataIn t H) as [q Hq].
  unfold close_chan. rewrite Hq, bind_Ok. unfold signalClosed, deref. cbn [set_chans t_conns t_eofs]. rewrite Ex, bind_Ok.
  unfold close_flag. rewrite He. cbn [mbind res_bind mret res_ret]. eexists. split; [done|]. split; [|done]. split; [|done].
  destruct H as [H1 H2 H3 H4]. constructor; cbn.
  - exists []. by rewrite lookup_app_r, Nat.sub_diag.
  - done.
  - eapply Forall_impl; [exact H3|]. intros y [? Hy]. cbn in Hy. rewrite length_app, length_insert. split; [done|]. lia.
  - apply Forall_app. split; [|by repeat constructor]. apply Forall_insert; [done|].
    by apply (Forall_lookup_1 _ _ _ _ H4) in Hq.
Qed.

Lemma close_ok t : tnc_ok t -> exists t', close t = Ok t' /\ keeps t t'.
Proof.
  intros H. unfold close. destruct (t_closed t); [by exists t|].
  destruct (eof_ok (set_closed true t)) as (t' & ? & ? & _); [ok_same|]. by exists t'.
Qed.

Lemma new_conn_ok t r l d : tnc_ok t -> tnc_ok (new_conn r l d t).
Proof.
  intros [H1 H2 H3 H4]. constructor; cbn; [done| | |done].
  - intros c [= <-]. rewrite lookup_app_r, Nat.sub_diag by done. eexists. split; [done|]. cbn.
    split; [done|]. by rewrite lookup_app_r, Nat.sub_diag.
  - apply Forall_app. split; [done|]. apply Forall_singleton. split; [apply unlocked_ok|]. cbn.
    destruct H1 as [q Hq]. by apply lookup_lt_is_Some; eexists.
Qed.

(** *** One frame *)
Lemma handle_msg_ok m t : tnc_ok t -> msg_ok m -> exists t', handle_msg m t = Ok t' /\ keeps t t'.
Proof.
  intros H E. unfold handle_msg.
  destruct (streq (cmd m) cmdPTT) eqn:E1.
  { apply streq_true in E1. destruct (assert_Bool m E) as [b Hb]; [by rewrite E1|]. rewrite Hb.
    destruct (t_ptt t); [rewrite bind_Ok|]; eexists; (split; [done|]); [keeps_same|done]. }
  destruct (streq (cmd m) cmdDisconnected).
  { destruct (eof_ok (set_state Disconnected t)) as (t' & ? & ? & _); [ok_same|]. by exists t'. }
  destruct (streq (cmd m) cmdBuffer) eqn:E2.
  { apply streq_true in E2. destruct (assert_Int m E) as [b Hb]; [by rewrite E2|]. rewrite Hb, bind_Ok. by apply updateBuffer_ok. }
  destruct (streq (cmd m) cmdNewState) eqn:E3.
  { apply streq_true in E3. destruct (assert_State m E) as [s Hs]; [by rewrite E3|]. rewrite Hs, bind_Ok.
    assert (Hs' : tnc_ok (set_state s t)) by ok_same. cbn zeta. case_bool_decide; [|by eexists].
    destruct (eof_ok _ Hs') as (t' & ? & ? & _). by exists t'. }
  destruct (streq (cmd m) cmdBusy) eqn:E4; [|by exists t].
  apply streq_true in E4. destruct (assert_Bool m E) as [b Hb]; [by rewrite E4|]. rewrite Hb, bind_Ok.
  eexists. split; [done|]. keeps_same.
Qed.

Lemma handle_safe now f t : tnc_ok t -> frame_ok f ->
  exists t' o, handle now f t = Ok (t', o) /\ keeps t t' /\ match o with Some m => msg_ok m | None => True end.
Proof.
  intros H Hf. destruct f as [ty d|line]; cbn [handle frame_ok] in *.
  - destruct (ARQFrame ty).
    + destruct (t_connected t); cbn [negb]; [|by exists t, None]. destruct (ok_dataIn t H) as [q Hq].
      unfold send_chan. rewrite Hq. destruct (_ <? _)%nat; cbn [mbind res_bind mret res_ret]; (eexists _, None; split; [done|]; split; [|done]); [|keeps_same].
      split; [|done]. destruct H as [H1 H2 H3 H4]. constructor; cbn; [|done|by rewrite length_insert|].
      * rewrite list_lookup_insert_eq by (by apply lookup_lt_is_Some; eexists). by eexists.
      * apply Forall_insert; [done|]. apply (Forall_lookup_1 _ _ _ _ H4) in Hq. apply Forall_app. split; [done|]. by repeat constructor.
    + destruct (IDFrame ty); [|by exists t, None]. destruct (parseIDFrame ty d) as [|[call grid]]; [by exists t, None|].
      eexists _, None. split; [done|]. split; [keeps_same|done].
  - destruct (parseCtrlMsg line) as [m| |] eqn:E; [|done|pose proof (parse_typed line) as P; by rewrite E in P].
    apply parse_ok in E. rewrite bind_Ok. destruct (handle_msg_ok m t H E) as (t' & -> & Ht). rewrite bind_Ok. by exists t', (Some m).
Qed.

(** Nothing the modem sends closes the connection to it. *)
Lemma eof_closed t t' : eof t = Ok t' -> t'.(t_closed) = t.(t_closed).
Proof.
  unfold eof. destruct (t_data t); [|by intros [= <-]]. unfold close_chan. destruct (t_chans t !! t_dataIn t) as [[q []]|]; try done.
  rewrite bind_Ok. unfold signalClosed. destruct (deref _ _); cbn [mbind res_bind]; try done.
  destruct (close_flag _ _); cbn [mbind res_bind]; try done. by intros [= <-].
Qed.

Lemma handle_msg_closed m t t' : handle_msg m t = Ok t' -> t'.(t_closed) = t.(t_closed).
Proof.
  unfold handle_msg. destruct (streq _ _).
  { destruct (t_ptt t); [destruct (msg_Bool m); cbn [mbind res_bind]; try done|]; by intros [= <-]. }
  destruct (streq _ _); [intros E; by apply eof_closed in E|]. destruct (streq _ _).
  { destruct (msg_Int m) as [b| |]; cbn [mbind res_bind]; try done. unfold updateBuffer. destruct (t_data t); [|by intros [= <-]].
    destruct (deref _ t); cbn [mbind res_bind]; try done. destruct (if b =? 0 then _ else _); cbn [mbind res_bind]; try done. by intros [= <-]. }
  destruct (streq _ _).
  { destruct (msg_State m) as [s| |]; cbn [mbind res_bind]; try done. case_bool_decide; [intros E; by apply eof_closed in E|by intros [= <-]]. }
  destruct (streq _ _); [|by intros [= <-]]. destruct (msg_Bool m); cbn [mbind res_bind]; try done. by intros [= <-].
Qed.

Lemma handle_closed now f t t' o : handle now f t = Ok (t', o) -> t'.(t_closed) = t.(t_closed).
Proof.
  destruct f as [ty d|l]; cbn [handle].
  - destruct (ARQFrame ty).
    + destruct (t_connected t); cbn [negb]; [|by intros [= <- _]]. unfold send_chan.
      destruct (t_chans t !! t_dataIn t) as [[q []]|]; try done. destruct (_ <? _)%nat; rewrite bind_Ok; by intros [= <- _].
    + destruct (IDFrame ty); [|by intros [= <- _]]. destruct (parseIDFrame ty d) as [|[]]; by intros [= <- _].
  - destruct (parseCtrlMsg l); cbn [mbind res_bind]; try done. destruct (handle_msg _ t) eqn:E; cbn [mbind res_bind]; try done.
    apply handle_msg_closed in E. by intros [= <- _].
Qed.

(** *** Operations of the host

    [safe n m Q]: from a good world with at least [n] connections the operation
    does not panic, and when it returns the world is good and the result
    satisfies [Q]. *)
Definition world_ok (n : nat) (w : world) : Prop :=
  tnc_ok w.(w_tnc) /\ Forall input_ok w.(w_in) /\ (n <= length w.(w_tnc).(t_conns))%nat.

Definition safe {A} (n : nat) (m : host A) (Q : A -> Prop) : Prop := forall w, world_ok n w ->
  match m w with Ok (a, w') => world_ok n w' /\ Q a | Panic => False | NoFuel => True end.

Lemma bind_run {A B} (m : host A) (k : A -> host B) w :
  (m ≫= k) w = match m w with Ok (a, w') => k a w' | Panic => Panic | NoFuel => NoFuel end.
Proof. change ((m ≫= k) w) with (m w ≫= (fun r => k r.1 r.2)). by destruct (m w) as [[a w']| |]. Qed.

Create HintDb safe.

Section safe_rules.
Context {n : nat}.

Lemma safe_ret {A} (a : A) (Q : A -> Prop) : Q a -> safe n (mret a) Q.
Proof. intros H w Hw. exact (conj Hw H). Qed.

Lemma safe_bind {A B} (m : host A) (k : A -> host B) (Q : A -> Prop) (R : B -> Prop) :
  safe n m Q -> (forall a, Q a -> safe n (k a) R) -> safe n (m ≫= k) R.
Proof.
  intros Hm Hk w Hw. specialize (Hm w Hw). rewrite bind_run.
  destruct (m w) as [[a w']| |]; [|done..]. destruct Hm as [Hw' Ha]. by apply Hk.
Qed.

Lemma safe_weaken {A} (m : host A) (Q R : A -> Prop) : safe n m Q -> (forall a, Q a -> R a) -> safe n m R.
Proof. intros H HQ w Hw. specialize (H w Hw). destruct (m w) as [[a w']| |]; naive_solver. Qed.

Lemma safe_nofuel {A} (Q : A -> Prop) : safe n (fun _ => NoFuel) Q.
Proof. by intros w Hw. Qed.

Lemma safe_tnc : safe n tnc (fun t => tnc_ok t /\ (n <= length t.(t_conns))%nat).
Proof. intros w Hw. destruct Hw as (H1 & H2 & H3) eqn:E. exact (conj Hw (conj H1 H3)). Qed.

Lemma safe_set_tnc t : tnc_ok t -> (n <= length t.(t_conns))%nat -> safe n (set_tnc t) (fun _ => True).
Proof. intros H1 H2 w (H3 & H4 & H5). exact (conj (conj H1 (conj H4 H2)) I). Qed.

Lemma safe_Listen : safe n Listen (fun _ => True).
Proof. intros w Hw. unfold Listen. by destruct (t_closed _). Qed.

(** The same of an operation while the modem is there: it may send. *)
Definition opened {A} (m : host A) (Q : A -> Prop) : Prop := forall w, world_ok n w -> w.(w_tnc).(t_closed) = false ->
  match m w with Ok (a, w') => world_ok n w' /\ Q a | Panic => False | NoFuel => True end.

Lemma safe_opened {A} (m : host A) Q : safe n m Q -> opened m Q.
Proof. intros Hm w Hw _. by apply Hm. Qed.
Lemma safe_Listen_bind {A} (k : unit -> host A) Q : opened (k tt) Q -> safe n (Listen ≫= k) Q.
Proof. intros Hk w Hw. rewrite bind_run. unfold Listen. destruct (t_closed (w_tnc w)) eqn:E; [done|]. by apply Hk. Qed.
Lemma opened_bind {A B} (m : host A) (k : A -> host B) (Q : A -> Prop) (R : B -> Prop) :
  opened m Q -> (forall a, Q a -> safe n (k a) R) -> opened (m ≫= k) R.
Proof.
  intros Hm Hk w Hw Hc. specialize (Hm w Hw Hc). rewrite bind_run. destruct (m w) as [[a w']| |]; [|done..].
  destruct Hm as [Hw' Ha]. by apply Hk.
Qed.
Lemma opened_send {A} s (k : unit -> host A) Q : opened (k tt) Q -> opened (send s ≫= k) Q.
Proof. intros Hk w Hw Hc. rewrite bind_run. unfold send. rewrite Hc. by apply Hk. Qed.
Lemma opened_send_data {A} s (k : unit -> host A) Q : opened (k tt) Q -> opened (send_data s ≫= k) Q.
Proof. intros Hk w Hw Hc. rewrite bind_run. unfold send_data. rewrite Hc. by apply Hk. Qed.
Lemma safe_Listen_send {A} s (k : unit -> host A) Q : safe n (k tt) Q -> safe n (Listen ≫= (fun _ => send s ≫= k)) Q.
Proof. intros Hk. by apply safe_Listen_bind, opened_send, safe_opened. Qed.

Lemma safe_rounds {A} (k : nat -> host A) Q : (forall i, safe n (k i) Q) -> safe n (rounds k) Q.
Proof. intros H w Hw. by apply H. Qed.

Lemma safe_pure {A} (r : res A) (Q : A -> Prop) : (exists a, r = Ok a /\ Q a) -> safe n (pure r) Q.
Proof. intros (a & -> & H) w Hw. exact (conj Hw H). Qed.

(** A change of the state. *)
Lemma safe_on_tnc (f : TNC -> res TNC) :
  (forall t, tnc_ok t -> (n <= length t.(t_conns))%nat -> exists t', f t = Ok t' /\ keeps t t') ->
  safe n (on_tnc f) (fun _ => True).
Proof.
  intros Hf. unfold on_tnc. eapply safe_bind; [apply safe_tnc|]. intros t [Ht Hn].
  destruct (Hf t Ht Hn) as (t' & E & Ht' & Hl).
  apply safe_bind with (Q := keeps t); [apply safe_pure; exists t'; done|].
  intros t2 [H1 H2]. apply safe_set_tnc; [done|lia].
Qed.

Lemma world_keeps w t' rest : world_ok n w -> keeps (w_tnc w) t' -> Forall input_ok rest ->
  world_ok n (mkWorld t' rest (w_out w) (w_data w) (w_now w)).
Proof. intros (_ & _ & H) [H1 H2] H3. split; [exact H1|split; [exact H3|]]. cbn. lia. Qed.

Lemma safe_round : safe n round (fun o => match o with Some (Some m) => msg_ok m | _ => True end).
Proof.
  intros w Hw. pose proof Hw as (H1 & H2 & H3). unfold round. destruct (close_ok _ H1) as (tc & Ec & Hc).
  destruct (t_closed (w_tnc w)); [split; [|done]; split; [done|by split; [constructor|]]|].
  destruct (w_in w) as [|[e|f] rest]; [|apply Forall_cons_1 in H2 as [Hx H2]..].
  - rewrite Ec. split; [by apply world_keeps|done].
  - destruct e; first [rewrite Ec; split; [by apply world_keeps|done]|split; [|done]; by apply world_keeps].
  - destruct (handle_safe (w_now w) f (w_tnc w) H1 Hx) as (t' & o & -> & Ht & Ho).
    split; [by apply world_keeps|by destruct o].
Qed.

Lemma safe_recv_fuel f : safe n (recv_fuel f) (fun o => match o with Some m => msg_ok m | None => True end).
Proof.
  induction f as [|f IH]; cbn [recv_fuel]; [apply safe_nofuel|].
  eapply safe_bind; [apply safe_round|]. intros [[m|]|] H; [by apply safe_ret|exact IH|by apply safe_ret].
Qed.

Lemma safe_recv : safe n recv (fun o => match o with Some m => msg_ok m | None => True end).
Proof. apply safe_rounds. intros i. apply safe_recv_fuel. Qed.

(** Messages only come while the modem is there. *)
Lemma round_open w o w' : round w = Ok (Some o, w') -> w'.(w_tnc).(t_closed) = false.
Proof.
  unfold round. destruct (t_closed (w_tnc w)) eqn:Ec; [done|]. destruct (w_in w) as [|[e|f] rest]; [destruct (close _); cbn; done| |].
  - destruct e; try (by intros [= <- <-]). destruct (close _); cbn; done.
  - destruct (handle _ f _) as [[t o']| |] eqn:E; cbn; [|done..]. intros [= <- <-]. cbn. apply handle_closed in E. congruence.
Qed.
Lemma recv_fuel_open f w m w' : recv_fuel f w = Ok (Some m, w') -> w'.(w_tnc).(t_closed) = false.
Proof.
  revert w. induction f as [|f IH]; intros w; cbn [recv_fuel]; [done|]. rewrite bind_run.
  destruct (round w) as [[[[m'|]|] w1]| |] eqn:E; try done; [|apply IH]. intros [= -> ->]. by eapply round_open.
Qed.
Lemma recv_open w m w' : recv w = Ok (Some m, w') -> w'.(w_tnc).(t_closed) = false.
Proof. apply recv_fuel_open. Qed.

(** The loop with a timeout; its body only looks at the message. *)
Lemma opened_until {A} k (body : ctrlMsg -> host (option A)) (closed : A) (timeout : host A) (Q : A -> Prop) :
  (forall m, msg_ok m -> exists r, (forall w, body m w = Ok (r, w)) /\ match r with Some a => Q a | None => True end) -> Q closed ->
  opened timeout Q -> opened (until k body closed timeout) Q.
Proof.
  intros Hb Hc Ht. induction k as [|k IH]; cbn [until]; [exact Ht|]. intros w Hw Ho. rewrite bind_run.
  pose proof (safe_recv w Hw) as Hs. destruct (recv w) as [[[m|] w1]| |] eqn:E; [|exact (conj (proj1 Hs) Hc)|done..].
  destruct Hs as [Hw1 Hm]. destruct (Hb m Hm) as (r & Er & HQ). rewrite bind_run, Er. destruct r as [a|]; [by split|].
  apply IH; [done|by eapply recv_open].
Qed.

Lemma safe_msgs {A} (body : ctrlMsg -> host (option A)) (closed : A) (Q : A -> Prop) :
  (forall m, msg_ok m -> safe n (body m) (fun o => match o with Some a => Q a | None => True end)) -> Q closed ->
  safe n (msgs body closed) Q.
Proof.
  intros Hb Hc. apply safe_rounds. intros i. generalize (S i). clear i. intros f.
  induction f as [|f IH]; cbn [range_msgs]; [apply safe_nofuel|].
  eapply safe_bind; [apply safe_recv|]. intros [m|] Hm; [|by apply safe_ret].
  eapply safe_bind; [by apply Hb|]. intros [a|] Ha; [by apply safe_ret|exact IH].
Qed.
End safe_rules.

Lemma fault_string m : msg_ok m -> streq m.(cmd) cmdFault = true -> exists s, msg_String m = Ok s /\ True.
Proof. intros H E. apply streq_true in E. destruct (assert_String m H) as [s Hs]; [by rewrite E|]. by exists s. Qed.

(** One step through an operation. *)
Ltac step :=
  first
  [ apply safe_ret; done
  | apply safe_nofuel
  | apply safe_Listen_send
  | eapply safe_bind; [first [ apply safe_tnc | solve [eauto with safe] ]
                      |let H := fresh "H" in intros ? H; try destruct H as [? ?]] 
  | eapply safe_bind; [apply safe_pure; apply fault_string; done|intros ? _]
  | solve [eauto with safe]
  | match goal with |- safe _ (if ?b then _ else _) _ => destruct b eqn:? end
  | match goal with |- safe _ (match ?x with _ => _ end) _ => destruct x end ].

Lemma safe_set n c p : safe n (tnc_set c p) (fun _ => True).
Proof. unfold tnc_set. repeat step. apply safe_msgs; [|done]. intros m Hm. repeat step. Qed.
#[export] Hint Resolve safe_set : safe.

(** The value of a reply has the type of the command asked for. *)
Lemma safe_get n c : safe n (tnc_get c) (fun r => match r with inr v => value_kind v = cmd_kind c /\ v <> VList [] | inl _ => True end).
Proof.
  unfold tnc_get. repeat step. apply safe_msgs; [|done]. intros m Hm.
  destruct (streq (cmd m) c) eqn:E.
  - apply safe_ret. apply streq_true in E. destruct Hm as [H1 H2]. by rewrite E in H1.
  - repeat step.
Qed.
#[export] Hint Resolve safe_get : safe.

(** A reply of the right type. *)
Lemma reply_String v c : cmd_kind c = KString -> value_kind v = cmd_kind c /\ v <> VList [] -> exists s, msg_String (mkMsg c v) = Ok s /\ True.
Proof. intros Hc Hv. destruct (assert_String (mkMsg c v) Hv Hc) as [s ->]. by exists s. Qed.
Lemma reply_Bool v c : cmd_kind c = KBool -> value_kind v = cmd_kind c /\ v <> VList [] -> exists b, msg_Bool (mkMsg c v) = Ok b /\ True.
Proof. intros Hc Hv. destruct (assert_Bool (mkMsg c v) Hv Hc) as [s ->]. by exists s. Qed.
Lemma reply_State v c : cmd_kind c = KState -> value_kind v = cmd_kind c /\ v <> VList [] -> exists b, msg_State (mkMsg c v) = Ok b /\ True.
Proof. intros Hc Hv. destruct (assert_State (mkMsg c v) Hv Hc) as [s ->]. by exists s. Qed.
Lemma reply_Int v c : cmd_kind c = KInt -> value_kind v = cmd_kind c /\ v <> VList [] -> exists b, msg_Int (mkMsg c v) = Ok b /\ True.
Proof. intros Hc Hv. destruct (assert_Int (mkMsg c v) Hv Hc) as [s ->]. by exists s. Qed.

Lemma safe_getString n c : cmd_kind c = KString -> safe n (getString c) (fun _ => True).
Proof.
  intros Hc. unfold getString. eapply safe_bind; [apply safe_get|]. intros [e|v] Hv; [by apply safe_ret|].
  eapply safe_bind; [by apply safe_pure, reply_String|]. intros. by apply safe_ret.
Qed.
Lemma safe_getBool n c : cmd_kind c = KBool -> safe n (getBool c) (fun _ => True).
Proof.
  intros Hc. unfold getBool. eapply safe_bind; [apply safe_get|]. intros [e|v] Hv; [by apply safe_ret|].
  eapply safe_bind; [by apply safe_pure, reply_Bool|]. intros. by apply safe_ret.
Qed.
Lemma safe_getState n : safe n getState (fun _ => True).
Proof.
  unfold getState. eapply safe_bind; [apply safe_get|]. intros [e|v] Hv; [by apply safe_ret|].
  eapply safe_bind; [by apply safe_pure, reply_State|]. intros. by apply safe_ret.
Qed.
Lemma safe_getInt n c : cmd_kind c = KInt -> safe n (getInt c) (fun _ => True).
Proof.
  intros Hc. unfold getInt. eapply safe_bind; [apply safe_get|]. intros [e|v] Hv; [by apply safe_ret|].
  eapply safe_bind; [by apply safe_pure, reply_Int|]. intros. by apply safe_ret.
Qed.

Lemma safe_fields n (f : TNC -> TNC) :
  (forall t, tnc_ok t -> keeps t (f t)) -> safe n (on_tnc (fun t => Ok (f t))) (fun _ => True).
Proof. intros H. apply safe_on_tnc. intros t Ht _. exists (f t). auto. Qed.

#[export] Hint Resolve safe_getState : safe.
#[export] Hint Extern 1 (safe _ (getString _) _) => apply safe_getString; reflexivity : safe.
#[export] Hint Extern 1 (safe _ (getBool _) _) => apply safe_getBool; reflexivity : safe.
#[export] Hint Extern 1 (safe _ (getInt _) _) => apply safe_getInt; reflexivity : safe.
#[export] Hint Extern 1 (safe _ (on_tnc (fun t => Ok _)) _) => apply safe_fields; intros; keeps_same : safe.

Lemma safe_or_fail n m wrap k : safe n m (fun _ => True) -> safe n k (fun _ => True) -> safe n (or_fail m wrap k) (fun _ => True).
Proof. intros Hm Hk. unfold or_fail. eapply safe_bind; [exact Hm|]. intros [e|] _; [by apply safe_ret|exact Hk]. Qed.

Lemma safe_init n fsk : safe n (init fsk) (fun _ => True).
Proof.
  unfold init. apply safe_or_fail; [apply safe_set|]. eapply safe_bind; [apply safe_getState|]. intros [e|s] _; [by apply safe_ret|].
  eapply safe_bind; [apply safe_fields; intros; keeps_same|]. intros _ _.
  unfold SetCodec, SetARQTimeout, SetListenEnabled, setFSKOnly.
  apply safe_or_fail; [destruct (bool_decide (s = Offline)); [apply safe_set|exact (safe_ret None _ I)]|].
  do 3 (apply safe_or_fail; [apply safe_set|]).
  destruct fsk; [apply safe_or_fail; [apply safe_set|]|]; exact (safe_ret None _ I).
Qed.

Lemma safe_open n fsk mycall grid : safe n (tnc_open fsk mycall grid) (fun _ => True).
Proof. unfold tnc_open. apply safe_or_fail; [apply safe_init|]. unfold SetMycall, SetGridSquare.
  do 2 (apply safe_or_fail; [apply safe_set|]). exact (safe_ret None _ I). Qed.

Lemma safe_eof n : safe n (on_tnc eof) (fun _ => True).
Proof. apply safe_on_tnc. intros t Ht _. destruct (eof_ok t Ht) as (t' & ? & ? & _). by exists t'. Qed.
#[export] Hint Resolve safe_eof : safe.

Lemma safe_Disconnect n : safe n Disconnect (fun _ => True).
Proof. unfold Disconnect. repeat step. apply safe_msgs; [|done]. intros m Hm. repeat step. Qed.
#[export] Hint Resolve safe_Disconnect : safe.

Lemma safe_arqCall `{Fmt} n target k : safe n (arqCall target k) (fun _ => True).
Proof. unfold arqCall. repeat step. apply safe_msgs; [|done]. intros m Hm. repeat step. Qed.
#[export] Hint Resolve safe_arqCall : safe.

Lemma safe_Bandwidth n bw : safe n (SetARQBandwidth bw) (fun _ => True).
Proof. unfold SetARQBandwidth. apply safe_set. Qed.
Lemma safe_run_defers n d : safe n (run_defers d) (fun _ => True).
Proof. induction d as [|bw d IH]; cbn [run_defers]; [by apply safe_ret|]. eapply safe_bind; [apply safe_Bandwidth|]. intros _ _. exact IH. Qed.
#[export] Hint Resolve safe_run_defers : safe.

Lemma safe_ARQBandwidth n : safe n ARQBandwidth (fun _ => True).
Proof. unfold ARQBandwidth. repeat step. Qed.
Lemma safe_MyCall n : safe n MyCall (fun _ => True).
Proof. by apply safe_getString. Qed.
#[export] Hint Resolve safe_Bandwidth safe_ARQBandwidth safe_MyCall : safe.

Lemma safe_new_conn n t r l d : tnc_ok t -> (n <= length t.(t_conns))%nat -> safe n (set_tnc (new_conn r l d t)) (fun _ => True).
Proof. intros Ht Hn. apply safe_set_tnc; [by apply new_conn_ok|]. cbn. rewrite length_app. cbn. lia. Qed.

Lemma safe_Dial `{Fmt} n target bw : safe n (DialBandwidth target bw) (fun _ => True).
Proof.
  unfold DialBandwidth. eapply safe_bind; [apply safe_tnc|]. intros t _. destruct (t_closed t); [by apply safe_ret|].
  apply safe_bind with (Q := fun _ => True).
  { destruct (bw_IsZero bw); [by apply safe_ret|]. eapply safe_bind; [apply safe_ARQBandwidth|]. intros [e|cur] _; repeat step. }
  intros [e|d] _; [by apply safe_ret|]. eapply safe_bind; [apply safe_arqCall|]. intros [e|] _; [repeat step|].
  eapply safe_bind; [apply safe_MyCall|]. intros [e|me] _; [repeat step|].
  eapply safe_bind; [apply safe_tnc|]. intros t' [Ht Hn]. eapply safe_bind; [by apply safe_new_conn|]. intros _ _. by apply safe_ret.
Qed.

Lemma safe_close n : safe n (on_tnc close) (fun _ => True).
Proof. apply safe_on_tnc. intros t Ht _. by apply close_ok. Qed.

Lemma safe_Close n : safe n tnc_Close (fun _ => True).
Proof.
  unfold tnc_Close. eapply safe_bind; [apply safe_tnc|]. intros t _. destruct (t_closed t); [by apply safe_ret|].
  unfold SetListenEnabled. apply safe_or_fail; [apply safe_set|]. apply safe_or_fail; [apply safe_Disconnect|].
  eapply safe_bind; [apply safe_close|]. intros _ _. by apply safe_ret.
Qed.

Lemma safe_TncListen n : safe n tnc_Listen (fun _ => True).
Proof.
  unfold tnc_Listen, SetListenEnabled. repeat step.
Qed.

Lemma listen_msg_ok target m t : tnc_ok t -> msg_ok m ->
  exists r, listen_msg target m t = Ok r /\ tnc_ok r.2 /\ (length t.(t_conns) <= length r.2.(t_conns))%nat.
Proof.
  intros Ht Hm. unfold listen_msg. destruct (_ || _); [by eexists|]. destruct (streq (cmd m) cmdTarget) eqn:E1.
  { apply streq_true in E1. destruct (assert_String m Hm) as [s ->]; [by rewrite E1|]. by eexists. }
  destruct (streq (cmd m) cmdConnected) eqn:E2; [|by eexists]. destruct target; [by eexists|].
  apply streq_true in E2. destruct (assert_List m Hm) as (x & l & ->); [by rewrite E2|]. rewrite bind_Ok.
  change (idx (x :: l) 0) with (Ok x). rewrite bind_Ok. eexists. split; [done|]. cbn [snd]. split.
  - pose proof (new_conn_ok t x (z :: target) [] Ht). ok_same.
  - cbn. rewrite length_app. cbn. lia.
Qed.

Lemma safe_accept_fuel n f target : safe n (accept_fuel f target) (fun _ => True).
Proof.
  revert target. induction f as [|f IH]; intros target; cbn [accept_fuel]; [apply safe_nofuel|].
  eapply safe_bind; [apply safe_recv|]. intros [m|] Hm; [|by apply safe_ret].
  eapply safe_bind; [apply safe_tnc|]. intros t [Ht Hn]. destruct (listen_msg_ok target m t Ht Hm) as (r & E & H1 & H2).
  apply safe_bind with (Q := fun r => tnc_ok r.2 /\ (length t.(t_conns) <= length r.2.(t_conns))%nat);
    [apply safe_pure; by exists r|]. intros [[tc o] t'] [H3 H4]. cbn [snd] in *.
  eapply safe_bind; [apply safe_set_tnc; [done|lia]|]. intros _ _. destruct o; [by apply safe_ret|apply IH].
Qed.

(** Accepting does not close the listener. *)
Lemma safe_Accept n l : safe n (Accept l) (fun r => r.2.(ln_quit) = l.(ln_quit)).
Proof.
  unfold Accept. destruct l as [q d]. cbn [ln_quit ln_done]. destruct d; [by apply safe_ret|]. destruct q.
  - eapply safe_bind; [apply safe_set|]. intros _ _. eapply safe_bind; [apply safe_fields; intros; keeps_same|]. intros _ _. by apply safe_ret.
  - eapply safe_bind; [apply safe_rounds; intros; apply safe_accept_fuel|]. intros [c|] _; [by apply safe_ret|].
    eapply safe_bind; [apply safe_fields; intros; keeps_same|]. intros _ _. by apply safe_ret.
Qed.

(** *** Operations on a connection *)
Section conn_safe.
Context {n c : nat} (Hc : (c < n)%nat).
#[local] Set Default Proof Using "All".

Lemma safe_deref t : tnc_ok t -> (n <= length t.(t_conns))%nat ->
  safe n (pure (deref c t)) (fun x => t.(t_conns) !! c = Some x).
Proof.
  intros Ht Hn. apply safe_pure. unfold deref. destruct (lookup_lt_is_Some_2 (t_conns t) c) as [x Hx]; [lia|].
  rewrite Hx. by exists x.
Qed.

(** A change of the lock and the counters of the connection. *)
Lemma safe_conn (f : tncConn -> lock) g h : (forall x, lock_ok x.(c_flush) -> lock_ok (f x)) ->
  safe n (on_tnc (fun t => x ← deref c t; mret (put c (mkConn x.(c_remote) x.(c_local) x.(c_dataIn) x.(c_eof)
    x.(c_isTCP) x.(c_onClose) (f x) (g x) (h x)) t))) (fun _ => True).
Proof.
  intros Hf. apply safe_on_tnc. intros t Ht Hn. unfold deref.
  destruct (lookup_lt_is_Some_2 (t_conns t) c) as [x Hx]; [lia|]. rewrite Hx, bind_Ok. eexists. split; [done|].
  split; [|cbn; by rewrite length_insert]. apply put_ok; [done..|]. by apply Hf, (deref_ok t c x).
Qed.

Lemma safe_is_eof : safe n (is_eof c) (fun _ => True).
Proof. unfold is_eof. step. eapply safe_bind; [by apply safe_deref|]. intros x _. by apply safe_ret. Qed.

Lemma safe_is_flushed ch : safe n (is_flushed c ch) (fun _ => True).
Proof. unfold is_flushed. step. eapply safe_bind; [by apply safe_deref|]. intros x _. by apply safe_ret. Qed.

Lemma safe_await f : safe n (await_buffer f c) (fun _ => True).
Proof.
  induction f as [|f IH]; cbn [await_buffer]; [apply safe_nofuel|]. eapply safe_bind; [apply safe_is_eof|].
  intros [] _; [by apply safe_ret|]. eapply safe_bind; [apply safe_recv|]. intros [m|] _; [|exact IH].
  destruct (streq _ _); [by apply safe_ret|]. destruct (streq _ _); [by apply safe_ret|exact IH].
Qed.

(** A frame is only sent again when the modem has asked for it. *)
Lemma await_open f w w' : await_buffer f c w = Ok (GotCRCFault, w') -> w'.(w_tnc).(t_closed) = false.
Proof.
  clear Hc. revert w. induction f as [|f IH]; intros w; cbn [await_buffer]; [done|]. rewrite bind_run.
  destruct (is_eof c w) as [[[] w1]| |]; try done. rewrite bind_run. destruct (recv w1) as [[[m|] w2]| |] eqn:E; try done; [|apply IH].
  destruct (streq _ _); [done|]. destruct (streq _ _); [intros [= <-]; by eapply recv_open|apply IH].
Qed.

Lemma count_open len w r w' : on_tnc (count_written c len) w = Ok (r, w') -> w'.(w_tnc).(t_closed) = w.(w_tnc).(t_closed).
Proof.
  clear Hc. unfold on_tnc. rewrite bind_run. change (tnc w) with (Ok (w_tnc w, w)). cbv beta iota. rewrite bind_run. unfold count_written.
  destruct (deref c (w_tnc w)) as [x| |]; [|done..]. cbn. by intros [= <- <-].
Qed.

Lemma opened_tries k buf len : opened (n := n) (write_tries k c buf len) (fun _ => True).
Proof.
  induction k as [|k IH]; cbn [write_tries]; [by apply safe_opened, safe_ret|]. apply opened_send_data. intros w Hw Ho. rewrite bind_run.
  assert (Hs : safe n (on_tnc (count_written c len)) (fun _ => True))
    by (by apply (safe_conn c_flush c_buffer (fun x => c_nWritten x + len))).
  specialize (Hs w Hw). destruct (on_tnc (count_written c len) w) as [[[] w1]| |] eqn:E1; [|done..]. destruct Hs as [Hw1 _].
  rewrite bind_run. pose proof (safe_rounds (fun n => await_buffer (S (S n)) c) (fun _ => True) (fun i => safe_await _) w1 Hw1) as Ha.
  destruct (rounds (fun n => await_buffer (S (S n)) c) w1) as [[e w2]| |] eqn:E2; [|exact Ha|done]. destruct Ha as [Hw2 _].
  destruct e.
  - assert (Hk : safe n (on_tnc (lock_flush c);; mret (len, @None error)) (fun _ => True)); [|by apply Hk].
    eapply safe_bind; [by apply (safe_conn (fun x => Lock (c_flush x)) c_buffer c_nWritten); intros; apply Lock_ok|].
    intros _ _. by apply safe_ret.
  - apply IH; [done|]. unfold rounds in E2. by eapply await_open.
  - by split.
Qed.

Lemma safe_Write p : safe n (conn_Write c p) (fun _ => True).
Proof.
  unfold conn_Write. step. eapply safe_bind; [by apply safe_deref|]. intros x _. apply safe_Listen_bind, opened_tries.
Qed.

Lemma safe_wait_chan : safe n (wait_chan c) (fun _ => True).
Proof.
  unfold wait_chan. step. eapply safe_bind; [by apply safe_deref|]. intros x Hx.
  destruct (WaitChan (c_flush x)) as [ch fl] eqn:E. eapply safe_bind; [|intros; by apply safe_ret].
  apply safe_set_tnc; [|cbn; by rewrite length_insert]. apply put_ok; [done..|].
  destruct (deref_ok _ _ _ H Hx) as [Hl _]. revert E. unfold WaitChan. destruct (wait (c_flush x)) eqn:Ew; intros [= <- <-]; [done|].
  intros d. cbn [waits wait]. split; [|done]. intros Hd. apply lookup_app_Some in Hd as [Hd|[_ Hd]].
  - apply Hl in Hd. congruence.
  - by destruct (d - length (waits (c_flush x)))%nat.
Qed.

Lemma safe_round_any {A} (m : host A) Q : safe n m Q -> safe n (round;; m) Q.
Proof. intros H. eapply safe_bind; [apply safe_round|]. by intros _ _. Qed.

Lemma safe_Flush : safe n (Flush c) (fun _ => True).
Proof.
  unfold Flush. eapply safe_bind; [apply safe_wait_chan|]. intros ch _. apply safe_rounds. intros i. generalize (S (S i)). clear i.
  intros f. induction f as [|f IH]; cbn [flush_fuel]; [apply safe_nofuel|].
  eapply safe_bind; [apply safe_is_flushed|]. intros [] _; [by apply safe_ret|].
  eapply safe_bind; [apply safe_is_eof|]. intros [] _; [by apply safe_ret|by apply safe_round_any].
Qed.

Lemma safe_conn_Close t1 t2 : safe n (conn_Close t1 t2 c) (fun _ => True).
Proof.
  unfold conn_Close. step. eapply safe_bind; [by apply safe_deref|]. intros x _.
  eapply safe_bind; [apply safe_wait_chan|]. intros ch _. apply safe_bind with (Q := fun _ => True).
  { apply safe_rounds. intros f. generalize (f `min` t1)%nat. clear f. intros f.
    induction f as [|f IH]; cbn [drain_fuel]; [by apply safe_ret|].
    eapply safe_bind; [apply safe_is_flushed|]. intros [] _; [by apply safe_ret|by apply safe_round_any]. }
  intros _ _. apply safe_Listen_bind, opened_send. apply opened_bind with (Q := fun _ => True).
  - apply opened_until; [|done|by apply opened_send, safe_opened, safe_ret]. intros m Hm. destruct (streq _ _); [by eexists|].
    destruct (streq (cmd m) cmdNewState) eqn:E; [|by eexists]. apply streq_true in E.
    destruct (assert_State m Hm) as [s Hs]; [by rewrite E|]. rewrite Hs.
    exists (if bool_decide (s = Disconnected) then Some None else None). split; [|by case_bool_decide].
    intros w. rewrite bind_run. change (pure (Ok s) w) with (Ok (s, w)). cbv beta iota. by case_bool_decide.
  - intros e _. eapply safe_bind; [apply safe_run_defers|]. intros _ _. by apply safe_ret.
Qed.

Lemma safe_read f : safe n (read_fuel f c) (fun r => match r with inr d => zlen d <= MaxData | inl _ => True end).
Proof.
  induction f as [|f IH]; cbn [read_fuel]; [apply safe_nofuel|]. eapply safe_bind; [apply safe_tnc|]. intros t [Ht Hn].
  eapply safe_bind; [by apply safe_deref|]. intros x Hx. destruct (deref_ok _ _ _ Ht Hx) as [_ Hd].
  destruct (lookup_lt_is_Some_2 _ _ Hd) as [[q b] Hq]. rewrite Hq.
  pose proof (Forall_lookup_1 _ _ _ _ (ok_chans t Ht) Hq) as Hk. cbn in Hk.
  destruct q as [|d q]; [destruct b; [by apply safe_ret|by apply safe_round_any]|].
  apply Forall_cons_1 in Hk as [Hd' Hk]. eapply safe_bind; [|intros; by apply safe_ret].
  apply safe_set_tnc; [|done]. destruct Ht as [H1 H2 H3 H4]. constructor; cbn; [|done|by rewrite length_insert|by apply Forall_insert].
  destruct H1 as [q' Hq']. destruct (decide (c_dataIn x = t_dataIn t)) as [E|].
  - rewrite E in *. rewrite Hq in Hq'. injection Hq' as <- ->. rewrite list_lookup_insert_eq by (by apply lookup_lt_is_Some; eexists). by eexists.
  - rewrite list_lookup_insert_ne by done. by eexists.
Qed.

Lemma safe_Read k : k = 0 \/ MaxData <= k -> safe n (conn_Read c k) (fun _ => True).
Proof.
  intros Hk. unfold conn_Read. destruct (Z.eqb_spec k 0); [by apply safe_ret|]. destruct Hk as [|Hk]; [done|].
  eapply safe_bind; [apply safe_rounds; intros; apply safe_read|]. intros [e|d] Hd; [by apply safe_ret|].
  destruct (Z.ltb_spec k (zlen d)); [lia|by apply safe_ret].
Qed.
End conn_safe.

(** *** Any sequence of operations

    They come one after another; connections and listeners are named by their place
    among those there are. *)
Inductive operation :=
| Do_open (fskonly : bool) (mycall gridSquare : gostr)
| Do_set (c : gostr) (param : option gostr)
| Do_ping | Do_bandwidth | Do_timeout | Do_cwid
| Do_dial (targetcall : gostr) (bw : Bandwidth)
| Do_listen | Do_accept (l : nat) | Do_close_listener (l : nat) | Do_disconnect | Do_close
| Do_read (c : nat) (n : Z) | Do_write (c : nat) (p : gostr) | Do_flush (c : nat) | Do_close_conn (c t1 t2 : nat).

Definition ignore {A} (m : host A) : host unit := m ≫= (fun _ => mret tt).

Definition on_conn {A} (c : nat) (m : host A) : host unit :=
  t ← tnc; if (c <? length t.(t_conns))%nat then ignore m else mret tt.

Definition perform_one `{Fmt} (o : operation) : host unit :=
  match o with
  | Do_open f mycall grid => ignore (tnc_open f mycall grid)
  | Do_set c p => ignore (tnc_set c p)
  | Do_ping => ignore Ping
  | Do_bandwidth => ignore ARQBandwidth
  | Do_timeout => ignore ARQTimeout
  | Do_cwid => ignore CWID
  | Do_dial target bw => ignore (DialBandwidth target bw)
  | Do_disconnect => ignore Disconnect
  | Do_close => ignore tnc_Close
  | Do_read c n => on_conn c (conn_Read c n)
  | Do_write c p => on_conn c (conn_Write c p)
  | Do_flush c => on_conn c (Flush c)
  | Do_close_conn c t1 t2 => on_conn c (conn_Close t1 t2 c)
  | Do_listen | Do_accept _ | Do_close_listener _ => mret tt
  end.

Definition perform `{Fmt} (o : operation) (lns : list listener) : host (list listener) :=
  match o with
  | Do_listen => r ← tnc_Listen; mret (match r with inr _ => lns ++ [mkListener false false] | inl _ => lns end)
  | Do_accept l => match lns !! l with Some ln => r ← Accept ln; mret (<[l := r.2]> lns) | None => mret lns end
  | Do_close_listener l => match lns !! l with Some ln => ln ← pure (listener_Close ln); mret (<[l := ln]> lns) | None => mret lns end
  | _ => perform_one o;; mret lns
  end.

Fixpoint perform_all `{Fmt} (os : list operation) (lns : list listener) : host unit :=
  match os with [] => mret tt | o :: os => lns ← perform o lns; perform_all os lns end.

(** A read has a buffer that holds any frame. *)
Definition roomy (o : operation) : Prop := match o with Do_read _ n => n = 0 \/ MaxData <= n | _ => True end.
Definition closes_listener (o : operation) : option nat := match o with Do_close_listener l => Some l | _ => None end.

Lemma safe_ignore {A} n (m : host A) Q : safe n m Q -> safe n (ignore m) (fun _ => True).
Proof. intros H. eapply safe_bind; [exact H|]. intros. by apply safe_ret. Qed.

Lemma safe_on_conn {A} c (m : host A) Q : (forall n, (c < n)%nat -> safe n m Q) -> safe 0 (on_conn c m) (fun _ => True).
Proof.
  intros H w Hw. unfold on_conn. rewrite bind_run. change (tnc w) with (Ok (w_tnc w, w)). cbv beta iota.
  destruct (Nat.ltb_spec c (length (t_conns (w_tnc w)))) as [Hc|]; [|exact (conj Hw I)].
  pose proof (safe_ignore (length (t_conns (w_tnc w))) m Q (H _ Hc) w) as Hs.
  destruct Hw as (H1 & H2 & _). specialize (Hs (conj H1 (conj H2 (le_n _)))).
  destruct (ignore m w) as [[a w']| |]; [|done..]. destruct Hs as ((H3 & H4 & _) & _).
  split; [|done]. split; [done|split; [done|lia]].
Qed.

Lemma safe_perform_one `{Fmt} o : roomy o -> safe 0 (perform_one o) (fun _ => True).
Proof.
  intros Hr. destruct o; cbn [perform_one roomy] in *; try (by apply safe_ret).
  - eapply safe_ignore, safe_open.
  - eapply safe_ignore, safe_set.
  - apply safe_ignore with (Q := fun _ => True). unfold Ping. repeat step.
  - eapply safe_ignore, safe_ARQBandwidth.
  - apply safe_ignore with (Q := fun _ => True). unfold ARQTimeout. repeat step.
  - eapply safe_ignore. by apply safe_getBool.
  - eapply safe_ignore, safe_Dial.
  - eapply safe_ignore, safe_Disconnect.
  - eapply safe_ignore, safe_Close.
  - eapply safe_on_conn. intros m Hm. apply (safe_Read Hm). exact Hr.
  - eapply safe_on_conn. intros m Hm. apply (safe_Write Hm).
  - eapply safe_on_conn. intros m Hm. apply (safe_Flush Hm).
  - eapply safe_on_conn. intros m Hm. apply (safe_conn_Close Hm).
Qed.

(** The listeners that were closed. *)
Definition quits (lns : list listener) (l : nat) : Prop := exists ln, lns !! l = Some ln /\ ln.(ln_quit) = true.

Lemma safe_perform `{Fmt} o lns : roomy o -> (forall l, closes_listener o = Some l -> ~ quits lns l) ->
  safe 0 (perform o lns) (fun lns' => forall l, quits lns' l -> quits lns l \/ closes_listener o = Some l).
Proof.
  intros Hr Hq. pose proof (safe_perform_one o Hr) as Hs.
  destruct o as [| | | | | | | |l|l| | | | | | ]; cbn [perform closes_listener] in *;
    try (eapply safe_bind; [exact Hs|]; intros _ _; apply safe_ret; by left).
  - eapply safe_bind; [apply safe_TncListen|]. intros r _. apply safe_ret. intros l (ln & E & Eq). left. exists ln. split; [|done].
    destruct r; [done|]. apply lookup_app_Some in E as [E|[_ E]]; [done|]. destruct (l - length lns)%nat; [|done]. by injection E as <-.
  - destruct (lns !! l) as [ln|] eqn:El; [|apply safe_ret; by left]. eapply safe_bind; [apply safe_Accept|]. intros r Er.
    apply safe_ret. intros k (ln' & E & Eq). left. apply list_lookup_insert_Some in E as [(-> & <- & _)|(_ & E)]; [|by exists ln'].
    exists ln. split; [done|congruence].
  - destruct (lns !! l) as [ln|] eqn:El; [|apply safe_ret; by left].
    assert (Eq : ln_quit ln = false) by (destruct (ln_quit ln) eqn:E; [destruct (Hq l eq_refl); by exists ln|done]).
    eapply safe_bind with (Q := fun _ => True); [apply safe_pure; unfold listener_Close; rewrite Eq; by eexists|]. intros ln' _.
    apply safe_ret. intros k (ln2 & E & E2). apply list_lookup_insert_Some in E as [(-> & _ & _)|(_ & E)]; [by right|left; by exists ln2].
Qed.

Lemma safe_perform_all `{Fmt} os lns : Forall roomy os -> NoDup (omap closes_listener os) ->
  (forall l, l ∈ omap closes_listener os -> ~ quits lns l) -> safe 0 (perform_all os lns) (fun _ => True).
Proof.
  intros Hr. revert lns. induction Hr as [|o os Ho Hr IH]; intros lns Hd Hq; cbn [perform_all]; [by apply safe_ret|].
  cbn [omap list_omap] in Hd, Hq. eapply safe_bind; [apply safe_perform; [done|]|].
  - intros l E. rewrite E in Hq. apply Hq. by left.
  - intros lns' Hl. cbv beta in Hl. destruct (closes_listener o) as [l|].
    + apply NoDup_cons in Hd as [Hn Hd]. apply IH; [done|]. intros k Hk [Hk'|[= ->]]%Hl; [|done]. apply (Hq k); [by right|done].
    + apply IH; [done|]. intros k Hk [Hk'|?]%Hl; [|done]. by apply (Hq k).
Qed.


(** A printer for the witnesses: a percent sign is doubled away. *)
Fixpoint Sprintf_simple (s : gostr) : gostr :=
  match s with
  | 37 :: 37 :: s => 37 :: Sprintf_simple s
  | 37 :: c :: s => str "%!" ++ [c] ++ str "(MISSING)" ++ Sprintf_simple s
  | [37] => str "%!(NOVERB)"
  | c :: s => c :: Sprintf_simple s
  | [] => []
  end.

Lemma Sprintf_simple_plain s : 37 ∉ s -> Sprintf_simple s = s.
Proof.
  induction s as [|c s IH]; intros H; [done|]. apply not_elem_of_cons in H as [H1 H2]. specialize (IH H2).
  assert (Sprintf_simple (c :: s) = c :: Sprintf_simple s) as ->; [|by rewrite IH].
  destruct c as [|c|c]; try done. do 6 (destruct c as [c|c|]; try done).
Qed.
Definition simple_fmt : Fmt := {| Sprintf := Sprintf_simple; Sprintf_plain := Sprintf_simple_plain |}.

(** A modem that answers the commands of [tnc_open], a dial and a write. *)
Definition sample_input : list (error + frame) :=
  (fun s => inr (cmdFrame (str s))) <$>
  ["INITIALIZE"; "STATE DISC"; "PROTOCOLMODE now ARQ"; "ARQTIMEOUT now 90"; "LISTEN now false"; "MYCALL now LA5NTA";
   "GRIDSQUARE now JP20QE"; "MYCALL now LA5NTA"; "LISTEN now true"; "NEWSTATE ISS"; "CONNECTED LA1B 500"; "MYCALL LA5NTA";
   "BUFFER 5"; "BUFFER 0"; "DISCONNECTED"]%string.

Definition sample_operations : list operation :=
  [Do_open false (str "LA5NTA") (str "JP20QE"); Do_listen; Do_close_listener 0; Do_dial (str "LA1B") (mkBW false 0); Do_write 0 (str "hello");
   Do_flush 0; Do_read 0 65536; Do_close_conn 0 1 0; Do_close].


(** A listener that is closed twice. *)
Example listener_closed_twice : @perform_all simple_fmt [Do_listen; Do_close_listener 0; Do_close_listener 0] []
  (mkWorld (newTNC true) ((fun s => inr (cmdFrame (str s))) <$> ["MYCALL LA5NTA"; "LISTEN now true"]%string) [] [] 0) = Panic.
Proof. vm_compute. reflexivity. Qed.
