(* ===== verification/ArdopConn.v ===== *)
(** Theorems on an ARDOP connection: received data is read in order, up to the
    disconnect; a dial leaves the bandwidth as it was unless it succeeds; a write
    sends the frame at most three times. *)
From S2P Require Import Prelude Crc GoStr Helpers Bufio ArdopFrame ArdopWire ArdopTNC ArdopSafety.
From stdpp Require Import gmap.
#[local] Open Scope Z_scope.

(** ** Reading *)

(** A frame that neither carries data for the connection nor ends it. *)
Definition quiet_frame (f : frame) : Prop :=
  match f with
  | dFrame ty _ => ARQFrame ty = false
  | cmdFrame l => exists m, parseCtrlMsg l = Ok m /\ m.(cmd) <> cmdDisconnected /\ m.(val) <> VState Disconnected
  end.

(** The connection is the current one, its queue is [q]. *)
Definition linked (c : nat) (q : list gostr) (t : TNC) : Prop :=
  tnc_ok t /\ t.(t_closed) = false /\ t.(t_data) = Some c /\ t.(t_connected) = true /\ t.(t_chans) !! t.(t_dataIn) = Some (mkChan q false).

Lemma streq_false a b : a <> b -> streq a b = false.
Proof. apply bool_decide_eq_false_2. Qed.

Lemma quiet_msg m c q t : linked c q t -> msg_ok m -> m.(cmd) <> cmdDisconnected -> m.(val) <> VState Disconnected ->
  exists t', handle_msg m t = Ok t' /\ linked c q t'.
Proof.
  intros (H & Ho & Hd & Hc & Hq) Hm N1 N2. destruct (handle_msg_ok m t H Hm) as (t' & E & Hk & _). exists t'. split; [done|].
  split; [done|]. revert E. unfold handle_msg. rewrite (streq_false _ _ N1).
  destruct (streq (cmd m) cmdPTT).
  { destruct (t_ptt t); [destruct (msg_Bool m); cbn [mbind res_bind]; try done|]; intros [= <-]; done. }
  destruct (streq (cmd m) cmdBuffer).
  { destruct (msg_Int m) as [b| |]; cbn [mbind res_bind]; try done. rewrite Hd. unfold updateBuffer.
    destruct (deref c t); cbn [mbind res_bind]; try done. destruct (if b =? 0 then _ else _); cbn [mbind res_bind]; try done.
    intros [= <-]. done. }
  destruct (streq (cmd m) cmdNewState).
  { unfold msg_State. destruct (val m) as [| |s| | |]; cbn [mbind res_bind]; try done.
    rewrite bool_decide_eq_false_2 by congruence. intros [= <-]. done. }
  destruct (streq (cmd m) cmdBusy); [|intros [= <-]; done].
  destruct (msg_Bool m); cbn [mbind res_bind]; try done. intros [= <-]. done.
Qed.

Lemma quiet_handle now f c q t : linked c q t -> quiet_frame f -> exists t' o, handle now f t = Ok (t', o) /\ linked c q t'.
Proof.
  intros Hl Hf. destruct f as [ty d|l]; cbn [handle quiet_frame] in *.
  - rewrite Hf. destruct (IDFrame ty); [|by exists t, None]. destruct (parseIDFrame ty d) as [|[call g]]; [by exists t, None|].
    eexists _, None. split; [done|]. destruct Hl as (H & Ho & Hd & Hc & Hq). split; [ok_same|done].
  - destruct Hf as (m & E & N1 & N2). rewrite E, bind_Ok. apply parse_ok in E.
    destruct (quiet_msg m c q t Hl E N1 N2) as (t' & -> & H'). by exists t', (Some m).
Qed.

Lemma data_handle now d c q t : linked c q t -> zlen d <= MaxData -> (length q < capacity)%nat ->
  exists t', handle now (dFrame (str "ARQ") d) t = Ok (t', None) /\ linked c (q ++ [d]) t'.
Proof.
  intros (H & Ho & Hd & Hc & Hq) Hz Hcap. destruct (handle_safe now (dFrame (str "ARQ") d) t H Hz) as (t' & o & E & [Hk _] & _).
  cbn [handle] in E |- *. change (ARQFrame (str "ARQ")) with true in *. rewrite Hc in *. cbn [negb] in *. unfold send_chan in *. rewrite Hq in *.
  apply Nat.ltb_lt in Hcap. rewrite Hcap in *. cbn [mbind res_bind] in *. injection E as <- <-.
  eexists. split; [done|]. split; [done|]. cbn. split_and!; [done..|].
  rewrite list_lookup_insert_eq; [done|]. by apply lookup_lt_is_Some; eexists.
Qed.

(** The world with other frames to come. *)
Definition with_in (t : TNC) (i : list (error + frame)) (w : world) : world :=
  mkWorld t i w.(w_out) w.(w_data) w.(w_now).

Lemma round_frame f rest w t o : w.(w_in) = inr f :: rest -> handle w.(w_now) f w.(w_tnc) = Ok (t, o) ->
  w.(w_tnc).(t_closed) = false -> round w = Ok (Some o, with_in t rest w).
Proof. intros E H Hc. unfold round. by rewrite Hc, E, H. Qed.

(** With nothing queued a read waits for the next frame. *)
Lemma read_wait f c w : linked c [] w.(w_tnc) ->
  read_fuel (S f) c w = match round w with Ok (_, w') => read_fuel f c w' | Panic => Panic | NoFuel => NoFuel end.
Proof.
  intros (H & _ & Hd & _ & Hq). cbn [read_fuel]. rewrite bind_run. change (tnc w) with (Ok (w_tnc w, w)). cbv beta iota.
  destruct (ok_data _ H c Hd) as (x & Hx & Hi & _). rewrite bind_run. unfold deref. rewrite Hx.
  change (pure (Ok x) w) with (Ok (x, w)). cbv beta iota. rewrite Hi, Hq, bind_run. by destruct (round w) as [[]| |].
Qed.

(** A queued frame is read at once. *)
Lemma read_queued f c d q w : linked c (d :: q) w.(w_tnc) ->
  exists t', read_fuel (S f) c w = Ok (inr d, with_in t' w.(w_in) w) /\ linked c q t'.
Proof.
  intros (H & Ho & Hd & Hc & Hq). destruct (ok_data _ H c Hd) as (x & Hx & Hi & _).
  assert (Hn : (c < length (t_conns (w_tnc w)))%nat) by (by apply lookup_lt_is_Some; eexists).
  pose proof (safe_read Hn (S f) (mkWorld (w_tnc w) [] [] [] 0)) as Hs.
  cbn [read_fuel] in *. rewrite bind_run in *. change (tnc ?w) with (Ok (w_tnc w, w)) in *. cbv beta iota in *.
  rewrite bind_run in *. unfold deref in *. cbn [w_tnc] in *. rewrite Hx in *. change (pure (Ok x) ?w) with (Ok (x, w)) in *. cbv beta iota in *.
  rewrite Hi, Hq in *. eexists. split; [reflexivity|]. split.
  - apply Hs. split; [done|]. split; [constructor|done].
  - cbn. split_and!; [done..|]. rewrite list_lookup_insert_eq; [done|]. by apply lookup_lt_is_Some; eexists.
Qed.

(** The state after the connection has ended: its channel is closed, with [q] still in it. *)
Definition ended (c : nat) (q : list gostr) (t : TNC) : Prop :=
  exists x, t.(t_conns) !! c = Some x /\ t.(t_chans) !! x.(c_dataIn) = Some (mkChan q true) /\ t.(t_data) = None
    /\ t.(t_connected) = false /\ t.(t_eofs) !! x.(c_eof) = Some true.

Lemma eof_linked c q t : linked c q t -> exists t', eof t = Ok t' /\ ended c q t' /\ t'.(t_state) = t.(t_state).
Proof.
  intros (H & Ho & Hd & Hc & Hq). destruct (ok_data _ H c Hd) as (x & Hx & Hi & He).
  unfold eof. rewrite Hd. unfold close_chan. rewrite Hq, bind_Ok.
  unfold signalClosed, deref. cbn [set_chans t_conns t_eofs]. rewrite Hx, bind_Ok.
  unfold close_flag. rewrite He. cbn [mbind res_bind mret res_ret]. eexists. split; [done|]. split; [|done].
  exists x. cbn. rewrite Hi. split_and!; [done| |done|done|].
  - rewrite lookup_app_l by (rewrite length_insert; by apply lookup_lt_is_Some; eexists).
    rewrite list_lookup_insert_eq; [done|]. by apply lookup_lt_is_Some; eexists.
  - rewrite list_lookup_insert_eq; [done|]. by apply lookup_lt_is_Some; eexists.
Qed.

Lemma disconnect_handle now c q t : linked c q t ->
  exists t' o, handle now (cmdFrame (str "DISCONNECTED")) t = Ok (t', o) /\ ended c q t' /\ t'.(t_state) = Disconnected.
Proof.
  intros (H & Hl). destruct (eof_linked c q (set_state Disconnected t)) as (t' & E & He & Hs); [split; [ok_same|done]|].
  exists t', (Some (mkMsg cmdDisconnected VNil)). split; [|done].
  change (handle now (cmdFrame (str "DISCONNECTED")) t) with
    (t' ← eof (set_state Disconnected t); mret (t', Some (mkMsg cmdDisconnected VNil))). by rewrite E.
Qed.

Lemma read_ended f c q w : ended c q w.(w_tnc) ->
  match q with
  | [] => read_fuel (S f) c w = Ok (inl io_EOF, w)
  | d :: q => exists t', read_fuel (S f) c w = Ok (inr d, with_in t' w.(w_in) w) /\ ended c q t'
  end.
Proof.
  intros (x & Hx & Hq & Hr). cbn [read_fuel]. destruct q as [|d q]; [|eexists; split];
    try (rewrite bind_run; change (tnc ?w) with (Ok (w_tnc w, w)); cbv beta iota;
         rewrite bind_run; unfold deref; rewrite Hx; change (pure (Ok x) w) with (Ok (x, w)); cbv beta iota; by rewrite Hq).
  exists x. cbn. split_and!; [done| |apply Hr..]. rewrite list_lookup_insert_eq; [done|]. by apply lookup_lt_is_Some; eexists.
Qed.

(** *** What the modem sends on a connection *)

(** A data frame of the connection, or one that does not concern it. *)
Definition conn_frame (f : frame) : Prop := quiet_frame f \/ exists d, f = dFrame (str "ARQ") d /\ zlen d <= MaxData.

Definition payload (f : frame) : option gostr :=
  match f with dFrame ty d => if ARQFrame ty then Some d else None | cmdFrame _ => None end.
Definition payloads (fs : list frame) : list gostr := omap payload fs.

(** [ds] is what can still be read: it is in the channel, or among the frames still to
    come, which end with the disconnect, after which come [rest]. *)
Definition arriving (c : nat) (ds : list gostr) (fs : list frame) (rest : list (error + frame)) (w : world) : Prop :=
  exists q, ds = q ++ payloads fs /\ linked c q w.(w_tnc) /\ Forall conn_frame fs /\ (length ds <= capacity)%nat /\
    w.(w_in) = (inr <$> fs ++ [cmdFrame (str "DISCONNECTED")]) ++ rest.
Definition readable (c : nat) (ds : list gostr) (rest : list (error + frame)) (w : world) : Prop :=
  (exists fs, arriving c ds fs rest w) \/ (ended c ds w.(w_tnc) /\ w.(w_in) = rest).

Lemma quiet_payload f : quiet_frame f -> payload f = None.
Proof. destruct f as [ty d|l]; cbn; [by intros ->|done]. Qed.

(** A round of the control loop takes a frame and loses nothing. *)
Lemma arriving_round c ds fs rest w : arriving c ds fs rest w ->
  exists o t', round w = Ok (o, with_in t' (tail w.(w_in)) w) /\
    match fs with [] => ended c ds t' | _ :: fs => arriving c ds fs rest (with_in t' (tail w.(w_in)) w) end.
Proof.
  intros (q & -> & Hl & Hf & Hn & E). destruct fs as [|f fs].
  - destruct (disconnect_handle (w_now w) c q _ Hl) as (t' & o & Eh & He & _). exists (Some o), t'. rewrite (round_frame _ _ _ _ _ E Eh (proj1 (proj2 Hl))), E.
    unfold payloads. cbn. by rewrite app_nil_r.
  - apply Forall_cons_1 in Hf as [[Hq|(d & -> & Hd)] Hf].
    + destruct (quiet_handle (w_now w) f c q _ Hl Hq) as (t' & o & Eh & Hl'). exists (Some o), t'. rewrite (round_frame _ _ _ _ _ E Eh (proj1 (proj2 Hl))), E.
      split; [done|]. exists q. unfold payloads in *. cbn [omap list_omap] in *. by rewrite (quiet_payload f Hq) in *.
    + destruct (data_handle (w_now w) d c q _ Hl Hd) as (t' & Eh & Hl').
      { change (payloads (dFrame (str "ARQ") d :: fs)) with (d :: payloads fs) in Hn. rewrite length_app in Hn. cbn [length] in Hn. lia. }
      exists (Some None), t'. rewrite (round_frame _ _ _ _ _ E Eh (proj1 (proj2 Hl))), E. split; [done|]. exists (q ++ [d]). rewrite <- app_assoc. done.
Qed.

Lemma read_pending c d q fs rest w f : linked c (d :: q) w.(w_tnc) -> Forall conn_frame fs ->
  (length ((d :: q) ++ payloads fs) <= capacity)%nat -> w.(w_in) = (inr <$> fs ++ [cmdFrame (str "DISCONNECTED")]) ++ rest ->
  exists t' i, read_fuel (S f) c w = Ok (inr d, with_in t' i w) /\ readable c (q ++ payloads fs) rest (with_in t' i w).
Proof.
  intros Hl Hf Hn Ei. destruct (read_queued f c d q w Hl) as (t' & -> & Hl'). exists t', (w_in w). split; [done|].
  left. exists fs, q. split_and!; [done..| |done]. cbn [app length] in Hn. lia.
Qed.

(** Reading takes the first of what can be read, waiting for it if need be. *)
Lemma read_readable c ds rest w f : readable c ds rest w -> (S (length w.(w_in)) < f)%nat ->
  match ds with
  | [] => exists t', read_fuel f c w = Ok (inl io_EOF, with_in t' rest w) /\ ended c [] t'
  | d :: ds => exists t' i, read_fuel f c w = Ok (inr d, with_in t' i w) /\ readable c ds rest (with_in t' i w)
  end.
Proof.
  intros Hr Hf. assert (He : forall f w, ended c ds w.(w_tnc) -> w.(w_in) = rest ->
    match ds with
    | [] => exists t', read_fuel (S f) c w = Ok (inl io_EOF, with_in t' rest w) /\ ended c [] t'
    | d :: ds => exists t' i, read_fuel (S f) c w = Ok (inr d, with_in t' i w) /\ readable c ds rest (with_in t' i w)
    end).
  { clear. intros f w He <-. pose proof (read_ended f c ds w He) as H. destruct ds as [|d ds].
    - exists (w_tnc w). split; [by destruct w|done].
    - destruct H as (t' & -> & He'). exists t', (w_in w). split; [done|]. by right. }
  destruct Hr as [[fs Ha]|[He1 He2]]; [|destruct f; [lia|by apply He]].
  revert f w Ha Hf. induction fs as [|g fs IH]; intros f w Ha Hf; (destruct f as [|f]; [lia|]);
    pose proof Ha as (q & E & Hl & Hfs & Hn & Ei); (destruct q as [|d q]; [|subst ds; by eapply read_pending]);
    rewrite (read_wait f c w Hl); destruct (arriving_round c ds _ rest w Ha) as (o & t' & -> & Ha').
  - rewrite Ei in Hf |- *. cbn [fmap list_fmap app tail] in *. cbn [length] in Hf. destruct f; [lia|].
    specialize (He f (with_in t' rest w) Ha' eq_refl). by destruct ds.
  - assert (Hl' : (S (length (tail (w_in w))) < f)%nat) by (rewrite Ei in Hf |- *; cbn in *; lia).
    specialize (IH f _ Ha' Hl'). by destruct ds.
Qed.

(** The control loop runs for a while before the owner of the connection reads. *)
Fixpoint idle_rounds (n : nat) : host unit :=
  match n with O => mret tt | S n => round;; idle_rounds n end.

Lemma idle_readable c ds fs rest n w : arriving c ds fs rest w -> (n <= S (length fs))%nat ->
  exists t' i, idle_rounds n w = Ok (tt, with_in t' i w) /\ readable c ds rest (with_in t' i w).
Proof.
  revert fs w. induction n as [|n IH]; intros fs w Ha Hn; cbn [idle_rounds].
  - exists (w_tnc w), (w_in w). split; [by destruct w|]. left. exists fs. by destruct w.
  - rewrite bind_run. destruct (arriving_round c ds fs rest w Ha) as (o & t' & -> & Ha'). destruct fs as [|f fs].
    + destruct n; [|cbn in Hn; lia]. exists t', (tail (w_in w)). split; [done|]. right. split; [done|].
      destruct Ha as (q & _ & _ & _ & _ & ->). done.
    + cbn in Hn. destruct (IH fs _ Ha' ltac:(lia)) as (t2 & i & -> & Hr). by exists t2, i.
Qed.

Section reads.
Context (c : nat) (k : Z).

Fixpoint reads (j : nat) : host (list (error + gostr)) :=
  match j with
  | O => mret []
  | S j => r ← conn_Read c k; rs ← reads j; mret (r :: rs)
  end.

Lemma read_first ds rest w : 0 < k -> readable c ds rest w ->
  match ds with
  | [] => exists t', conn_Read c k w = Ok (inl io_EOF, with_in t' rest w) /\ ended c [] t'
  | d :: ds => if k <? zlen d then conn_Read c k w = Panic
               else exists t' i, conn_Read c k w = Ok (inr d, with_in t' i w) /\ readable c ds rest (with_in t' i w)
  end.
Proof.
  intros Hk Hr. assert (Ek : (k =? 0) = false) by (apply Z.eqb_neq; lia).
  pose proof (read_readable c ds rest w (S (S (length (w_in w)))) Hr ltac:(lia)) as H.
  unfold conn_Read. rewrite Ek, bind_run. change (rounds (fun k => read_fuel (S (S k)) c) w) with (read_fuel (S (S (length (w_in w)))) c w).
  destruct ds as [|d ds]; [destruct H as (t' & -> & He); by exists t'|]. destruct H as (t' & i & -> & Hr').
  cbv beta iota. destruct (k <? zlen d); [done|]. by exists t', i.
Qed.

Lemma reads_readable ds rest w : 0 < k -> readable c ds rest w ->
  if decide (Forall (fun d => zlen d <= k) ds)
  then exists t', reads (S (length ds)) w = Ok ((inr <$> ds) ++ [inl io_EOF], with_in t' rest w) /\ ended c [] t'
  else reads (S (length ds)) w = Panic.
Proof.
  intros Hk. revert w. induction ds as [|d ds IH]; intros w Hr.
  - rewrite decide_True by done. destruct (read_first [] rest w Hk Hr) as (t' & E & He). exists t'. split; [|done].
    cbn [length reads]. rewrite bind_run, E. reflexivity.
  - pose proof (read_first (d :: ds) rest w Hk Hr) as H1. cbv beta iota in H1.
    change (reads (S (length (d :: ds)))) with (r ← conn_Read c k; rs ← reads (S (length ds)); mret (r :: rs)). rewrite bind_run.
    destruct (Z.ltb_spec k (zlen d)) as [Hd|Hd]; [rewrite H1; rewrite decide_False; [done|]; intros HF; apply Forall_cons_1 in HF as [HF _]; lia|].
    destruct H1 as (t1 & i & -> & Hr1). cbv beta iota. rewrite bind_run. specialize (IH _ Hr1).
    destruct (decide (Forall _ ds)) as [HF|HF].
    + destruct IH as (t' & -> & He). rewrite decide_True by (by constructor). exists t'. done.
    + rewrite IH. rewrite decide_False; [done|]. intros HF'. by apply Forall_cons_1 in HF' as [_ HF'].
Qed.
End reads.

(** C29. The modem sends data frames on a connection, with other frames in between, and a
    disconnect.  However many of them the control loop has taken when the owner
    starts to read, reads with a buffer of [k] bytes return what was queued before and
    then the payloads, in order and whole, and after them io.EOF, if each fits the buffer;
    if one does not, the read that comes to it panics.  At most as many payloads wait
    as the channel has room for. *)
Theorem reads_in_order (c n : nat) (k : Z) (q : list gostr) (fs : list frame) (rest : list (error + frame)) (w : world) :
  0 < k -> linked c q w.(w_tnc) -> Forall conn_frame fs ->
  w.(w_in) = (inr <$> fs ++ [cmdFrame (str "DISCONNECTED")]) ++ rest ->
  (n <= S (length fs))%nat -> (length (q ++ payloads fs) <= capacity)%nat ->
  let ds := q ++ payloads fs in
  let m := idle_rounds n;; reads c k (S (length ds)) in
  if decide (Forall (fun d => zlen d <= k) ds)
  then exists t', m w = Ok ((inr <$> ds) ++ [inl io_EOF], with_in t' rest w) /\ ended c [] t'
  else m w = Panic.
Proof.
  intros Hk Hl Hf E Hn Hc ds m. destruct (idle_readable c ds fs rest n w) as (t' & i & Ei & Hr); [by exists q|done|].
  pose proof (reads_readable c k ds rest _ Hk Hr) as H. unfold m. rewrite bind_run, Ei. exact H.
Qed.

Definition sample_linked : TNC := set_connected true (new_conn (str "LA1B") (str "LA5NTA") [] (newTNC true)).
Definition sample_frames : list frame :=
  [dFrame (str "ARQ") (str "hello "); cmdFrame (str "BUFFER 0"); dFrame (str "FEC") (str "noise"); dFrame (str "ARQ") (str "world")].

Lemma reads_in_order_witness :
  let w := mkWorld sample_linked ((inr <$> sample_frames ++ [cmdFrame (str "DISCONNECTED")]) ++ []) [] [] 0 in
  (exists t', (idle_rounds 3;; reads 0 4096 3) w = Ok ([inr (str "hello "); inr (str "world"); inl io_EOF], with_in t' [] w) /\ ended 0 [] t') /\
  (idle_rounds 5;; reads 0 5 3) w = Panic.
Proof.
  intros w. assert (Hl : linked 0 [] sample_linked).
  { split; [|split_and!; reflexivity]. assert (H : tnc_ok (new_conn (str "LA1B") (str "LA5NTA") [] (newTNC true)))
      by apply new_conn_ok, newTNC_ok. ok_same. }
  assert (Hf : Forall conn_frame sample_frames).
  { repeat (constructor; [first [right; eexists; split; [reflexivity|vm_compute; discriminate] | left; cbn; try reflexivity]|]); [|constructor].
    eexists. split; [vm_compute; reflexivity|]. split; vm_compute; discriminate. }
  split.
  - apply (reads_in_order 0 3 4096 [] sample_frames [] w); [lia|exact Hl|exact Hf|reflexivity|cbn; lia|vm_compute; lia].
  - apply (reads_in_order 0 5 5 [] sample_frames [] w); [lia|exact Hl|exact Hf|reflexivity|cbn; lia|vm_compute; lia].
Defined.

(** ** Commands sent

    [sends m L]: when the operation returns and the modem is still there, it was
    there before, and the commands sent are described by [L]. *)
Definition sends {A} (m : host A) (L : A -> list gostr -> Prop) : Prop := forall w a w',
  m w = Ok (a, w') -> w'.(w_tnc).(t_closed) = false ->
  w.(w_tnc).(t_closed) = false /\ exists l, w'.(w_out) = w.(w_out) ++ l /\ L a l.

Abbreviation mute m := (sends m (fun _ l => l = [])).

Lemma sends_ret {A} (a : A) : mute (mret a).
Proof. intros w b w' [= <- <-] H. split; [done|]. exists []. by rewrite app_nil_r. Qed.

Lemma sends_bind {A B} (m : host A) (k : A -> host B) L R :
  sends m L -> (forall a, sends (k a) (R a)) ->
  sends (m ≫= k) (fun b l => exists a l1 l2, l = l1 ++ l2 /\ L a l1 /\ R a b l2).
Proof.
  intros Hm Hk w b w' E Hc. rewrite bind_run in E. destruct (m w) as [[a w1]| |] eqn:E1; try discriminate.
  destruct (Hk a w1 b w' E Hc) as (H1 & l2 & E2 & H2). destruct (Hm w a w1 E1 H1) as (H3 & l1 & E3 & H4).
  split; [done|]. exists (l1 ++ l2). split; [by rewrite E2, E3, app_assoc|]. by exists a, l1, l2.
Qed.

Lemma sends_weaken {A} (m : host A) (L R : A -> list gostr -> Prop) :
  sends m L -> (forall a l, L a l -> R a l) -> sends m R.
Proof. intros H HL w a w' E Hc. destruct (H w a w' E Hc) as (H1 & l & E1 & H2). split; [done|]. exists l. auto. Qed.

Lemma mute_bind {A B} (m : host A) (k : A -> host B) R :
  mute m -> (forall a, sends (k a) R) -> sends (m ≫= k) R.
Proof.
  intros Hm Hk. eapply sends_weaken; [apply (sends_bind m k (fun _ l => l = []) (fun _ => R)); done|].
  intros b l (a & l1 & l2 & -> & -> & H). done.
Qed.

Lemma mute_pure {A} (r : res A) : mute (pure r).
Proof.
  intros w a w' E H. unfold pure in E. destruct r as [x| |]; try discriminate. injection E as <- <-.
  split; [done|]. exists []. by rewrite app_nil_r.
Qed.

Lemma mute_nofuel {A} (L : A -> list gostr -> Prop) : sends (fun _ => NoFuel) L.
Proof. by intros w a w' E. Qed.

Lemma mute_tnc : mute tnc.
Proof. intros w a w' [= <- <-] H. split; [done|]. exists []. by rewrite app_nil_r. Qed.

Lemma mute_Listen : mute Listen.
Proof. intros w a w' E H. unfold Listen in E. destruct (t_closed (w_tnc w)); [done|]. injection E as <- <-. split; [done|]. exists []. by rewrite app_nil_r. Qed.

Lemma sends_send s : sends (send s) (fun _ l => l = [s]).
Proof. intros w a w'. unfold send. destruct (t_closed (w_tnc w)) eqn:Ec; [done|]. intros [= <- <-] H. split; [done|]. by exists [s]. Qed.

(** A change of the state that does not reopen the modem. *)
Lemma mute_on_tnc f : (forall t t', f t = Ok t' -> t'.(t_closed) = false -> t.(t_closed) = false) -> mute (on_tnc f).
Proof.
  intros Hf w a w' E H. unfold on_tnc in E. rewrite bind_run in E. change (tnc w) with (Ok (w_tnc w, w)) in E. cbv beta iota in E.
  rewrite bind_run in E. unfold pure in E. destruct (f (w_tnc w)) as [t'| |] eqn:Ef; try discriminate. injection E as <- <-.
  split; [by apply (Hf _ t')|]. exists []. by rewrite app_nil_r.
Qed.

(** No step reopens the modem. *)
Lemma mute_round : mute round.
Proof.
  intros w a w' E H. unfold round in E. destruct (t_closed (w_tnc w)) eqn:Ew; [injection E as <- <-; cbn in H; congruence|].
  assert (Hc : forall t, close (w_tnc w) = Ok t -> t.(t_closed) = true).
  { unfold close. intros t. rewrite Ew. intros Et. by apply eof_closed in Et. }
  assert (Hx : forall b, (t ← close (w_tnc w); mret (b, mkWorld t [] (w_out w) (w_data w) (w_now w))) = Ok (a, w') -> False).
  { intros b. destruct (close (w_tnc w)) as [t| |] eqn:Et; cbn [mbind res_bind]; try done. intros [= _ <-]. cbn in H.
    by rewrite (Hc t eq_refl) in H. }
  destruct (w_in w) as [|[e|f] rest]; [by apply Hx in E| |].
  - destruct e; first [by apply Hx in E|injection E as <- <-; split; [done|]; exists []; by rewrite app_nil_r].
  - destruct (handle (w_now w) f (w_tnc w)) as [[t o]| |] eqn:Eh; cbn [mbind res_bind] in E; try done. injection E as <- <-.
    cbn in H. split; [done|]. exists []. by rewrite app_nil_r.
Qed.

Lemma mute_recv_fuel f : mute (recv_fuel f).
Proof.
  induction f as [|f IH]; cbn [recv_fuel]; [apply mute_nofuel|]. apply mute_bind; [apply mute_round|].
  intros [[m|]|]; [apply sends_ret|exact IH|apply sends_ret].
Qed.

Lemma mute_recv : mute recv.
Proof. intros w. apply mute_recv_fuel. Qed.

Lemma mute_msgs {A} (body : ctrlMsg -> host (option A)) closed : (forall m, mute (body m)) -> mute (msgs body closed).
Proof.
  intros Hb. assert (H : forall f, mute (range_msgs f body closed)).
  { induction f as [|f IH]; cbn [range_msgs]; [apply mute_nofuel|]. apply mute_bind; [apply mute_recv|].
    intros [m|]; [|apply sends_ret]. apply mute_bind; [apply Hb|]. intros [a|]; [apply sends_ret|exact IH]. }
  intros w. apply H.
Qed.

(** A command that is sent and answered. *)
Definition command (c : gostr) (p : option gostr) : gostr := match p with Some p => c ++ str " " ++ p | None => c end.

Lemma sends_cmd {A} s (m : host A) : mute m -> sends (Listen;; send s;; m) (fun _ l => l = [s]).
Proof.
  intros Hm. apply mute_bind; [apply mute_Listen|]. intros _.
  eapply sends_weaken; [apply (sends_bind _ _ (fun _ l => l = [s]) (fun _ _ l => l = [])); [apply sends_send|by intros]|].
  intros b l (a & l1 & l2 & -> & -> & ->). done.
Qed.

Lemma sends_open {A} (L : A -> list gostr -> Prop) (early : A) m :
  sends m L -> sends (t ← tnc; if t.(t_closed) : bool then mret early else m) L.
Proof.
  intros H w a w' E Hc. rewrite bind_run in E. change (tnc w) with (Ok (w_tnc w, w)) in E. cbv beta iota in E.
  destruct (t_closed (w_tnc w)) eqn:Ec; [injection E as <- <-; congruence|]. pose proof (H w a w' E Hc) as Hw. by rewrite Ec in Hw.
Qed.

Lemma mute_case {A} (b : bool) (m1 m2 : host A) : mute m1 -> mute m2 -> mute (if b then m1 else m2).
Proof. by destruct b. Qed.

Lemma sends_set c p : sends (tnc_set c p) (fun _ l => l = [command c p]).
Proof.
  unfold tnc_set. apply sends_open, sends_cmd, mute_msgs. intros m. apply mute_case; [apply sends_ret|].
  apply mute_case; [apply mute_bind; [apply mute_pure|intros; apply sends_ret]|apply sends_ret].
Qed.

Lemma sends_get c : sends (tnc_get c) (fun _ l => l = [c]).
Proof.
  unfold tnc_get. apply sends_open, sends_cmd, mute_msgs. intros m. apply mute_case; [apply sends_ret|].
  apply mute_case; [apply mute_bind; [apply mute_pure|intros; apply sends_ret]|apply sends_ret].
Qed.

(** An operation that ends quietly. *)
Lemma sends_then {A B} (m : host A) (k : A -> host B) l : sends m (fun _ x => x = l) -> (forall a, mute (k a)) ->
  sends (m ≫= k) (fun _ x => x = l).
Proof.
  intros Hm Hk. eapply sends_weaken; [apply (sends_bind m k _ (fun _ _ x => x = []) Hm Hk)|].
  intros b x (a & l1 & l2 & -> & -> & ->). by rewrite app_nil_r.
Qed.

Lemma sends_getString c : sends (getString c) (fun _ l => l = [c]).
Proof.
  unfold getString. apply sends_then; [apply sends_get|]. intros [e|v]; [apply sends_ret|].
  apply mute_bind; [apply mute_pure|intros; apply sends_ret].
Qed.

Lemma sends_ARQBandwidth : sends ARQBandwidth (fun _ l => l = [cmdARQBW]).
Proof.
  unfold ARQBandwidth. apply sends_then; [apply sends_getString|]. intros [e|s]; [apply sends_ret|].
  destruct (BandwidthFromString s); apply sends_ret.
Qed.

Definition arq_line (targetcall : gostr) (repeat : Z) : gostr := cmdARQCall ++ str " " ++ targetcall ++ str " " ++ itoa repeat.

Lemma sends_arqCall `{Fmt} target n : sends (arqCall target n) (fun _ l => l = [] \/ l = [arq_line target n]).
Proof.
  unfold arqCall. apply mute_bind; [apply mute_tnc|]. intros t. destruct (negb (tnc_Idle t)).
  - eapply sends_weaken; [apply sends_ret|]. auto.
  - eapply sends_weaken; [apply sends_cmd, mute_msgs|auto]. intros m.
    apply mute_case; [apply mute_bind; [apply mute_pure|intros; apply sends_ret]|].
    apply mute_case; [apply mute_bind; [apply mute_tnc|intros; apply mute_case; apply sends_ret]|].
    apply mute_case; [|apply sends_ret]. apply mute_bind; [|intros; apply sends_ret].
    apply mute_on_tnc. by intros t1 t2 [= <-].
Qed.

Lemma sends_Bandwidth bw : sends (SetARQBandwidth bw) (fun _ l => l = [command cmdARQBW (Some (bw_String bw))]).
Proof. unfold SetARQBandwidth. apply sends_set. Qed.

(** The error of a request for a string is dropped. *)
Lemma getString_no_error c w e w' : getString c w <> Ok (inl e, w').
Proof.
  unfold getString. rewrite bind_run. destruct (tnc_get c w) as [[[e1|v] w1]| |]; [done| |done..].
  rewrite bind_run. unfold pure. by destruct (msg_String _).
Qed.

Lemma restore_bandwidth cur (e : error) w a w' : (run_defers [cur];; mret (inl e : error + nat)) w = Ok (a, w') ->
  w'.(w_tnc).(t_closed) = false -> a = inl e /\ w.(w_tnc).(t_closed) = false
  /\ w'.(w_out) = w.(w_out) ++ [command cmdARQBW (Some (bw_String cur))].
Proof.
  intros E Hc. rewrite bind_run in E. cbn [run_defers] in E. rewrite bind_run in E.
  destruct (SetARQBandwidth cur w) as [[e1 w1]| |] eqn:E1; try discriminate. injection E as <- <-.
  destruct (sends_Bandwidth cur w _ _ E1 Hc) as (H1 & l & -> & ->). done.
Qed.

(** C28. A dial with a bandwidth of its own that fails leaves the modem with the
    bandwidth it had: either the new one was never taken, or the last command
    sent sets back the one the modem reported before. *)
Theorem dial_restores_bandwidth `{Fmt} (target : gostr) (bw : Bandwidth) (w w' : world) (e : error) :
  bw_IsZero bw = false -> DialBandwidth target bw w = Ok (inl e, w') -> w'.(w_tnc).(t_closed) = false ->
  (ARQBandwidth w = Ok (inl e, w') /\ w'.(w_out) = w.(w_out) ++ [cmdARQBW])
  \/ exists cur w1, ARQBandwidth w = Ok (inr cur, w1) /\
      ((SetARQBandwidth bw w1 = Ok (Some e, w') /\ w'.(w_out) = w.(w_out) ++ [cmdARQBW; command cmdARQBW (Some (bw_String bw))])
       \/ exists l, (l = [] \/ l = [arq_line target 10]) /\
            w'.(w_out) = w.(w_out) ++ [cmdARQBW; command cmdARQBW (Some (bw_String bw))] ++ l
                          ++ [command cmdARQBW (Some (bw_String cur))]).
Proof.
  intros Hz E Hc. unfold DialBandwidth in E. rewrite bind_run in E. change (tnc w) with (Ok (w_tnc w, w)) in E. cbv beta iota in E.
  rewrite Hz in E. destruct (t_closed (w_tnc w)) eqn:Ec; [injection E as <- <-; congruence|].
  rewrite bind_run, bind_run in E. destruct (ARQBandwidth w) as [[[e1|cur] w1]| |] eqn:E1; try discriminate; cbv beta iota in E.
  { injection E as <- <-. left. split; [done|]. by destruct (sends_ARQBandwidth w _ _ E1 Hc) as (_ & l & -> & ->). }
  right. exists cur, w1. split; [done|]. rewrite bind_run in E.
  destruct (SetARQBandwidth bw w1) as [[[e2|] w2]| |] eqn:E2; try discriminate; cbv beta iota in E.
  { injection E as <- <-. left. split; [done|]. destruct (sends_Bandwidth bw w1 _ _ E2 Hc) as (H1 & l2 & -> & ->).
    destruct (sends_ARQBandwidth w _ _ E1 H1) as (_ & l & -> & ->). by rewrite <- app_assoc. }
  right. unfold mret, host_ret in E. cbv beta iota in E. rewrite bind_run in E.
  destruct (arqCall target 10 w2) as [[[e3|] w3]| |] eqn:E3; try discriminate; cbv beta iota in E.
  - destruct (restore_bandwidth _ _ _ _ _ E Hc) as (_ & H3 & ->).
    destruct (sends_arqCall target 10 w2 _ _ E3 H3) as (H2 & l3 & -> & Hl).
    destruct (sends_Bandwidth bw w1 _ _ E2 H2) as (H1 & l2 & -> & ->).
    destruct (sends_ARQBandwidth w _ _ E1 H1) as (_ & l & -> & ->). exists l3. split; [done|]. by rewrite <- !app_assoc.
  - rewrite bind_run in E. destruct (MyCall w3) as [[[e4|me] w4]| |] eqn:E4; try discriminate.
    by apply getString_no_error in E4.
Qed.

Lemma dial_restores_bandwidth_witness :
  let w := mkWorld (set_state Disconnected (newTNC true))
    (inr <$> [cmdFrame (str "ARQBW 2000MAX"); cmdFrame (str "ARQBW now 500MAX"); cmdFrame (str "FAULT no"); cmdFrame (str "ARQBW now 2000MAX")]) [] [] 0 in
  exists w', @DialBandwidth simple_fmt (str "LA1B") Bandwidth500Max w = Ok (inl (New (str "no")), w') /\
    ((ARQBandwidth w = Ok (inl (New (str "no")), w') /\ w'.(w_out) = w.(w_out) ++ [cmdARQBW])
    \/ exists cur w1, ARQBandwidth w = Ok (inr cur, w1) /\
      ((SetARQBandwidth Bandwidth500Max w1 = Ok (Some (New (str "no")), w') /\
        w'.(w_out) = w.(w_out) ++ [cmdARQBW; command cmdARQBW (Some (bw_String Bandwidth500Max))])
       \/ exists l, (l = [] \/ l = [arq_line (str "LA1B") 10]) /\
            w'.(w_out) = w.(w_out) ++ [cmdARQBW; command cmdARQBW (Some (bw_String Bandwidth500Max))] ++ l
                          ++ [command cmdARQBW (Some (bw_String cur))])).
Proof.
  intros w. eexists. split; [vm_compute; reflexivity|].
  apply (@dial_restores_bandwidth simple_fmt (str "LA1B") Bandwidth500Max w _ (New (str "no"))); vm_compute; reflexivity.
Defined.
