(* ===== verification/ArdopBroadcast.v ===== *)
(** The broadcaster of control messages: [src/transport/ardop/ctrl_broadcast.go].

    A receiver is the messages in its channel and whether its owner has closed
    it.  How the [select] of the goroutine comes out for a receiver is given by a
    function: it can always time out, and it can see the receiver done only when
    it is.  The goroutine behind a StateReceiver is [states]. *)
From S2P Require Import Prelude Crc GoStr Helpers Bufio ArdopFrame.
From stdpp Require Import list sets.
Open Scope Z_scope.

Record receiver := mkRecv { r_id : nat; r_done : bool; r_msgs : list ctrlMsg; r_closed : bool }.

(** [make(chan ctrlMsg, 3)], [make(chan struct{})] *)
Definition new_receiver (id : nat) : receiver := mkRecv id false [] false.

(** [case r := <-b.register] *)
Definition register (r : receiver) (rs : list receiver) : list receiver := rs ++ [r].

(** [rawReceiver.Close]: closing twice panics. *)
Definition recv_Close (r : receiver) : res receiver :=
  if r.(r_done) then Panic else Ok (mkRecv r.(r_id) true r.(r_msgs) r.(r_closed)).

(** [close(r.sendChan())] *)
Definition close_recv (r : receiver) : res receiver :=
  if r.(r_closed) then Panic else Ok (mkRecv r.(r_id) r.(r_done) r.(r_msgs) true).

Inductive selected := IsDone | Delivered | TimedOut.

Section broadcast.
Context (sel : receiver -> selected) (msg : ctrlMsg).

(** [for i := 0; i < len(receivers); i++]: the receivers kept and the ones
    dropped, in order. *)
Fixpoint bcast (fuel : nat) (i : Z) (rs dropped : list receiver) : res (list receiver * list receiver) :=
  match fuel with
  | O => NoFuel
  | S fuel =>
      if i <? zlen rs then
        r ← idx rs i;
        match sel r with
        | Delivered =>
            if r.(r_closed) then Panic
            else
              rs ← upd rs i (mkRecv r.(r_id) r.(r_done) (r.(r_msgs) ++ [msg]) false);
              bcast fuel (i + 1) rs dropped
        | IsDone | TimedOut =>
            r ← close_recv r;
            let rs := take (Z.to_nat i) rs ++ drop (Z.to_nat (i + 1)) rs in
            let i := i - 1 in
            bcast fuel (i + 1) rs (dropped ++ [r])
        end
      else mret (rs, dropped)
  end.

Definition broadcast (rs : list receiver) : res (list receiver * list receiver) := bcast (S (length rs)) 0 rs [].
End broadcast.

(** The goroutine returned: every receiver is closed. *)
Fixpoint close_all (rs : list receiver) : res (list receiver) :=
  match rs with
  | [] => mret []
  | r :: rs => r ← close_recv r; rs ← close_all rs; mret (r :: rs)
  end.

(** [for msg := range r.msgs { if msg.cmd == cmdNewState { cs <- msg.State() } }] *)
Fixpoint states (ms : list ctrlMsg) : res (list State) :=
  match ms with
  | [] => mret []
  | m :: ms =>
      if streq m.(cmd) cmdNewState then s ← msg_State m; ss ← states ms; mret (s :: ss) else states ms
  end.

(** ** The loop, in place, is a partition *)
Section partition.
Context (sel : receiver -> selected) (msg : ctrlMsg).

Definition kept (r : receiver) : bool := match sel r with Delivered => true | _ => false end.
Definition push (r : receiver) : receiver := mkRecv r.(r_id) r.(r_done) (r.(r_msgs) ++ [msg]) false.
Definition shut (r : receiver) : receiver := mkRecv r.(r_id) r.(r_done) r.(r_msgs) true.

Lemma bcast_partition fuel front rs dropped :
  Forall (fun r => r.(r_closed) = false) rs -> (length rs < fuel)%nat ->
  bcast sel msg fuel (zlen front) (front ++ rs) dropped
  = Ok (front ++ (push <$> List.filter kept rs), dropped ++ (shut <$> List.filter (fun r => negb (kept r)) rs)).
Proof.
  intros Hc. revert fuel front dropped. induction Hc as [|r rs Hr Hc IH]; intros fuel front dropped Hf;
    (destruct fuel as [|fuel]; [cbn in Hf; lia|]); cbn [bcast].
  - rewrite app_nil_r, Z.ltb_irrefl. cbn [List.filter fmap list_fmap]. by rewrite !app_nil_r.
  - rewrite zlen_app, zlen_cons. pose proof (zlen_nonneg rs). destruct (Z.ltb_spec (zlen front) (zlen front + (1 + zlen rs))); [|lia].
    assert (Hi : forall A (l k : list A) x, idx (l ++ x :: k) (zlen l) = Ok x).
    { intros A l k x. unfold idx, zlen. destruct (Z.ltb_spec (Z.of_nat (length l)) 0); [lia|].
      by rewrite Nat2Z.id, lookup_app_r, Nat.sub_diag. }
    rewrite Hi, bind_Ok. cbn [List.filter]. assert (Hk : kept r = match sel r with Delivered => true | _ => false end) by done. rewrite Hk.
    cbn in Hf. destruct (sel r) eqn:Es; cbn [negb].
    2: { rewrite Hr. unfold upd. rewrite zlen_app, zlen_cons. pose proof (zlen_nonneg front).
         destruct (Z.ltb_spec (zlen front) 0); [lia|]. destruct (Z.leb_spec (zlen front + (1 + zlen rs)) (zlen front)); [lia|].
         cbn [orb mbind res_bind]. unfold zlen at 2. rewrite Nat2Z.id, insert_app_r_alt, Nat.sub_diag by done. cbn [insert list_insert].
         replace (zlen front + 1) with (zlen (front ++ [push r])) by (rewrite zlen_app; reflexivity).
         change (mkRecv (r_id r) (r_done r) (r_msgs r ++ [msg]) false) with (push r).
         replace (front ++ push r :: rs) with ((front ++ [push r]) ++ rs) by (by rewrite <- app_assoc).
         rewrite IH by lia.
         rewrite <- app_assoc. done. }
    all: unfold close_recv; rewrite Hr; cbn [mbind res_bind]; replace (zlen front - 1 + 1) with (zlen front) by lia;
      replace (Z.to_nat (zlen front)) with (length front) by (unfold zlen; lia);
      replace (Z.to_nat (zlen front + 1)) with (length front + 1)%nat by (unfold zlen; lia);
      rewrite take_app_length, drop_app_add; cbn [drop]; rewrite IH by lia; by rewrite <- app_assoc.
Qed.
End partition.

(** Broadcasting a message, by the loop that removes receivers while it walks
    over them, appends the message to the channel of every receiver that takes
    it, closes and drops the others, visits every receiver once and keeps the
    order. *)
Theorem broadcast_partition (sel : receiver -> selected) (msg : ctrlMsg) (rs : list receiver) :
  Forall (fun r => r.(r_closed) = false) rs ->
  broadcast sel msg rs = Ok (push msg <$> List.filter (kept sel) rs, shut <$> List.filter (fun r => negb (kept sel r)) rs).
Proof. intros H. exact (bcast_partition sel msg (S (length rs)) [] rs [] H ltac:(lia)). Qed.

Lemma broadcast_partition_witness :
  let sel r := if r.(r_done) then IsDone else Delivered in
  let rs := [new_receiver 0; mkRecv 1 true [] false; new_receiver 2] in
  broadcast sel (mkMsg cmdPTT (VBool true)) rs
  = Ok (push (mkMsg cmdPTT (VBool true)) <$> List.filter (kept sel) rs, shut <$> List.filter (fun r => negb (kept sel r)) rs).
Proof. intros sel rs. apply (broadcast_partition sel (mkMsg cmdPTT (VBool true)) rs). repeat constructor. Defined.

(** ** The goroutine

    Its events, in the order in which it takes them, and the outcome of each
    select. *)
Inductive bc_event :=
| Registers (id : nat)
| Sends (msg : ctrlMsg) (sel : receiver -> selected).

(** [newBroadcaster]: the receivers and the ones dropped, after these events; then
    [Close], if it comes. *)
Fixpoint bc_loop (es : list bc_event) (rs dropped : list receiver) : res (list receiver * list receiver) :=
  match es with
  | [] => mret (rs, dropped)
  | Registers id :: es => bc_loop es (register (new_receiver id) rs) dropped
  | Sends msg sel :: es => r ← broadcast sel msg rs; bc_loop es r.1 (dropped ++ r.2)
  end.

Definition newBroadcaster (es : list bc_event) (closes : bool) : res (list receiver) :=
  r ← bc_loop es [] [];
  if closes then rs ← close_all r.1; mret (rs ++ r.2) else mret (r.1 ++ r.2).

Definition sent (es : list bc_event) : list ctrlMsg := omap (fun e => match e with Sends m _ => Some m | _ => None end) es.

Definition registered_ids (es : list bc_event) : list nat := omap (fun e => match e with Registers i => Some i | _ => None end) es.

(** What an event means for one receiver: a message is put into its channel; if it
    times out, or its owner has closed it, its channel is closed; then nothing. *)
Definition fate_step (r : receiver) (e : bc_event) : receiver :=
  match e with
  | Registers _ => r
  | Sends msg sel => if r.(r_closed) then r else if kept sel r then push msg r else shut r
  end.
Definition fate (es : list bc_event) (r : receiver) : receiver := foldl fate_step r es.

Definition of_id (id : nat) (rs : list receiver) : list receiver := List.filter (fun r => (r.(r_id) =? id)%nat) rs.

(** The receivers with this id are [fs]; those still served are open, the others closed. *)
Definition in_step (id : nat) (fs rs dropped : list receiver) : Prop :=
  of_id id rs ++ of_id id dropped = fs /\
  Forall (fun r => r.(r_closed) = false) rs /\ Forall (fun r => r.(r_closed) = true) dropped.

Lemma of_id_app id rs rs' : of_id id (rs ++ rs') = of_id id rs ++ of_id id rs'.
Proof. apply List.filter_app. Qed.
Lemma of_id_map id g p rs : (forall r, r_id (g r) = r_id r) -> of_id id (g <$> List.filter p rs) = g <$> List.filter p (of_id id rs).
Proof.
  intros Hg. induction rs as [|r rs IH]; [done|]. unfold of_id in *. cbn [List.filter].
  destruct (p r) eqn:Ep; cbn [List.filter fmap list_fmap]; rewrite ?Hg; destruct (r_id r =? id)%nat; cbn [List.filter fmap list_fmap];
    rewrite ?Ep; cbn; by rewrite <- IH.
Qed.
Lemma of_id_Forall id P rs : Forall P rs -> Forall P (of_id id rs).
Proof. intros H. rewrite Forall_forall in *. intros r. unfold of_id. rewrite list_elem_of_In, filter_In, <- list_elem_of_In. intros [Hr _]. auto. Qed.

Lemma filter_true_id (rs : list receiver) : List.filter (fun _ => true) rs = rs.
Proof. induction rs as [|r rs IH]; [done|]. cbn. by rewrite IH. Qed.

Lemma filter_kept_ids sel (rs : list receiver) :
  (r_id <$> List.filter (kept sel) rs) ++ (r_id <$> List.filter (fun r => negb (kept sel r)) rs) ≡ₚ r_id <$> rs.
Proof.
  induction rs as [|r rs IH]; [done|]. cbn [List.filter]. destruct (kept sel r); cbn [negb fmap list_fmap app]; [by constructor|].
  rewrite <- Permutation_middle. by constructor.
Qed.

Lemma in_step_broadcast id fs msg sel rs dropped : (length fs <= 1)%nat -> in_step id fs rs dropped ->
  exists r, broadcast sel msg rs = Ok r /\ in_step id ((fun r => fate_step r (Sends msg sel)) <$> fs) r.1 (dropped ++ r.2) /\
    r_id <$> (r.1 ++ (dropped ++ r.2)) ≡ₚ r_id <$> (rs ++ dropped).
Proof.
  intros Hl (H1 & H2 & H3). rewrite broadcast_partition by done. eexists. split; [done|]. cbn [fst snd]. split; [split_and!|].
  - rewrite of_id_app, !of_id_map by done. pose proof (of_id_Forall id _ _ H2) as G2. pose proof (of_id_Forall id _ _ H3) as G3.
    revert H1 G2 G3. generalize (of_id id rs) (of_id id dropped). intros o d <- G2 G3. rewrite length_app in Hl.
    destruct o as [|r [|]]; cbn in Hl; [|destruct d; [|cbn in Hl; lia]|lia].
    + cbn [List.filter fmap list_fmap app]. rewrite app_nil_r. transitivity ((fun r => r) <$> d); [by rewrite list_fmap_id|].
      apply Forall_fmap_ext_1. eapply Forall_impl; [exact G3|]. intros r Hr. unfold fate_step. by rewrite Hr.
    + apply Forall_cons_1 in G2 as [G2 _]. cbn. rewrite G2. by destruct (kept sel r).
  - apply Forall_fmap, Forall_forall. intros r Hr. reflexivity.
  - apply Forall_app; split; [done|]. apply Forall_fmap, Forall_forall. intros r Hr. reflexivity.
  - rewrite !fmap_app, <- !list_fmap_compose. change (r_id ∘ push msg) with r_id. change (r_id ∘ shut) with r_id.
    rewrite (Permutation_app_comm (r_id <$> dropped)), app_assoc. by rewrite filter_kept_ids.
Qed.

Lemma in_step_loop id es fs rs dropped : (length fs <= 1)%nat -> in_step id fs rs dropped -> (forall i, Registers i ∈ es -> i <> id) ->
  exists r, bc_loop es rs dropped = Ok r /\ in_step id (fate es <$> fs) r.1 r.2 /\
    r_id <$> (r.1 ++ r.2) ≡ₚ (r_id <$> (rs ++ dropped)) ++ registered_ids es.
Proof.
  revert fs rs dropped. induction es as [|[i|msg sel] es IH]; intros fs rs dropped Hl Hs Hid; cbn [bc_loop].
  - eexists. split; [done|]. cbn. rewrite list_fmap_id, app_nil_r. done.
  - destruct (IH fs (register (new_receiver i) rs) dropped) as (r & E & Hr & Hp); [done| |intros j Hj; apply Hid; by right|].
    + destruct Hs as (H1 & H2 & H3). unfold register. split_and!; [|apply Forall_app; split; [done|by constructor]|done].
      rewrite of_id_app. cbn. destruct (Nat.eqb_spec i id) as [->|]; [exfalso; by apply (Hid id); [left|]|]. by rewrite app_nil_r.
    + exists r. split; [done|]. split; [done|]. rewrite Hp. unfold register, registered_ids. cbn.
      rewrite !fmap_app. cbn. solve_Permutation.
  - destruct (in_step_broadcast id fs msg sel rs dropped Hl Hs) as (r & -> & Hr & Hp). cbn [mbind res_bind].
    destruct (IH _ _ _ (eq_ind_r (fun n => n <= 1)%nat Hl (length_fmap _ fs)) Hr) as (r' & E & Hr' & Hp'); [intros j Hj; apply Hid; by right|].
    exists r'. split; [done|]. rewrite Hp', Hp. rewrite <- list_fmap_compose in Hr'. by split.
Qed.

Lemma bc_loop_app es1 es2 rs dropped :
  bc_loop (es1 ++ es2) rs dropped = (r ← bc_loop es1 rs dropped; bc_loop es2 r.1 r.2).
Proof.
  revert rs dropped. induction es1 as [|[i|msg sel] es1 IH]; intros rs dropped; cbn [app bc_loop]; [done|apply IH|].
  destruct (broadcast sel msg rs); [|done..]. cbn. apply IH.
Qed.

Lemma close_all_ok rs : Forall (fun r => r.(r_closed) = false) rs -> close_all rs = Ok (shut <$> rs).
Proof. induction 1 as [|r rs Hr _ IH]; cbn [close_all]; [done|]. unfold close_recv. rewrite Hr. cbn. by rewrite IH. Qed.

Lemma fate_msgs es r ms : r.(r_msgs) `prefix_of` ms -> (r.(r_closed) = false -> r.(r_msgs) = ms) ->
  let r' := fate es r in r'.(r_id) = r.(r_id) /\ r'.(r_msgs) `prefix_of` ms ++ sent es /\ (r'.(r_closed) = false -> r'.(r_msgs) = ms ++ sent es).
Proof.
  revert r ms. induction es as [|[i|msg sel] es IH]; intros r ms Hp Ho; cbn [fate foldl sent omap list_omap]; [by rewrite app_nil_r|by apply IH|].
  assert (Hid : r_id (fate_step r (Sends msg sel)) = r_id r) by (cbn; by repeat case_match).
  change (foldl fate_step (fate_step r (Sends msg sel)) es) with (fate es (fate_step r (Sends msg sel))).
  rewrite <- Hid. change (ms ++ msg :: omap _ es) with (ms ++ [msg] ++ sent es). rewrite (app_assoc ms). apply IH; cbn.
  - destruct (r_closed r) eqn:Ec; [by apply prefix_app_r|]. destruct (kept sel r); cbn; [by rewrite Ho|by apply prefix_app_r].
  - destruct (r_closed r) eqn:Ec; [by rewrite Ec|]. destruct (kept sel r); cbn; [by rewrite Ho|done].
Qed.

(** C26. Whatever else happens: there is exactly one receiver for a registration, and it is
    sent exactly the messages that are broadcast after it, in order, until one
    times out or it is seen closed; then its channel is closed and it is sent
    nothing more.  No channel is closed twice or sent to after it was closed (the
    goroutine does not panic), and closing the broadcaster closes the channels of
    all that were ever registered. *)
Theorem broadcaster_delivers es1 id es2 closes : (forall i, Registers i ∈ es1 ++ es2 -> i <> id) ->
  exists rs r, newBroadcaster (es1 ++ Registers id :: es2) closes = Ok rs /\
    of_id id rs = [r] /\ r = (if closes then shut else fun r => r) (fate es2 (new_receiver id)) /\
    (r.(r_msgs) = sent es2 \/ r.(r_msgs) `prefix_of` sent es2 /\ r.(r_closed) = true) /\
    r_id <$> rs ≡ₚ registered_ids (es1 ++ Registers id :: es2) /\
    (closes = true -> Forall (fun r => r.(r_closed) = true) rs).
Proof.
  intros Hid. unfold newBroadcaster. rewrite bc_loop_app.
  destruct (in_step_loop id es1 [] [] []) as ([rs1 d1] & -> & (H1 & H2 & H3) & Hp1); [cbn; lia|by split_and!|intros i Hi; apply Hid, elem_of_app; by left|].
  cbn [mbind res_bind bc_loop fst snd] in *.
  destruct (in_step_loop id es2 [new_receiver id] (register (new_receiver id) rs1) d1) as ([rs2 d2] & -> & (G1 & G2 & G3) & Hp2);
    [cbn; lia| |intros i Hi; apply Hid, elem_of_app; by right|].
  { apply app_eq_nil in H1 as [H1 H1']. unfold register. split_and!; [|apply Forall_app; split; [done|by constructor]|done].
    rewrite of_id_app, H1, H1'. cbn. by rewrite Nat.eqb_refl. }
  cbn [mbind res_bind fst snd] in *. cbn [fmap list_fmap] in G1.
  assert (Hp : r_id <$> (rs2 ++ d2) ≡ₚ registered_ids (es1 ++ Registers id :: es2)).
  { rewrite Hp2. unfold register, registered_ids. rewrite omap_app. cbn. rewrite fmap_app in Hp1. unfold registered_ids in Hp1. cbn in Hp1.
    rewrite <- Hp1, !fmap_app. cbn. solve_Permutation. }
  destruct (fate_msgs es2 (new_receiver id) []) as (_ & F1 & F2); [done..|]. cbn [app] in F1, F2.
  set (f := fate es2 (new_receiver id)) in *. exists ((if closes then shut <$> rs2 else rs2) ++ d2), ((if closes then shut else fun r => r) f).
  split; [|split; [|split; [reflexivity|split; [|split]]]].
  - destruct closes; [rewrite close_all_ok by done|]; reflexivity.
  - destruct closes; cbn beta iota; rewrite of_id_app; [|done]. rewrite <- (filter_true_id rs2), of_id_map, filter_true_id by done.
    destruct (of_id id rs2) as [|r l] eqn:Eo; cbn in G1 |- *.
    + rewrite G1. pose proof (of_id_Forall id _ _ G3) as Gd. rewrite G1 in Gd. apply Forall_cons_1 in Gd as [Gd _].
      f_equal. destruct f as [fi fd fm fc]. cbn in Gd. by subst fc.
    + injection G1 as -> El. apply app_eq_nil in El as [-> ->]. done.
  - destruct closes; cbn [r_msgs r_closed shut]; [right; by split|]. destruct (r_closed f) eqn:Ef; [right; by split|left; auto].
  - destruct closes; [|exact Hp]. rewrite fmap_app, <- list_fmap_compose. change (r_id ∘ shut) with r_id. by rewrite <- fmap_app.
  - intros ->. apply Forall_app; split; [|done]. apply Forall_fmap, Forall_forall. intros r Hr. reflexivity.
Qed.

Lemma broadcaster_delivers_witness :
  let m := mkMsg cmdPTT (VBool true) in let sel := fun r => if (r_id r =? 0)%nat then TimedOut else Delivered in
  exists rs, newBroadcaster [Registers 0; Sends m sel; Registers 1; Sends m sel] true = Ok rs /\ Forall (fun r => r.(r_closed) = true) rs.
Proof.
  intros m sel. destruct (broadcaster_delivers [Registers 0; Sends m sel] 1 [Sends m sel] true) as (rs & r & E & _ & _ & _ & _ & H).
  - intros i Hi. cbn in Hi. set_unfold in Hi. naive_solver lia.
  - exists rs. split; [exact E|exact (H eq_refl)].
Defined.
