(* ===== verification/ArdopBeacon.v ===== *)
(** The beacon of the ARDOP driver ([initBeacon] in [src/transport/ardop/tnc.go])
    as a state machine, the goroutine that writes to the modem, the address of the
    data port ([OpenTCP]) and the names of the states ([state_string.go]). *)
From S2P Require Import Prelude Crc GoStr Helpers Bufio ArdopFrame ArdopWire ArdopTNC ArdopSafety.
Open Scope Z_scope.

(** ** The beacon

    The goroutine waits on two channels of one element and on a timer.  A timer that
    has expired leaves a value in its channel, which [Stop] does not take out. *)
Record beacon := mkBeacon {
  be_reset : option Z; be_close : bool;  (* the channels *)
  be_running : bool; be_d : Z;           (* the goroutine and its duration *)
  be_armed : bool; be_tick : bool;       (* the timer: running, a value in its channel *)
  be_expired : nat; be_sent : nat }.     (* how often it expired; the IDs sent *)

(** [initBeacon]: the timer of 10 ns may have expired before it is stopped. *)
Definition initBeacon (early : bool) : beacon :=
  mkBeacon None false true 0 false early (if early then 1 else 0) 0.

Inductive bevent :=
| BeaconEvery (d : Z)   (* a call, whose send does not block *)
| BeaconClose
| Expire
| TakeClose             (* the cases of the select *)
| TakeReset
| TakeTick (idle : bool).

(** [if d > 0 { t.Reset(d) }] *)
Definition rearm (b : beacon) : beacon :=
  mkBeacon b.(be_reset) b.(be_close) b.(be_running) b.(be_d) ((0 <? b.(be_d)) || b.(be_armed)) b.(be_tick) b.(be_expired) b.(be_sent).

Definition bstep (e : bevent) (b : beacon) : option beacon :=
  match e with
  | BeaconEvery d =>
      match b.(be_reset) with
      | Some _ => None
      | None => Some (mkBeacon (Some d) b.(be_close) b.(be_running) b.(be_d) b.(be_armed) b.(be_tick) b.(be_expired) b.(be_sent))
      end
  | BeaconClose =>
      Some (mkBeacon b.(be_reset) true b.(be_running) b.(be_d) b.(be_armed) b.(be_tick) b.(be_expired) b.(be_sent))
  | Expire =>
      if b.(be_armed)
      then Some (mkBeacon b.(be_reset) b.(be_close) b.(be_running) b.(be_d) false true (S b.(be_expired)) b.(be_sent))
      else None
  | TakeClose =>
      if b.(be_running) && b.(be_close)
      then Some (mkBeacon b.(be_reset) false false b.(be_d) false b.(be_tick) b.(be_expired) b.(be_sent))
      else None
  | TakeReset =>
      match b.(be_reset), b.(be_running) with
      | Some d, true => Some (rearm (mkBeacon None b.(be_close) true d false b.(be_tick) b.(be_expired) b.(be_sent)))
      | _, _ => None
      end
  | TakeTick idle =>
      if b.(be_running) && b.(be_tick)
      then Some (rearm (mkBeacon b.(be_reset) b.(be_close) true b.(be_d) b.(be_armed) false b.(be_expired)
                          (if idle then S b.(be_sent) else b.(be_sent))))
      else None
  end.

Fixpoint brun (es : list bevent) (b : beacon) : option beacon :=
  match es with [] => Some b | e :: es => b ← bstep e b; brun es b end.

(** Every ID stands for a timer that expired; the timer only runs for a positive
    duration and while the goroutine runs. *)
Record binv (b : beacon) : Prop := {
  bi_sent : (b.(be_sent) + (if b.(be_tick) then 1 else 0) <= b.(be_expired))%nat;
  bi_armed : b.(be_armed) = true -> 0 < b.(be_d) /\ b.(be_running) = true }.

Lemma bstep_inv e b b' : binv b -> bstep e b = Some b' -> binv b'.
Proof.
  intros [H1 H2] E. destruct b as [rs cl rn d ar tk ex sn]. cbn [be_reset be_close be_running be_d be_armed be_tick be_expired be_sent] in *.
  destruct e as [d'| | | | |idle]; cbn [bstep be_reset be_close be_running be_d be_armed be_tick be_expired be_sent] in E.
  - destruct rs; [done|]. injection E as <-. by split.
  - injection E as <-. by split.
  - destruct ar; [|done]. injection E as <-. split; cbn; [destruct tk; lia|done].
  - destruct (rn && cl); [|done]. injection E as <-. by split.
  - destruct rs as [d'|], rn; try done. injection E as <-. split; cbn; [done|]. rewrite orb_false_r. intros Hd. apply Z.ltb_lt in Hd. done.
  - destruct rn, tk; try done. cbn in E. injection E as <-. split; cbn; [destruct idle; lia|].
    intros Hd. apply orb_true_iff in Hd as [Hd|Hd]; [by apply Z.ltb_lt in Hd|by apply H2].
Qed.

Lemma brun_inv es b b' : binv b -> brun es b = Some b' -> binv b'.
Proof.
  revert b. induction es as [|e es IH]; intros b Hb; cbn [brun]; [by intros [= <-]|].
  destruct (bstep e b) as [b1|] eqn:E; [|done]. cbn. apply IH. by eapply bstep_inv.
Qed.

(** The beacon never sends more IDs than its timer expired, sends none once it is
    closed, and its timer runs only for a positive interval. *)
Theorem beacon_sends early es b : brun es (initBeacon early) = Some b ->
  (b.(be_sent) <= b.(be_expired))%nat /\ (b.(be_armed) = true -> 0 < b.(be_d)) /\
  (b.(be_running) = false -> forall es' b', brun es' b = Some b' -> b'.(be_sent) = b.(be_sent)).
Proof.
  intros E. assert (Hi : binv b) by (eapply brun_inv; [|exact E]; destruct early; split; cbn; lia || done).
  pose proof Hi as [H1 H2]. split; [lia|]. split; [by intros ?; apply H2|]. intros Hr es'. clear E H1 H2.
  revert b Hi Hr. induction es' as [|e es' IH]; intros b Hi Hr b'; cbn [brun]; [by intros [= <-]|].
  destruct (bstep e b) as [b1|] eqn:E; [|done]. cbn. intros E'.
  assert (H : b1.(be_running) = false /\ b1.(be_sent) = b.(be_sent)).
  { destruct e as [d'| | | | |idle]; cbn [bstep] in E; rewrite ?Hr in E; cbn [andb] in E; try done.
    - destruct (be_reset b); [done|]. by injection E as <-.
    - by injection E as <-.
    - destruct (be_armed b); [|done]. by injection E as <-.
    - by destruct (be_reset b). }
  destruct H as [Hr1 Hs1]. rewrite <- Hs1. apply (IH b1); [by eapply bstep_inv|done|done].
Qed.

Lemma beacon_sends_witness :
  let es := [BeaconEvery 10; TakeReset; Expire; TakeTick true; Expire; TakeTick false; BeaconClose; TakeClose] in
  let b := mkBeacon None false false 10 false false 2 1 in
  brun es (initBeacon false) = Some b /\ (1 <= 2)%nat.
Proof.
  intros es b. assert (E : brun es (initBeacon false) = Some b) by (vm_compute; reflexivity).
  split; [exact E|]. exact (proj1 (beacon_sends false es b E)).
Defined.

(** Two ways in which it goes wrong: an ID before any interval has been set, when
    the first timer expires before it is stopped; and an interval that is set
    after the beacon was closed stays in the channel for ever, so that the next call
    blocks. *)
Example early_id : exists b, brun [TakeTick true] (initBeacon true) = Some b /\ be_sent b = 1%nat /\ be_d b = 0.
Proof. eexists. split; [reflexivity|]. done. Qed.

Theorem closed_beacon_blocks b d : b.(be_running) = false -> b.(be_reset) = Some d ->
  forall es b', brun es b = Some b' -> forall d', bstep (BeaconEvery d') b' = None.
Proof.
  intros Hr Hd es. revert b Hr Hd. induction es as [|e es IH]; intros b Hr Hd b'; cbn [brun].
  { intros [= <-] d'. cbn. by rewrite Hd. }
  destruct (bstep e b) as [b1|] eqn:E; [|done]. cbn. apply IH.
  all: destruct e as [d'| | | | |idle]; cbn [bstep] in E; rewrite ?Hr, ?Hd in E; cbn [andb] in E; try done;
    try (by injection E as <-); by destruct (be_armed b); [injection E as <-|].
Qed.

Lemma closed_beacon_blocks_witness : forall d', bstep (BeaconEvery d')
  (mkBeacon (Some 5) true false 0 false false 0 0) = None.
Proof.
  apply (closed_beacon_blocks (mkBeacon (Some 5) false false 0 false false 0 0) 5 eq_refl eq_refl [BeaconClose]). reflexivity.
Defined.

(** ** The writer

    What the goroutine takes off its two channels, in the order it takes them;
    [fails n] says that the [n]-th write fails; what a failing write puts on the
    wire is left out. *)
Inductive outgoing := Ctrl (s : gostr) | DataOut (d : gostr).

(** What was written to the control and to the data connection, and whether
    the goroutine still runs. *)
Fixpoint write_loop `{Fmt} (isTCP : bool) (fails : nat -> bool) (n : nat) (items : list outgoing) (ctrl data : gostr) : res (gostr * gostr * bool) :=
  match items with
  | [] => mret (ctrl, data, true)
  | Ctrl s :: items =>
      if fails n then mret (ctrl, data, false)
      else write_loop isTCP fails (S n) items (ctrl ++ writeCtrlFrame isTCP s) data
  | DataOut d :: items =>
      if fails n then Panic
      else if isTCP then write_loop isTCP fails (S n) items ctrl (data ++ d)
      else write_loop isTCP fails (S n) items (ctrl ++ d) data
  end.

(** The bytes of an item for each connection. *)
Definition to_ctrl `{Fmt} (isTCP : bool) (i : outgoing) : gostr :=
  match i with Ctrl s => writeCtrlFrame isTCP s | DataOut d => if isTCP then [] else d end.
Definition to_data (isTCP : bool) (i : outgoing) : gostr :=
  match i with Ctrl _ => [] | DataOut d => if isTCP then d else [] end.

Lemma write_loop_ok `{Fmt} isTCP fails n items ctrl data : (forall k, (n <= k < n + length items)%nat -> fails k = false) ->
  write_loop isTCP fails n items ctrl data
  = Ok (ctrl ++ concat (to_ctrl isTCP <$> items), data ++ concat (to_data isTCP <$> items), true).
Proof.
  revert n ctrl data. induction items as [|i items IH]; intros n ctrl data Hf; cbn [write_loop fmap list_fmap concat].
  { by rewrite !app_nil_r. }
  assert (Hn : fails n = false) by (apply Hf; cbn [length]; lia).
  assert (Hf' : forall k, (S n <= k < S n + length items)%nat -> fails k = false) by (intros k Hk; apply Hf; cbn [length]; lia).
  destruct i as [s|d]; rewrite Hn; [|destruct isTCP]; rewrite IH by done; cbn [to_ctrl to_data app]; by rewrite ?app_assoc.
Qed.

(** Without errors everything reaches its connection in order.  A failing control
    write ends the goroutine; a failing data write panics. *)
Theorem writer_in_order `{Fmt} isTCP fails before i after :
  (forall k, (k < length before)%nat -> fails k = false) ->
  let written := (concat (to_ctrl isTCP <$> before), concat (to_data isTCP <$> before)) in
  write_loop isTCP (fun _ => false) 0 before [] [] = Ok (written, true) /\
  (fails (length before) = true ->
   write_loop isTCP fails 0 (before ++ i :: after) [] [] = match i with Ctrl _ => Ok (written, false) | DataOut _ => Panic end).
Proof.
  intros Hf written. split; [by rewrite (write_loop_ok isTCP (fun _ => false) 0 before [] [])|]. intros Hi. unfold written. clear written.
  assert (G : forall n ctrl data, (forall k, (k < length before)%nat -> fails (n + k)%nat = false) -> fails (n + length before)%nat = true ->
    write_loop isTCP fails n (before ++ i :: after) ctrl data
    = match i with Ctrl _ => Ok (ctrl ++ concat (to_ctrl isTCP <$> before), data ++ concat (to_data isTCP <$> before), false) | DataOut _ => Panic end);
    [|by apply (G 0%nat [] [])].
  clear Hf Hi. induction before as [|b before IH]; intros n ctrl data Hf Hn; cbn [app write_loop fmap list_fmap concat].
  - rewrite Nat.add_0_r in Hn. rewrite !app_nil_r. by destruct i; rewrite Hn.
  - assert (H0 : fails n = false) by (rewrite <- (Nat.add_0_r n); apply Hf; cbn [length]; lia).
    assert (Hf' : forall k, (k < length before)%nat -> fails (S n + k)%nat = false)
      by (intros k Hk; replace (S n + k)%nat with (n + S k)%nat by lia; apply Hf; cbn [length]; lia).
    assert (Hn' : fails (S n + length before)%nat = true)
      by (replace (S n + length before)%nat with (n + length (b :: before))%nat by (cbn [length]; lia); done).
    destruct b as [s|d]; rewrite H0; [|destruct isTCP]; rewrite (IH _ _ _ Hf' Hn'); cbn [to_ctrl to_data app]; destruct i; by rewrite ?app_assoc.
Qed.

Lemma writer_in_order_witness :
  @write_loop simple_fmt false (fun n => (n =? 1)%nat) 0 [Ctrl (str "MYCALL LA5NTA"); DataOut [1]; Ctrl []] [] [] = Panic.
Proof.
  apply (proj2 (@writer_in_order simple_fmt false (fun n => (n =? 1)%nat) [Ctrl (str "MYCALL LA5NTA")] (DataOut [1]) [Ctrl []]
    ltac:(intros k Hk; cbn in Hk; destruct k; [done|lia]))). reflexivity.
Defined.

(** ** [OpenTCP]: the port of the data connection is the one after the control port, by
    its last digit. *)
Definition data_addr (addr : gostr) : res gostr :=
  front ← slice addr 0 (zlen addr - 1);
  c ← idx addr (zlen addr - 1);
  mret (front ++ [u8 (c + 1)]).

Lemma digits_fuel b f f' n : 2 <= b -> 0 <= n < b ^ Z.of_nat (S f) -> n < b ^ Z.of_nat (S f') -> digits (S f) b n = digits (S f') b n.
Proof.
  intros Hb. revert f' n. induction f as [|f IH]; intros f' n Hn Hn'; cbn [digits].
  { change (Z.of_nat 1) with 1 in Hn. rewrite Z.pow_1_r in Hn. by destruct (Z.ltb_spec n b); [|lia]. }
  destruct (Z.ltb_spec n b) as [C|C]; [done|]. destruct f' as [|f'].
  { change (Z.of_nat 1) with 1 in Hn'. rewrite Z.pow_1_r in Hn'. lia. }
  rewrite Nat2Z.inj_succ, Z.pow_succ_r in Hn, Hn' by lia.
  f_equal. apply IH; [split; [apply Z.div_pos; lia|]|]; apply Z.div_lt_upper_bound; lia.
Qed.

Lemma itoa_last k : 10 <= k -> itoa k = itoa (k / 10) ++ [48 + k mod 10].
Proof.
  intros Hk. assert (H10 : 1 <= k / 10) by (apply Z.div_le_lower_bound; lia).
  unfold itoa. destruct (Z.ltb_spec k 0), (Z.ltb_spec (k / 10) 0); try lia.
  assert (Ed : ndigits 10 k = ndigits 10 (k / 10) ++ [k mod 10]); [|by rewrite Ed, fmap_app].
  assert (0 < Z.log2 k) by (apply Z.log2_pos; lia).
  unfold ndigits at 1. cbn [digits]. destruct (Z.ltb_spec k 10); [lia|]. f_equal.
  destruct (Z.to_nat (Z.log2 k)) as [|f] eqn:Ef; [lia|]. apply digits_fuel; [lia| |apply log2_bound; lia].
  pose proof (log2_bound 10 k ltac:(lia) ltac:(lia)) as Hb. rewrite Ef, Nat2Z.inj_succ, Z.pow_succ_r in Hb by lia.
  split; [lia|]. apply Z.div_lt_upper_bound; lia.
Qed.

Lemma itoa_small k : 0 <= k < 10 -> itoa k = [48 + k].
Proof. intros Hk. unfold itoa, ndigits. destruct (Z.ltb_spec k 0); [lia|]. cbn [digits]. by destruct (Z.ltb_spec k 10); [|lia]. Qed.

Lemma data_addr_snoc front c : 0 <= c < 255 -> data_addr (front ++ [c]) = Ok (front ++ [c + 1]).
Proof.
  intros Hc. unfold data_addr. rewrite slice_init. cbn [mbind res_bind]. rewrite idx_last. cbn [mbind res_bind].
  by rewrite u8_small by lia.
Qed.

(** That is the next port, unless the last digit is a nine: then it is no number. *)
Theorem data_addr_next host n : 0 <= n ->
  (n mod 10 <> 9 -> data_addr (host ++ itoa n) = Ok (host ++ itoa (n + 1))) /\
  (n mod 10 = 9 -> exists p, data_addr (host ++ itoa n) = Ok (p ++ str ":")).
Proof.
  intros Hn. pose proof (Z.mod_pos_bound n 10 ltac:(lia)) as Hm.
  assert (exists p, itoa n = p ++ [48 + n mod 10] /\ (n mod 10 <> 9 -> itoa (n + 1) = p ++ [48 + n mod 10 + 1])) as (p & -> & E).
  { destruct (Z.ltb_spec n 10) as [C|C].
    - exists []. rewrite (Z.mod_small n) by lia. split; [by rewrite itoa_small by lia|].
      intros H9. rewrite itoa_small by lia. cbn. f_equal. lia.
    - exists (itoa (n / 10)). split; [by apply itoa_last|]. intros H9. rewrite itoa_last by lia.
      assert ((n + 1) / 10 = n / 10 /\ (n + 1) mod 10 = n mod 10 + 1) as [-> ->] by (Z.div_mod_to_equations; lia).
      by rewrite Z.add_assoc. }
  rewrite app_assoc, data_addr_snoc by lia. split; intros H9.
  - rewrite E by done. by rewrite app_assoc.
  - rewrite H9. by eexists.
Qed.

Lemma data_addr_next_witness :
  data_addr (str "localhost:8515") = Ok (str "localhost:8516") /\ exists p, data_addr (str "localhost:8519") = Ok (p ++ str ":").
Proof.
  split; [exact (proj1 (data_addr_next (str "localhost:") 8515 ltac:(lia)) ltac:(done))|].
  exact (proj2 (data_addr_next (str "localhost:") 8519 ltac:(lia)) ltac:(done)).
Defined.

(** [Open] and [OpenTCP] up to [open], which is [tnc_open]; [dial] is net.Dial and
    [resolve] net.ResolveTCPAddr, whose error is not looked at.  The second part
    of the result is the connections that are open. *)
Definition ardop_Open : TNC := newTNC false.

Definition ardop_OpenTCP (dial : gostr -> option error) (resolve : gostr -> option gostr) (addr : gostr) :
    res ((error + TNC) * list gostr) :=
  match dial addr with
  | Some err => mret (inl err, [])
  | None =>
      dataAddr ← data_addr addr;
      match resolve dataAddr with
      | None => mret (inl (New (str "dial tcp: missing address")), [addr])
      | Some raddr =>
          match dial raddr with
          | Some err => mret (inl err, [addr])
          | None => mret (inr (newTNC true), [addr; raddr])
          end
      end
  end.

(** The control connection stays open when there is no data connection. *)
Example control_left_open :
  ardop_OpenTCP (fun a => if streq a (str "localhost:8515") then None else Some (New (str "refused"))) Some (str "localhost:8515")
  = Ok (inl (New (str "refused")), [str "localhost:8515"]).
Proof. vm_compute. reflexivity. Qed.

(** ** Listening after a failure

    [Listen] marks a listener as active before it asks the modem; when the modem
    refuses, it can never be called again. *)
Example failed_listen_sticks :
  let w := mkWorld (newTNC true) (inr <$> [cmdFrame (str "MYCALL LA5NTA"); cmdFrame (str "FAULT no"); cmdFrame (str "MYCALL LA5NTA"); cmdFrame (str "LISTEN now TRUE")]) [] [] 0 in
  match tnc_Listen w with
  | Ok (inl _, w1) => match tnc_Listen w1 with Ok (inl e, _) => e = ErrActiveListenerExists | _ => False end
  | _ => False
  end.
Proof. vm_compute. reflexivity. Qed.

(** ** [State.String] on a byte *)
Definition _State_name : gostr := str "UnknownOfflineDisconnectedISSIRSIdleFECSendFECReceive".
Definition _State_index : list Z := [0; 7; 14; 26; 29; 32; 36; 43; 53].

Definition state_String (i : Z) : res gostr :=
  if zlen _State_index <=? u8 (i + 1) then mret (str "State(" ++ itoa i ++ str ")")
  else
    a ← idx _State_index i;
    b ← idx _State_index (u8 (i + 1));
    slice _State_name a b.

(** Every state has its name; the greatest byte, whose successor wraps around to 0,
    panics. *)
Theorem state_names :
  (state_String <$> [0; 1; 2; 3; 4; 5; 6; 7])
  = (Ok <$> [str "Unknown"; str "Offline"; str "Disconnected"; str "ISS"; str "IRS"; str "Idle"; str "FECSend"; str "FECReceive"]) /\
  (forall i, 8 <= i < 255 -> state_String i = Ok (str "State(" ++ itoa i ++ str ")")) /\
  state_String 255 = Panic.
Proof.
  split; [reflexivity|]. split; [|reflexivity]. intros i Hi. unfold state_String. rewrite u8_small by lia.
  change (zlen _State_index) with 9. by destruct (Z.leb_spec 9 (i + 1)); [|lia].
Qed.
