(* ===== verification/Agwpe.v ===== *)
(** The AGWPE interface to AX.25 modems: [src/transport/ax25/agwpe].

    Frames are read from the connection without a buffer of their own: a [Read]
    returns one piece of the stream.  A connection is run synchronously: an
    operation that waits for a frame handles the frames that come in, one by one.
    When the modem hangs up every channel is closed; the timeouts and deadlines
    are left out. *)
From S2P Require Import Prelude Crc GoStr Helpers Bufio ArdopFrame.

(** ** frame.go *)
Abbreviation callsign := (list Z).

(** [copy(dst[:n], src)] into [n] zero bytes. *)
Definition copy_into (n : nat) (s : gostr) : list Z := take n s ++ replicate (n - length s) 0.

Definition callsignFromString (s : gostr) : callsign := copy_into 10 s.

Fixpoint until_zero (s : gostr) : gostr :=
  match s with [] => [] | c :: s => if c =? 0 then [] else c :: until_zero s end.
Definition strFromBytes (b : list Z) : gostr := until_zero b.
Definition callsign_String (c : callsign) : gostr := strFromBytes c.

Record agw_header := mkH { Port : Z; DataKind : Z; PID : Z; From : callsign; To : callsign; DataLen : Z }.
Record agw_frame := mkF { hdr : agw_header; Data : gostr }.

Definition no_call : callsign := replicate 10 0.

(** Package encoding/binary, little endian. *)
Definition PutUint32LE (n : Z) : list Z := [n mod 256; n / 256 mod 256; n / 65536 mod 256; n / 16777216 mod 256].
Definition Uint32LE (b : list Z) : Z :=
  get b 0 + get b 1 * 256 + get b 2 * 65536 + get b 3 * 16777216.
Definition Uint16LE (b : list Z) : Z := get b 0 + get b 1 * 256.

Definition header_size : nat := 36.

(** [binary.Write] of a header: the reserved fields are zero. *)
Definition header_WriteTo (h : agw_header) : list Z :=
  [h.(Port); 0; 0; 0; h.(DataKind); 0; h.(PID); 0] ++ h.(From) ++ h.(To) ++ PutUint32LE h.(DataLen) ++ [0; 0; 0; 0].

Definition header_of (b : list Z) : agw_header :=
  mkH (get b 0) (get b 4) (get b 6) (take 10 (drop 8 b)) (take 10 (drop 18 b)) (Uint32LE (drop 28 b)).

(** [binary.Read] of a header: io.ReadFull. *)
Definition header_ReadFrom (rd : rdr) : (error + agw_header) * rdr :=
  let '(b, rd) := Read_loop header_size header_size rd in
  if (length b =? 0)%nat then (inl io_EOF, rd)
  else if (length b <? header_size)%nat then (inl io_ErrUnexpectedEOF, rd)
  else (inr (header_of b), rd).

Definition frame_WriteTo (f : agw_frame) : list Z :=
  let h := f.(hdr) in
  header_WriteTo (mkH h.(Port) h.(DataKind) h.(PID) h.(From) h.(To) (u32 (zlen f.(Data)))) ++ f.(Data).

(** The data is asked for with one [Read]. *)
Definition frame_ReadFrom (rd : rdr) : (error + agw_frame) * rdr :=
  match header_ReadFrom rd with
  | (inl e, rd) => (inl e, rd)
  | (inr h, rd) =>
      let n := Z.to_nat h.(DataLen) in
      match n with
      | O => (inr (mkF h []), rd)
      | _ => match Read_some n rd with
             | (None, rd) => (inl io_EOF, rd)
             | (Some d, rd) => if negb (length d =? n)%nat then (inl io_ErrUnexpectedEOF, rd) else (inr (mkF h d), rd)
             end
      end
  end.

(** [TNC.run]: the frames read until the first error. *)
Fixpoint tnc_run (fuel : nat) (rd : rdr) : res (list agw_frame * error) :=
  match fuel with
  | O => NoFuel
  | S fuel =>
      match frame_ReadFrom rd with
      | (inl e, _) => mret ([], e)
      | (inr f, rd) => r ← tnc_run fuel rd; mret (f :: r.1, r.2)
      end
  end.

(** ** frame_kinds.go *)
Definition kindLogin := 80.
Definition kindRegister := 88.
Definition kindUnregister := 120.
Definition kindVersionNumber := 82.
Definition kindOutstandingFramesForPort := 121.
Definition kindPortCapabilities := 103.
Definition kindConnect := 67.
Definition kindConnectVia := 118.
Definition kindDisconnect := 100.
Definition kindConnectedData := 68.
Definition kindOutstandingFramesForConn := 89.
Definition kindUnprotoInformation := 77.

Definition versionNumberFrame : agw_frame := mkF (mkH 0 kindVersionNumber 0 no_call no_call 0) [].
Definition portCapabilitiesFrame (port : Z) : agw_frame := mkF (mkH port kindPortCapabilities 0 no_call no_call 0) [].
Definition connectedDataFrame (port : Z) (from to data : gostr) : agw_frame :=
  mkF (mkH port kindConnectedData 0xf0 (callsignFromString from) (callsignFromString to) (u32 (zlen data))) data.
Definition outstandingFramesForConnFrame (port : Z) (from to : gostr) : agw_frame :=
  mkF (mkH port kindOutstandingFramesForConn 0 (callsignFromString from) (callsignFromString to) 0) [].
Definition outstandingFramesForPortFrame (port : Z) : agw_frame :=
  mkF (mkH port kindOutstandingFramesForPort 0 no_call no_call 0) [].
Definition loginFrame (username password : gostr) : agw_frame :=
  mkF (mkH 0 kindLogin 0 no_call no_call 0) (copy_into 255 username ++ copy_into 255 password).
Definition registerCallsignFrame (call : gostr) (port : Z) : agw_frame :=
  mkF (mkH port kindRegister 0 (callsignFromString call) no_call 0) [].
(** The port is not put into the next five. *)
Definition unregisterCallsignFrame (call : gostr) (port : Z) : agw_frame :=
  mkF (mkH 0 kindUnregister 0 (callsignFromString call) no_call 0) [].
Definition connectViaFrame (from to : gostr) (port : Z) (digis : list gostr) : agw_frame :=
  mkF (mkH 0 kindConnectVia 0 (callsignFromString from) (callsignFromString to) 0)
    (u8 (zlen digis) :: concat (callsignFromString <$> digis)).
Definition connectFrame (from to : gostr) (port : Z) (digis : list gostr) : agw_frame :=
  match digis with
  | _ :: _ => connectViaFrame from to port digis
  | [] => mkF (mkH 0 kindConnect 0 (callsignFromString from) (callsignFromString to) 0) []
  end.
Definition unprotoInformationFrame (from to : gostr) (port : Z) (data : gostr) : agw_frame :=
  mkF (mkH 0 kindUnprotoInformation 0 (callsignFromString from) (callsignFromString to) 0) data.
Definition disconnectFrame (from to : gostr) (port : Z) : agw_frame :=
  mkF (mkH 0 kindDisconnect 0 (callsignFromString from) (callsignFromString to) 0) [].

(** ** demux.go *)
Record framesFilter := mkFilter { kinds : list Z; fport : option Z; fcall : callsign; fto : callsign }.

Definition Want (f : framesFilter) (fr : agw_frame) : bool :=
  let h := fr.(hdr) in
  if match f.(fport) with Some p => negb (p =? h.(Port)) | None => false end then false
  else if negb (streq f.(fcall) no_call) && negb (streq f.(fcall) h.(From) || streq f.(fcall) h.(To)) then false
  else if negb (streq f.(fto) no_call) && negb (streq f.(fto) h.(To)) then false
  else match f.(kinds) with [] => true | ks => existsb (fun k => h.(DataKind) =? k) ks end.

(** A client: [done] is set by Cancel. *)
Record framesReq := mkReq { filter : framesFilter; once : bool; req_done : bool; resp : list agw_frame; resp_closed : bool }.

Definition newFramesReq (f : framesFilter) (o : bool) : framesReq := mkReq f o false [] false.

Definition Cancel (r : framesReq) : res framesReq :=
  if r.(req_done) then Panic else Ok (mkReq r.(filter) r.(once) true r.(resp) r.(resp_closed)).

(** [sel]: whether the [select] sees the client done; it can only be so when it
    is. *)
Section serve.
Context (sel : framesReq -> bool) (f : agw_frame).

(** [for i := 0; i < len(clients); i++]: the clients kept and the ones closed. *)
Fixpoint serve_loop (fuel : nat) (i : Z) (clients gone : list framesReq) : res (list framesReq * list framesReq) :=
  match fuel with
  | O => NoFuel
  | S fuel =>
      if i <? zlen clients then
        c ← idx clients i;
        if negb (Want c.(filter) f) then serve_loop fuel (i + 1) clients gone
        else
          let c' := if sel c then c else mkReq c.(filter) c.(once) c.(req_done) (c.(resp) ++ [f]) c.(resp_closed) in
          if negb (sel c) && negb c.(once) then
            clients ← upd clients i c';
            serve_loop fuel (i + 1) clients gone
          else
            if c'.(resp_closed) then Panic
            else
              let c' := mkReq c'.(filter) c'.(once) c'.(req_done) c'.(resp) true in
              let clients := take (Z.to_nat i) clients ++ drop (Z.to_nat (i + 1)) clients in
              let i := i - 1 in
              serve_loop fuel (i + 1) clients (gone ++ [c'])
      else mret (clients, gone)
  end.

Definition serve (clients : list framesReq) : res (list framesReq * list framesReq) :=
  serve_loop (S (length clients)) 0 clients [].
End serve.

(** A demux between its rounds: the frame in its channel, if any. *)
Record demux := mkDemux { clients : list framesReq; inbox : option agw_frame; demux_closed : bool }.

Definition Enqueue (f : agw_frame) (d : demux) : bool * demux :=
  if d.(demux_closed) then (false, d)
  else match d.(inbox) with
       | None => (true, mkDemux d.(clients) (Some f) false)
       | Some _ => (true, d)  (* the buffer is full: the frame is dropped *)
       end.

Definition demux_Close (d : demux) : demux := mkDemux d.(clients) d.(inbox) true.

(** One round of [run]; [None] when it returns, with the clients closed. *)
Definition demux_round (sel : framesReq -> bool) (d : demux) : res (option demux * list framesReq) :=
  match d.(inbox) with
  | Some f => r ← serve sel f d.(clients); mret (Some (mkDemux r.1 None d.(demux_closed)), r.2)
  | None => if d.(demux_closed)
            then mret (None, (fun c => mkReq c.(filter) c.(once) c.(req_done) c.(resp) true) <$> d.(clients))
            else mret (Some d, [])
  end.

(** ** port.go, conn.go, agwpe.go

    The chain of demuxes passes a frame on to a connection when its port and one
    of its call signs fit.  The channel of received data is taken as unbounded. *)
Record port := mkPort { p_port : Z; p_mycall : gostr; p_maxFrame : Z; p_closed : bool }.

Record aconn := mkAConn {
  c_inbound : bool; c_srcCall : gostr; c_dstCall : gostr; c_via : list gostr;
  c_dataFrames : list gostr; c_demux_closed : bool; c_closing : bool }.

(** The frames still to come and the frames written. *)
Record air := mkAir { a_in : list agw_frame; a_out : list agw_frame; a_port : port; a_conn : aconn }.

Definition radio (A : Type) : Type := air -> res (A * air).
#[export] Instance radio_ret : MRet radio := fun A a w => Ok (a, w).
#[export] Instance radio_bind : MBind radio := fun A B f m w => r ← m w; f r.1 r.2.

Definition the_port : radio port := fun w => mret (w.(a_port), w).
Definition the_conn : radio aconn := fun w => mret (w.(a_conn), w).
Definition set_conn (c : aconn) : radio unit := fun w => mret (tt, mkAir w.(a_in) w.(a_out) w.(a_port) c).
Definition set_port (p : port) : radio unit := fun w => mret (tt, mkAir w.(a_in) w.(a_out) p w.(a_conn)).

(** [TNC.write] *)
Definition tnc_write (f : agw_frame) : radio unit := fun w =>
  mret (tt, mkAir w.(a_in) (w.(a_out) ++ [f]) w.(a_port) w.(a_conn)).

(** [Port.write] *)
Definition port_write (f : agw_frame) : radio unit := fun w =>
  if negb (f.(hdr).(Port) =? w.(a_port).(p_port)) then Panic else tnc_write f w.

Definition port_filter (p : port) : framesFilter := mkFilter [] (Some p.(p_port)) no_call no_call.
Definition conn_filter (c : aconn) : framesFilter := mkFilter [] None (callsignFromString c.(c_dstCall)) no_call.

(** [newConn] *)
Definition newConn (p : port) (dstCall : gostr) (via : list gostr) : aconn :=
  mkAConn false p.(p_mycall) dstCall via [] false false.

(** What a frame does to the connection: data is queued, a disconnect closes its
    demux. *)
Definition route (p : port) (f : agw_frame) (c : aconn) : aconn :=
  if c.(c_demux_closed) || negb (Want (port_filter p) f && Want (conn_filter c) f) then c
  else if f.(hdr).(DataKind) =? kindConnectedData then
    mkAConn c.(c_inbound) c.(c_srcCall) c.(c_dstCall) c.(c_via) (c.(c_dataFrames) ++ [f.(Data)]) false c.(c_closing)
  else if f.(hdr).(DataKind) =? kindDisconnect then
    mkAConn c.(c_inbound) c.(c_srcCall) c.(c_dstCall) c.(c_via) c.(c_dataFrames) true c.(c_closing)
  else c.

Definition close_demux (c : aconn) : aconn :=
  mkAConn c.(c_inbound) c.(c_srcCall) c.(c_dstCall) c.(c_via) c.(c_dataFrames) true c.(c_closing).

(** The next frame that is wanted; [None] when the channel is closed. *)
Fixpoint await_frame (want : air -> agw_frame -> bool) (closed : air -> bool) (fuel : nat) : radio (option agw_frame) := fun w =>
  match fuel with
  | O => NoFuel
  | S fuel =>
      if closed w then mret (None, w)
      else match w.(a_in) with
           | [] => mret (None, mkAir [] w.(a_out)
                     (mkPort w.(a_port).(p_port) w.(a_port).(p_mycall) w.(a_port).(p_maxFrame) true) (close_demux w.(a_conn)))
           | f :: rest =>
               let w' := mkAir rest w.(a_out) w.(a_port) (route w.(a_port) f w.(a_conn)) in
               if want w f then mret (Some f, w') else await_frame want closed fuel w'
           end
  end.

Definition of_kind (ks : list Z) (f : agw_frame) : bool := existsb (fun k => f.(hdr).(DataKind) =? k) ks.

(** [<-demux.NextFrame(ks...)] on the demux of the connection, of the port and of
    the modem. *)
Definition conn_NextFrame (ks : list Z) : radio (option agw_frame) := fun w =>
  await_frame (fun w f => Want (port_filter w.(a_port)) f && Want (conn_filter w.(a_conn)) f && of_kind ks f)
    (fun w => w.(a_conn).(c_demux_closed)) (S (length w.(a_in))) w.
Definition port_NextFrame (ks : list Z) : radio (option agw_frame) := fun w =>
  await_frame (fun w f => Want (port_filter w.(a_port)) f && of_kind ks f)
    (fun w => w.(a_port).(p_closed)) (S (length w.(a_in))) w.
Definition tnc_NextFrame (ks : list Z) : radio (option agw_frame) := fun w =>
  await_frame (fun _ f => of_kind ks f) (fun w => w.(a_port).(p_closed)) (S (length w.(a_in))) w.

Definition agw_ErrTNCClosed := New (str "TNC closed").
Definition ErrPortClosed := New (str "port closed").

(** *** The port *)
Definition Version : radio (error + gostr) :=
  tnc_write versionNumberFrame;;
  r ← tnc_NextFrame [kindVersionNumber];
  match r with
  | None => mret (inl agw_ErrTNCClosed)
  | Some f =>
      if negb (zlen f.(Data) =? 8) then mret (inl (New (str "'R' frame with invalid data length")))
      else mret (inr (itoa (Uint16LE f.(Data)) ++ str "." ++ itoa (Uint16LE (drop 4 f.(Data)))))
  end.

(** The MaxFrame field of the capabilities; the record has 12 bytes.  A closed
    channel gives the zero frame. *)
Definition getCapabilities : radio (error + Z) :=
  p ← the_port;
  port_write (portCapabilitiesFrame p.(p_port));;
  r ← port_NextFrame [kindPortCapabilities];
  let data := match r with Some f => f.(Data) | None => [] end in
  match data with
  | [] => mret (inl io_EOF)
  | _ => if zlen data <? 12 then mret (inl io_ErrUnexpectedEOF) else mret (inr (get data 6))
  end.

Definition register : radio (option error) :=
  cap ← getCapabilities;
  p ← the_port;
  let maxFrame := match cap with inr n => n | inl _ => 7 end in
  set_port (mkPort p.(p_port) p.(p_mycall) maxFrame p.(p_closed));;
  port_write (registerCallsignFrame p.(p_mycall) p.(p_port));;
  r ← port_NextFrame [kindRegister; 120];
  let '(k, data) := match r with Some f => (f.(hdr).(DataKind), f.(Data)) | None => (0, []) end in
  match data with
  | [b] => if negb (b =? 1) then mret (Some (New (str "callsign in use"))) else mret None
  | _ => mret (Some (New (str "unexpected registration response (" ++ EncodeRune k ++ str ")")))
  end.

(** The connection an inbound frame opens. *)
Definition inbound_conn (p : port) (f : agw_frame) : option aconn :=
  if negb (Want (port_filter p) f && Want (mkFilter [kindConnect] None no_call (callsignFromString p.(p_mycall))) f) then None
  else if negb (HasPrefix f.(Data) (str "*** CONNECTED To ")) then None
  else
    let c := newConn p (callsign_String f.(hdr).(From)) [] in
    Some (mkAConn true c.(c_srcCall) c.(c_dstCall) c.(c_via) c.(c_dataFrames) c.(c_demux_closed) c.(c_closing)).

Definition port_Close : radio unit :=
  p ← the_port;
  port_write (unregisterCallsignFrame p.(p_mycall) p.(p_port));;
  set_port (mkPort p.(p_port) p.(p_mycall) p.(p_maxFrame) true).

Definition SendUI (data dst : gostr) : radio (option error) :=
  p ← the_port;
  if p.(p_closed) : bool then mret (Some ErrPortClosed)
  else tnc_write (unprotoInformationFrame p.(p_mycall) dst p.(p_port) data);; mret None.

(** The number in an answer about outstanding frames. *)
Definition outstanding (f : agw_frame) : error + Z :=
  if negb (zlen f.(Data) =? 4)
  then inl (New (str "'" ++ EncodeRune f.(hdr).(DataKind) ++ str "' frame with unexpected data length"))
  else inr (Uint32LE f.(Data)).

Definition port_numOutstandingFrames : radio (error + Z) :=
  p ← the_port;
  port_write (outstandingFramesForPortFrame p.(p_port));;
  r ← port_NextFrame [kindOutstandingFramesForPort];
  mret (match r with None => inr 0 | Some f => outstanding f end).

(** *** A connection *)

(** [reverse] is the environment variable AGWPE_REVERSE_TO_FROM. *)
Definition conn_numOutstandingFrames (reverse : bool) : radio (error + Z) :=
  p ← the_port;
  c ← the_conn;
  if c.(c_demux_closed) : bool then mret (inl io_EOF)
  else
    let '(from, to) := if c.(c_inbound) && reverse then (c.(c_dstCall), c.(c_srcCall)) else (c.(c_srcCall), c.(c_dstCall)) in
    port_write (outstandingFramesForConnFrame p.(p_port) from to);;
    r ← conn_NextFrame [kindOutstandingFramesForConn];
    mret (match r with None => inl io_EOF | Some f => outstanding f end).

Fixpoint wait_fuel (reverse : bool) (stop : Z -> bool) (fuel : nat) : radio (option error) :=
  match fuel with
  | O => fun _ => NoFuel
  | S fuel =>
      r ← conn_numOutstandingFrames reverse;
      match r with
      | inl e => mret (Some e)
      | inr n => if stop n then mret None else wait_fuel reverse stop fuel
      end
  end.
Definition waitOutstandingFrames (reverse : bool) (stop : Z -> bool) : radio (option error) := fun w =>
  wait_fuel reverse stop (S (S (length w.(a_in)))) w.

Definition agw_Flush (reverse : bool) : radio (option error) := waitOutstandingFrames reverse (fun n => n =? 0).

Definition agw_Write (reverse : bool) (p : gostr) : radio (Z * option error) :=
  c ← the_conn;
  if c.(c_closing) : bool then mret (0, Some io_EOF)
  else
    q ← the_port;
    e ← waitOutstandingFrames reverse (fun n => n <=? q.(p_maxFrame));
    match e with
    | Some e => mret (0, Some e)
    | None =>
        port_write (connectedDataFrame q.(p_port) c.(c_srcCall) c.(c_dstCall) p);;
        e ← waitOutstandingFrames reverse (fun n => 0 <? n);
        match e with Some e => mret (0, Some e) | None => mret (zlen p, None) end
    end.

(** [Read] with a buffer of [n] bytes, on data that has arrived or arrives. *)
Fixpoint agw_read_fuel (fuel : nat) (n : Z) : radio (error + gostr) := fun w =>
  match fuel with
  | O => NoFuel
  | S fuel =>
      let c := w.(a_conn) in
      match c.(c_dataFrames) with
      | d :: ds =>
          if n <? zlen d then Panic
          else mret (inr d, mkAir w.(a_in) w.(a_out) w.(a_port)
                 (mkAConn c.(c_inbound) c.(c_srcCall) c.(c_dstCall) c.(c_via) ds c.(c_demux_closed) c.(c_closing)))
      | [] =>
          if c.(c_demux_closed) then mret (inl io_EOF, w)
          else match w.(a_in) with
               | [] => mret (inl io_EOF, mkAir [] w.(a_out) w.(a_port) (close_demux c))
               | f :: rest => agw_read_fuel fuel n (mkAir rest w.(a_out) w.(a_port) (route w.(a_port) f c))
               end
      end
  end.
Definition agw_Read (n : Z) : radio (error + gostr) := fun w => agw_read_fuel (S (S (length w.(a_in)))) n w.

Definition agw_Close (reverse : bool) : radio (option error) :=
  c ← the_conn;
  if c.(c_closing) || c.(c_demux_closed) then mret None
  else
    set_conn (mkAConn c.(c_inbound) c.(c_srcCall) c.(c_dstCall) c.(c_via) c.(c_dataFrames) c.(c_demux_closed) true);;
    e ← agw_Flush reverse;
    p ← the_port;
    (if bool_decide (e = Some io_EOF) then mret tt
     else
       port_write (disconnectFrame c.(c_srcCall) c.(c_dstCall) p.(p_port));;
       conn_NextFrame [kindDisconnect];;
       mret tt);;
    c ← the_conn;
    set_conn (close_demux c);;
    mret None.

Definition agw_connect : radio (option error) :=
  p ← the_port;
  c ← the_conn;
  port_write (connectFrame c.(c_srcCall) c.(c_dstCall) p.(p_port) c.(c_via));;
  r ← conn_NextFrame [kindConnect; kindDisconnect];
  match r with
  | None => mret (Some ErrPortClosed)
  | Some f =>
      if f.(hdr).(DataKind) =? kindConnect then
        if negb (HasPrefix f.(Data) (str "*** CONNECTED With ")) then
          port_write (disconnectFrame c.(c_srcCall) c.(c_dstCall) p.(p_port));;
          mret (Some (New (str "connect precondition failed")))
        else mret None
      else if f.(hdr).(DataKind) =? kindDisconnect then mret (Some (New (TrimSpace (strFromBytes f.(Data)))))
      else fun _ => Panic
  end.

Definition DialContext (target : gostr) (via : list gostr) : radio (option error) :=
  p ← the_port;
  if p.(p_closed) : bool then mret (Some ErrPortClosed)
  else
    set_conn (newConn p target via);;
    e ← agw_connect;
    match e with
    | Some e => c ← the_conn; set_conn (close_demux c);; mret (Some e)
    | None => mret None
    end.

(** address.go *)
Definition addr_string (dest : gostr) (digis : list gostr) : gostr :=
  match digis with
  | [] => dest
  | _ => dest ++ str " via " ++ strings_Join digis (str " ")
  end.
