(* ===== verification/AgwpeProps.v ===== *)
(** Theorems on the AGWPE interface: frames on the wire, the port in a frame,
    the flow control of a write, delivery by the demux. *)
From S2P Require Import Prelude Crc GoStr Helpers Bufio ArdopFrame Agwpe.

(** ** Frames on the wire *)
Definition wf_header (h : agw_header) : Prop :=
  length h.(From) = 10%nat /\ length h.(To) = 10%nat /\ 0 <= h.(DataLen) < 2 ^ 32.

(** A frame with the length of its data in the header. *)
Definition wf_agw (f : agw_frame) : Prop := wf_header f.(hdr) /\ f.(hdr).(DataLen) = zlen f.(Data).

Lemma Uint32LE_Put n : 0 <= n < 2 ^ 32 -> Uint32LE (PutUint32LE n ++ [0; 0; 0; 0]) = n.
Proof.
  intros Hn. unfold Uint32LE, PutUint32LE. cbn [app].
  repeat match goal with |- context [get ?l ?i] => let x := eval cbv [get nth Z.to_nat Pos.to_nat Pos.iter_op Nat.add] in (get l i) in change (get l i) with x end.
  Z.div_mod_to_equations. lia.
Qed.

Lemma callsign_list {A} (l : list A) : length l = 10%nat ->
  exists a b c d e f g h i j, l = [a; b; c; d; e; f; g; h; i; j].
Proof. intros H. do 10 (destruct l as [|? l]; [discriminate|]). destruct l; [|discriminate]. by do 10 eexists. Qed.

Lemma header_roundtrip h : wf_header h -> header_of (header_WriteTo h) = h /\ length (header_WriteTo h) = header_size.
Proof.
  intros (Hf & Ht & Hd). destruct h as [p k pid from to n]. cbn [Agwpe.From Agwpe.To Agwpe.DataLen] in *.
  destruct (callsign_list from Hf) as (? & ? & ? & ? & ? & ? & ? & ? & ? & ? & ->).
  destruct (callsign_list to Ht) as (? & ? & ? & ? & ? & ? & ? & ? & ? & ? & ->).
  split; [|reflexivity].
  match goal with |- ?x = mkH ?p ?k ?pid ?f ?t n => change x with (mkH p k pid f t (Uint32LE (PutUint32LE n ++ [0; 0; 0; 0]))) end.
  by rewrite Uint32LE_Put.
Qed.

Lemma wire_header f : wf_agw f -> frame_WriteTo f = header_WriteTo f.(hdr) ++ f.(Data).
Proof.
  intros [(_ & _ & H) E]. unfold frame_WriteTo. rewrite <- E. unfold u32. rewrite Z.mod_small by done. by destruct (hdr f).
Qed.

(** Data asked for with one [Read] comes whole when no piece ends within it, and
    short otherwise. *)
Lemma Read_whole rd d rest : (0 < length d)%nat -> concat rd = d ++ rest ->
  (forall j, (0 < j < length d)%nat -> cut_at j rd = false) ->
  exists rd', Read_some (length d) rd = (Some d, rd') /\ consumed (length d) rd rd'.
Proof.
  intros Hd. induction rd as [|c rd IH]; intros E Hc; [destruct d; [cbn in Hd; lia|discriminate]|]. destruct c as [|x c].
  - destruct IH as (rd' & E' & H'); [done|intros j Hj; rewrite <- (cut_nil j rd) by lia; by apply Hc|].
    exists rd'. split; [done|by apply consumed_nil].
  - cbn [concat] in E. assert (Hl : (length d <= length (x :: c))%nat).
    { destruct (le_lt_dec (length d) (length (x :: c))) as [|Hlt]; [done|]. specialize (Hc (length (x :: c))).
      cbn [cut_at] in Hc. rewrite Nat.eqb_refl in Hc. discriminate Hc. cbn in *. lia. }
    exists (drop (length d) (x :: c) :: rd). split; [|by apply consumed_drop].
    cbn [Read_some]. do 2 f_equal. rewrite <- (take_app_le _ (concat rd)) by done. by rewrite E, take_app_length.
Qed.

Lemma Read_short rd n d rest j : concat rd = d ++ rest -> (0 < j < length d)%nat -> cut_at j rd = true -> n = length d ->
  exists d' rd', Read_some n rd = (Some d', rd') /\ (length d' < n)%nat.
Proof.
  intros E Hj Hc ->. revert j Hj Hc. induction rd as [|c rd IH]; intros j Hj Hc; [done|]. destruct c as [|x c].
  - rewrite cut_nil in Hc by lia. by apply (IH E j).
  - exists (take (length d) (x :: c)), (drop (length d) (x :: c) :: rd). split; [done|]. rewrite length_take.
    cbn [cut_at] in Hc. apply orb_prop in Hc as [Hc|Hc]; [apply Nat.eqb_eq in Hc|apply andb_prop in Hc as [Hc _]; apply Nat.ltb_lt in Hc]; lia.
Qed.

Lemma read_agw_header h rd rest : wf_header h -> concat rd = header_WriteTo h ++ rest ->
  exists rd', header_ReadFrom rd = (inr h, rd') /\ consumed header_size rd rd'.
Proof.
  intros Hh E. destruct (header_roundtrip h Hh) as [H1 H2].
  destruct (Read_loop_consumed header_size header_size rd) as (rd' & Er & Hc); [done|rewrite E, length_app; lia|].
  exists rd'. split; [|done]. unfold header_ReadFrom. rewrite Er, E, <- H2, take_app_length. rewrite H2. cbn [Nat.eqb Nat.ltb Nat.leb header_size].
  by rewrite H1.
Qed.

(** Offsets of a frame where a piece must not end. *)
Definition data_uncut (k : nat) (f : agw_frame) (rd : rdr) : Prop :=
  forall j, (0 < j < length f.(Data))%nat -> cut_at (k + header_size + j) rd = false.

Lemma read_agw f rd rest : wf_agw f -> concat rd = frame_WriteTo f ++ rest -> data_uncut 0 f rd ->
  exists rd', frame_ReadFrom rd = (inr f, rd') /\ consumed (length (frame_WriteTo f)) rd rd'.
Proof.
  intros Hf E Hu. rewrite wire_header in * by done. rewrite <- app_assoc in E.
  destruct (read_agw_header _ _ _ (proj1 Hf) E) as (rd1 & E1 & C1). pose proof C1 as (_ & X1 & Cc).
  destruct (header_roundtrip _ (proj1 Hf)) as [_ HL].
  assert (X : concat rd1 = Data f ++ rest) by (by rewrite X1, E, <- HL, drop_app_length).
  unfold frame_ReadFrom. rewrite E1. destruct Hf as [_ Hd].
  assert (Hn : Z.to_nat (DataLen (hdr f)) = length (Data f)) by (rewrite Hd; unfold zlen; lia). rewrite Hn, length_app, HL.
  destruct (Data f) as [|x d] eqn:Ed; cbn [length].
  - exists rd1. split; [|by rewrite Nat.add_0_r]. destruct f. cbn in *. by subst.
  - destruct (Read_whole rd1 (x :: d) rest) as (rd' & Er & C2); [cbn; lia|done| |].
    { intros j Hj. rewrite Cc by lia. rewrite <- Ed in Hj. by apply Hu. }
    exists rd'. change (S (length d)) with (length (x :: d)). rewrite Er, Nat.eqb_refl. cbn [negb].
    split; [rewrite <- Ed; by destruct f|]. by apply (consumed_trans _ _ _ rd1).
Qed.

Fixpoint all_uncut (k : nat) (fs : list agw_frame) (rd : rdr) : Prop :=
  match fs with
  | [] => True
  | f :: fs => data_uncut k f rd /\ all_uncut (k + length (frame_WriteTo f)) fs rd
  end.

Lemma all_uncut_consumed n k fs rd rd' : consumed n rd rd' -> all_uncut (n + k) fs rd -> all_uncut k fs rd'.
Proof.
  intros C. revert k. induction fs as [|f fs IH]; intros k; [done|]. intros [H1 H2]. split.
  - intros j Hj. destruct C as (_ & _ & ->); [|lia]. rewrite <- (H1 j Hj). f_equal. lia.
  - apply IH. by rewrite Nat.add_assoc.
Qed.

(** C24. What an AGWPE modem sends is what the driver reads: a stream of frames is
    read as these frames, in order, and then io.EOF, as long as the data of no
    frame is split over two pieces. *)
Theorem agw_stream_roundtrip (fs : list agw_frame) (rd : rdr) :
  Forall wf_agw fs -> concat rd = concat (frame_WriteTo <$> fs) -> all_uncut 0 fs rd ->
  tnc_run (S (length fs)) rd = Ok (fs, io_EOF).
Proof.
  intros Hf. revert rd. induction Hf as [|f fs Hf Hfs IH]; intros rd E Hu; cbn [fmap list_fmap concat length] in *.
  - cbn [tnc_run]. unfold frame_ReadFrom, header_ReadFrom.
    destruct (Read_loop_concat header_size header_size rd ltac:(lia)) as (rd' & -> & _). by rewrite E, take_nil.
  - destruct Hu as [Hu Hus]. destruct (read_agw f rd _ Hf E Hu) as (rd' & E' & C).
    change (tnc_run (S (S (length fs))) rd) with
      (match frame_ReadFrom rd with
       | (inl e, _) => Ok ([], e)
       | (inr f, rd) => r ← tnc_run (S (length fs)) rd; mret (f :: r.1, r.2)
       end).
    rewrite E', IH; [done| |].
    + destruct C as (_ & -> & _). by rewrite E, drop_app_length.
    + apply (all_uncut_consumed (length (frame_WriteTo f)) 0 fs rd); [done|]. by rewrite Nat.add_0_r.
Qed.

Definition sample_agw : list agw_frame :=
  [connectedDataFrame 1 (str "LA5NTA") (str "LA1B") (str "hello"); portCapabilitiesFrame 1].

Lemma agw_stream_roundtrip_witness :
  let wire := concat (frame_WriteTo <$> sample_agw) in
  tnc_run 3 [take 20 wire; drop 20 wire] = Ok (sample_agw, io_EOF).
Proof.
  intros wire. apply (agw_stream_roundtrip sample_agw [take 20 wire; drop 20 wire]).
  - repeat constructor; vm_compute; try reflexivity; discriminate.
  - vm_compute. reflexivity.
  - repeat split; intros j Hj; cbn [Data connectedDataFrame portCapabilitiesFrame] in Hj;
      change (length (str "hello")) with 5%nat in Hj; cbn [length] in Hj; [|lia].
    destruct j as [|[|[|[|[|]]]]]; try lia; vm_compute; reflexivity.
Defined.

(** A frame whose data arrives in two pieces is taken for a broken connection,
    and the modem is given up. *)
Theorem split_data_fails (f : agw_frame) (rd : rdr) (rest : gostr) (j : nat) :
  wf_agw f -> concat rd = frame_WriteTo f ++ rest -> (0 < j < length f.(Data))%nat -> cut_at (header_size + j) rd = true ->
  tnc_run 1 rd = Ok ([], io_ErrUnexpectedEOF).
Proof.
  intros Hf E Hj Hc. rewrite wire_header in * by done. rewrite <- app_assoc in E.
  destruct (read_agw_header _ _ _ (proj1 Hf) E) as (rd1 & E1 & C1). pose proof C1 as (_ & X1 & Cc).
  destruct (header_roundtrip _ (proj1 Hf)) as [_ HL].
  assert (X : concat rd1 = Data f ++ rest) by (by rewrite X1, E, <- HL, drop_app_length).
  assert (Hn : Z.to_nat (DataLen (hdr f)) = length (Data f)) by (rewrite (proj2 Hf); unfold zlen; lia).
  destruct (Read_short rd1 (length (Data f)) (Data f) rest j X Hj) as (d' & rd' & Er & Hl); [by rewrite Cc by lia|done|].
  cbn [tnc_run]. unfold frame_ReadFrom. rewrite E1, Hn. destruct (length (Data f)) as [|m] eqn:Em; [lia|]. rewrite Er.
  destruct (Nat.eqb_spec (length d') (S m)); [lia|]. done.
Qed.

Lemma split_data_fails_witness :
  let f := connectedDataFrame 0 (str "LA5NTA") (str "LA1B") (str "hello") in
  tnc_run 1 [take 38 (frame_WriteTo f); drop 38 (frame_WriteTo f)] = Ok ([], io_ErrUnexpectedEOF).
Proof.
  intros f. apply (split_data_fails f [take 38 (frame_WriteTo f); drop 38 (frame_WriteTo f)] [] 2).
  - repeat constructor; vm_compute; try reflexivity; discriminate.
  - vm_compute. reflexivity.
  - vm_compute. lia.
  - vm_compute. reflexivity.
Defined.

(** ** The port of a frame *)
Lemma radio_run {A B} (m : radio A) (k : A -> radio B) w :
  (m ≫= k) w = match m w with Ok (a, w') => k a w' | Panic => Panic | NoFuel => NoFuel end.
Proof. change ((m ≫= k) w) with (m w ≫= (fun r => k r.1 r.2)). by destruct (m w) as [[a w']| |]. Qed.

Lemma port_write_zero f w : f.(hdr).(Port) = 0 -> w.(a_port).(p_port) <> 0 -> port_write f w = Panic.
Proof. intros E H. unfold port_write. rewrite E. by rewrite (proj2 (Z.eqb_neq 0 _)) by lia. Qed.

(** The frames to connect and to unregister are made without the number of the
    port, which the port checks before it writes them: on any port but 0 dialing
    and closing panic. *)
Theorem nonzero_port_panics (w : air) (target : gostr) (via : list gostr) :
  w.(a_port).(p_port) <> 0 -> w.(a_port).(p_closed) = false ->
  DialContext target via w = Panic /\ port_Close w = Panic.
Proof.
  intros Hp Hc. split.
  - unfold DialContext. rewrite radio_run. change (the_port w) with (Ok (a_port w, w)). cbv beta iota. rewrite Hc.
    rewrite radio_run. change (set_conn ?c w) with (Ok (tt, mkAir (a_in w) (a_out w) (a_port w) c)). cbv beta iota.
    rewrite radio_run. unfold agw_connect. rewrite radio_run. change (the_port ?w) with (Ok (a_port w, w)). cbv beta iota.
    rewrite radio_run. change (the_conn ?w) with (Ok (a_conn w, w)). cbv beta iota. rewrite radio_run.
    rewrite port_write_zero; [done| |done]. by destruct via.
  - unfold port_Close. rewrite radio_run. change (the_port w) with (Ok (a_port w, w)). cbv beta iota. rewrite radio_run.
    by rewrite port_write_zero.
Qed.

Lemma nonzero_port_panics_witness :
  let p := mkPort 1 (str "LA5NTA") 7 false in
  let w := mkAir [] [] p (newConn p (str "LA1B") []) in
  DialContext (str "LA1B") [] w = Panic /\ port_Close w = Panic.
Proof. intros p w. apply (nonzero_port_panics w (str "LA1B") []); [discriminate|reflexivity]. Defined.

(** ** Flow control *)

(** The port number and the ends of the connection: nothing that is read changes them. *)
Record same_conn (w w' : air) : Prop := mkSame {
  sc_port : w'.(a_port).(p_port) = w.(a_port).(p_port);
  sc_src : c_srcCall w'.(a_conn) = c_srcCall w.(a_conn);
  sc_dst : c_dstCall w'.(a_conn) = c_dstCall w.(a_conn);
  sc_inb : c_inbound w'.(a_conn) = c_inbound w.(a_conn) }.

#[export] Instance same_conn_preorder : PreOrder same_conn.
Proof. split; [by split|]. intros w1 w2 w3 [] []. split; congruence. Qed.

Lemma same_route p f rest out w : p_port p = p_port w.(a_port) -> same_conn w (mkAir rest out p (route w.(a_port) f w.(a_conn))).
Proof.
  intros Hp. unfold route. split; cbn; [done|..]; (destruct (_ || _); [done|]; destruct (_ =? _); [done|]; by destruct (_ =? _)).
Qed.

(** The frames up to the one that is wanted were not. *)
Lemma await_spec want ans closed fuel w r w' : (forall w1 f, same_conn w w1 -> want w1 f = ans f) ->
  await_frame want closed fuel w = Ok (r, w') ->
  same_conn w w' /\ w'.(a_out) = w.(a_out) /\ exists pre, List.filter ans pre = [] /\
  match r with Some f => w.(a_in) = pre ++ f :: w'.(a_in) /\ ans f = true | None => w.(a_in) = pre ++ w'.(a_in) end.
Proof.
  revert w. induction fuel as [|fuel IH]; intros w Hw; cbn [await_frame]; [done|].
  destruct (closed w); [intros [= <- <-]; split_and!; [done..|by exists []]|]. destruct (a_in w) as [|f rest] eqn:E.
  { intros [= <- <-]. split_and!; [by split|done|by exists []]. }
  pose proof (same_route (a_port w) f rest (a_out w) w eq_refl) as Hs. rewrite (Hw w f) by done. destruct (ans f) eqn:Ea.
  - intros [= <- <-]. split_and!; [done..|]. exists []. by split_and!.
  - intros H. apply IH in H as (H1 & H2 & pre & Hp & H3); [|intros w1 g Hg; apply Hw; by etransitivity].
    split_and!; [by etransitivity|done|]. exists (f :: pre). cbn [List.filter a_in] in *. rewrite Ea. split; [done|].
    destruct r as [g|]; [destruct H3 as [-> H3]; by split|by rewrite H3].
Qed.
Lemma await_total want closed fuel w : (length w.(a_in) < fuel)%nat -> exists r, await_frame want closed fuel w = Ok r.
Proof.
  revert w. induction fuel as [|fuel IH]; intros w Hl; [lia|]. cbn [await_frame]. destruct (closed w); [by eexists|].
  destruct (a_in w) as [|f rest] eqn:E; [by eexists|]. destruct (want w f); [by eexists|]. apply IH. cbn in *. lia.
Qed.

(** An answer of the modem about the outstanding frames of this connection: its kind
    is Y, it is for the port, and the other station is one of its ends. *)
Definition answers (w : air) (f : agw_frame) : bool :=
  let call := callsignFromString w.(a_conn).(c_dstCall) in
  (f.(hdr).(Port) =? w.(a_port).(p_port)) && (f.(hdr).(DataKind) =? 89)
  && (streq call no_call || streq call f.(hdr).(From) || streq call f.(hdr).(To)).

Lemma answers_same w w' f : same_conn w w' -> answers w' f = answers w f.
Proof. intros [H1 _ H2 _]. unfold answers. by rewrite H1, H2. Qed.
Lemma answers_want w f :
  Want (port_filter w.(a_port)) f && Want (conn_filter w.(a_conn)) f && of_kind [kindOutstandingFramesForConn] f = answers w f.
Proof.
  unfold Want, port_filter, conn_filter, of_kind, answers, kindOutstandingFramesForConn. cbn [fport fcall fto kinds existsb].
  change (streq no_call no_call) with true. rewrite orb_false_r, (Z.eqb_sym (p_port _)).
  cbn [negb andb]. destruct (Port (hdr f) =? _); [|done]. by destruct (streq _ no_call), (streq _ (From _)), (streq _ (To _)), (DataKind (hdr f) =? 89).
Qed.

(** The question about outstanding frames of a connection. *)
Definition query (reverse : bool) (w : air) : agw_frame :=
  let c := w.(a_conn) in
  if c.(c_inbound) && reverse
  then outstandingFramesForConnFrame w.(a_port).(p_port) c.(c_dstCall) c.(c_srcCall)
  else outstandingFramesForConnFrame w.(a_port).(p_port) c.(c_srcCall) c.(c_dstCall).

Lemma query_same rev w w' : same_conn w w' -> query rev w' = query rev w.
Proof. intros [H1 H2 H3 H4]. unfold query. by rewrite H1, H2, H3, H4. Qed.

(** [w'] after as many questions as there were answers, [ns]. *)
Record polled (reverse : bool) (ns : list Z) (w w' : air) : Prop := mkPolled {
  po_same : same_conn w w';
  po_out : w'.(a_out) = w.(a_out) ++ replicate (length ns) (query reverse w);
  po_in : exists xs, w.(a_in) = xs ++ w'.(a_in) /\ outstanding <$> List.filter (answers w) xs = inr <$> ns }.

Lemma polled_app rev ns ms w w1 w' : polled rev ns w w1 -> polled rev ms w1 w' -> polled rev (ns ++ ms) w w'.
Proof.
  intros [A1 A2 (xs & A3 & A4)] [B1 B2 (ys & B3 & B4)]. split; [by etransitivity|..].
  - by rewrite B2, A2, (query_same _ _ _ A1), length_app, replicate_add, <- app_assoc.
  - exists (xs ++ ys). split; [by rewrite A3, B3, app_assoc|]. rewrite List.filter_app, !fmap_app, A4. f_equal. rewrite <- B4. f_equal.
    apply List.filter_ext. intros f. symmetry. by apply answers_same.
Qed.

(** The same without looking at the answers. *)
Record asked (reverse : bool) (k : nat) (w w' : air) : Prop := mkAsked {
  as_same : same_conn w w';
  as_out : w'.(a_out) = w.(a_out) ++ replicate k (query reverse w) }.

Lemma num_polled rev w : exists r w', conn_numOutstandingFrames rev w = Ok (r, w') /\
  match r with inr n => polled rev [n] w w' /\ (length w'.(a_in) < length w.(a_in))%nat | inl _ => exists k, asked rev k w w' end.
Proof.
  unfold conn_numOutstandingFrames. rewrite radio_run. change (the_port w) with (Ok (a_port w, w)). cbv beta iota.
  rewrite radio_run. change (the_conn w) with (Ok (a_conn w, w)). cbv beta iota.
  destruct (c_demux_closed (a_conn w)).
  { eexists _, _. split; [done|]. exists 0%nat. split; [done|]. cbn. by rewrite app_nil_r. }
  assert (H : forall q, q = query rev w -> q.(hdr).(Port) = p_port (a_port w) -> exists r w',
    (port_write q;; r ← conn_NextFrame [kindOutstandingFramesForConn];
     mret (match r with None => inl io_EOF | Some f => outstanding f end)) w = Ok (r, w') /\
    match r with inr n => polled rev [n] w w' /\ (length w'.(a_in) < length w.(a_in))%nat | inl _ => exists k, asked rev k w w' end).
  { intros q Hq Hport. rewrite radio_run. unfold port_write. rewrite Hport, Z.eqb_refl. cbn [negb].
    change (tnc_write q w) with (Ok (tt, mkAir (a_in w) (a_out w ++ [q]) (a_port w) (a_conn w))). cbv beta iota.
    rewrite radio_run. set (w1 := mkAir _ _ _ _). assert (Hw1 : same_conn w w1) by (by split).
    destruct (conn_NextFrame [kindOutstandingFramesForConn] w1) as [[o w2]| |] eqn:En.
    2,3: exfalso; destruct (await_total (fun w f => Want (port_filter w.(a_port)) f && Want (conn_filter w.(a_conn)) f && of_kind [kindOutstandingFramesForConn] f)
      (fun w => w.(a_conn).(c_demux_closed)) (S (length w1.(a_in))) w1 ltac:(lia)) as [r Er]; unfold conn_NextFrame in En; rewrite Er in En; discriminate.
    apply (await_spec _ (answers w)) in En as (H1 & H2 & pre & H3 & H4); [|intros w3 f H3; etransitivity; [apply answers_want|apply answers_same; by etransitivity]].
    eexists _, w2. split; [reflexivity|]. assert (Hs : same_conn w w2) by (by etransitivity). subst q. cbn in H2.
    destruct o as [f|]; [|by exists 1%nat]. destruct (outstanding f) as [e|n] eqn:Eo; [by exists 1%nat|]. destruct H4 as [H4 Hf]. cbn in H4.
    split; [split; [done..|]|rewrite H4, length_app; cbn; lia].
    exists (pre ++ [f]). split; [by rewrite H4, <- app_assoc|]. rewrite List.filter_app, H3. cbn. rewrite Hf. cbn. by rewrite Eo. }
  unfold query in H. destruct (_ && rev); by apply H.
Qed.

(** Asking goes on until an answer will do, and it ends. *)
Lemma wait_polled rev stop fuel w : (length w.(a_in) < fuel)%nat -> exists r w', wait_fuel rev stop fuel w = Ok (r, w') /\
  match r with
  | None => exists ns n, polled rev (ns ++ [n]) w w' /\ Forall (fun m => stop m = false) ns /\ stop n = true
  | Some _ => exists k, asked rev k w w'
  end.
Proof.
  revert w. induction fuel as [|fuel IH]; intros w Hl; [lia|]. cbn [wait_fuel]. rewrite radio_run.
  destruct (num_polled rev w) as (r & w1 & -> & Hr). destruct r as [e|n]; [by eexists _, _|]. destruct Hr as [Hr Hl'].
  destruct (stop n) eqn:Es; [eexists _, _; split; [done|]; by exists [], n|].
  destruct (IH w1 ltac:(lia)) as (r & w' & -> & Hr'). eexists _, _. split; [done|]. destruct r as [e|].
  - destruct Hr' as [k [K1 K2]], Hr as [A1 A2 _]. exists (1 + k)%nat. split; [by etransitivity|].
    by rewrite K2, A2, (query_same _ _ _ A1), <- app_assoc.
  - destruct Hr' as (ns & m & H1 & H2 & H3). exists (n :: ns), m. split_and!; [|by constructor|done].
    exact (polled_app rev [n] _ _ _ _ Hr H1).
Qed.


Definition sample_port := mkPort 0 (str "LA5NTA") 4 false.
(** Answers of the modem about the outstanding frames. *)
Definition sample_answer (n : Z) : agw_frame :=
  mkF (mkH 0 kindOutstandingFramesForConn 0 (callsignFromString (str "LA5NTA")) (callsignFromString (str "LA1B")) 4) (PutUint32LE n).


(** ** Delivery by the demux *)
Section serve_partition.
Context (sel : framesReq -> bool) (f : agw_frame).

(** A client after the frame: with it in its channel, unless it does not want
    it or is done. *)
Definition served (c : framesReq) : framesReq :=
  if Want c.(filter) f && negb (sel c)
  then mkReq c.(filter) c.(once) c.(req_done) (c.(resp) ++ [f]) c.(resp_closed) else c.
Definition stays (c : framesReq) : bool := negb (Want c.(filter) f) || (negb (sel c) && negb c.(once)).
Definition closed_req (c : framesReq) : framesReq := mkReq c.(filter) c.(once) c.(req_done) c.(resp) true.

Lemma serve_loop_partition fuel front cs gone :
  Forall (fun c => c.(resp_closed) = false) cs -> (length cs < fuel)%nat ->
  serve_loop sel f fuel (zlen front) (front ++ cs) gone
  = Ok (front ++ (served <$> List.filter stays cs),
        gone ++ ((fun c => closed_req (served c)) <$> List.filter (fun c => negb (stays c)) cs)).
Proof.
  intros Hc. revert fuel front gone. induction Hc as [|c cs Hr Hc IH]; intros fuel front gone Hf;
    (destruct fuel as [|fuel]; [cbn in Hf; lia|]); cbn [serve_loop].
  { rewrite app_nil_r, Z.ltb_irrefl. cbn [List.filter fmap list_fmap]. by rewrite !app_nil_r. }
  rewrite zlen_app, zlen_cons. pose proof (zlen_nonneg cs). pose proof (zlen_nonneg front).
  destruct (Z.ltb_spec (zlen front) (zlen front + (1 + zlen cs))); [|lia].
  assert (Hi : forall A (l k : list A) x, idx (l ++ x :: k) (zlen l) = Ok x).
  { intros A l k x. unfold idx, zlen. destruct (Z.ltb_spec (Z.of_nat (length l)) 0); [lia|].
    by rewrite Nat2Z.id, lookup_app_r, Nat.sub_diag. }
  assert (Hu : forall x, upd (front ++ c :: cs) (zlen front) x = Ok (front ++ x :: cs)).
  { intros x. unfold upd. rewrite zlen_app, zlen_cons. destruct (Z.ltb_spec (zlen front) 0); [lia|].
    destruct (Z.leb_spec (zlen front + (1 + zlen cs)) (zlen front)); [lia|]. cbn [orb]. unfold zlen.
    by rewrite Nat2Z.id, insert_app_r_alt, Nat.sub_diag. }
  assert (Hn : forall x, zlen front + 1 = zlen (front ++ [x : framesReq])) by (intros; by rewrite zlen_app).
  assert (Ha : forall x, front ++ x :: cs = (front ++ [x]) ++ cs) by (intros; by rewrite <- app_assoc).
  assert (Hk : forall x, x = served c -> serve_loop sel f fuel (zlen front + 1) (front ++ x :: cs) gone
    = Ok (front ++ (served <$> c :: List.filter stays cs),
          gone ++ ((fun c => closed_req (served c)) <$> List.filter (fun c => negb (stays c)) cs))).
  { intros x ->. rewrite (Hn (served c)), Ha, IH by (cbn in Hf; lia). by rewrite <- app_assoc. }
  assert (Hd : forall x, x = closed_req (served c) ->
    serve_loop sel f fuel (zlen front - 1 + 1) (take (Z.to_nat (zlen front)) (front ++ c :: cs)
      ++ drop (Z.to_nat (zlen front + 1)) (front ++ c :: cs)) (gone ++ [x])
    = Ok (front ++ (served <$> List.filter stays cs),
          gone ++ ((fun c => closed_req (served c)) <$> c :: List.filter (fun c => negb (stays c)) cs))).
  { intros x ->. replace (zlen front - 1 + 1) with (zlen front) by lia.
    replace (Z.to_nat (zlen front)) with (length front) by (unfold zlen; lia).
    replace (Z.to_nat (zlen front + 1)) with (length front + 1)%nat by (unfold zlen; lia).
    rewrite take_app_length, drop_app_add. cbn [drop]. rewrite IH by (cbn in Hf; lia). by rewrite <- app_assoc. }
  clear IH Hn Ha. rewrite Hi, bind_Ok. cbn [List.filter].
  assert (Es : stays c = negb (Want (filter c) f) || (negb (sel c) && negb (once c))) by done.
  assert (Ev : served c = if Want (filter c) f && negb (sel c)
    then mkReq (filter c) (once c) (req_done c) (resp c ++ [f]) (resp_closed c) else c) by done.
  rewrite Es. destruct (Want (filter c) f); cbn [negb orb andb] in *; [|by rewrite Hk].
  destruct (sel c); cbn [negb andb] in *.
  - rewrite Hr. apply Hd. by rewrite Ev.
  - destruct (once c) eqn:Eo; cbn [negb] in *.
    + cbn [resp_closed]. rewrite Hr. apply Hd. by rewrite Ev.
    + rewrite Hu, bind_Ok. apply Hk. by rewrite Ev.
Qed.
End serve_partition.

(** A frame goes to every client that wants it, once and in the order they came;
    the clients that wanted a single frame and the cancelled ones are closed and
    removed, and no other. *)
Theorem serve_is_partition (sel : framesReq -> bool) (f : agw_frame) (cs : list framesReq) :
  Forall (fun c => c.(resp_closed) = false) cs ->
  serve sel f cs = Ok (served sel f <$> List.filter (stays sel f) cs,
    (fun c => closed_req (served sel f c)) <$> List.filter (fun c => negb (stays sel f c)) cs).
Proof. intros H. exact (serve_loop_partition sel f (S (length cs)) [] cs [] H ltac:(lia)). Qed.

Lemma serve_is_partition_witness :
  let cs := [newFramesReq (mkFilter [kindConnectedData] None no_call no_call) false;
             newFramesReq (mkFilter [kindDisconnect] None no_call no_call) true] in
  let f := disconnectFrame (str "LA1B") (str "LA5NTA") 0 in
  serve (fun c => c.(req_done)) f cs
  = Ok (served req_done f <$> List.filter (stays req_done f) cs,
        (fun c => closed_req (served req_done f c)) <$> List.filter (fun c => negb (stays req_done f c)) cs).
Proof. intros cs f. apply (serve_is_partition req_done f cs). repeat constructor. Defined.
