(* ===== verification/AgwpeDemux.v ===== *)
(** The demux of an AGWPE modem as the goroutines that share it run
    ([src/transport/ax25/agwpe/demux.go]).

    Agwpe.v has what a round of the demux computes.  Here are the steps: the
    goroutine [run], which serves one client after another and waits for room in the
    channel of each; the callers of [Enqueue], [NextFrame], [Frames] and
    [Close], which take the mutex, two of them for as long as [run] does not
    take their request; the readers of the channels; and the goroutine of [Chain]
    between two demuxes. *)
From S2P Require Import Prelude Crc GoStr Helpers Agwpe.
From stdpp Require Import list.
Open Scope Z_scope.

(** A client: the filter, the channel with what is in it, and, for the proofs,
    what was received from it and how many frames had been taken when it was
    registered. *)
Record client := mkClient {
  cl_id : nat; cl_filter : framesFilter; cl_once : bool; cl_cap : nat;
  cl_done : bool; cl_buf : list agw_frame; cl_got : list agw_frame; cl_since : nat }.

Record dsys := mkSys {
  q_in : option agw_frame;            (* the channel of one frame *)
  q_closed : bool;
  q_lock : option client;             (* the mutex is held by a caller whose request is this *)
  q_clients : list client;
  q_at : option (agw_frame * nat);    (* the frame run serves, and the client it has come to *)
  q_returned : bool;
  q_gone : list client;               (* clients that were closed *)
  q_taken : list agw_frame }.         (* the frames run has taken, for the proofs *)

Definition newDemux : dsys := mkSys None false None [] None false [] [].

(** [NextFrame] and [Frames] on an open demux, as far as sending the request. *)
Definition next_frame_req (id : nat) (ks : list Z) : client :=
  mkClient id (mkFilter ks None no_call no_call) true 1 false [] [] 0.
Definition frames_req (id : nat) (bufSize : nat) (filter : framesFilter) : client := mkClient id filter false bufSize false [] [] 0.

Inductive dstep_event :=
| CallEnqueue (f : agw_frame)
| CallRequest (c : client)
| CallClose
| TakeRequest
| TakeFrame
| TakeEnd
| Serve (sees_done : bool)   (* the case of the inner select *)
| Handoff                    (* on an unbuffered channel *)
| Receive (id : nat)
| Cancel_ (id : nat).

Definition with_at (at_ : option (agw_frame * nat)) (s : dsys) : dsys :=
  mkSys s.(q_in) s.(q_closed) s.(q_lock) s.(q_clients) at_ s.(q_returned) s.(q_gone) s.(q_taken).
Definition with_clients (cs gone : list client) (s : dsys) : dsys :=
  mkSys s.(q_in) s.(q_closed) s.(q_lock) cs s.(q_at) s.(q_returned) gone s.(q_taken).

(** [close(c.resp)] and the removal from the slice. *)
Definition remove_client (i : nat) (c : client) (s : dsys) : dsys :=
  with_clients (take i s.(q_clients) ++ drop (S i) s.(q_clients)) (s.(q_gone) ++ [c]) s.

(** The frame is in the channel of client [i], which is [c] now. *)
Definition serve_client (f : agw_frame) (i : nat) (c : client) (s : dsys) : dsys :=
  if c.(cl_once) then remove_client i c s
  else with_at (Some (f, S i)) (with_clients (<[i := c]> s.(q_clients)) s.(q_gone) s).

Definition push_buf (f : agw_frame) (c : client) : client :=
  mkClient c.(cl_id) c.(cl_filter) c.(cl_once) c.(cl_cap) c.(cl_done) (c.(cl_buf) ++ [f]) c.(cl_got) c.(cl_since).
Definition push_got (f : agw_frame) (c : client) : client :=
  mkClient c.(cl_id) c.(cl_filter) c.(cl_once) c.(cl_cap) c.(cl_done) c.(cl_buf) (c.(cl_got) ++ [f]) c.(cl_since).
Definition pop_buf (c : client) : client :=
  match c.(cl_buf) with
  | f :: fs => mkClient c.(cl_id) c.(cl_filter) c.(cl_once) c.(cl_cap) c.(cl_done) fs (c.(cl_got) ++ [f]) c.(cl_since)
  | [] => c
  end.
Definition cancelled (c : client) : client :=
  mkClient c.(cl_id) c.(cl_filter) c.(cl_once) c.(cl_cap) true c.(cl_buf) c.(cl_got) c.(cl_since).
Definition registered (n : nat) (c : client) : client :=
  mkClient c.(cl_id) c.(cl_filter) c.(cl_once) c.(cl_cap) c.(cl_done) [] [] n.

Definition on_client (id : nat) (g : client -> client) (cs : list client) : list client :=
  (fun c => if decide (c.(cl_id) = id) then g c else c) <$> cs.

Definition idle (s : dsys) : bool := negb s.(q_returned) && match s.(q_at) with None => true | Some _ => false end.

Definition dstep (e : dstep_event) (s : dsys) : option dsys :=
  match e, s.(q_lock) with
  | CallEnqueue f, None =>
      if s.(q_closed) then Some s
      else match s.(q_in) with
           | None => Some (mkSys (Some f) false None s.(q_clients) s.(q_at) s.(q_returned) s.(q_gone) s.(q_taken))
           | Some _ => Some s
           end
  | CallRequest c, None =>
      if s.(q_closed) then Some s
      else Some (mkSys s.(q_in) false (Some c) s.(q_clients) s.(q_at) s.(q_returned) s.(q_gone) s.(q_taken))
  | CallClose, None => Some (mkSys s.(q_in) true None s.(q_clients) s.(q_at) s.(q_returned) s.(q_gone) s.(q_taken))
  | CallEnqueue _, Some _ | CallRequest _, Some _ | CallClose, Some _ => None
  | TakeRequest, Some c =>
      if idle s
      then Some (mkSys s.(q_in) s.(q_closed) None (s.(q_clients) ++ [registered (length s.(q_taken)) c]) None false s.(q_gone) s.(q_taken))
      else None
  | TakeRequest, None => None
  | TakeFrame, _ =>
      match s.(q_in), idle s with
      | Some f, true => Some (mkSys None s.(q_closed) s.(q_lock) s.(q_clients) (Some (f, 0%nat)) false s.(q_gone) (s.(q_taken) ++ [f]))
      | _, _ => None
      end
  | TakeEnd, _ =>
      match s.(q_in), s.(q_closed) && idle s with
      | None, true => Some (mkSys None true s.(q_lock) [] None true (s.(q_gone) ++ s.(q_clients)) s.(q_taken))
      | _, _ => None
      end
  | Serve sees_done, _ =>
      match s.(q_at) with
      | None => None
      | Some (f, i) =>
          match s.(q_clients) !! i with
          | None => Some (with_at None s)
          | Some c =>
              if negb (Want c.(cl_filter) f) then Some (with_at (Some (f, S i)) s)
              else if sees_done then if c.(cl_done) then Some (remove_client i c s) else None
              else if (length c.(cl_buf) <? c.(cl_cap))%nat then Some (serve_client f i (push_buf f c) s) else None
          end
      end
  | Handoff, _ =>
      match s.(q_at) with
      | None => None
      | Some (f, i) =>
          match s.(q_clients) !! i with
          | None => None
          | Some c => if Want c.(cl_filter) f && (c.(cl_cap) =? 0)%nat then Some (serve_client f i (push_got f c) s) else None
          end
      end
  | Receive id, _ => Some (with_clients (on_client id pop_buf s.(q_clients)) (on_client id pop_buf s.(q_gone)) s)
  | Cancel_ id, _ => Some (with_clients (on_client id cancelled s.(q_clients)) (on_client id cancelled s.(q_gone)) s)
  end.

Fixpoint drun (es : list dstep_event) (s : dsys) : option dsys :=
  match es with [] => Some s | e :: es => s ← dstep e s; drun es s end.

(** ** What a client gets *)
Definition delivered (c : client) : list agw_frame := c.(cl_got) ++ c.(cl_buf).
(** The frames among [fs] that [c] wants, from its registration on. *)
Definition wanted (c : client) (fs : list agw_frame) : list agw_frame :=
  List.filter (Want c.(cl_filter)) (drop c.(cl_since) fs).

Record cinv (fs : list agw_frame) (c : client) : Prop := {
  ci_since : (c.(cl_since) <= length fs)%nat;
  ci_got : delivered c = wanted c fs;
  ci_buf : (length c.(cl_buf) <= c.(cl_cap))%nat;
  ci_once : c.(cl_once) = true -> delivered c = [] }.

(** Why a client was closed: its owner has cancelled it, it wanted one frame and has
    it, or [run] has returned and it has everything. *)
Definition closed_for (returned : bool) (fs : list agw_frame) (c : client) : Prop :=
  c.(cl_done) = true \/ (c.(cl_once) = true /\ length (delivered c) = 1%nat) \/ (returned = true /\ delivered c = wanted c fs).

Record ginv (returned : bool) (fs : list agw_frame) (c : client) : Prop := {
  gi_since : (c.(cl_since) <= length fs)%nat;
  gi_got : delivered c `prefix_of` wanted c fs;
  gi_once : c.(cl_once) = true -> (length (delivered c) <= 1)%nat;
  gi_why : closed_for returned fs c }.

(** The clients [run] has not come to yet are a frame behind. *)
Definition served_upto (s : dsys) : Prop :=
  match s.(q_at) with
  | None => Forall (cinv s.(q_taken)) s.(q_clients)
  | Some (f, j) => exists pre, s.(q_taken) = pre ++ [f] /\
      Forall (cinv s.(q_taken)) (take j s.(q_clients)) /\ Forall (cinv pre) (drop j s.(q_clients))
  end.
Definition dinv (s : dsys) : Prop := served_upto s /\ Forall (ginv s.(q_returned) s.(q_taken)) s.(q_gone).

Lemma wanted_snoc c fs f : (c.(cl_since) <= length fs)%nat ->
  wanted c (fs ++ [f]) = wanted c fs ++ if Want c.(cl_filter) f then [f] else [].
Proof. intros H. unfold wanted. rewrite drop_app_le by done. by rewrite List.filter_app. Qed.

Lemma ginv_snoc fs f c : ginv false fs c -> ginv false (fs ++ [f]) c.
Proof.
  intros [H1 H2 H3 H4]. split; [rewrite length_app; cbn; lia| |done|destruct H4 as [H4|[H4|[? _]]]; [by left|by right; left|done]].
  rewrite wanted_snoc by done. by apply prefix_app_r.
Qed.
Lemma cinv_ginv b fs f c : cinv fs c -> cl_done c = true -> ginv b (fs ++ [f]) c.
Proof.
  intros [H1 H2 H3 H4] Hd. split; [rewrite length_app; cbn; lia| |intros Ho; rewrite H4 by done; cbn; lia|by left].
  rewrite wanted_snoc, H2 by done. by apply prefix_app_r.
Qed.
Lemma cinv_end fs c : cinv fs c -> ginv true fs c.
Proof. intros [H1 H2 H3 H4]. split; [done|by rewrite H2|intros Ho; rewrite H4 by done; cbn; lia|by right; right]. Qed.

(** What the clients do themselves does not change what was delivered. *)
Lemma pop_keeps c : delivered (pop_buf c) = delivered c /\ (length (cl_buf (pop_buf c)) <= length (cl_buf c))%nat /\
  cl_since (pop_buf c) = cl_since c /\ cl_once (pop_buf c) = cl_once c /\ cl_cap (pop_buf c) = cl_cap c /\
  cl_filter (pop_buf c) = cl_filter c /\ cl_done (pop_buf c) = cl_done c /\ cl_id (pop_buf c) = cl_id c.
Proof.
  unfold delivered, pop_buf. destruct (cl_buf c) as [|f fs] eqn:E; cbn; rewrite ?E; [done|].
  rewrite <- app_assoc. cbn. split_and!; done || lia.
Qed.

Lemma cinv_pop fs c : cinv fs c -> cinv fs (pop_buf c).
Proof.
  intros [H1 H2 H3 H4]. destruct (pop_keeps c) as (E1 & E2 & E3 & E4 & E5 & E6 & E7 & _).
  split; unfold wanted; rewrite ?E1, ?E3, ?E4, ?E5, ?E6; done || lia.
Qed.
Lemma ginv_pop b fs c : ginv b fs c -> ginv b fs (pop_buf c).
Proof.
  intros [H1 H2 H3 H4]. destruct (pop_keeps c) as (E1 & E2 & E3 & E4 & E5 & E6 & E7 & _).
  split; unfold closed_for, wanted; rewrite ?E1, ?E3, ?E4, ?E6, ?E7; done.
Qed.
Lemma cinv_cancelled fs c : cinv fs c -> cinv fs (cancelled c).
Proof. intros [H1 H2 H3 H4]. by split. Qed.
Lemma ginv_cancelled b fs c : ginv b fs c -> ginv b fs (cancelled c).
Proof. intros [H1 H2 H3 H4]. split; [done..|by left]. Qed.

Lemma Forall_on_client (P : client -> Prop) id g cs : (forall c, P c -> P (g c)) -> Forall P cs -> Forall P (on_client id g cs).
Proof. intros Hg H. apply Forall_fmap. eapply Forall_impl; [exact H|]. intros c Hc. cbn. case_decide; auto. Qed.

Lemma dinv_on_client id g s : (forall fs c, cinv fs c -> cinv fs (g c)) -> (forall b fs c, ginv b fs c -> ginv b fs (g c)) ->
  dinv s -> dinv (with_clients (on_client id g s.(q_clients)) (on_client id g s.(q_gone)) s).
Proof.
  intros Hc Hg [Hs H]. split; [|by apply Forall_on_client; [apply Hg|]].
  unfold served_upto in *. cbn [with_clients q_at q_clients q_taken]. destruct (q_at s) as [[f j]|]; [|by apply Forall_on_client; [apply Hc|]].
  destruct Hs as (pre & E & H1 & H2). exists pre. split; [done|]. unfold on_client. rewrite <- fmap_take, <- fmap_drop.
  split; (apply Forall_on_client; [apply Hc|done]).
Qed.

(** A frame that was put into the channel of the client [run] has come to. *)
Lemma dinv_served f j c c' s : dinv s -> s.(q_at) = Some (f, j) -> s.(q_clients) !! j = Some c -> Want c.(cl_filter) f = true ->
  cl_filter c' = cl_filter c -> cl_since c' = cl_since c -> cl_once c' = cl_once c -> cl_cap c' = cl_cap c ->
  delivered c' = delivered c ++ [f] -> (length c'.(cl_buf) <= c.(cl_cap))%nat -> dinv (serve_client f j c' s).
Proof.
  intros [Hs H] Ea Ej Hw Ef Es Eo Ec Ed Hb. unfold served_upto in Hs. rewrite Ea in Hs. destruct Hs as (pre & E & H1 & H2).
  pose proof (lookup_lt_Some _ _ _ Ej) as Hl. rewrite (drop_S _ _ _ Ej) in H2. apply Forall_cons_1 in H2 as [[C1 C2 C3 C4] H2].
  assert (Hw' : wanted c' (pre ++ [f]) = wanted c (pre ++ [f])) by (unfold wanted; by rewrite Ef, Es).
  rewrite (wanted_snoc c), Hw in Hw' by done.
  unfold serve_client. rewrite Eo. destruct (cl_once c) eqn:Eon.
  - split; unfold served_upto, remove_client, with_clients; cbn [q_at q_clients q_taken q_gone]; rewrite ?Ea.
    + exists pre. rewrite take_app_length', drop_app_length' by (rewrite length_take; lia). done.
    + apply Forall_app; split; [done|]. apply Forall_singleton. rewrite E. split.
      * rewrite Es, length_app. cbn. lia.
      * by rewrite Hw', Ed, C2.
      * rewrite Ed, C4 by done. cbn. lia.
      * right; left. rewrite Eo, Ed, C4 by done. done.
  - split; unfold served_upto, with_at, with_clients; cbn [q_at q_clients q_taken q_gone]; [|done].
    exists pre. split; [done|]. rewrite drop_insert_lt by lia. split; [|done].
    rewrite (take_S_r _ _ c') by (by apply list_lookup_insert_eq). rewrite take_insert_ge by lia. apply Forall_app; split; [done|].
    apply Forall_singleton. rewrite E. split; [rewrite Es, length_app; cbn; lia|by rewrite Hw', Ed, C2|by rewrite Ec|by rewrite Eo].
Qed.

Lemma served_skip f j s : dinv s -> s.(q_at) = Some (f, j) ->
  match s.(q_clients) !! j with Some c => Want c.(cl_filter) f = false | None => True end ->
  dinv (with_at (if s.(q_clients) !! j then Some (f, S j) else None) s).
Proof.
  intros [Hs H] Ea Hj. split; [|done]. unfold served_upto in *. rewrite Ea in Hs. destruct Hs as (pre & E & H1 & H2).
  destruct (q_clients s !! j) as [c|] eqn:Ej; cbn [with_at q_at q_clients q_taken].
  - exists pre. split; [done|]. rewrite (drop_S _ _ _ Ej) in H2. apply Forall_cons_1 in H2 as [[C1 C2 C3 C4] H2]. split; [|done].
    rewrite (take_S_r _ _ c) by done. apply Forall_app; split; [done|]. apply Forall_singleton. rewrite E.
    split; [rewrite length_app; cbn; lia| |done..]. by rewrite wanted_snoc, Hj, app_nil_r by done.
  - apply lookup_ge_None in Ej. by rewrite take_ge in H1 by done.
Qed.

Lemma dstep_inv e s s' : dinv s -> dstep e s = Some s' -> dinv s'.
Proof.
  intros Hi E. pose proof Hi as [Hs Hg]. unfold served_upto in Hs.
  assert (Same : forall i c l, dinv (mkSys i c l s.(q_clients) s.(q_at) s.(q_returned) s.(q_gone) s.(q_taken))) by (intros; by split).
  unfold dstep in E. destruct e as [f|c| | | | |d| |id|id].
  - destruct (q_lock s); [done|]. destruct (q_closed s); [by injection E as <-|]. destruct (q_in s); injection E as <-; [done|apply Same].
  - destruct (q_lock s); [done|]. destruct (q_closed s); injection E as <-; [done|apply Same].
  - destruct (q_lock s); [done|]. injection E as <-. apply Same.
  - destruct (q_lock s) as [c|]; [|done]. unfold idle in E. destruct (q_at s); [by rewrite andb_false_r in E|]. destruct (q_returned s); [done|].
    injection E as <-. split; [|done]. cbn [served_upto q_at q_clients q_taken]. apply Forall_app; split; [done|]. apply Forall_singleton.
    split; [done| |cbn; lia|done]. unfold wanted, registered. cbn. by rewrite drop_all.
  - destruct (q_in s) as [f|]; [|done]. unfold idle in E. destruct (q_at s); [by rewrite andb_false_r in E|]. destruct (q_returned s); [done|].
    injection E as <-. split; unfold served_upto; cbn [q_at q_clients q_taken q_gone q_returned].
    + exists s.(q_taken). split; [done|]. rewrite take_0, drop_0. done.
    + eapply Forall_impl; [exact Hg|]. intros c. apply ginv_snoc.
  - destruct (q_in s); [done|]. unfold idle in E. destruct (q_at s); [by rewrite !andb_false_r in E|]. destruct (q_returned s) eqn:Er; [by rewrite andb_false_r in E|].
    destruct (q_closed s); [|done].
    injection E as <-. split; [by constructor|]. cbn [q_taken q_gone q_returned]. apply Forall_app; split.
    + eapply Forall_impl; [exact Hg|]. intros c [H1 H2 H3 H4]. split; [done..|]. by destruct H4 as [H4|[H4|[? _]]]; [left|right; left|].
    + eapply Forall_impl; [exact Hs|]. intros c. apply cinv_end.
  - destruct (q_at s) as [[f j]|] eqn:Ea; [|done]. pose proof (served_skip f j s Hi Ea) as Hk.
    destruct (q_clients s !! j) as [c|] eqn:Ej; [|injection E as <-; by apply Hk].
    destruct (Want (cl_filter c) f) eqn:Ew; cbn [negb] in E; [|injection E as <-; by apply Hk]. clear Hk.
    destruct Hs as (pre & Et & H1 & H2). rewrite (drop_S _ _ _ Ej) in H2. apply Forall_cons_1 in H2 as [Hc H2].
    destruct d.
    + destruct (cl_done c) eqn:Ed; [|done]. injection E as <-. pose proof (lookup_lt_Some _ _ _ Ej). unfold remove_client, with_clients.
      split; unfold served_upto; cbn [q_at q_clients q_taken q_gone].
      * rewrite Ea. exists pre. rewrite take_app_length', drop_app_length' by (rewrite length_take; lia). done.
      * apply Forall_app; split; [done|]. apply Forall_singleton. rewrite Et. by apply cinv_ginv.
    + destruct (Nat.ltb_spec (length (cl_buf c)) (cl_cap c)); [|done]. injection E as <-.
      eapply dinv_served; [exact Hi|exact Ea|exact Ej|done..| |]; cbn; [unfold delivered; cbn; by rewrite app_assoc|rewrite length_app; cbn; lia].
  - destruct (q_at s) as [[f j]|] eqn:Ea; [|done]. destruct (q_clients s !! j) as [c|] eqn:Ej; [|done].
    destruct (Want (cl_filter c) f) eqn:Ew; [|done]. destruct (Nat.eqb_spec (cl_cap c) 0) as [Ec|]; [|done]. injection E as <-.
    destruct Hs as (pre & Et & H1 & H2). rewrite (drop_S _ _ _ Ej) in H2. apply Forall_cons_1 in H2 as [[_ _ Hb _] _].
    assert (Eb : cl_buf c = []) by (destruct (cl_buf c); [done|cbn in Hb; lia]).
    eapply dinv_served; [exact Hi|exact Ea|exact Ej|done..| |]; unfold delivered; cbn; rewrite Eb; [by rewrite !app_nil_r|cbn; lia].
  - injection E as <-. apply dinv_on_client; [intros ??; apply cinv_pop|intros ??; apply ginv_pop|done].
  - injection E as <-. apply dinv_on_client; [intros ??; apply cinv_cancelled|intros ??; apply ginv_cancelled|done].
Qed.

Lemma drun_inv es s s' : dinv s -> drun es s = Some s' -> dinv s'.
Proof.
  revert s. induction es as [|e es IH]; intros s Hs; cbn [drun]; [by intros [= <-]|].
  destruct (dstep e s) as [s1|] eqn:E; [|done]. cbn. apply IH. by eapply dstep_inv.
Qed.

(** *** What was asked of the demux

    A request: whose it is, what it wants, and how many frames had been taken when [run]
    took it. *)
Definition request_of (c : client) (since : nat) : nat * framesFilter * bool * nat * nat :=
  (c.(cl_id), c.(cl_filter), c.(cl_once), c.(cl_cap), since).
Definition request_here (c : client) := request_of c c.(cl_since).

(** The requests of a run that [run] took; [pend] is the request of the call that
    waits for it. *)
Fixpoint requests (es : list dstep_event) (s : dsys) (pend : option client) : list (nat * framesFilter * bool * nat * nat) :=
  match es with
  | [] => []
  | e :: es =>
      match dstep e s with
      | None => []
      | Some s' =>
          match e, pend with
          | CallRequest c, None => requests es s' (if s.(q_closed) then None else Some c)
          | TakeRequest, Some c => request_of c (length s.(q_taken)) :: requests es s' None
          | _, _ => requests es s' pend
          end
      end
  end.

(** The frames [Enqueue] did not drop. *)
Fixpoint enqueued (es : list dstep_event) (s : dsys) : list agw_frame :=
  match es with
  | [] => []
  | e :: es =>
      match dstep e s with
      | None => []
      | Some s' =>
          match e, s.(q_closed), s.(q_in) with
          | CallEnqueue f, false, None => f :: enqueued es s'
          | _, _, _ => enqueued es s'
          end
      end
  end.

(** The same of one step: the requests it takes, and the call that waits after it. *)
Definition step_requests (e : dstep_event) (s : dsys) : list (nat * framesFilter * bool * nat * nat) :=
  match e, s.(q_lock) with TakeRequest, Some c => [request_of c (length s.(q_taken))] | _, _ => [] end.
Definition step_enqueued (e : dstep_event) (s : dsys) : list agw_frame :=
  match e, s.(q_closed), s.(q_in) with CallEnqueue f, false, None => [f] | _, _, _ => [] end.

Lemma requests_cons e es s s' : dstep e s = Some s' -> requests (e :: es) s s.(q_lock) = step_requests e s ++ requests es s' s'.(q_lock).
Proof.
  intros E. cbn [requests]. rewrite E. unfold step_requests. destruct s as [i cl l cs a r g t]. unfold dstep, idle in E. cbn in *.
  destruct e, l; cbn in *; simplify_eq; repeat case_match; simplify_eq; try done.
  all: unfold serve_client, remove_client in *; repeat case_match; done.
Qed.
Lemma enqueued_cons e es s s' : dstep e s = Some s' -> enqueued (e :: es) s = step_enqueued e s ++ enqueued es s'.
Proof. intros E. cbn [enqueued]. rewrite E. unfold step_enqueued. by destruct e, (q_closed s), (q_in s). Qed.

Definition registrations (s : dsys) := request_here <$> (s.(q_clients) ++ s.(q_gone)).

Lemma on_client_requests id g cs : (forall c, request_here (g c) = request_here c) -> request_here <$> on_client id g cs = request_here <$> cs.
Proof. intros Hg. unfold on_client. rewrite <- list_fmap_compose. apply list_fmap_ext. intros k c _. cbn. case_decide; [apply Hg|done]. Qed.

Lemma remove_requests s i c c' : s.(q_clients) !! i = Some c -> request_here c' = request_here c ->
  registrations (remove_client i c' s) ≡ₚ registrations s.
Proof.
  intros Ei Ec. unfold registrations, remove_client, with_clients. cbn [q_clients q_gone].
  rewrite <- (take_drop_middle _ _ _ Ei) at 3. rewrite !fmap_app, !fmap_cons, Ec. cbn. solve_Permutation.
Qed.
Lemma serve_requests f s i c c' : s.(q_clients) !! i = Some c -> request_here c' = request_here c ->
  registrations (serve_client f i c' s) ≡ₚ registrations s.
Proof.
  intros Ei Ec. unfold serve_client. destruct (cl_once c'); [by eapply remove_requests|].
  unfold registrations, with_at, with_clients. cbn [q_clients q_gone]. rewrite !fmap_app, list_fmap_insert, Ec.
  by rewrite list_insert_id by (by rewrite list_lookup_fmap, Ei).
Qed.

Lemma dstep_requests e s s' : dstep e s = Some s' -> registrations s' ≡ₚ registrations s ++ step_requests e s.
Proof.
  intros E. assert (Same : forall i c l a r t, registrations (mkSys i c l s.(q_clients) a r s.(q_gone) t) ≡ₚ registrations s ++ [])
    by (intros; by rewrite app_nil_r).
  unfold dstep in E. unfold step_requests. destruct e as [f|c| | | | |d| |id|id]; rewrite ?app_nil_r.
  1-3: destruct (q_lock s); [done|]; repeat case_match; injection E as <-; done.
  - destruct (q_lock s) as [c|]; [|done]. destruct (idle s); [|done]. injection E as <-.
    unfold registrations. cbn [q_clients q_gone]. rewrite !fmap_app. cbn. unfold request_here. cbn. solve_Permutation.
  - repeat case_match; try done. by injection E as <-.
  - repeat case_match; try done. injection E as <-. unfold registrations. cbn. by rewrite Permutation_app_comm.
  - destruct (q_at s) as [[f j]|]; [|done]. destruct (q_clients s !! j) as [c|] eqn:Ej; [|by injection E as <-].
    destruct (negb _); [by injection E as <-|]. destruct d.
    + destruct (cl_done c); [|done]. injection E as <-. by eapply remove_requests.
    + destruct (_ <? _)%nat; [|done]. injection E as <-. by eapply serve_requests.
  - destruct (q_at s) as [[f j]|]; [|done]. destruct (q_clients s !! j) as [c|] eqn:Ej; [|done].
    destruct (_ && _); [|done]. injection E as <-. by eapply serve_requests.
  - injection E as <-. unfold registrations. cbn. rewrite !fmap_app, !on_client_requests; [done|..];
      intros c; unfold request_here, request_of; by destruct (pop_keeps c) as (_ & _ & -> & -> & -> & -> & _ & ->).
  - injection E as <-. unfold registrations. cbn. by rewrite !fmap_app, !on_client_requests.
Qed.

Lemma dstep_enqueued e s s' : dstep e s = Some s' ->
  s'.(q_taken) ++ option_list s'.(q_in) = (s.(q_taken) ++ option_list s.(q_in)) ++ step_enqueued e s.
Proof.
  intros E. unfold step_enqueued. destruct s as [i cl l cs a r g t]. unfold dstep, idle in E. cbn in *.
  destruct e, l; cbn in *; simplify_eq; repeat case_match; simplify_eq; cbn; rewrite ?app_nil_r; try done.
  all: unfold serve_client, remove_client in *; repeat case_match; by rewrite ?app_nil_r.
Qed.

Lemma drun_requests es s s' : drun es s = Some s' -> registrations s' ≡ₚ registrations s ++ requests es s s.(q_lock).
Proof.
  revert s. induction es as [|e es IH]; intros s; cbn [drun]; [intros [= <-]; by rewrite app_nil_r|].
  destruct (dstep e s) as [s1|] eqn:E; [|done]. intros E2.
  by rewrite (requests_cons e es s s1 E), (IH _ E2), (dstep_requests e s s1 E), <- app_assoc.
Qed.
Lemma drun_enqueued es s s' : drun es s = Some s' ->
  s'.(q_taken) ++ option_list s'.(q_in) = (s.(q_taken) ++ option_list s.(q_in)) ++ enqueued es s.
Proof.
  revert s. induction es as [|e es IH]; intros s; cbn [drun]; [intros [= <-]; by rewrite app_nil_r|].
  destruct (dstep e s) as [s1|] eqn:E; [|done]. intros E2.
  by rewrite (enqueued_cons e es s s1 E), (IH _ E2), (dstep_enqueued e s s1 E), <- app_assoc.
Qed.

(** C13. However the goroutines interleave, no frame and no client is lost.  The frames
    taken are those [Enqueue] put into the channel, in order.  The clients, those
    that were closed included, are the requests that [run] took, each once, with
    its filter and its place in the stream of frames.  Between two frames every open
    client has been given exactly the frames it wants, of those taken since it
    registered, in order and none twice.  A client that was closed has been given
    the first of them, one of [NextFrame] at most one, and it was closed because its
    owner cancelled it, because it has the one frame it wanted, or because [run]
    has returned and it has them all. *)
Theorem demux_delivers es s : drun es newDemux = Some s ->
  s.(q_taken) ++ option_list s.(q_in) = enqueued es newDemux /\
  request_here <$> (s.(q_clients) ++ s.(q_gone)) ≡ₚ requests es newDemux None /\
  (s.(q_at) = None -> Forall (fun c => delivered c = wanted c s.(q_taken)) s.(q_clients)) /\
  Forall (fun c => delivered c `prefix_of` wanted c s.(q_taken) /\ (c.(cl_once) = true -> (length (delivered c) <= 1)%nat) /\
    (c.(cl_done) = true \/ (c.(cl_once) = true /\ length (delivered c) = 1%nat) \/
     (s.(q_returned) = true /\ delivered c = wanted c s.(q_taken)))) s.(q_gone).
Proof.
  intros E. destruct (drun_inv es newDemux s ltac:(split; constructor) E) as [Hs Hg].
  split; [exact (drun_enqueued _ _ _ E)|]. split; [exact (drun_requests _ _ _ E)|]. split.
  - intros Ea. unfold served_upto in Hs. rewrite Ea in Hs. eapply Forall_impl; [exact Hs|]. by intros c [].
  - eapply Forall_impl; [exact Hg|]. by intros c [].
Qed.

(** ** A client that does not read *)

(** [run] waits for room in the channel of client [id]. *)
Definition blocked (id : nat) (s : dsys) : Prop := exists f j c,
  s.(q_at) = Some (f, j) /\ s.(q_clients) !! j = Some c /\ c.(cl_id) = id /\ Want c.(cl_filter) f = true /\
  (c.(cl_cap) <= length c.(cl_buf))%nat /\ c.(cl_done) = false.

(** A step that is not one of the owner of client [id]. *)
Definition foreign (id : nat) (e : dstep_event) : Prop :=
  match e with Handoff => False | Receive i | Cancel_ i => i <> id | _ => True end.

Lemma on_client_other id i g cs j (c : client) : i <> id -> cs !! j = Some c -> cl_id c = id -> on_client i g cs !! j = Some c.
Proof. intros Hi Hj Hc. unfold on_client. rewrite list_lookup_fmap, Hj. cbn. by destruct (decide (cl_id c = i)); [congruence|]. Qed.

Lemma on_client_delivered i g cs : (forall c, delivered (g c) = delivered c) -> delivered <$> on_client i g cs = delivered <$> cs.
Proof. intros Hg. unfold on_client. rewrite <- list_fmap_compose. apply list_fmap_ext. intros k c _. cbn. case_decide; [apply Hg|done]. Qed.

Lemma blocked_step id e s s' : blocked id s -> foreign id e -> dstep e s = Some s' ->
  blocked id s' /\ s'.(q_at) = s.(q_at) /\ delivered <$> s'.(q_clients) = delivered <$> s.(q_clients) /\
  (forall r, s.(q_lock) = Some r -> s'.(q_lock) = Some r).
Proof.
  intros (f & j & c & Ea & Ej & Ec & Ew & Eb & Ed) Hf E.
  assert (Same : forall i x l r, (forall q, q_lock s = Some q -> l = Some q) ->
    let s' := mkSys i x l s.(q_clients) s.(q_at) r s.(q_gone) s.(q_taken) in
    blocked id s' /\ s'.(q_at) = s.(q_at) /\ delivered <$> s'.(q_clients) = delivered <$> s.(q_clients) /\
    (forall r, s.(q_lock) = Some r -> s'.(q_lock) = Some r)).
  { intros i x l r Hl s1. split; [by exists f, j, c|]. done. }
  assert (Refl : blocked id s /\ q_at s = q_at s /\ delivered <$> s.(q_clients) = delivered <$> s.(q_clients) /\
    (forall r, s.(q_lock) = Some r -> s.(q_lock) = Some r)) by (split; [by exists f, j, c|done]).
  assert (Hid : idle s = false) by (unfold idle; rewrite Ea; apply andb_false_r).
  unfold dstep in E. rewrite ?Hid, ?andb_false_r in E. clear Hid.
  destruct e as [g|r| | | | |d| |i|i]; cbn [foreign] in Hf.
  - destruct (q_lock s) eqn:El; [done|]. destruct (q_closed s); [injection E as <-; by rewrite El|]. destruct (q_in s); injection E as <-; [by rewrite El|by apply Same].
  - destruct (q_lock s) eqn:El; [done|]. destruct (q_closed s); injection E as <-; [by rewrite El|by apply Same].
  - destruct (q_lock s) eqn:El; [done|]. injection E as <-. by apply Same.
  - by destruct (q_lock s).
  - by destruct (q_in s).
  - by destruct (q_in s).
  - rewrite Ea, Ej, Ew in E. cbn [negb] in E. rewrite Ed in E. destruct d; [done|]. destruct (Nat.ltb_spec (length (cl_buf c)) (cl_cap c)); [lia|done].
  - done.
  - injection E as <-. split; [|split; [done|split; [|done]]].
    + exists f, j, c. cbn. split_and!; try done. by apply (on_client_other id).
    + cbn. apply on_client_delivered. intros x. apply pop_keeps.
  - injection E as <-. split; [|split; [done|split; [|done]]].
    + exists f, j, c. cbn. split_and!; try done. by apply (on_client_other id).
    + cbn. by apply on_client_delivered.
Qed.

(** C14. A client whose channel is full and whose owner neither reads nor cancels stops
    the demux: no client gets anything.  Once a request was made no call of
    [Enqueue], [NextFrame], [Frames] or [Close] returns, for they need the mutex its
    caller holds. *)
Theorem unread_client_blocks id r es s s' : blocked id s -> s.(q_lock) = Some r ->
  drun es s = Some s' -> Forall (foreign id) es ->
  delivered <$> s'.(q_clients) = delivered <$> s.(q_clients) /\
  (forall f, dstep (CallEnqueue f) s' = None) /\ (forall c, dstep (CallRequest c) s' = None) /\ dstep CallClose s' = None.
Proof.
  intros Hb Hl E Hf. revert s Hb Hl E. induction Hf as [|e es He Hf IH]; intros s Hb Hl; cbn [drun].
  - intros [= <-]. unfold dstep. by rewrite Hl.
  - destruct (dstep e s) as [s1|] eqn:E1; [|done]. cbn. intros E.
    destruct (blocked_step id e s s1 Hb He E1) as (Hb1 & _ & Hd & Hl1). rewrite <- Hd. apply IH; auto.
Qed.

(** *** A connection

    [newConn] asks for the disconnect frame and for data, whose channel has room for
    ten frames. *)
Definition conn_demux : list dstep_event :=
  [CallRequest (next_frame_req 0 [kindDisconnect]); TakeRequest;
   CallRequest (frames_req 1 10 (mkFilter [kindConnectedData] None no_call no_call)); TakeRequest].
Definition data_arrives (f : agw_frame) : list dstep_event := [CallEnqueue f; TakeFrame; Serve false; Serve false; Serve false].

Definition sample_data : agw_frame := mkF (mkH 0 kindConnectedData 240 no_call no_call 1) [65].

Lemma demux_delivers_witness : exists s, drun (conn_demux ++ data_arrives sample_data ++ [Receive 1]) newDemux = Some s /\
  length s.(q_clients) = 2%nat /\ Forall (fun c => delivered c = wanted c s.(q_taken)) s.(q_clients) /\ s.(q_taken) = [sample_data].
Proof.
  set (es := conn_demux ++ data_arrives sample_data ++ [Receive 1]).
  assert (H : exists s, drun es newDemux = Some s /\ length s.(q_clients) = 2%nat /\ s.(q_at) = None /\ s.(q_in) = None)
    by (eexists; split_and!; vm_compute; reflexivity).
  destruct H as (s & E & El & Ea & Ei). exists s. split; [exact E|]. split; [exact El|].
  destruct (demux_delivers es s E) as (Hq & _ & Hd & _). split; [exact (Hd Ea)|].
  rewrite Ei, app_nil_r in Hq. rewrite Hq. vm_compute. reflexivity.
Defined.

(** Eleven data frames that nobody reads; then [Flush] asks for the outstanding
    frames.  The next call, be it [Close], does not return. *)
Definition eleven_frames (f : agw_frame) : list dstep_event :=
  conn_demux ++ concat (replicate 10 (data_arrives f)) ++
  [CallEnqueue f; TakeFrame; Serve false; CallRequest (next_frame_req 2 [kindOutstandingFramesForConn])].


Lemma unread_client_blocks_witness :
  match drun (eleven_frames sample_data) newDemux with
  | Some s => (forall c, dstep (CallRequest c) s = None) /\ dstep CallClose s = None
  | None => False
  end.
Proof.
  assert (H : exists s c r, drun (eleven_frames sample_data) newDemux = Some s /\ s.(q_at) = Some (sample_data, 1%nat) /\
    s.(q_clients) !! 1%nat = Some c /\ c.(cl_id) = 1%nat /\ c.(cl_filter) = mkFilter [kindConnectedData] None no_call no_call /\
    c.(cl_cap) = 10%nat /\ length c.(cl_buf) = 10%nat /\ c.(cl_done) = false /\ s.(q_lock) = Some r).
  { eexists _, _, _. split_and!; vm_compute; reflexivity. }
  destruct H as (s & c & r & -> & Ea & Ej & Ei & Ef & Ec & Eb & Ed & El).
  assert (Hb : blocked 1 s).
  { exists sample_data, 1%nat, c. split_and!; try done; [by rewrite Ef|lia]. }
  exact (proj2 (proj2 (unread_client_blocks 1 r [] s s Hb El eq_refl ltac:(constructor)))).
Defined.

(** ** Chained demuxes

    [Chain]: a goroutine takes the frames of an unbuffered client of the upper demux
    and puts them into the lower one. *)
Record chained := mkChain { up : dsys; down : dsys; held : option agw_frame; chain_exited : bool }.

Inductive chain_event :=
| Above (e : dstep_event)
| Below (e : dstep_event)
| Take_           (* f, ok := <-filtered *)
| Put             (* next.Enqueue(f) *)
| Ended.          (* the channel is closed *)

(** [None]: it waits for the mutex. *)
Definition Chain (filter : framesFilter) (link : nat) (d : dsys) : res (option chained) :=
  match d.(q_lock) with
  | Some _ => mret None
  | None =>
      if d.(q_closed) then Panic
      else mret (d ← dstep (CallRequest (frames_req link 0 filter)) d; Some (mkChain d newDemux None false))
  end.

(** The deferred calls: [next.Close], then [cancel]. *)
Definition chain_exit (link : nat) (c : chained) : option chained :=
  d ← dstep CallClose c.(down);
  u ← dstep (Cancel_ link) c.(up);
  Some (mkChain u d None true).

Definition chain_step (link : nat) (e : chain_event) (c : chained) : option chained :=
  match e with
  | Above e =>
      match e with
      | Handoff => None
      | _ => u ← dstep e c.(up); Some (mkChain u c.(down) c.(held) c.(chain_exited))
      end
  | Below e => d ← dstep e c.(down); Some (mkChain c.(up) d c.(held) c.(chain_exited))
  | Take_ =>
      match c.(held), c.(chain_exited), c.(up).(q_at) with
      | None, false, Some (f, j) =>
          cl ← c.(up).(q_clients) !! j;
          if decide (cl.(cl_id) = link) then u ← dstep Handoff c.(up); Some (mkChain u c.(down) (Some f) false) else None
      | _, _, _ => None
      end
  | Put =>
      match c.(held) with
      | None => None
      | Some f =>
          d ← dstep (CallEnqueue f) c.(down);
          if c.(down).(q_closed) then chain_exit link c
          else Some (mkChain c.(up) d None c.(chain_exited))
      end
  | Ended =>
      match c.(held), c.(chain_exited), find (fun cl => cl.(cl_id) =? link)%nat c.(up).(q_gone) with
      | None, false, Some _ => chain_exit link c
      | _, _, _ => None
      end
  end.

Fixpoint chain_run (link : nat) (es : list chain_event) (c : chained) : option chained :=
  match es with [] => Some c | e :: es => c ← chain_step link e c; chain_run link es c end.

(** Steps that are not those of the owner of client [id] below; the client of the
    chain is its goroutine's. *)
Definition chain_foreign (link id : nat) (e : chain_event) : Prop :=
  match e with Above e => foreign link e | Below e => foreign id e | _ => True end.

(** The lower demux waits for client [id] and its mutex is held, the goroutine
    holds a frame, and the upper demux has come to it with another. *)
Record stalled (link id : nat) (c : chained) : Prop := {
  st_down : blocked id c.(down);
  st_lock : is_Some c.(down).(q_lock);
  st_held : is_Some c.(held);
  st_up : blocked link c.(up) }.

Lemma stalled_step link id e c c' : stalled link id c -> chain_foreign link id e -> chain_step link e c = Some c' ->
  stalled link id c' /\ delivered <$> c'.(up).(q_clients) = delivered <$> c.(up).(q_clients).
Proof.
  intros Hs Hf E. pose proof Hs as [Hd [r Hl] [f Hh] Hu]. destruct e as [e|e| | |]; cbn [chain_step chain_foreign] in *.
  - assert (E' : (u ← dstep e (up c); Some (mkChain u (down c) (held c) (chain_exited c))) = Some c') by (by destruct e).
    destruct (dstep e (up c)) as [u|] eqn:Eu; [|done]. cbn in E'. injection E' as <-.
    destruct (blocked_step link e _ _ Hu Hf Eu) as (Hb & _ & Hdel & _). by split.
  - destruct (dstep e (down c)) as [d|] eqn:Eu; [|done]. cbn in E. injection E as <-.
    destruct (blocked_step id e _ _ Hd Hf Eu) as (Hb & _ & _ & Hlk). split; [|done]. split; cbn; [done|eauto|by eexists|done].
  - by rewrite Hh in E.
  - rewrite Hh in E. unfold dstep in E. by rewrite Hl in E.
  - by rewrite Hh in E.
Qed.

(** A reader that stops stops the demux above as well, and so the other connections
    of the port and of the modem: none of their channels gets another frame. *)
Theorem stall_spreads link id es c c' : stalled link id c -> chain_run link es c = Some c' -> Forall (chain_foreign link id) es ->
  delivered <$> c'.(up).(q_clients) = delivered <$> c.(up).(q_clients) /\ c'.(held) = c.(held) /\
  forall f, dstep (CallEnqueue f) c'.(down) = None.
Proof.
  intros Hs E Hf. revert c Hs E. induction Hf as [|e es He Hf IH]; intros c Hs; cbn [chain_run].
  - intros [= <-]. destruct Hs as [_ [r Hl] _ _]. split_and!; [done..|]. intros f. unfold dstep. by rewrite Hl.
  - destruct (chain_step link e c) as [c1|] eqn:E1; [|done]. cbn. intros E.
    destruct (stalled_step link id e c c1 Hs He E1) as [Hs1 Hd]. destruct (IH c1 Hs1 E) as (H1 & H2 & H3).
    split_and!; [by rewrite H1|rewrite H2|done]. clear -Hs E1. destruct Hs as [_ [r Hl] [f Hh] _].
    destruct e as [e|e| | |]; cbn [chain_step] in E1; rewrite ?Hh in E1; try done.
    + assert (E' : (u ← dstep e (up c); Some (mkChain u (down c) (Some f) (chain_exited c))) = Some c1) by (by destruct e).
      destruct (dstep e (up c)); [|done]. cbn in E'. by injection E' as <-.
    + destruct (dstep e (down c)); [|done]. cbn in E1. by injection E1 as <-.
    + unfold dstep in E1. by rewrite Hl in E1.
Qed.

Definition port_chain : res (option chained) := Chain (mkFilter [] (Some 0) no_call no_call) 7 newDemux.
Definition passes (f : agw_frame) : list chain_event := [Above (CallEnqueue f); Above TakeFrame; Take_; Above (Serve false)].

(** Thirteen data frames for a connection that is not read, and a request. *)
Definition thirteen_frames (f : agw_frame) : list chain_event :=
  [Above TakeRequest] ++ (Below <$> conn_demux)
  ++ concat (replicate 10 (passes f ++ [Put; Below TakeFrame; Below (Serve false); Below (Serve false); Below (Serve false)]))
  ++ passes f ++ [Put; Below TakeFrame; Below (Serve false); Below (CallRequest (next_frame_req 2 [kindOutstandingFramesForConn]))]
  ++ passes f ++ [Above (CallEnqueue f); Above TakeFrame].

Lemma stall_spreads_witness :
  match port_chain with
  | Ok (Some c0) =>
      match chain_run 7 (thirteen_frames sample_data) c0 with
      | Some c => forall f, dstep (CallEnqueue f) c.(down) = None
      | None => False
      end
  | _ => False
  end.
Proof.
  assert (H : exists c0 c cl1 cl2, port_chain = Ok (Some c0) /\ chain_run 7 (thirteen_frames sample_data) c0 = Some c /\
    c.(down).(q_at) = Some (sample_data, 1%nat) /\ c.(down).(q_clients) !! 1%nat = Some cl1 /\
    (cl1.(cl_id) = 1%nat /\ Want cl1.(cl_filter) sample_data = true /\ (cl1.(cl_cap) <=? length cl1.(cl_buf))%nat = true /\ cl1.(cl_done) = false) /\
    c.(up).(q_at) = Some (sample_data, 0%nat) /\ c.(up).(q_clients) !! 0%nat = Some cl2 /\
    (cl2.(cl_id) = 7%nat /\ Want cl2.(cl_filter) sample_data = true /\ (cl2.(cl_cap) <=? length cl2.(cl_buf))%nat = true /\ cl2.(cl_done) = false) /\
    is_Some c.(down).(q_lock) /\ is_Some c.(held)).
  { eexists _, _, _, _. split_and!; try (vm_compute; reflexivity); eexists; vm_compute; reflexivity. }
  destruct H as (c0 & c & c1 & c2 & E0 & E & A1 & J1 & (I1 & W1 & B1 & D1) & A2 & J2 & (I2 & W2 & B2 & D2) & L & Hh).
  rewrite E0, E. apply Nat.leb_le in B1, B2.
  assert (Hs : stalled 7 1 c) by (split; [by exists sample_data, 1%nat, c1|done|done|by exists sample_data, 0%nat, c2]).
  exact (proj2 (proj2 (stall_spreads 7 1 [] c c Hs eq_refl ltac:(constructor)))).
Defined.

(** [newConn] on the port of an inbound call that was still in the channel when the
    port was closed: [Chain] panics, in the goroutine of [handleInbound]. *)
Definition connect_frame : agw_frame := mkF (mkH 0 kindConnect 0 no_call no_call 0) (str "*** CONNECTED To Station").
Definition call_while_closing : list dstep_event :=
  [CallRequest (frames_req 3 1 (mkFilter [kindConnect] None no_call no_call)); TakeRequest;
   CallEnqueue connect_frame; TakeFrame; Serve false; Serve false; CallClose; Receive 3].
Example late_call_panics : exists s, drun call_while_closing newDemux = Some s /\
  (cl_got <$> s.(q_clients)) = [[connect_frame]] /\ Chain (mkFilter [] None no_call no_call) 4 s = Panic.
Proof. eexists. split; [reflexivity|]. split; reflexivity. Qed.
