(* ===== verification/AgwpeListen.v ===== *)
(** Listening on an AGWPE port: [src/transport/ax25/agwpe/listener.go], the
    goroutine of [handleInbound] in [port.go], and [RegisterPort] and [TNCPort] of
    [agwpe.go] and [tnc_port.go].

    The goroutine offers a connection on an unbuffered channel without waiting, so it
    is taken only by a call of [Accept] that is blocked at that moment.  A connection
    that is refused is recorded here; what closing it sends is [agw_Close] of Agwpe.v,
    and how long that holds up the goroutine is left open.  (A station that calls
    while the port closes makes the goroutine panic, [late_call_panics] of
    AgwpeDemux.v; that is not a step here.)
    Listeners and their callers are a state machine: an event is one step of
    one of the goroutines, and names the choice a select leaves open. *)
From S2P Require Import Prelude Crc GoStr Helpers Agwpe.
From stdpp Require Import gmap sets.
Open Scope Z_scope.

Definition ErrListenerClosed : error := New (str "listener closed").

(** [waiting]: the listener of each blocked call of [Accept]; [returned]: what the
    calls that came back returned. *)
Record lstate := mkL {
  arrived : list agw_frame;
  waiting : list nat;
  ln_closed : gset nat;
  conns_closed : bool;
  returned : list (nat * (error + aconn));
  refused : list aconn }.

Definition newListeners : lstate := mkL [] [] ∅ false [] [].

Inductive levent :=
| FrameArrives (f : agw_frame) (i : nat)  (* a frame; the blocked call the channel picks *)
| AcceptCalled (ln : nat) (first : bool)  (* the case a select picks when both are ready *)
| AcceptWakes (i : nat) (first : bool)
| ListenerClosed (ln : nat)
| PortClosed.

(** What the select of [Accept] returns, when it does not block. *)
Definition accept_ready (s : lstate) (ln : nat) (first : bool) : option error :=
  match s.(conns_closed), bool_decide (ln ∈ s.(ln_closed)) with
  | true, true => Some (if first then ErrPortClosed else ErrListenerClosed)
  | true, false => Some ErrPortClosed
  | false, true => Some ErrListenerClosed
  | false, false => None
  end.

Definition returns (s : lstate) (waiting : list nat) (ln : nat) (r : error + aconn) : lstate :=
  mkL s.(arrived) waiting s.(ln_closed) s.(conns_closed) (s.(returned) ++ [(ln, r)]) s.(refused).

(** The select of [handleInbound]: one of the callers that wait gets the connection;
    without one it is refused, and listed with those that [conn.Close] is called on. *)
Definition offer (s : lstate) (conn : aconn) (i : nat) : option lstate :=
  match s.(waiting) with
  | [] => Some (mkL s.(arrived) [] s.(ln_closed) s.(conns_closed) s.(returned) (s.(refused) ++ [conn]))
  | _ => ln ← s.(waiting) !! i;
         Some (returns s (take i s.(waiting) ++ drop (S i) s.(waiting)) ln (inr conn))
  end.

(** [Listener.Close], any number of times. *)
Definition agw_ln_Close (ln : nat) (s : lstate) : lstate :=
  mkL s.(arrived) s.(waiting) ({[ln]} ∪ s.(ln_closed)) s.(conns_closed) s.(returned) s.(refused).

(** One step; [None] when it cannot happen. *)
Definition lstep (p : port) (e : levent) (s : lstate) : option lstate :=
  match e with
  | FrameArrives f i =>
      if s.(conns_closed) then None
      else
        let s := mkL (s.(arrived) ++ [f]) s.(waiting) s.(ln_closed) s.(conns_closed) s.(returned) s.(refused) in
        match inbound_conn p f with
        | None => Some s
        | Some conn => offer s conn i
        end
  | AcceptCalled ln first =>
      match accept_ready s ln first with
      | Some e => Some (returns s s.(waiting) ln (inl e))
      | None => Some (mkL s.(arrived) (s.(waiting) ++ [ln]) s.(ln_closed) s.(conns_closed) s.(returned) s.(refused))
      end
  | AcceptWakes i first =>
      ln ← s.(waiting) !! i;
      e ← accept_ready s ln first;
      Some (returns s (take i s.(waiting) ++ drop (S i) s.(waiting)) ln (inl e))
  | ListenerClosed ln => Some (agw_ln_Close ln s)
  | PortClosed => Some (mkL s.(arrived) s.(waiting) s.(ln_closed) true s.(returned) s.(refused))
  end.

Fixpoint lrun (p : port) (es : list levent) (s : lstate) : option lstate :=
  match es with [] => Some s | e :: es => s ← lstep p e s; lrun p es s end.

Definition Listen (p : port) : option error := if p.(p_closed) then Some ErrPortClosed else None.
Definition ln_Addr (p : port) : gostr := addr_string p.(p_mycall) [].

(** ** Ports of a modem *)

(** [TNC.Close]: the demux of the modem closes, and with it those chained to it. *)
Definition agw_tnc_Close : radio unit :=
  p ← the_port;
  c ← the_conn;
  set_port (mkPort p.(p_port) p.(p_mycall) p.(p_maxFrame) true);;
  set_conn (close_demux c).

(** [newPort], for the port of the state: [Chain] panics when the modem is closed. *)
Definition newPort : radio unit := fun w => if w.(a_port).(p_closed) then Panic else mret (tt, w).

Definition RegisterPort : radio (option error) :=
  newPort;;
  e ← register;
  match e with
  | Some e => agw_tnc_Close;; mret (Some e)
  | None => mret None
  end.

Definition agw_Ping : radio (option error) :=
  r ← Version;
  mret (match r with inl e => Some e | inr _ => None end).

Definition TNCPort_Close : radio unit := port_Close;; agw_tnc_Close.

(** [OpenPortTCP], when the connection to the modem has been made. *)
Definition OpenPortTCP : radio (option error) :=
  e ← RegisterPort;
  match e with
  | Some e => agw_tnc_Close;; mret (Some e)
  | None => mret None
  end.

(** ** Properties *)
Section listeners.
Context (p : port).

(** The connections [Accept] returned. *)
Definition accepted (s : lstate) : list aconn := omap (fun r => match r.2 with inr c => Some c | inl _ => None end) s.(returned).

Record linv (s : lstate) : Prop := {
  li_conns : accepted s ++ s.(refused) ≡ₚ omap (inbound_conn p) s.(arrived);
  li_order : accepted s `sublist_of` omap (inbound_conn p) s.(arrived);
  li_errors : Forall (fun r => match r.2 with
                               | inl e => e = ErrPortClosed /\ s.(conns_closed) = true \/ e = ErrListenerClosed /\ r.1 ∈ s.(ln_closed)
                               | inr _ => True
                               end) s.(returned) }.

Lemma accepted_snoc s w ln r : accepted (returns s w ln r) = accepted s ++ match r with inr c => [c] | inl _ => [] end.
Proof. unfold accepted, returns. cbn [returned]. rewrite omap_app. cbn. by destruct r. Qed.

Lemma returns_error s w ln first e : linv s -> accept_ready s ln first = Some e -> linv (returns s w ln (inl e)).
Proof.
  intros [H1 H2 H3] E. split; rewrite ?accepted_snoc, ?app_nil_r; [done|done|].
  unfold returns. cbn [returned conns_closed ln_closed]. apply Forall_app; split; [done|]. apply Forall_singleton. cbn.
  unfold accept_ready in E. destruct (conns_closed s), (bool_decide_reflect (ln ∈ ln_closed s)); try done; injection E as <-; auto.
  destruct first; auto.
Qed.

Lemma lstep_inv e s s' : linv s -> lstep p e s = Some s' -> linv s'.
Proof.
  intros Hi E. pose proof Hi as [H1 H2 H3].
  destruct e as [f i|ln first|i first|ln| ]; cbn [lstep] in E.
  - destruct (conns_closed s) eqn:Ec; [done|]. set (s1 := mkL _ _ _ _ _ _) in E. cbv zeta in E.
    assert (Ea : omap (inbound_conn p) (s.(arrived) ++ [f]) = omap (inbound_conn p) s.(arrived) ++ omap (inbound_conn p) [f])
      by apply omap_app.
    destruct (inbound_conn p f) as [conn|] eqn:Ef.
    + assert (Ea' : omap (inbound_conn p) (s.(arrived) ++ [f]) = omap (inbound_conn p) s.(arrived) ++ [conn])
        by (rewrite Ea; f_equal; cbn; by rewrite Ef).
      unfold offer in E. destruct (waiting s1) as [|w ws] eqn:Ew.
      * injection E as <-. split; cbn [arrived returned refused accepted ln_closed conns_closed]; [| |exact H3].
        -- change (accepted _) with (accepted s). change (refused s1) with (refused s). change (arrived s1) with (arrived s ++ [f]).
           rewrite Ea', app_assoc. by rewrite H1.
        -- change (accepted _) with (accepted s). change (arrived s1) with (arrived s ++ [f]). rewrite Ea'. by apply sublist_inserts_r.
      * rewrite <- Ew in E. destruct (waiting s1 !! i) as [ln|]; [|done]. injection E as <-.
        split; rewrite ?accepted_snoc; unfold returns; cbn [arrived returned refused ln_closed conns_closed].
        -- change (accepted s1) with (accepted s). change (refused s1) with (refused s). change (arrived s1) with (arrived s ++ [f]).
           rewrite Ea', <- H1. rewrite <- !app_assoc. f_equiv. apply Permutation_app_comm.
        -- change (accepted s1) with (accepted s). change (arrived s1) with (arrived s ++ [f]). rewrite Ea'. by apply sublist_app.
        -- change (returned s1) with (returned s). apply Forall_app; split; [exact H3|by apply Forall_singleton].
    + injection E as <-. assert (Ea' : omap (inbound_conn p) (s.(arrived) ++ [f]) = omap (inbound_conn p) s.(arrived))
        by (rewrite Ea; cbn; rewrite Ef; apply app_nil_r).
      split; cbn [arrived returned refused ln_closed conns_closed]; [| |exact H3]; change (accepted s1) with (accepted s);
        change (refused s1) with (refused s); change (arrived s1) with (arrived s ++ [f]); by rewrite Ea'.
  - destruct (accept_ready s ln first) as [e|] eqn:Er; injection E as <-; [by eapply returns_error|]. by split.
  - destruct (waiting s !! i) as [ln|]; [|done]. cbn [mbind option_bind] in E.
    destruct (accept_ready s ln first) as [e|] eqn:Er; [|done]. injection E as <-. by eapply returns_error.
  - injection E as <-. split; [done|done|]. eapply Forall_impl; [exact H3|]. intros [k [e|c]]; cbn; [|done].
    intros [?|[? ?]]; [by left|right; set_solver].
  - injection E as <-. split; [done|done|]. eapply Forall_impl; [exact H3|]. intros [k [e|c]]; cbn; [|done].
    intros [[? ?]|?]; [by left|by right].
Qed.

Lemma lrun_inv es s s' : linv s -> lrun p es s = Some s' -> linv s'.
Proof.
  revert s. induction es as [|e es IH]; intros s Hs; cbn [lrun]; [by intros [= <-]|].
  destruct (lstep p e s) as [s1|] eqn:E; [|done]. cbn. apply IH. by eapply lstep_inv.
Qed.
End listeners.

(** C18. However the calls and frames interleave: every call of a remote station is
    either returned by exactly one [Accept], in the order in which they came, or
    refused; an [Accept] fails only because the port or its own listener is
    closed. *)
Theorem inbound_accounted p es s : lrun p es newListeners = Some s ->
  accepted s ++ s.(refused) ≡ₚ omap (inbound_conn p) s.(arrived) /\
  accepted s `sublist_of` omap (inbound_conn p) s.(arrived) /\
  (forall ln e, (ln, inl e) ∈ s.(returned) ->
     e = ErrPortClosed /\ s.(conns_closed) = true \/ e = ErrListenerClosed /\ ln ∈ s.(ln_closed)).
Proof.
  intros E. destruct (lrun_inv p es newListeners s ltac:(split; done) E) as [H1 H2 H3]. split_and!; [done|done|].
  intros ln e Hin. rewrite Forall_forall in H3. exact (H3 _ Hin).
Qed.

(** An [Accept] on a closed listener, or on a closed port, returns: it can always
    take its next step. *)
Theorem closed_accept_returns p s ln i : s.(waiting) !! i = Some ln -> ln ∈ s.(ln_closed) \/ s.(conns_closed) = true ->
  exists s' e, lstep p (AcceptWakes i true) s = Some s' /\ s'.(returned) = s.(returned) ++ [(ln, inl e)] /\
    length s'.(waiting) = Nat.pred (length s.(waiting)).
Proof.
  intros Hi Hc. cbn [lstep]. rewrite Hi. cbn [mbind option_bind].
  assert (exists e, accept_ready s ln true = Some e) as [e ->].
  { unfold accept_ready. destruct (conns_closed s), (bool_decide_reflect (ln ∈ ln_closed s)); try by eexists.
    destruct Hc; done. }
  cbn [mbind option_bind]. eexists _, e. split; [done|]. split; [done|]. cbn [waiting returns].
  pose proof (lookup_lt_Some _ _ _ Hi). rewrite length_app, length_take, length_drop. lia.
Qed.

Definition sample_port : port := mkPort 0 (str "LA5NTA") 7 false.
Definition sample_call (from : gostr) : agw_frame :=
  mkF (mkH 0 kindConnect 0 (callsignFromString from) (callsignFromString (str "LA5NTA")) 0) (str "*** CONNECTED To Station").

Definition sample_events : list levent :=
  [FrameArrives (sample_call (str "LA1B")) 0; AcceptCalled 1 true; FrameArrives (sample_call (str "LA2B")) 0; ListenerClosed 1; AcceptCalled 1 true].

Lemma inbound_accounted_witness :
  let r := lrun sample_port sample_events newListeners in
  (s ← r; Some (length (accepted s), length s.(refused))) = Some (1%nat, 1%nat) /\
  match r with Some s => accepted s ++ s.(refused) ≡ₚ omap (inbound_conn sample_port) s.(arrived) | None => False end.
Proof.
  assert (H : (s ← lrun sample_port sample_events newListeners; Some (length (accepted s), length s.(refused))) = Some (1%nat, 1%nat))
    by (vm_compute; reflexivity).
  cbv zeta. split; [exact H|]. destruct (lrun sample_port sample_events newListeners) as [s|] eqn:E; [|discriminate].
  exact (proj1 (inbound_accounted sample_port sample_events s E)).
Defined.

Lemma closed_accept_returns_witness : exists s' e,
  lstep sample_port (AcceptWakes 0 true) (mkL [] [3%nat] {[3%nat]} false [] []) = Some s' /\ s'.(returned) = [(3%nat, inl e)] /\
  length s'.(waiting) = 0%nat.
Proof. apply (closed_accept_returns sample_port (mkL [] [3%nat] {[3%nat]} false [] []) 3 0); [reflexivity|left; set_solver]. Defined.
