(* ===== verification/AgwpeDial.v ===== *)
(** Dialing through an AGWPE modem with a context that may be cancelled
    ([connect] in [src/transport/ax25/agwpe/conn.go]).

    Agwpe.v has the dial itself.  Here are the steps of its two goroutines: the one
    that waits for the modem's answer, and the one that watches the context and
    has the modem disconnect when it is cancelled first. *)
From S2P Require Import Prelude Crc GoStr Helpers Agwpe.
From stdpp Require Import list.
Open Scope Z_scope.

(** What [connect] returns. *)
Inductive outcome := Connected | PortGone | NotOurs | Cancelled | Refused (text : gostr).

Definition outcome_error (ctxErr : error) (o : outcome) : option error :=
  match o with
  | Connected => None
  | PortGone => Some ErrPortClosed
  | NotOurs => Some (New (str "connect precondition failed"))
  | Cancelled => Some ctxErr
  | Refused text => Some (New text)
  end.

(** [dl_done]: the channel that ends the watch has a value or is closed;
    [dl_gave_up]: the watch saw the context end. *)
Record dialing := mkDialing {
  dl_cancelled : bool; dl_out : list agw_frame; dl_result : option outcome;
  dl_watching : bool; dl_done : bool; dl_gave_up : bool }.

Inductive dial_event :=
| Cancels                         (* the context ends *)
| Answer (f : option agw_frame)   (* f, ok := <-ack *)
| WatchSeesContext                (* the cases of the watch *)
| WatchSeesDone.

Section dial.
Context (p : port) (c : aconn).

(** [Port.write] *)
Definition dl_write (f : agw_frame) (d : dialing) : res dialing :=
  if negb (f.(hdr).(Port) =? p.(p_port)) then Panic
  else Ok (mkDialing d.(dl_cancelled) (d.(dl_out) ++ [f]) d.(dl_result) d.(dl_watching) d.(dl_done) d.(dl_gave_up)).
Definition dl_return (o : outcome) (d : dialing) : dialing :=
  mkDialing d.(dl_cancelled) d.(dl_out) (Some o) d.(dl_watching) true d.(dl_gave_up).

Definition our_connect : agw_frame := connectFrame c.(c_srcCall) c.(c_dstCall) p.(p_port) c.(c_via).
Definition our_disconnect : agw_frame := disconnectFrame c.(c_srcCall) c.(c_dstCall) p.(p_port).

(** Up to the wait for the answer. *)
Definition dial_start (cancelled : bool) : res dialing :=
  dl_write our_connect (mkDialing cancelled [] None true false false).

(** After it; the kinds are those [NextFrame] was asked for. *)
Definition dial_answer (f : option agw_frame) (d : dialing) : res dialing :=
  match f with
  | None => Ok (dl_return PortGone d)
  | Some f =>
      if f.(hdr).(DataKind) =? kindConnect then
        if negb (HasPrefix f.(Data) (str "*** CONNECTED With ")) then d ← dl_write our_disconnect d; Ok (dl_return NotOurs d)
        else Ok (dl_return Connected d)
      else if f.(hdr).(DataKind) =? kindDisconnect then
        Ok (dl_return (if d.(dl_cancelled) then Cancelled else Refused (TrimSpace (strFromBytes f.(Data)))) d)
      else Panic
  end.

Definition unwatch (gave_up : bool) (d : dialing) : dialing :=
  mkDialing d.(dl_cancelled) d.(dl_out) d.(dl_result) false d.(dl_done) gave_up.

(** One step; the value is [None] when it cannot happen. *)
Definition dial_step (e : dial_event) (d : dialing) : res (option dialing) :=
  match e with
  | Cancels => Ok (Some (mkDialing true d.(dl_out) d.(dl_result) d.(dl_watching) d.(dl_done) d.(dl_gave_up)))
  | Answer f => match d.(dl_result) with Some _ => Ok None | None => d ← dial_answer f d; Ok (Some d) end
  | WatchSeesContext =>
      if d.(dl_watching) && d.(dl_cancelled) then d ← dl_write our_disconnect (unwatch true d); Ok (Some d) else Ok None
  | WatchSeesDone => if d.(dl_watching) && d.(dl_done) then Ok (Some (unwatch d.(dl_gave_up) d)) else Ok None
  end.

Fixpoint dial_run (es : list dial_event) (d : dialing) : res (option dialing) :=
  match es with
  | [] => Ok (Some d)
  | e :: es => d ← dial_step e d; match d with Some d => dial_run es d | None => Ok None end
  end.

Definition cancelled_dial (cancelled : bool) (es : list dial_event) : res (option dialing) :=
  d ← dial_start cancelled; dial_run es d.

(** ** What a dial sends and returns *)
Definition not_ours (d : dialing) : bool := match d.(dl_result) with Some NotOurs => true | _ => false end.

Record dlinv (d : dialing) : Prop := {
  dv_out : d.(dl_out) = our_connect :: replicate (Nat.b2n (not_ours d) + Nat.b2n d.(dl_gave_up)) our_disconnect;
  dv_watch : d.(dl_gave_up) = true -> d.(dl_watching) = false /\ d.(dl_cancelled) = true;
  dv_done : d.(dl_done) = true <-> is_Some d.(dl_result);
  dv_ended : d.(dl_watching) = false -> d.(dl_gave_up) = true \/ d.(dl_done) = true;
  dv_ctx : d.(dl_result) = Some Cancelled -> d.(dl_cancelled) = true }.

Lemma dl_write_ok f d d' : dl_write f d = Ok d' ->
  d' = mkDialing d.(dl_cancelled) (d.(dl_out) ++ [f]) d.(dl_result) d.(dl_watching) d.(dl_done) d.(dl_gave_up).
Proof. unfold dl_write. destruct (negb _); [done|]. by intros [= <-]. Qed.

Lemma one_more n (f : agw_frame) : replicate n f ++ [f] = replicate (S n) f.
Proof. by rewrite <- replicate_S_end. Qed.

Lemma dial_step_inv e d d' : dlinv d -> dial_step e d = Ok (Some d') -> dlinv d'.
Proof.
  intros [H1 H2 H3 H4 H5] E. destruct e as [|f| |]; cbn [dial_step] in E.
  - injection E as <-. split; unfold not_ours in *; cbn; [done|intros Hg; by destruct (H2 Hg)|done..].
  - destruct (dl_result d) eqn:Er; [done|]. assert (Hn : not_ours d = false) by (unfold not_ours; by rewrite Er). rewrite Hn in H1.
    destruct (dial_answer f d) as [d1| |] eqn:E1; cbn in E; [|done..]. injection E as <-.
    assert (G : forall o, o <> NotOurs -> (o = Cancelled -> dl_cancelled d = true) -> dlinv (dl_return o d)).
    { intros o Ho Hc. split; unfold not_ours; cbn; [|done|by split|by right|intros [= ->]; by apply Hc]. rewrite H1. by destruct o. }
    destruct f as [f|]; cbn [dial_answer] in E1; [|injection E1 as <-; by apply G].
    destruct (DataKind (hdr f) =? kindConnect); [destruct (negb _)|destruct (DataKind (hdr f) =? kindDisconnect); [|done]].
    + destruct (dl_write our_disconnect d) as [d2| |] eqn:E2; [|done..]. cbn in E1. injection E1 as <-. apply dl_write_ok in E2 as ->.
      split; unfold not_ours; cbn; [|done|by split|by right|done]. rewrite H1. cbn [app]. by rewrite one_more.
    + injection E1 as <-. by apply G.
    + injection E1 as <-. destruct (dl_cancelled d) eqn:Ec; by apply G.
  - destruct (dl_watching d) eqn:Ew, (dl_cancelled d) eqn:Ec; try done. cbn [andb] in E.
    assert (Hg : dl_gave_up d = false) by (destruct (dl_gave_up d); [by destruct (H2 eq_refl)|done]). rewrite Hg, Nat.add_0_r in H1.
    destruct (dl_write our_disconnect (unwatch true d)) as [d1| |] eqn:E1; [|done..]. cbn in E. injection E as <-.
    apply dl_write_ok in E1 as ->. split; unfold not_ours in *; cbn; [|done|done|by left|done].
    rewrite H1, Nat.add_1_r. cbn [app]. by rewrite one_more.
  - destruct (dl_watching d) eqn:Ew, (dl_done d) eqn:Ed; try done. cbn [andb] in E. injection E as <-.
    split; unfold not_ours in *; cbn; [done|intros Hg; by destruct (H2 Hg)|by rewrite Ed|by right|done].
Qed.

Lemma dial_run_inv es d d' : dlinv d -> dial_run es d = Ok (Some d') -> dlinv d'.
Proof.
  revert d. induction es as [|e es IH]; intros d Hd; cbn [dial_run]; [by intros [= <-]|].
  destruct (dial_step e d) as [[d1|]| |] eqn:E; try done. cbn. apply IH. by eapply dial_step_inv.
Qed.

Lemma dial_start_inv b d : dial_start b = Ok d -> dlinv d.
Proof. intros E%dl_write_ok. subst d. split; try done. cbn. split; [done|by intros [? [=]]]. Qed.

Lemma never_cancelled es d d' : (Cancels ∉ es) -> d.(dl_cancelled) = false -> dial_run es d = Ok (Some d') -> d'.(dl_cancelled) = false.
Proof.
  revert d. induction es as [|e es IH]; intros d Hn Hd; cbn [dial_run]; [by intros [= <-]|].
  apply not_elem_of_cons in Hn as [He Hn]. destruct (dial_step e d) as [[d1|]| |] eqn:E; try done. cbn. apply (IH _ Hn).
  destruct e as [|f| |]; cbn [dial_step] in E; [done|..]; rewrite ?Hd, ?andb_false_r in E; [|done|by destruct (_ && _); [injection E as <-|]].
  destruct (dl_result d); [done|]. destruct (dial_answer f d) as [d2| |] eqn:E2; cbn in E; [|done..]. injection E as <-.
  destruct f as [f|]; cbn [dial_answer] in E2; [|by injection E2 as <-].
  destruct (_ =? kindConnect); [destruct (negb _)|destruct (_ =? kindDisconnect); [by injection E2 as <-|done]]; [|by injection E2 as <-].
  destruct (dl_write our_disconnect d) as [d3| |] eqn:E3; [|done..]. injection E2 as <-. by apply dl_write_ok in E3 as ->.
Qed.
End dial.

(** C31. However the two goroutines and the end of the context interleave: a dial sends
    its connect frame first and then nothing but disconnect frames, one when the
    connection is not its own and one when the watch saw the context end; it
    fails with the error of the context only when that has ended; without a
    cancellation the watch sends nothing; and the watch can always end once the
    dial has returned. *)
Theorem dial_cancellation p c b es d : cancelled_dial p c b es = Ok (Some d) ->
  d.(dl_out) = our_connect p c :: replicate (Nat.b2n (not_ours d) + Nat.b2n d.(dl_gave_up)) (our_disconnect p c) /\
  (d.(dl_result) = Some Cancelled \/ d.(dl_gave_up) = true -> d.(dl_cancelled) = true) /\
  (b = false -> Cancels ∉ es -> d.(dl_gave_up) = false) /\
  (is_Some d.(dl_result) -> d.(dl_watching) = true -> dial_step p c WatchSeesDone d <> Ok None).
Proof.
  unfold cancelled_dial. destruct (dial_start p c b) as [d0| |] eqn:E0; [|done..]. cbn [mbind res_bind]. intros E.
  destruct (dial_run_inv p c es d0 d (dial_start_inv p c b d0 E0) E) as [H1 H2 H3 H4 H5].
  assert (Hc : b = false -> Cancels ∉ es -> d.(dl_gave_up) = false).
  { intros -> Hn. apply dl_write_ok in E0. assert (Hd : dl_cancelled d = false) by (eapply never_cancelled; [exact Hn| |exact E]; by rewrite E0).
    destruct (dl_gave_up d); [|done]. destruct (H2 eq_refl). congruence. }
  split_and!; [done|intros [Hr|Hg]; [by apply H5|by apply H2]|done|].
  intros Hr Hw. cbn [dial_step]. rewrite Hw. by rewrite (proj2 H3 Hr).
Qed.

Definition dial_port : port := mkPort 0 (str "LA5NTA") 7 false.
Definition dial_conn : aconn := newConn dial_port (str "LA1B") [].
Definition connected_frame : agw_frame :=
  mkF (mkH 0 kindConnect 0 (callsignFromString (str "LA1B")) (callsignFromString (str "LA5NTA")) 0) (str "*** CONNECTED With Station").

Lemma dial_cancellation_witness : exists d,
  cancelled_dial dial_port dial_conn false [Cancels; WatchSeesContext; Answer (Some (our_disconnect dial_port dial_conn))] = Ok (Some d) /\
  d.(dl_result) = Some Cancelled /\ d.(dl_out) = [our_connect dial_port dial_conn; our_disconnect dial_port dial_conn].
Proof.
  assert (H : exists d, cancelled_dial dial_port dial_conn false [Cancels; WatchSeesContext; Answer (Some (our_disconnect dial_port dial_conn))] = Ok (Some d) /\
    d.(dl_result) = Some Cancelled /\ d.(dl_gave_up) = true) by (eexists; split_and!; vm_compute; reflexivity).
  destruct H as (d & E & Er & Eg). exists d. split; [exact E|]. split; [exact Er|].
  destruct (dial_cancellation dial_port dial_conn false _ d E) as [H _]. unfold not_ours in H. rewrite Er, Eg in H. exact H.
Defined.

(** A context that ends after the connection was made: when the watch has not
    yet run, both its cases are ready, and it may disconnect the link although the
    dial succeeded.  Cancelling a context when the dial has returned is what [defer
    cancel()] does. *)
Example late_cancel_disconnects : exists d,
  cancelled_dial dial_port dial_conn false [Answer (Some connected_frame); Cancels; WatchSeesContext] = Ok (Some d) /\
  d.(dl_result) = Some Connected /\ d.(dl_out) = [our_connect dial_port dial_conn; our_disconnect dial_port dial_conn].
Proof. eexists. split_and!; vm_compute; reflexivity. Qed.

(** ** The dial of Agwpe.v *)
Lemma await_port want closed fuel w f w' : await_frame want closed fuel w = Ok (f, w') -> w'.(a_port).(p_port) = w.(a_port).(p_port).
Proof.
  revert w. induction fuel as [|fuel IH]; intros w; cbn [await_frame]; [done|]. destruct (closed w); [by intros [= _ <-]|].
  destruct (a_in w) as [|g rest]; [by intros [= _ <-]|]. destruct (want w g); [by intros [= _ <-]|]. intros E. by apply IH in E.
Qed.

Lemma port_write_run f w w' : port_write f w = Ok (tt, w') -> Port (hdr f) = p_port (a_port w) /\
  w' = mkAir w.(a_in) (w.(a_out) ++ [f]) w.(a_port) w.(a_conn).
Proof. unfold port_write, tnc_write. destruct (Z.eqb_spec (Port (hdr f)) (p_port (a_port w))); [|done]. by intros [= <-]. Qed.

(** When the context does not end the steps are those of [agw_connect]: it writes
    the same frames and returns the same. *)
Theorem sequential_dial w w1 w2 f d o ctxErr : let p := w.(a_port) in let c := w.(a_conn) in
  port_write (our_connect p c) w = Ok (tt, w1) -> conn_NextFrame [kindConnect; kindDisconnect] w1 = Ok (f, w2) ->
  cancelled_dial p c false [Answer f] = Ok (Some d) -> d.(dl_result) = Some o ->
  exists w3, agw_connect w = Ok (outcome_error ctxErr o, w3) /\ w3.(a_out) = w2.(a_out) ++ drop 1 d.(dl_out).
Proof.
  intros p c Ew En E Eo. assert (E' : agw_connect w = (match f with
    | None => mret (Some ErrPortClosed)
    | Some f =>
        if f.(hdr).(DataKind) =? kindConnect then
          if negb (HasPrefix f.(Data) (str "*** CONNECTED With ")) then
            port_write (our_disconnect p c);; mret (Some (New (str "connect precondition failed")))
          else mret None
        else if f.(hdr).(DataKind) =? kindDisconnect then mret (Some (New (TrimSpace (strFromBytes f.(Data)))))
        else fun _ => Panic
    end : radio (option error)) w2).
  { unfold agw_connect, mbind, radio_bind, the_port, the_conn, mret, res_ret. cbn [res_bind fst snd mbind].
    fold p c. change (connectFrame (c_srcCall c) (c_dstCall c) (p_port p) (c_via c)) with (our_connect p c).
    rewrite Ew. cbn [res_bind fst snd mbind]. rewrite En. cbn [res_bind fst snd mbind]. by destruct f as [f|]. }
  rewrite E'. clear E'. apply port_write_run in Ew as [Hp Ew]. apply await_port in En. rewrite Ew in En. cbn [a_port] in En.
  unfold cancelled_dial, dial_start, dl_write in E. fold p in Hp. rewrite Hp, Z.eqb_refl in E. cbn [negb mbind res_bind dial_run dial_step dl_result] in E.
  destruct f as [f|]; cbn [dial_answer] in E.
  2: { injection E as <-. injection Eo as <-. eexists. split; [done|]. cbn. by rewrite app_nil_r. }
  destruct (DataKind (hdr f) =? kindConnect) eqn:Ek; [destruct (negb _) eqn:Eh|destruct (DataKind (hdr f) =? kindDisconnect) eqn:Ed; [|done]].
  - unfold dl_write in E. destruct (negb (Port (hdr (our_disconnect p c)) =? p_port p)) eqn:Eq; [done|]. cbn in E. injection E as <-. injection Eo as <-.
    unfold port_write, tnc_write, mbind, radio_bind. fold p in En. rewrite En, Eq. cbn. eexists. split; [done|]. done.
  - injection E as <-. injection Eo as <-. eexists. split; [done|]. cbn. by rewrite app_nil_r.
  - injection E as <-. injection Eo as <-. eexists. split; [done|]. cbn. by rewrite app_nil_r.
Qed.
