(* ===== verification/Dialers.v ===== *)
(** The dialers of the radio modems: [DialURL] of packages ardop
    ([src/transport/ardop/dial.go]) and agwpe ([src/transport/ax25/agwpe/port.go])
    on the URLs of package transport. *)
From S2P Require Import Prelude Crc GoStr Helpers Bufio Agwpe FileSys Transport ArdopFrame ArdopTNC.
From stdpp Require Import gmap.
Open Scope Z_scope.

(** The connection made, by its number, or an error. *)
Definition ardop_DialURL `{Fmt} (url : URL) : host (error + nat) :=
  if negb (bool_decide (url.(Scheme) = str "ardop")) then mret (inl ErrUnsupportedScheme)
  else
    let bwStr := values_Get url.(url_Params) (str "bw") in
    if bool_decide (bwStr = []) then Dial url.(Target)
    else match BandwidthFromString bwStr with
         | inl e => mret (inl e)
         | inr bw => DialBandwidth url.(Target) bw
         end.

(** The error of the dial; the connection is the one of the port. *)
Definition agw_DialURLContext (url : URL) : Agwpe.radio (option error) :=
  if negb (bool_decide (url.(Scheme) = str "ax25") || bool_decide (url.(Scheme) = str "ax25+agwpe")
           || bool_decide (url.(Scheme) = str "agwpe+ax25"))
  then mret (Some (New (str "unsupported scheme '" ++ url.(Scheme) ++ str "'")))
  else Agwpe.DialContext url.(Target) url.(Digis).

(** An URL of another scheme is refused before anything is sent. *)
Theorem wrong_scheme_refused `{Fmt} url w a :
  url.(Scheme) <> str "ardop" -> url.(Scheme) <> str "ax25" -> url.(Scheme) <> str "ax25+agwpe" -> url.(Scheme) <> str "agwpe+ax25" ->
  ardop_DialURL url w = Ok (inl ErrUnsupportedScheme, w) /\
  agw_DialURLContext url a = Ok (Some (New (str "unsupported scheme '" ++ url.(Scheme) ++ str "'")), a).
Proof.
  intros H1 H2 H3 H4. unfold ardop_DialURL, agw_DialURLContext. 
  rewrite (bool_decide_false _ H1), (bool_decide_false _ H2), (bool_decide_false _ H3), (bool_decide_false _ H4). split; reflexivity.
Qed.
