(* ===== verification/ArdopDial.v ===== *)
(** Dialing through an ARDOP modem with a context that may be cancelled
    ([DialURLContext] in [src/transport/ardop/dial.go]).

    The dial runs in a goroutine of its own, while the caller waits for its end or
    that of the context, and has the modem disconnect in the second case. Both
    wait for messages of the modem meanwhile. Here a dial is a machine that is
    given one message at a time; run alone it is the [ardop_DialURL] of
    Dialers.v. *)
From S2P Require Import Prelude Crc GoStr Helpers Bufio FileSys Transport ArdopFrame ArdopWire ArdopTNC ArdopSafety ArdopConn Dialers.
From stdpp Require Import gmap.
#[local] Open Scope Z_scope.

(** ** The goroutine that dials *)

(** The loops over messages it may be in; [undo] is what [defers] would set back. *)
Inductive wait_for :=
| AskBw (bw : Bandwidth)                        (* tnc.ARQBandwidth() *)
| SetBw (currentBw : Bandwidth)                 (* tnc.SetARQBandwidth(bw) *)
| Calling (undo : list Bandwidth)               (* tnc.arqCall(targetcall, 10) *)
| AskMycall (undo : list Bandwidth)             (* tnc.MyCall() *)
| Undoing (undo : list Bandwidth) (e : error).  (* fn(), and the others after it *)

Inductive dialer := Waits (p : wait_for) | Dialed (r : error + nat).

(** What the loops do with a message, or with the end of the messages. *)
Definition get_reply (c : gostr) (o : option ctrlMsg) : host (option (error + value)) :=
  match o with
  | None => mret (Some (inl ErrTNCClosed))
  | Some m => if streq m.(cmd) c then mret (Some (inr m.(val)))
              else if streq m.(cmd) cmdFault then s ← pure (msg_String m); mret (Some (inl (New s)))
              else mret None
  end.

Definition set_reply (c : gostr) (o : option ctrlMsg) : host (option (option error)) :=
  match o with
  | None => mret (Some (Some ErrTNCClosed))
  | Some m => if streq m.(cmd) c then mret (Some None)
              else if streq m.(cmd) cmdFault then s ← pure (msg_String m); mret (Some (Some (New s)))
              else mret None
  end.

Definition call_reply `{Fmt} (o : option ctrlMsg) : host (option (option error)) :=
  match o with
  | None => mret (Some (Some ErrTNCClosed))
  | Some m =>
      if streq m.(cmd) cmdFault then s ← pure (msg_String m); mret (Some (Some (New (Sprintf s))))
      else if streq m.(cmd) cmdNewState then
        t ← tnc; if bool_decide (t.(t_state) = Disconnected) then mret (Some (Some ErrConnectTimeout)) else mret None
      else if streq m.(cmd) cmdConnected then on_tnc (fun t => Ok (set_connected true t));; mret (Some None)
      else mret None
  end.

(** [getString] forgets the error. *)
Definition string_reply (c : gostr) (r : error + value) : host gostr :=
  match r with inl _ => mret [] | inr v => pure (msg_String (mkMsg c v)) end.

(** Up to the next loop. *)
Definition request (line : gostr) (if_closed : host dialer) (next : wait_for) : host dialer :=
  t ← tnc;
  if t.(t_closed) : bool then if_closed else Listen;; send line;; mret (Waits next).

Section dial.
Context `{Fmt} (targetcall : gostr).

Definition dl_connected (undo : list Bandwidth) (mycall : gostr) : host dialer :=
  t ← tnc;
  set_tnc (new_conn targetcall mycall undo t);;
  mret (Dialed (inr (length t.(t_conns)))).

Fixpoint dl_undo (undo : list Bandwidth) (e : error) : host dialer :=
  match undo with
  | [] => mret (Dialed (inl e))
  | bw :: undo => request (cmdARQBW ++ str " " ++ bw_String bw) (dl_undo undo e) (Undoing undo e)
  end.

Definition dl_mycall (undo : list Bandwidth) : host dialer := request cmdMyCall (dl_connected undo []) (AskMycall undo).

Definition dl_call (undo : list Bandwidth) : host dialer :=
  t ← tnc;
  if negb (tnc_Idle t) then dl_undo undo ErrConnectInProgress
  else Listen;; send (cmdARQCall ++ str " " ++ targetcall ++ str " " ++ itoa 10);; mret (Waits (Calling undo)).

Definition dl_set_bw (bw : Bandwidth) (s : gostr) : host dialer :=
  match BandwidthFromString s with
  | inl e => mret (Dialed (inl (Wrap (str "invalid ARQBW response: ") e)))
  | inr currentBw => request (cmdARQBW ++ str " " ++ bw_String bw) (mret (Dialed (inl ErrTNCClosed))) (SetBw currentBw)
  end.

Definition dl_bandwidth (bw : Bandwidth) : host dialer :=
  t ← tnc;
  if t.(t_closed) : bool then mret (Dialed (inl ErrTNCClosed))
  else if bw_IsZero bw then dl_call []
  else request cmdARQBW (dl_set_bw bw []) (AskBw bw).

(** A message in the loop it is in. *)
Definition on_msg (o : option ctrlMsg) (p : wait_for) : host dialer :=
  match p with
  | AskBw bw =>
      r ← get_reply cmdARQBW o;
      match r with None => mret (Waits p) | Some r => s ← string_reply cmdARQBW r; dl_set_bw bw s end
  | SetBw currentBw =>
      r ← set_reply cmdARQBW o;
      match r with
      | None => mret (Waits p)
      | Some (Some e) => mret (Dialed (inl e))
      | Some None => dl_call [currentBw]
      end
  | Calling undo =>
      r ← call_reply o;
      match r with
      | None => mret (Waits p)
      | Some (Some e) => dl_undo undo e
      | Some None => dl_mycall undo
      end
  | AskMycall undo =>
      r ← get_reply cmdMyCall o;
      match r with None => mret (Waits p) | Some r => s ← string_reply cmdMyCall r; dl_connected undo s end
  | Undoing undo e =>
      r ← set_reply cmdARQBW o;
      match r with None => mret (Waits p) | Some _ => dl_undo undo e end
  end.
End dial.

Definition dl_url `{Fmt} (url : URL) : host dialer :=
  if negb (bool_decide (url.(Scheme) = str "ardop")) then mret (Dialed (inl ErrUnsupportedScheme))
  else
    let bwStr := values_Get url.(url_Params) (str "bw") in
    if bool_decide (bwStr = []) then dl_bandwidth url.(Target) (mkBW false 0)
    else match BandwidthFromString bwStr with
         | inl e => mret (Dialed (inl e))
         | inr bw => dl_bandwidth url.(Target) bw
         end.

(** ** Alone it is the dial *)

(** Operations with the same outcome. *)
Definition same {A} (m1 m2 : host A) : Prop := forall w, m1 w = m2 w.
Infix "≡ₕ" := same (at level 70).

#[global] Instance same_equivalence {A} : Equivalence (@same A).
Proof. split; [by intros m w|by intros m1 m2 E w|intros m1 m2 m3 E1 E2 w; by rewrite E1]. Qed.

#[global] Instance same_bind {A B} : Proper (pointwise_relation A (@same B) ==> same ==> same) (mbind (M := host)).
Proof. intros k1 k2 Ek m1 m2 Em w. rewrite !bind_run, Em. destruct (m2 w) as [[a w']| |]; [apply Ek|done..]. Qed.

Lemma same_under {A B} (m : host A) (k1 k2 : A -> host B) : (forall a, k1 a ≡ₕ k2 a) -> (m ≫= k1) ≡ₕ (m ≫= k2).
Proof. intros Ek. by apply same_bind. Qed.

Lemma same_assoc {A B C} (m : host A) (k : A -> host B) (l : B -> host C) : (m ≫= k) ≫= l ≡ₕ (m ≫= fun a => k a ≫= l).
Proof. intros w. rewrite !bind_run. destruct (m w) as [[a w']| |]; [|done..]. by rewrite bind_run. Qed.

Lemma same_ret {A B} (a : A) (k : A -> host B) : mret a ≫= k ≡ₕ k a.
Proof. done. Qed.

Lemma same_if {A B} (b : bool) (m1 m2 : host A) (k : A -> host B) : (if b then m1 else m2) ≫= k = if b then m1 ≫= k else m2 ≫= k.
Proof. by destruct b. Qed.

(** The first operation of both sides, when it is the same. *)
Ltac assoc :=
  match goal with |- (_ ≫= _) ≫= _ ≡ₕ _ => etransitivity; [apply same_assoc|] | _ => idtac end;
  match goal with |- _ ≡ₕ (_ ≫= _) ≫= _ => symmetry; etransitivity; [apply same_assoc|]; symmetry | _ => idtac end.

(** The message a round brings is taken from the frames to come. *)
Definition taken (w : world) {A} (o : option A) (w' : world) : Prop :=
  match o with None => w'.(w_in) = [] | Some _ => (length w'.(w_in) < length w.(w_in))%nat end.

Lemma round_shrinks w o w' : round w = Ok (o, w') -> taken w o w'.
Proof.
  unfold round. destruct (t_closed (w_tnc w)); [by intros [= <- <-]|]. destruct (w_in w) as [|[e|f] rest] eqn:Ew; [|destruct e|];
    first [destruct (close (w_tnc w)) as [t| |]; [|done..]; rewrite bind_Ok; by intros [= <- <-]
          |destruct (handle _ f _) as [[t o']| |]; [|done..]; rewrite bind_Ok; intros [= <- <-]; cbn; rewrite Ew; cbn; lia
          |intros [= <- <-]; cbn; rewrite Ew; cbn; lia].
Qed.

Lemma recv_fuel_shrinks n w o w' : recv_fuel n w = Ok (o, w') -> taken w o w'.
Proof.
  revert w. induction n as [|n IH]; intros w; cbn [recv_fuel]; [done|]. rewrite bind_run.
  destruct (round w) as [[o1 w1]| |] eqn:E; [|done..]. apply round_shrinks in E.
  destruct o1 as [[m|]|]; [by intros [= <- <-]| |by intros [= <- <-]].
  intros Er%IH. unfold taken in *. destruct o; [lia|done].
Qed.

Lemma recv_shrinks w o w' : recv w = Ok (o, w') -> taken w o w'.
Proof. apply recv_fuel_shrinks. Qed.

(** An operation that leaves something of the world as it is. *)
Definition same_on {X A} (f : world -> X) (m : host A) : Prop := forall w a w', m w = Ok (a, w') -> f w' = f w.

(** A loop over messages, unrolled once; its body takes no messages itself. *)
Definition still {A} (m : host A) : Prop := same_on w_in m.

Lemma range_msgs_fuel {A} (body : ctrlMsg -> host (option A)) closed n n' w : (forall m, still (body m)) ->
  (length w.(w_in) < n)%nat -> (length w.(w_in) < n')%nat -> range_msgs n body closed w = range_msgs n' body closed w.
Proof.
  intros Hb. revert n' w. induction n as [|n IH]; intros n' w Hn Hn'; [lia|]. destruct n' as [|n']; [lia|].
  cbn [range_msgs]. rewrite !bind_run. destruct (recv w) as [[o w1]| |] eqn:E; [|done..]. apply recv_shrinks in E.
  destruct o as [m|]; [|done]. unfold taken in E. rewrite !bind_run. destruct (body m w1) as [[r w2]| |] eqn:Eb; [|done..].
  destruct r; [done|]. apply Hb in Eb. apply IH; rewrite Eb; lia.
Qed.

Lemma msgs_step {A} (answer : option ctrlMsg -> host (option A)) closed :
  (forall o, still (answer o)) -> answer None ≡ₕ mret (Some closed) ->
  msgs (fun m => answer (Some m)) closed
  ≡ₕ (o ← recv; r ← answer o; match r with Some a => mret a | None => msgs (fun m => answer (Some m)) closed end).
Proof.
  intros Hs Hc w. unfold msgs at 1, rounds. cbn [range_msgs]. rewrite !bind_run.
  destruct (recv w) as [[o w1]| |] eqn:E; [|done..]. apply recv_shrinks in E. destruct o as [m|]; rewrite !bind_run; [|by rewrite (Hc w1)].
  destruct (answer (Some m) w1) as [[r w2]| |] eqn:Ea; [|done..]. destruct r; [done|]. apply Hs in Ea. unfold taken in E.
  unfold msgs, rounds. apply range_msgs_fuel; [intros; apply Hs|rewrite Ea; lia|lia].
Qed.

Create HintDb same_on.

Section same_on.
Context {X : Type} (f : world -> X).

Lemma same_on_ret {A} (a : A) : same_on f (mret a).
Proof. by intros w a' w' [= <- <-]. Qed.
Lemma same_on_pure {A} (r : res A) : same_on f (pure r).
Proof. intros w a w'. unfold pure. destruct r; [|done..]. rewrite bind_Ok. by intros [= <- <-]. Qed.
Lemma same_on_tnc : same_on f tnc.
Proof. by intros w t w' [= <- <-]. Qed.
Lemma same_on_bind {A B} (m : host A) (k : A -> host B) : same_on f m -> (forall a, same_on f (k a)) -> same_on f (m ≫= k).
Proof.
  intros Hm Hk w b w'. rewrite bind_run. destruct (m w) as [[a w1]| |] eqn:E; [|done..]. intros Ek%Hk.
  apply Hm in E. congruence.
Qed.
Lemma same_on_Listen : same_on f Listen.
Proof. intros w [] w'. unfold Listen. destruct (t_closed _); [done|]. by intros [= <-]. Qed.
#[local] Hint Resolve same_on_ret same_on_pure same_on_tnc same_on_Listen : same_on.
#[local] Ltac same_on := repeat first [solve [eauto with same_on] | apply same_on_bind; intros
  | match goal with |- same_on _ (if ?b then _ else _) => destruct b | |- same_on _ (match ?x with _ => _ end) => destruct x end ].

Lemma same_on_get c o : same_on f (get_reply c o).
Proof. destruct o; cbn [get_reply]; same_on. Qed.
Lemma same_on_set c o : same_on f (set_reply c o).
Proof. destruct o; cbn [set_reply]; same_on. Qed.
Lemma same_on_reply c r : same_on f (string_reply c r).
Proof. destruct r; cbn [string_reply]; same_on. Qed.
#[local] Hint Resolve same_on_get same_on_set same_on_reply : same_on.

(** What neither the driver nor the commands of a dial change. *)
Context (Htnc : forall t, same_on f (set_tnc t)) (Hsend : forall s, s <> cmdDisconnect -> same_on f (send s)).
#[local] Set Default Proof Using "All".
#[local] Hint Resolve Htnc : same_on.

Lemma same_on_call `{Fmt} o : same_on f (call_reply o).
Proof. destruct o; cbn [call_reply]; unfold on_tnc; same_on. Qed.
Lemma same_on_request line m p : line <> cmdDisconnect -> same_on f m -> same_on f (request line m p).
Proof. intros Hl Hm. unfold request. same_on. Qed.
Lemma same_on_undo undo e : same_on f (dl_undo undo e).
Proof. induction undo as [|bw undo IH]; cbn [dl_undo]; [same_on|by apply same_on_request]. Qed.
Lemma same_on_connected t undo mycall : same_on f (dl_connected t undo mycall).
Proof. unfold dl_connected. same_on. Qed.
#[local] Hint Resolve same_on_call same_on_undo same_on_connected : same_on.
Lemma same_on_dl_call `{Fmt} t undo : same_on f (dl_call t undo).
Proof. unfold dl_call. same_on. Qed.
Lemma same_on_set_bw bw s : same_on f (dl_set_bw bw s).
Proof. unfold dl_set_bw. destruct (BandwidthFromString s); [same_on|]. apply same_on_request; [done|same_on]. Qed.
Lemma same_on_mycall t undo : same_on f (dl_mycall t undo).
Proof. unfold dl_mycall. apply same_on_request; [done|same_on]. Qed.
#[local] Hint Resolve same_on_dl_call same_on_set_bw same_on_mycall : same_on.

Lemma same_on_on_msg `{Fmt} t o p : same_on f (on_msg t o p).
Proof. destruct p; cbn [on_msg]; same_on. Qed.
Lemma same_on_url `{Fmt} url : same_on f (dl_url url).
Proof. unfold dl_url, dl_bandwidth. same_on; apply same_on_request; by auto with same_on. Qed.
End same_on.

Lemma still_send s : still (send s).
Proof. intros w [] w'. unfold send. destruct (t_closed _); [done|]. by intros [= <-]. Qed.
Lemma still_set_tnc t : still (set_tnc t).
Proof. by intros w [] w' [= <-]. Qed.
Lemma still_call `{Fmt} o : still (call_reply o).
Proof. apply same_on_call; [apply still_set_tnc|intros s _; apply still_send]. Qed.
Lemma still_on_msg `{Fmt} t o p : still (on_msg t o p).
Proof. apply same_on_on_msg; [apply still_set_tnc|intros s _; apply still_send]. Qed.

(** What is left of the dial where the goroutine is, in terms of the operations
    of ArdopTNC.v. *)
Section meaning.
Context `{Fmt} (targetcall : gostr).

Definition get_loop (c : gostr) : host (error + value) := msgs (fun m => get_reply c (Some m)) (inl ErrTNCClosed).
Definition set_loop (c : gostr) : host (option error) := msgs (fun m => set_reply c (Some m)) (Some ErrTNCClosed).
Definition call_loop : host (option error) := msgs (fun m => call_reply (Some m)) (Some ErrTNCClosed).

Definition left_known (undo : list Bandwidth) (mycall : gostr) : host (error + nat) :=
  t ← tnc; set_tnc (new_conn targetcall mycall undo t);; mret (inr (length t.(t_conns))).
Definition left_undo (undo : list Bandwidth) (e : error) : host (error + nat) := run_defers undo;; mret (inl e).
Definition left_called (undo : list Bandwidth) (e : option error) : host (error + nat) :=
  match e with
  | Some e => left_undo undo e
  | None =>
      r ← MyCall;
      match r with
      | inl e => left_undo undo (Errorf "Error when getting mycall: " e)
      | inr mycall => left_known undo mycall
      end
  end.
Definition left_set (undo : list Bandwidth) (e : option error) : host (error + nat) :=
  match e with Some e => mret (inl e) | None => e ← arqCall targetcall 10; left_called undo e end.
Definition left_bw (bw : Bandwidth) (s : gostr) : host (error + nat) :=
  match BandwidthFromString s with
  | inl e => mret (inl (Wrap (str "invalid ARQBW response: ") e))
  | inr currentBw => e ← SetARQBandwidth bw; left_set [currentBw] e
  end.

Definition resume (p : wait_for) : host (error + nat) :=
  match p with
  | AskBw bw => r ← get_loop cmdARQBW; s ← string_reply cmdARQBW r; left_bw bw s
  | SetBw currentBw => e ← set_loop cmdARQBW; left_set [currentBw] e
  | Calling undo => e ← call_loop; left_called undo e
  | AskMycall undo => r ← get_loop cmdMyCall; s ← string_reply cmdMyCall r; left_known undo s
  | Undoing undo e => _ ← set_loop cmdARQBW; left_undo undo e
  end.
Definition meaning (d : dialer) : host (error + nat) := match d with Waits p => resume p | Dialed r => mret r end.

(** A request is the first half of an operation. *)
Lemma request_set line closed next c p k : line = match p with Some p => c ++ str " " ++ p | None => c end ->
  closed ≫= meaning ≡ₕ k (Some ErrTNCClosed) -> resume next ≡ₕ (set_loop c ≫= k) ->
  request line closed next ≫= meaning ≡ₕ (tnc_set c p ≫= k).
Proof.
  intros -> Hc Hn. unfold request, tnc_set. assoc. apply same_under. intros t. rewrite !same_if.
  destruct (t_closed t); [by rewrite Hc|]. assoc. apply same_under. intros []. assoc.
  apply same_under. intros []. by rewrite same_ret.
Qed.

Lemma request_get c closed next k : closed ≫= meaning ≡ₕ k (inl ErrTNCClosed) -> resume next ≡ₕ (get_loop c ≫= k) ->
  request c closed next ≫= meaning ≡ₕ (tnc_get c ≫= k).
Proof.
  intros Hc Hn. unfold request, tnc_get. assoc. apply same_under. intros t. rewrite !same_if.
  destruct (t_closed t); [by rewrite Hc|]. assoc. apply same_under. intros []. assoc.
  apply same_under. intros []. by rewrite same_ret.
Qed.

Lemma getString_reply {A} c (k : error + gostr -> host A) : getString c ≫= k ≡ₕ (r ← tnc_get c; s ← string_reply c r; k (inr s)).
Proof.
  unfold getString. assoc. apply same_under. intros [e|v]; cbn [string_reply]; [done|].
  assoc. apply same_under. intros s. by rewrite same_ret.
Qed.

Lemma undo_meaning undo e : dl_undo undo e ≫= meaning ≡ₕ left_undo undo e.
Proof.
  unfold left_undo. induction undo as [|bw undo IH]; cbn [dl_undo run_defers]; [by rewrite !same_ret|].
  unfold SetARQBandwidth. assoc. by apply request_set.
Qed.

Lemma known_meaning undo mycall : dl_connected targetcall undo mycall ≫= meaning ≡ₕ left_known undo mycall.
Proof.
  unfold dl_connected, left_known. assoc. apply same_under. intros t.
  assoc. apply same_under. intros []. by rewrite same_ret.
Qed.

Lemma called_meaning undo e :
  (match e with Some e => dl_undo undo e | None => dl_mycall targetcall undo end) ≫= meaning ≡ₕ left_called undo e.
Proof.
  destruct e as [e|]; cbn [left_called]; [apply undo_meaning|]. unfold dl_mycall, MyCall. rewrite getString_reply.
  apply request_get; [|done]. rewrite known_meaning. cbn [string_reply]. by rewrite same_ret.
Qed.

Lemma call_meaning undo : dl_call targetcall undo ≫= meaning ≡ₕ (e ← arqCall targetcall 10; left_called undo e).
Proof.
  unfold dl_call, arqCall. assoc. apply same_under. intros t. rewrite !same_if.
  destruct (negb (tnc_Idle t)); [rewrite undo_meaning; by rewrite same_ret|].
  assoc. apply same_under. intros []. assoc. apply same_under. intros [].
  by rewrite same_ret.
Qed.

Lemma bw_meaning bw s : dl_set_bw bw s ≫= meaning ≡ₕ left_bw bw s.
Proof.
  unfold dl_set_bw, left_bw. destruct (BandwidthFromString s) as [|cur]; [by rewrite same_ret|].
  unfold SetARQBandwidth. by apply (request_set _ _ _ cmdARQBW (Some (bw_String bw)) (left_set [cur])).
Qed.

(** The machine does the dial, wherever it is. *)
Lemma answer_step {A} (answer : option ctrlMsg -> host (option A)) closed (next : A -> host dialer) (k : A -> host (error + nat)) p :
  (forall o, still (answer o)) -> answer None ≡ₕ mret (Some closed) -> (forall a, next a ≫= meaning ≡ₕ k a) ->
  (msgs (fun m => answer (Some m)) closed ≫= k) ≡ₕ resume p ->
  resume p ≡ₕ (o ← recv; d ← (r ← answer o; match r with None => mret (Waits p) | Some a => next a end); meaning d).
Proof.
  intros Hs Hc Hn Hp. rewrite <- Hp at 1. rewrite (msgs_step answer closed Hs Hc), same_assoc. apply same_under. intros o.
  assoc. apply same_under. intros [a|]; [by rewrite Hn, same_ret|]. rewrite same_ret. exact Hp.
Qed.

Lemma resume_step p : resume p ≡ₕ (o ← recv; d ← on_msg targetcall o p; meaning d).
Proof.
  destruct p as [bw|cur|undo|undo|undo e].
  - apply (answer_step (get_reply cmdARQBW) (inl ErrTNCClosed) (fun r => s ← string_reply cmdARQBW r; dl_set_bw bw s)
             (fun r => s ← string_reply cmdARQBW r; left_bw bw s)); [apply same_on_get|done| |done].
    intros r. assoc. apply same_under. intros s. apply bw_meaning.
  - etransitivity; [apply (answer_step (set_reply cmdARQBW) (Some ErrTNCClosed)
             (fun e => match e with Some e => mret (Dialed (inl e)) | None => dl_call targetcall [cur] end)
             (left_set [cur])); [apply same_on_set|done| |done]|].
    + intros [e|]; [by rewrite same_ret|]. apply call_meaning.
    + apply same_under. intros o. apply same_bind; [done|]. apply same_under. by intros [[e|]|].
  - etransitivity; [apply (answer_step call_reply (Some ErrTNCClosed)
             (fun e => match e with Some e => dl_undo undo e | None => dl_mycall targetcall undo end)
             (left_called undo)); [apply still_call|done|apply called_meaning|done]|].
    apply same_under. intros o. apply same_bind; [done|]. apply same_under. by intros [[e|]|].
  - apply (answer_step (get_reply cmdMyCall) (inl ErrTNCClosed) (fun r => s ← string_reply cmdMyCall r; dl_connected targetcall undo s)
             (fun r => s ← string_reply cmdMyCall r; left_known undo s)); [apply same_on_get|done| |done].
    intros r. assoc. apply same_under. intros s. apply known_meaning.
  - apply (answer_step (set_reply cmdARQBW) (Some ErrTNCClosed) (fun _ => dl_undo undo e) (fun _ => left_undo undo e));
      [apply same_on_set|done|intros; apply undo_meaning|done].
Qed.
End meaning.

(** ** The caller *)

(** In its select; in [Disconnect], waiting for messages or for ever to be
    registered; returned. *)
Inductive caller := Selecting | Hanging | Blocked | Returned (r : error + nat).

(** [None] while the goroutine has not begun. *)
Record context_dial := mkContextDial { g_world : world; g_dial : option dialer; g_caller : caller; g_ctx : bool }.

Inductive context_event :=
| Begins                    (* the goroutine *)
| Cancels                   (* the context ends *)
| Frame (dial_first : bool) (* a round of the control loop, and who gets the message first *)
| SeesDone                  (* the cases of the select *)
| SeesContext.

Section cancel.
Context `{Fmt} (ctxErr : error) (url : URL).

(** [tnc.Disconnect(); return nil, ctx.Err()], up to the loop over messages; the
    broadcaster of a closed TNC registers nobody. *)
Definition hang_up : host caller :=
  t ← tnc;
  if tnc_Idle t : bool then mret (Returned (inl ctxErr))
  else
    on_tnc eof;;
    if t.(t_closed) : bool then mret Blocked else Listen;; send cmdDisconnect;; mret Hanging.

Definition hanging (o : option ctrlMsg) : host caller :=
  match o with
  | None => mret (Returned (inl ctxErr))
  | Some m => if streq m.(cmd) cmdDisconnected then mret (Returned (inl ctxErr))
              else t ← tnc; mret (if tnc_Idle t : bool then Returned (inl ctxErr) else Hanging)
  end.

Definition tell_dial (o : option ctrlMsg) (d : option dialer) : host (option dialer) :=
  match d with Some (Waits p) => d ← on_msg url.(Target) o p; mret (Some d) | _ => mret d end.
Definition tell_caller (o : option ctrlMsg) (c : caller) : host caller :=
  match c with Hanging => hanging o | _ => mret c end.

Definition tell (dial_first : bool) (o : option ctrlMsg) (d : option dialer) (c : caller) : host (option dialer * caller) :=
  if dial_first then d ← tell_dial o d; c ← tell_caller o c; mret (d, c)
  else c ← tell_caller o c; d ← tell_dial o d; mret (d, c).

(** A frame without a message is handled and that is all. *)
Definition one_frame (dial_first : bool) (d : option dialer) (c : caller) : host (option dialer * caller) :=
  o ← round;
  match o with
  | None => tell dial_first None d c
  | Some None => mret (d, c)
  | Some (Some m) => tell dial_first (Some m) d c
  end.

(** One step; the value is [None] when it cannot happen. *)
Definition go_step (e : context_event) (g : context_dial) : res (option context_dial) :=
  let '(mkContextDial w d c ctx) := g in
  match e, d, c with
  | Begins, None, _ => r ← dl_url url w; mret (Some (mkContextDial r.2 (Some r.1) c ctx))
  | Cancels, _, _ => mret (Some (mkContextDial w d c true))
  | Frame first, _, _ => r ← one_frame first d c w; mret (Some (mkContextDial r.2 r.1.1 r.1.2 ctx))
  | SeesDone, Some (Dialed r), Selecting => mret (Some (mkContextDial w d (Returned r) ctx))
  | SeesContext, _, Selecting => if ctx then r ← hang_up w; mret (Some (mkContextDial r.2 d r.1 ctx)) else mret None
  | _, _, _ => mret None
  end.

Fixpoint go_run (es : list context_event) (g : context_dial) : res (option context_dial) :=
  match es with
  | [] => mret (Some g)
  | e :: es => g ← go_step e g; match g with Some g => go_run es g | None => mret None end
  end.

(** [DialURLContext], when it has started its goroutine. *)
Definition ardop_DialURLContext (w : world) : context_dial := mkContextDial w None Selecting false.

Lemma go_run_app es es' g g1 : go_run es g = Ok (Some g1) -> go_run (es ++ es') g = go_run es' g1.
Proof.
  revert g. induction es as [|e es IH]; intros g; [by intros [= <-]|]. cbn [go_run app].
  destruct (go_step e g) as [[g2|]| |]; [|done..]. rewrite !bind_Ok. apply IH.
Qed.

(** *** Without a cancellation *)

(** The rounds of one message. *)
Lemma recv_frames n p c ctx w o w1 : recv_fuel n w = Ok (o, w1) -> exists k w0,
  go_run (replicate k (Frame true)) (mkContextDial w (Some (Waits p)) c ctx) = Ok (Some (mkContextDial w0 (Some (Waits p)) c ctx)) /\
  round w0 = Ok (Some <$> o, w1).
Proof.
  revert w. induction n as [|n IH]; intros w; cbn [recv_fuel]; [done|]. rewrite bind_run.
  destruct (round w) as [[o1 w2]| |] eqn:E; [|done..].
  destruct o1 as [[m|]|]; [intros [= <- <-]; by exists O, w| |intros [= <- <-]; by exists O, w].
  intros (k & w0 & Er & E0)%IH. exists (S k), w0. split; [|exact E0]. cbn [replicate go_run go_step]. unfold one_frame.
  rewrite bind_run, E. exact Er.
Qed.

Lemma round_closed w w' : round w = Ok (None, w') -> w'.(w_tnc).(t_closed) = true.
Proof.
  unfold round. assert (Hx : forall t, close (w_tnc w) = Ok t -> t.(t_closed) = true).
  { unfold close. intros t. destruct (t_closed (w_tnc w)) eqn:Ec; [by intros [= <-]|]. intros Et. by apply eof_closed in Et. }
  destruct (t_closed (w_tnc w)) eqn:Eo; [by intros [= <-]|].
  destruct (w_in w) as [|[e|f] rest]; [|destruct e|];
    first [destruct (close (w_tnc w)) as [t| |] eqn:Et; [|done..]; rewrite bind_Ok; intros [= <-]; by apply Hx
          |destruct (handle _ f _) as [[t o']| |]; [|done..]; by rewrite bind_Ok|done].
Qed.

(** When the modem has hung up nothing is waited for any more. *)
Lemma request_closed line m p w : w.(w_tnc).(t_closed) = true -> request line m p w = m w.
Proof. intros Hc. unfold request. rewrite bind_run. change (tnc w) with (Ok (w_tnc w, w)). cbv beta iota. by rewrite Hc. Qed.

Lemma undo_closed undo e w : w.(w_tnc).(t_closed) = true -> dl_undo undo e w = Ok (Dialed (inl e), w).
Proof. intros Hc. induction undo as [|bw undo IH]; cbn [dl_undo]; [done|]. by rewrite request_closed. Qed.

Lemma closed_dialed p w : w.(w_tnc).(t_closed) = true -> exists r w', on_msg url.(Target) None p w = Ok (Dialed r, w').
Proof.
  intros Hc. destruct p as [bw|cur|undo|undo|undo e]; cbn [on_msg get_reply set_reply call_reply].
  - change (exists r w', dl_set_bw bw [] w = Ok (Dialed r, w')). unfold dl_set_bw. destruct (BandwidthFromString []); [by do 2 eexists|]. rewrite request_closed by done. by do 2 eexists.
  - by do 2 eexists.
  - do 2 eexists. by apply undo_closed.
  - by do 2 eexists.
  - do 2 eexists. by apply undo_closed.
Qed.
Lemma resume_runs p c ctx w r w' : resume url.(Target) p w = Ok (r, w') -> c <> Hanging -> exists k,
  go_run (replicate k (Frame true)) (mkContextDial w (Some (Waits p)) c ctx) = Ok (Some (mkContextDial w' (Some (Dialed r)) c ctx)).
Proof.
  intros Er Hc. remember (length w.(w_in)) as n eqn:En. revert p w Er En.
  induction n as [n IH] using lt_wf_ind. intros p w Er ->. rewrite (resume_step url.(Target) p w), bind_run in Er.
  destruct (recv w) as [[o w1]| |] eqn:E; [|done..]. pose proof (recv_shrinks _ _ _ E) as Ht.
  apply (recv_frames _ p c ctx) in E as (k & w0 & Ek & E0). rewrite bind_run in Er.
  assert (Ef : forall d w2, on_msg url.(Target) o p w1 = Ok (d, w2) ->
    go_run (replicate (k + 1) (Frame true)) (mkContextDial w (Some (Waits p)) c ctx) = Ok (Some (mkContextDial w2 (Some d) c ctx))).
  { intros d w2 Em. rewrite replicate_add, (go_run_app _ _ _ _ Ek). cbn [replicate go_run go_step]. unfold one_frame.
    assert (Et : tell true o (Some (Waits p)) c w1 = Ok ((Some d, c), w2)).
    { unfold tell. rewrite bind_run. cbn [tell_dial]. rewrite bind_run, Em. by destruct c. }
    rewrite bind_run, E0. destruct o as [m|]; cbn [fmap option_fmap option_map]; by rewrite Et. }
  destruct (on_msg url.(Target) o p w1) as [[d w2]| |] eqn:Em; [|done..]. specialize (Ef d w2 eq_refl).
  destruct d as [p'|r']; [|cbn [meaning] in Er; injection Er as <- <-; by exists (k + 1)%nat].
  destruct o as [m|].
  - assert (El : w2.(w_in) = w1.(w_in)) by (by eapply still_on_msg).
    unfold taken in Ht. destruct (IH (length w2.(w_in)) ltac:(rewrite El; lia) p' w2 Er eq_refl) as [k' Ek'].
    exists (k + 1 + k')%nat. by rewrite replicate_add, (go_run_app _ _ _ _ Ef).
  - destruct (closed_dialed p w1) as (r1 & w3 & E1); [by eapply round_closed|]. congruence.
Qed.

Lemma bandwidth_meaning target bw : dl_bandwidth target bw ≫= meaning target ≡ₕ DialBandwidth target bw.
Proof.
  unfold dl_bandwidth, DialBandwidth. assoc. apply same_under. intros t. rewrite same_if.
  destruct (t_closed t); [by rewrite same_ret|]. rewrite !same_if. destruct (bw_IsZero bw).
  { rewrite same_ret. apply call_meaning. }
  transitivity (r ← tnc_get cmdARQBW; s ← string_reply cmdARQBW r; left_bw target bw s).
  { apply request_get; [rewrite bw_meaning; cbn [string_reply]; by rewrite same_ret|done]. }
  symmetry. unfold ARQBandwidth. assoc. assoc. rewrite getString_reply. apply same_under. intros r. apply same_under. intros s.
  unfold left_bw. destruct (BandwidthFromString s) as [e|cur]; rewrite ?same_ret; [done|]. assoc. apply same_under.
  intros [e|]; by rewrite same_ret.
Qed.

Lemma url_meaning : dl_url url ≫= meaning url.(Target) ≡ₕ ardop_DialURL url.
Proof.
  unfold dl_url, ardop_DialURL. destruct (negb _); [by rewrite same_ret|]. cbv zeta. destruct (bool_decide _); [apply bandwidth_meaning|].
  destruct (BandwidthFromString _); [by rewrite same_ret|apply bandwidth_meaning].
Qed.

(** Whatever [DialURL] completes, and in whatever state it leaves the modem: that is
    what a dial that is not cancelled does. *)
Lemma uncancelled w r w' : ardop_DialURL url w = Ok (r, w') -> exists k,
  go_run (Begins :: replicate k (Frame true) ++ [SeesDone]) (ardop_DialURLContext w)
  = Ok (Some (mkContextDial w' (Some (Dialed r)) (Returned r) false)).
Proof.
  intros E. rewrite <- (url_meaning w), bind_run in E. destruct (dl_url url w) as [[d w1]| |] eqn:Ed; [|done..].
  assert (exists k, go_run (replicate k (Frame true)) (mkContextDial w1 (Some d) Selecting false)
                    = Ok (Some (mkContextDial w' (Some (Dialed r)) Selecting false))) as [k Ek].
  { destruct d as [p|r']; [by apply resume_runs|]. injection E as <- <-. by exists O. }
  exists k. cbn [go_run go_step ardop_DialURLContext]. rewrite Ed, !bind_Ok. cbn [fst snd]. rewrite (go_run_app _ _ _ _ Ek). done.
Qed.

(** *** With one *)
Definition hang_ups (w : world) : nat := length (filter (fun l => l = cmdDisconnect) w.(w_out)).

Lemma hang_ups_send s : s <> cmdDisconnect -> same_on hang_ups (send s).
Proof.
  intros Hs w [] w'. unfold send. destruct (t_closed _); [done|]. intros [= <-]. unfold hang_ups. cbn [w_out]. rewrite filter_app, filter_cons, decide_False by done.
  by rewrite app_nil_r.
Qed.
Lemma hang_ups_tnc t : same_on hang_ups (set_tnc t).
Proof. by intros w [] w' [= <-]. Qed.
Lemma hang_ups_round : same_on hang_ups round.
Proof.
  intros w o w'. unfold round. destruct (t_closed (w_tnc w)); [by intros [= <- <-]|]. destruct (w_in w) as [|[e|f] rest]; [|destruct e|];
    first [destruct (close (w_tnc w)) as [t| |]; [|done..]; rewrite bind_Ok; by intros [= <- <-]
          |destruct (handle _ f _) as [[t o']| |]; [|done..]; rewrite bind_Ok; by intros [= <- <-]
          |by intros [= <- <-]].
Qed.

(** An operation on a modem that is there returns or panics, and leaves it there. *)
Definition completes {A} (m : host A) : Prop := forall w, w.(w_tnc).(t_closed) = false ->
  match m w with Ok (_, w') => w'.(w_tnc).(t_closed) = false | Panic => True | NoFuel => False end.

Lemma completes_ret {A} (a : A) : completes (mret a).
Proof. by intros w Hw. Qed.
Lemma completes_tnc : completes tnc.
Proof. by intros w Hw. Qed.
Lemma completes_send s : completes (send s).
Proof. intros w Hw. unfold send. by rewrite Hw. Qed.
Lemma completes_Listen : completes Listen.
Proof. intros w Hw. unfold Listen. rewrite Hw. exact Hw. Qed.
Lemma completes_bind {A B} (m : host A) (k : A -> host B) : completes m -> (forall a, completes (k a)) -> completes (m ≫= k).
Proof.
  intros Hm Hk w Hw. specialize (Hm w Hw). rewrite bind_run. destruct (m w) as [[a w']| |]; [by apply Hk|done..].
Qed.
Lemma completes_string m : completes (pure (msg_String m)).
Proof. intros w Hw. unfold pure, msg_String. by destruct (val m). Qed.
Lemma completes_connected target undo mycall : completes (dl_connected target undo mycall).
Proof. by intros w Hw. Qed.
Lemma completes_set_connected : completes (on_tnc (fun t => Ok (set_connected true t))).
Proof. by intros w Hw. Qed.
#[local] Hint Resolve completes_ret completes_tnc completes_send completes_Listen completes_string completes_connected completes_set_connected : same_on.
Ltac completes := repeat first [solve [eauto with same_on] | apply completes_bind; intros
  | match goal with |- completes (if ?b then _ else _) => destruct b | |- completes (match ?x with _ => _ end) => destruct x end ].

Lemma completes_request line m p : completes m -> completes (request line m p).
Proof. intros Hm. unfold request. completes. Qed.
Lemma completes_undo undo e : completes (dl_undo undo e).
Proof. induction undo as [|bw undo IH]; cbn [dl_undo]; [completes|by apply completes_request]. Qed.
#[local] Hint Resolve completes_request completes_undo : same_on.
Lemma completes_call target undo : completes (dl_call target undo).
Proof. unfold dl_call. completes. Qed.
Lemma completes_set_bw bw s : completes (dl_set_bw bw s).
Proof. unfold dl_set_bw. completes. Qed.
#[local] Hint Resolve completes_call completes_set_bw : same_on.
Lemma completes_on_msg target m p : completes (on_msg target (Some m) p).
Proof. destruct p; cbn [on_msg get_reply set_reply call_reply]; unfold string_reply, dl_mycall; completes. Qed.
Lemma completes_dl_url : completes (dl_url url).
Proof. unfold dl_url, dl_bandwidth. completes. Qed.
Lemma dl_url_closed w : w.(w_tnc).(t_closed) = true -> exists r, dl_url url w = Ok (Dialed r, w).
Proof.
  intros Hc. assert (Hb : forall bw, dl_bandwidth url.(Target) bw w = Ok (Dialed (inl ErrTNCClosed), w)).
  { intros bw. unfold dl_bandwidth. rewrite bind_run. change (tnc w) with (Ok (w_tnc w, w)). cbv beta iota. by rewrite Hc. }
  unfold dl_url. destruct (negb _); [by eexists|]. cbv zeta. destruct (bool_decide _); [rewrite Hb; by eexists|].
  destruct (BandwidthFromString _); [by eexists|rewrite Hb; by eexists].
Qed.

(** Nothing here panics. *)
Lemma safe_get_answer c o : match o with Some m => msg_ok m | None => True end ->
  safe 0 (get_reply c o) (fun r => match r with Some (inr v) => value_kind v = cmd_kind c /\ v <> VList [] | _ => True end).
Proof.
  intros Hm. destruct o as [m|]; cbn [get_reply]; [|by apply safe_ret]. destruct (streq (cmd m) c) eqn:E.
  - apply safe_ret. apply streq_true in E. destruct Hm as [H1 H2]. by rewrite E in H1.
  - repeat step.
Qed.
Lemma safe_set_answer c o : match o with Some m => msg_ok m | None => True end -> safe 0 (set_reply c o) (fun _ => True).
Proof. intros Hm. destruct o as [m|]; cbn [set_reply]; repeat step. Qed.
Lemma safe_call_answer o : match o with Some m => msg_ok m | None => True end -> safe 0 (call_reply o) (fun _ => True).
Proof. intros Hm. destruct o as [m|]; cbn [call_reply]; repeat step. Qed.
Lemma safe_request line m p : safe 0 m (fun _ => True) -> safe 0 (request line m p) (fun _ => True).
Proof. intros Hm. unfold request. eapply safe_bind; [apply safe_tnc|]. intros t _. destruct (t_closed t); [exact Hm|]. repeat step. Qed.
Lemma safe_undo undo e : safe 0 (dl_undo undo e) (fun _ => True).
Proof. induction undo as [|bw undo IH]; cbn [dl_undo]; [by apply safe_ret|by apply safe_request]. Qed.
Lemma safe_connected target undo mycall : safe 0 (dl_connected target undo mycall) (fun _ => True).
Proof.
  unfold dl_connected. eapply safe_bind; [apply safe_tnc|]. intros t [Ht Hn].
  eapply safe_bind; [by apply safe_new_conn|]. intros _ _. by apply safe_ret.
Qed.
#[local] Hint Resolve safe_set_answer safe_call_answer safe_request safe_undo safe_connected : safe.
Lemma safe_dl_call target undo : safe 0 (dl_call target undo) (fun _ => True).
Proof. unfold dl_call. repeat step. Qed.
Lemma safe_set_bw bw s : safe 0 (dl_set_bw bw s) (fun _ => True).
Proof. unfold dl_set_bw. destruct (BandwidthFromString s); [by apply safe_ret|]. apply safe_request. by apply safe_ret. Qed.
Lemma safe_mycall target undo : safe 0 (dl_mycall target undo) (fun _ => True).
Proof. unfold dl_mycall. apply safe_request, safe_connected. Qed.
#[local] Hint Resolve safe_dl_call safe_set_bw safe_mycall : safe.

Lemma safe_answered c o (k : gostr -> host dialer) p : cmd_kind c = KString -> match o with Some m => msg_ok m | None => True end ->
  (forall s, safe 0 (k s) (fun _ => True)) ->
  safe 0 (r ← get_reply c o; match r with None => mret (Waits p) | Some r => s ← string_reply c r; k s end) (fun _ => True).
Proof.
  intros Hc Hm Hk. eapply safe_bind; [by apply safe_get_answer|]. intros [[e|v]|] Hv; [exact (Hk [])| |by apply safe_ret].
  cbn [string_reply]. eapply safe_bind; [by apply safe_pure, reply_String|]. intros s _. apply Hk.
Qed.

Lemma safe_on_msg target o p : match o with Some m => msg_ok m | None => True end -> safe 0 (on_msg target o p) (fun _ => True).
Proof.
  intros Hm. destruct p as [bw|cur|undo|undo|undo e]; cbn [on_msg].
  - apply safe_answered; [done|done|]. intros s. apply safe_set_bw.
  - eapply safe_bind; [by apply safe_set_answer|]. intros [[e|]|] _; [by apply safe_ret|apply safe_dl_call|by apply safe_ret].
  - eapply safe_bind; [by apply safe_call_answer|]. intros [[e|]|] _; [apply safe_undo|apply safe_mycall|by apply safe_ret].
  - apply safe_answered; [done|done|]. intros s. apply safe_connected.
  - eapply safe_bind; [by apply safe_set_answer|]. intros [r|] _; [apply safe_undo|by apply safe_ret].
Qed.

Lemma safe_url : safe 0 (dl_url url) (fun _ => True).
Proof.
  assert (Hb : forall bw, safe 0 (dl_bandwidth url.(Target) bw) (fun _ => True)).
  { intros bw. unfold dl_bandwidth. eapply safe_bind; [apply safe_tnc|]. intros t _. destruct (t_closed t); [by apply safe_ret|].
    destruct (bw_IsZero bw); [apply safe_dl_call|]. apply safe_request, safe_set_bw. }
  unfold dl_url. destruct (negb _); [by apply safe_ret|]. cbv zeta. destruct (bool_decide _); [apply Hb|].
  destruct (BandwidthFromString _); [by apply safe_ret|apply Hb].
Qed.

(** The modem after a frame: gone, or still there. *)
Definition heard (o : option ctrlMsg) (w : world) : Prop :=
  match o with None => w.(w_tnc).(t_closed) = true | Some m => w.(w_tnc).(t_closed) = false /\ msg_ok m end.

Lemma close_total t : tnc_ok t -> exists t', close t = Ok t'.
Proof. intros Ht. destruct (close_ok t Ht) as (t' & E & _). by exists t'. Qed.

Lemma round_total w : world_ok 0 w -> exists o w', round w = Ok (o, w') /\ world_ok 0 w' /\
  match o with Some None => w'.(w_tnc).(t_closed) = false | Some (Some m) => heard (Some m) w' | None => heard None w' end.
Proof.
  intros Hw. pose proof Hw as (Ht & Hi & _). pose proof (safe_round w Hw) as Hs.
  assert (exists o w', round w = Ok (o, w')) as (o & w' & E).
  { unfold round. destruct (t_closed (w_tnc w)); [by do 2 eexists|]. destruct (close_total _ Ht) as [tc Ec]. destruct (w_in w) as [|[e|f] rest].
    - rewrite Ec. by do 2 eexists.
    - destruct e; rewrite ?Ec; by do 2 eexists.
    - apply Forall_cons_1 in Hi as [Hf _]. destruct (handle_safe (w_now w) f (w_tnc w) Ht Hf) as (t' & o & -> & _). by do 2 eexists. }
  rewrite E in Hs. destruct Hs as [Hw' Ho]. exists o, w'. split; [done|]. split; [done|]. destruct o as [[m|]|].
  - split; [by eapply round_open|done].
  - by eapply round_open.
  - by eapply round_closed.
Qed.

(** What the goroutine and the caller make of it. *)
Lemma on_msg_total o p w : world_ok 0 w -> heard o w -> exists d w', on_msg url.(Target) o p w = Ok (d, w') /\
  world_ok 0 w' /\ hang_ups w' = hang_ups w.
Proof.
  intros Hw Ho. assert (Hs : safe 0 (on_msg url.(Target) o p) (fun _ => True)) by (apply safe_on_msg; destruct o; [apply Ho|done]).
  specialize (Hs w Hw). assert (Hn : on_msg url.(Target) o p w <> NoFuel).
  { destruct o as [m|]; [pose proof (completes_on_msg url.(Target) m p w (proj1 Ho)) as Hr; by intros E; rewrite E in Hr|].
    destruct (closed_dialed p w Ho) as (r & w' & E). by rewrite E. }
  destruct (on_msg url.(Target) o p w) as [[d w']| |] eqn:E; [|done..]. exists d, w'. split; [done|]. split; [apply Hs|].
  eapply same_on_on_msg; [apply hang_ups_tnc|apply hang_ups_send|exact E].
Qed.

Definition dial_next (d d' : option dialer) : Prop := match d with Some (Waits _) => exists x, d' = Some x | _ => d' = d end.

Lemma tell_dial_total o d w : world_ok 0 w -> heard o w -> exists d' w', tell_dial o d w = Ok (d', w') /\
  world_ok 0 w' /\ hang_ups w' = hang_ups w /\ dial_next d d'.
Proof.
  intros Hw Ho.
  destruct d as [[p|r]|]; cbn [tell_dial]; [|by do 2 eexists|by do 2 eexists].
  destruct (on_msg_total o p w Hw Ho) as (d' & w' & E & H1 & H2). rewrite bind_run, E. do 2 eexists. split_and!; eauto.
  by eexists.
Qed.

Definition caller_next (c c' : caller) : Prop :=
  match c with Hanging => c' = Hanging \/ c' = Returned (inl ctxErr) | _ => c' = c end.

Lemma tell_caller_total o c w : exists c', tell_caller o c w = Ok (c', w) /\ caller_next c c' /\ (o = None -> c' <> Hanging).
Proof.
  destruct c; cbn [tell_caller]; try by eexists. destruct o as [m|]; cbn [hanging]; [|eexists; split_and!; [done|by right|done]].
  destruct (streq (cmd m) cmdDisconnected); [eexists; split_and!; [done|by right|done]|].
  rewrite bind_run. change (tnc w) with (Ok (w_tnc w, w)). cbv beta iota.
  destruct (tnc_Idle _); eexists; (split_and!; [done| |done]); [by right|by left].
Qed.

Lemma tell_total first o d c w : world_ok 0 w -> heard o w -> exists d' c' w', tell first o d c w = Ok ((d', c'), w') /\
  (world_ok 0 w' /\ hang_ups w' = hang_ups w) /\ dial_next d d' /\ caller_next c c' /\ (o = None -> c' <> Hanging).
Proof.
  intros Hw Ho. destruct (tell_dial_total o d w Hw Ho) as (d' & w' & E & H1 & H2 & H3). unfold tell. destruct first.
  - destruct (tell_caller_total o c w') as (c' & Ec & Hc). rewrite bind_run, E, bind_run, Ec. by exists d', c', w'.
  - destruct (tell_caller_total o c w) as (c' & Ec & Hc). rewrite bind_run, Ec, bind_run, E. by exists d', c', w'.
Qed.

(** The invariant: what the caller has done and may return; [n] disconnects were
    sent before. *)
Definition caller_ok (n : nat) (g : context_dial) : Prop :=
  match g.(g_caller) with
  | Selecting => hang_ups g.(g_world) = n
  | Hanging => g.(g_ctx) = true /\ hang_ups g.(g_world) = S n
  | Blocked => g.(g_ctx) = true /\ hang_ups g.(g_world) = n
  | Returned r => (g.(g_dial) = Some (Dialed r) /\ hang_ups g.(g_world) = n) \/
                  (g.(g_ctx) = true /\ r = inl ctxErr /\ (n <= hang_ups g.(g_world) <= S n)%nat)
  end.

Record on_course (n : nat) (g : context_dial) : Prop := {
  oc_world : world_ok 0 g.(g_world);
  oc_caller : caller_ok n g }.

Lemma caller_keeps n w w' d d' c c' ctx : hang_ups w' = hang_ups w -> dial_next d d' -> caller_next c c' ->
  caller_ok n (mkContextDial w d c ctx) -> caller_ok n (mkContextDial w' d' c' ctx).
Proof.
  intros Hh Hd Hc. unfold caller_ok. cbn [g_caller g_world g_dial g_ctx].
  destruct c; cbn [caller_next] in Hc; [subst c'; by rewrite Hh| |subst c'; by rewrite Hh|].
  - intros [H1 H2]. destruct Hc as [-> | ->]; [by rewrite Hh|]. right. rewrite Hh. split_and!; [done|done|lia..].
  - subst c'. rewrite Hh. intros [[-> H2]|H2]; [left|by right]. by cbn [dial_next] in Hd; subst d'.
Qed.

Lemma hang_up_total n w d : world_ok 0 w -> hang_ups w = n -> exists c w', hang_up w = Ok (c, w') /\
  on_course n (mkContextDial w' d c true) /\ w'.(w_in) = w.(w_in) /\
  c = (if tnc_Idle w.(w_tnc) then Returned (inl ctxErr) else if t_closed w.(w_tnc) then Blocked else Hanging).
Proof.
  intros Hw Hn. unfold hang_up. rewrite bind_run. change (tnc w) with (Ok (w_tnc w, w)). cbv beta iota.
  destruct (tnc_Idle (w_tnc w)).
  { do 2 eexists. split; [done|]. split; [|done]. split; [done|]. right. cbn. split_and!; [done|done|lia..]. }
  destruct (eof_ok (w_tnc w) (proj1 Hw)) as (t' & Ee & [Ht' Hl] & _). pose proof (eof_closed _ _ Ee) as Ec.
  rewrite bind_run. unfold on_tnc. rewrite bind_run. change (tnc w) with (Ok (w_tnc w, w)). cbv beta iota.
  rewrite bind_run. unfold pure. rewrite Ee, bind_Ok. cbn [mret res_ret]. unfold set_tnc. cbn [mret res_ret].
  set (w1 := mkWorld t' _ _ _ _). assert (Hw1 : world_ok 0 w1) by (split; [done|split; [apply Hw|cbn; lia]]).
  destruct (t_closed (w_tnc w)) eqn:Eo.
  - do 2 eexists. split; [done|]. split; [|done]. by split.
  - rewrite bind_run. unfold Listen. cbn [w_tnc w1]. rewrite Ec. cbn [mret res_ret]. rewrite bind_run. unfold send. cbn [w_tnc w1]. rewrite Ec.
    do 2 eexists. split; [done|]. split; [|done]. split.
    + destruct Hw1 as (A & B & C). by split_and!.
    + split; [done|]. cbn [g_world].
      change (length (filter (fun l => l = cmdDisconnect) (w.(w_out) ++ [cmdDisconnect])) = S n).
      unfold hang_ups in Hn. rewrite filter_app, filter_cons, decide_True by done.
      rewrite filter_nil, length_app, Hn. cbn [length]. lia.
Qed.

Lemma go_step_total n e g : on_course n g -> exists og, go_step e g = Ok og /\ forall g', og = Some g' -> on_course n g'.
Proof.
  intros [Hw Hc]. destruct g as [w d c ctx]. cbn [g_world] in *. destruct e as [| |first| |]; cbn [go_step].
  - destruct d as [d|]; [by exists None|]. pose proof (safe_url w Hw) as Hs.
    assert (exists d w', dl_url url w = Ok (d, w')) as (d & w' & E).
    { destruct (t_closed (w_tnc w)) eqn:Ec; [destruct (dl_url_closed w Ec) as [r E]; by exists (Dialed r), w|].
      pose proof (completes_dl_url w Ec) as Hr. destruct (dl_url url w) as [[d w']| |]; [|done..]. by exists d, w'. }
    rewrite E in *. eexists. split; [done|]. intros g' [= <-].
    assert (Hh : hang_ups w' = hang_ups w) by (eapply same_on_url; [apply hang_ups_tnc|apply hang_ups_send|exact E]).
    split; [apply Hs|].
    unfold caller_ok in *. cbn [g_caller g_world g_dial g_ctx fst snd] in *. rewrite Hh. destruct c; try done. destruct Hc as [[? ?]|Hc]; [done|by right].
  - eexists. split; [done|]. intros g' [= <-]. split; [done|]. unfold caller_ok in *. cbn [g_caller g_world g_dial g_ctx] in *.
    destruct c; try done; [by destruct Hc..|]. destruct Hc as [Hc|(_ & Hc)]; [by left|by right].
  - destruct (round_total w Hw) as (o & w1 & E & Hw1 & Ho).
    assert (Hh : hang_ups w1 = hang_ups w) by (by eapply hang_ups_round).
    assert (T : forall o', heard o' w1 -> exists og, (r ← tell first o' d c w1; mret (Some (mkContextDial r.2 r.1.1 r.1.2 ctx))) = Ok og /\
      forall g', og = Some g' -> on_course n g').
    { intros o' Ho'. destruct (tell_total first o' d c w1 Hw1 Ho') as (d' & c' & w2 & -> & (H1 & H2) & H4 & H5 & _).
      eexists. split; [done|]. intros g' [= <-]. split; [done|]. eapply caller_keeps; [|done|done|exact Hc]. by rewrite H2. }
    unfold one_frame. rewrite bind_run, E. destruct o as [[m|]|]; [by apply T| |by apply T].
    eexists. split; [done|]. intros g' [= <-]. split; [done|].
    eapply caller_keeps; [exact Hh| | |exact Hc]; [destruct d as [[]|]; [by eexists|done..]|destruct c; try done; by left].
  - destruct d as [[p|r]|], c; try by exists None. eexists. split; [done|]. intros g' [= <-]. split; [done|]. left. by split.
  - destruct c; try by exists None.
    assert (T : exists og, (if ctx then r ← hang_up w; mret (Some (mkContextDial r.2 d r.1 ctx)) else mret None) = Ok og /\ forall g', og = Some g' -> on_course n g').
    { destruct ctx; [|by exists None]. destruct (hang_up_total n w d Hw Hc) as (c & w' & -> & Hoc & _). eexists. split; [done|].
      intros g' [= <-]. exact Hoc. }
    destruct d as [[]|]; exact T.
Qed.

Lemma go_run_total n es g : on_course n g -> exists og, go_run es g = Ok og /\ forall g', og = Some g' -> on_course n g'.
Proof.
  revert g. induction es as [|e es IH]; intros g Hg; [exists (Some g); split; [done|by intros g' [= <-]]|].
  cbn [go_run]. destruct (go_step_total n e g Hg) as (og & -> & Ho). rewrite bind_Ok. destruct og as [g1|]; [|by exists None].
  apply IH. by apply Ho.
Qed.

Lemma go_step_ctx e g g' : go_step e g = Ok (Some g') -> g'.(g_ctx) = true -> g.(g_ctx) = true \/ e = Cancels.
Proof.
  destruct g as [w d c ctx]. destruct e; cbn [go_step g_ctx]; [| |destruct (one_frame _ _ _ _); [|done..]; rewrite bind_Ok; intros [= <-]; by left| |].
  - destruct d; [done|]. destruct (dl_url url w); [|done..]. rewrite bind_Ok. intros [= <-]. by left.
  - by right.
  - destruct d as [[]|], c; try done. intros [= <-]. by left.
  - destruct d as [[]|], c; try done; (destruct ctx; [by left|done]).
Qed.

Lemma go_run_ctx es g g' : go_run es g = Ok (Some g') -> g'.(g_ctx) = true -> g.(g_ctx) = true \/ Cancels ∈ es.
Proof.
  revert g. induction es as [|e es IH]; intros g; cbn [go_run]; [intros [= <-]; by left|].
  destruct (go_step e g) as [[g1|]| |] eqn:E; [|done..]. rewrite bind_Ok. intros Er Hc.
  destruct (IH g1 Er Hc) as [H1|H1]; [|right; by right].
  destruct (go_step_ctx _ _ _ E H1) as [H2|H2]; [by left|right; rewrite H2; by left].
Qed.

(** A caller that waits for the disconnect completes, at the latest when the modem
    hangs up. *)
Lemma tell_in first o d c w r w' : tell first o d c w = Ok (r, w') -> w'.(w_in) = w.(w_in).
Proof.
  assert (Hd : still (tell_dial o d)).
  { destruct d as [[p|x]|]; cbn [tell_dial]; [|apply same_on_ret..]. apply same_on_bind; [apply still_on_msg|]. intros; apply same_on_ret. }
  assert (Hc : still (tell_caller o c)).
  { intros w1 c1 w2. destruct (tell_caller_total o c w1) as (c' & -> & _ & _). by intros [= _ <-]. }
  revert w r w'. unfold tell. change (still (if first then d ← tell_dial o d; c ← tell_caller o c; mret (d, c)
    else c ← tell_caller o c; d ← tell_dial o d; mret (d, c))).
  destruct first; (apply same_on_bind; [done|]; intros; apply same_on_bind; [done|]; intros; apply same_on_ret).
Qed.

Lemma hanging_returns n first w d ctx : on_course n (mkContextDial w d Hanging ctx) -> exists k g',
  (k <= S (length w.(w_in)))%nat /\ go_run (replicate k (Frame first)) (mkContextDial w d Hanging ctx) = Ok (Some g') /\
  g'.(g_caller) = Returned (inl ctxErr).
Proof.
  remember (length w.(w_in)) as l eqn:El. revert w d El. induction l as [l IH] using lt_wf_ind. intros w d -> Hg.
  destruct (go_step_total n (Frame first) _ Hg) as (og & E & Ho).
  assert (exists w' d' c', og = Some (mkContextDial w' d' c' ctx) /\
    (c' = Returned (inl ctxErr) \/ (c' = Hanging /\ (length w'.(w_in) < length w.(w_in))%nat))) as (w' & d' & c' & -> & Hc).
  { cbn [go_step] in E. destruct (round_total w (oc_world _ _ Hg)) as (o & w1 & Er & Hw1 & Hh).
    pose proof (round_shrinks _ _ _ Er) as Ht. unfold one_frame in E. rewrite bind_run, Er in E.
    assert (T : forall o', heard o' w1 -> (r ← tell first o' d Hanging w1; mret (Some (mkContextDial r.2 r.1.1 r.1.2 ctx))) = Ok og ->
      exists w' d' c', og = Some (mkContextDial w' d' c' ctx) /\ (c' = Returned (inl ctxErr) \/ (c' = Hanging /\ o' <> None /\ w'.(w_in) = w1.(w_in)))).
    { intros o' Ho'. destruct (tell_total first o' d Hanging w1 Hw1 Ho') as (d' & c' & w2 & Et & _ & _ & Hn & Hg0).
      rewrite Et, bind_Ok. intros [= <-]. exists w2, d', c'. split; [done|]. destruct Hn as [-> | ->]; [|by left].
      right. split; [done|]. split; [intros ->; by apply Hg0|by eapply tell_in]. }
    destruct o as [[m|]|].
    - destruct (T (Some m) Hh E) as (w' & d' & c' & -> & [Hc|(Hc & _ & Ei)]); exists w', d', c'; (split; [done|]); [by left|right].
      split; [done|]. rewrite Ei. exact Ht.
    - injection E as <-. do 3 eexists. split; [done|]. right. split; [done|exact Ht].
    - destruct (T None Hh E) as (w' & d' & c' & -> & [Hc|(_ & Hn & _)]); [|done]. exists w', d', c'. split; [done|by left]. }
  specialize (Ho _ eq_refl). destruct Hc as [-> |[-> Hl]].
  - exists 1%nat. eexists. split; [lia|]. cbn [replicate go_run]. rewrite E, bind_Ok. done.
  - destruct (IH _ Hl w' d' eq_refl Ho) as (k & g' & Hk & Er & Hr). exists (S k), g'. split; [lia|]. split; [|done].
    cbn [replicate go_run]. by rewrite E, bind_Ok.
Qed.

(** What the caller does when it sees that the context has ended. *)
Lemma select_context n w d first : on_course n (mkContextDial w d Selecting true) ->
  (w.(w_tnc).(t_closed) = false \/ tnc_Idle w.(w_tnc) = true -> exists k g', (k <= S (length w.(w_in)))%nat /\
     go_run (SeesContext :: replicate k (Frame first)) (mkContextDial w d Selecting true) = Ok (Some g') /\
     g'.(g_caller) = Returned (inl ctxErr)) /\
  (w.(w_tnc).(t_closed) = true -> tnc_Idle w.(w_tnc) = false -> exists g',
     go_step SeesContext (mkContextDial w d Selecting true) = Ok (Some g') /\ g'.(g_caller) = Blocked).
Proof.
  intros [Hw Hc]. destruct (hang_up_total n w d Hw Hc) as (c & w' & E & Hg & Hi & Ec).
  assert (Es : go_step SeesContext (mkContextDial w d Selecting true) = Ok (Some (mkContextDial w' d c true))).
  { cbn [go_step]. destruct d as [[]|]; by rewrite E. }
  split.
  - intros Ho. assert (exists k g', (k <= S (length w'.(w_in)))%nat /\
      go_run (replicate k (Frame first)) (mkContextDial w' d c true) = Ok (Some g') /\ g'.(g_caller) = Returned (inl ctxErr)) as (k & g' & Hk & Er & Hr).
    { destruct (tnc_Idle _); [subst c; exists O; eexists; split; [lia|by split]|]. destruct Ho as [Ho|Ho]; [|done].
      rewrite Ho in Ec. subst c. by eapply hanging_returns. }
    exists k, g'. split; [by rewrite <- Hi|]. split; [|done]. cbn [go_run]. by rewrite Es, bind_Ok.
  - intros H1 H2. rewrite H1, H2 in Ec. subst c. by eexists.
Qed.

(** A step changes what the caller does only when it selects or waits for the
    modem to disconnect. *)
Lemma caller_blocked_step n e g og : on_course n g -> g.(g_caller) = Blocked -> go_step e g = Ok og ->
  forall g', og = Some g' -> g'.(g_caller) = Blocked.
Proof.
  intros [Hw _]. destruct g as [w d c ctx]. cbn [g_caller g_world] in *. intros ->. destruct e as [| |first| |]; cbn [go_step].
  - destruct d; [by intros [= <-]|]. destruct (dl_url url w); [|done..]. rewrite bind_Ok. by intros [= <-] g' [= <-].
  - by intros [= <-] g' [= <-].
  - destruct (round_total w Hw) as (o & w1 & Er & Hw1 & Hh). unfold one_frame. rewrite bind_run, Er.
    assert (T : forall o', heard o' w1 -> (r ← tell first o' d Blocked w1; mret (Some (mkContextDial r.2 r.1.1 r.1.2 ctx))) = Ok og ->
      forall g', og = Some g' -> g'.(g_caller) = Blocked).
    { intros o' Ho'. destruct (tell_total first o' d Blocked w1 Hw1 Ho') as (d' & c' & w2 & -> & _ & _ & Hc & _).
      rewrite bind_Ok. by intros [= <-] g' [= <-]. }
    destruct o as [[m|]|]; [by apply T| |by apply T]. by intros [= <-] g' [= <-].
  - destruct d as [[]|]; by intros [= <-].
  - destruct d as [[]|]; by intros [= <-].
Qed.

Lemma caller_blocked_run n es g og : on_course n g -> g.(g_caller) = Blocked -> go_run es g = Ok og ->
  forall g', og = Some g' -> g'.(g_caller) = Blocked.
Proof.
  revert g. induction es as [|e es IH]; intros g Hg Hb; cbn [go_run]; [by intros [= <-] g' [= <-]|].
  destruct (go_step_total n e g Hg) as (og1 & E & Ho). rewrite E, bind_Ok. destruct og1 as [g1|]; [|by intros [= <-]].
  apply IH; [by apply Ho|by eapply caller_blocked_step].
Qed.

(** A context that has ended has done so for good. *)
Lemma ctx_step e g g' : go_step e g = Ok (Some g') -> g.(g_ctx) = true \/ e = Cancels -> g'.(g_ctx) = true.
Proof.
  destruct g as [w d c ctx]. cbn [g_ctx]. destruct e; cbn [go_step]; intros E [-> |Hx]; try done.
  - destruct d; [done|]. destruct (dl_url url w); [|done..]. rewrite bind_Ok in E. by injection E as <-.
  - by injection E as <-.
  - by injection E as <-.
  - destruct (one_frame _ _ _ _); [|done..]. rewrite bind_Ok in E. by injection E as <-.
  - destruct d as [[]|], c; try done. by injection E as <-.
  - destruct c; try (by destruct d as [[]|]).
    assert (T : (r ← hang_up w; mret (Some (mkContextDial r.2 d r.1 true))) = Ok (Some g')) by (by destruct d as [[]|]).
    destruct (hang_up w); [|done..]. rewrite bind_Ok in T. by injection T as <-.
Qed.

Lemma ctx_run es g g' : go_run es g = Ok (Some g') -> g.(g_ctx) = true \/ Cancels ∈ es -> g'.(g_ctx) = true.
Proof.
  revert g. induction es as [|e es IH]; intros g; cbn [go_run]; [intros [= <-] [?|Hx]; [done|by apply elem_of_nil in Hx]|].
  destruct (go_step e g) as [[g1|]| |] eqn:E; [|done..]. rewrite bind_Ok. intros Er Hx. apply (IH g1 Er).
  destruct Hx as [Hx|[<-|Hx]%elem_of_cons]; [left; by eapply ctx_step; [|left]|left; by eapply ctx_step; [|right]|by right].
Qed.
End cancel.


(** A modem that connects. *)
Definition dial_input : list (error + frame) :=
  (fun s => inr (cmdFrame (str s))) <$> ["NEWSTATE ISS"; "CONNECTED LA1B 500"; "MYCALL LA5NTA"; "NEWSTATE DISC"]%string.
Definition dial_world : world := mkWorld (set_state Disconnected (newTNC true)) dial_input [] [] 0.
Definition dial_url : URL := mkURL (str "ardop") [] None (str "LA1B") [] ∅.
Definition Canceled : error := New (str "context canceled").


(** A context that ends before the modem has reported a new state is of no use to
    the dial: [Disconnect] finds the modem idle and does nothing, the caller
    completes, and the goroutine goes on to connect. Nobody has the connection. *)
Theorem early_cancel_connects : exists g,
  go_run (H := simple_fmt) Canceled dial_url [Begins; Cancels; SeesContext; Frame true; Frame true; Frame true] (ardop_DialURLContext dial_world)
  = Ok (Some g) /\ g.(g_caller) = Returned (inl Canceled) /\ g.(g_dial) = Some (Dialed (inr O)) /\
  g.(g_world).(w_tnc).(t_connected) = true /\ g.(g_world).(w_tnc).(t_data) = Some O /\ hang_ups g.(g_world) = O.
Proof. eexists. split; [vm_compute; reflexivity|]. repeat split. Qed.

(** When the modem has hung up during a connection its last state is kept, and
    [Disconnect] waits for ever to be registered with a broadcaster that has
    ended. *)
Theorem closed_modem_blocks w : tnc_ok w.(w_tnc) -> w.(w_tnc).(t_closed) = true -> tnc_Idle w.(w_tnc) = false -> Disconnect w = NoFuel.
Proof.
  intros Ht Hc Hi. unfold Disconnect. rewrite bind_run. change (tnc w) with (Ok (w_tnc w, w)). cbv beta iota. rewrite Hi.
  destruct (eof_ok _ Ht) as (t' & Ee & _). pose proof (eof_closed _ _ Ee) as Ec.
  rewrite bind_run. unfold on_tnc. rewrite bind_run. change (tnc w) with (Ok (w_tnc w, w)). cbv beta iota.
  rewrite bind_run. unfold pure. rewrite Ee, bind_Ok. cbn [mret res_ret]. unfold set_tnc. cbn [mret res_ret].
  rewrite bind_run. unfold Listen. cbn [w_tnc]. by rewrite Ec, Hc.
Qed.
