(* ===== verification/Rigctld.v ===== *)
(** Rig control over TCP: [src/rigcontrol/hamlib/rigctld.go].

    A connection to rigctld is the outcomes of the reads and of the writes to
    come and the lines written so far.  When nothing more comes a read runs into
    its deadline.  The texts of network errors are those of a parameter. *)
From S2P Require Import Prelude Crc GoStr Helpers.

(** Errors as the retry loop tells them apart. *)
Inductive rerr := REOF | RNet (e : error) | ROther (e : error).

Record rconn := mkRConn { rc_in : list (rerr + gostr); rc_wr : list (option rerr); rc_out : list gostr }.

(** [rig_dials] is what the next dials give; [rig_dropped] the connections that
    were given up without being closed. *)
Record TCPRig := mkRig {
  rig_addr : gostr; rig_conn : option rconn; rig_dials : list (rerr + rconn); rig_dropped : list rconn }.

Definition ErrNotVFOMode := ROther (New (str "rigctl is not running in VFO mode")).
Definition ErrUnexpectedValue := ROther (New (str "Unexpected value in response")).
Definition timeout := RNet (New (str "i/o timeout")).
Definition refused := RNet (New (str "connection refused")).

Definition OpenTCP (addr : gostr) (dials : list (rerr + rconn)) : TCPRig := mkRig addr None dials [].

(** The line a command is sent as: [fmt.Sprintf] with at most one %d. *)
Fixpoint Sprintf_d (format : gostr) (arg : gostr) : gostr :=
  match format with
  | [] => []
  | c :: format => if HasPrefix (c :: format) (str "%d") then arg ++ drop 1 format else c :: Sprintf_d format arg
  end.

Definition toError (s : gostr) : option rerr :=
  if negb (HasPrefix s (str "RPRT ")) then None
  else match Split2 32 s with
       | [_; p1] => let '(code, err) := Atoi p1 in
                    if err : bool then Some (ROther (NumError p1))
                    else if code =? 0 then None else Some (ROther (New (str "code " ++ itoa code)))
       | _ => None
       end.

(** [doCmd] on a connection. *)
Definition doCmd (line : gostr) (c : rconn) : (gostr * option rerr) * rconn :=
  let '(w, wr) := match c.(rc_wr) with [] => (None, []) | w :: wr => (w, wr) end in
  match w with
  | Some e => (([], Some e), mkRConn c.(rc_in) wr c.(rc_out))
  | None =>
    let c := mkRConn c.(rc_in) wr (c.(rc_out) ++ [line]) in
    match c.(rc_in) with
    | [] => (([], Some timeout), c)
    | inl e :: rest => (([], Some e), mkRConn rest c.(rc_wr) c.(rc_out))
    | inr resp :: rest => ((resp, toError resp), mkRConn rest c.(rc_wr) c.(rc_out))
    end
  end.

(** [dial]; it is called without a connection only. *)
Definition dial (r : TCPRig) : option rerr * TCPRig :=
  match r.(rig_dials) with
  | [] => (Some refused, r)
  | inl e :: ds => (Some e, mkRig r.(rig_addr) r.(rig_conn) ds r.(rig_dropped))
  | inr c :: ds => (None, mkRig r.(rig_addr) (Some c) ds r.(rig_dropped))
  end.

Definition is_net (e : rerr) : bool := match e with REOF | RNet _ => true | ROther _ => false end.

(** The loop of [cmd], with [n] attempts left and the results of the last one. *)
Fixpoint cmd_loop (n : nat) (line resp : gostr) (err : option rerr) (r : TCPRig) : (gostr * option rerr) * TCPRig :=
  match n with
  | O => ((resp, err), r)
  | S n =>
    let '(derr, r) := match r.(rig_conn) with None => dial r | Some _ => (None, r) end in
    match derr, r.(rig_conn) with
    | Some e, _ => ((resp, Some e), r)
    | None, None => ((resp, None), r)
    | None, Some c =>
      let '((resp, err), c) := doCmd line c in
      match err with
      | None => ((resp, None), mkRig r.(rig_addr) (Some c) r.(rig_dials) r.(rig_dropped))
      | Some e =>
        if is_net e then cmd_loop n line resp err (mkRig r.(rig_addr) None r.(rig_dials) (r.(rig_dropped) ++ [c]))
        else cmd_loop n line resp err (mkRig r.(rig_addr) (Some c) r.(rig_dials) r.(rig_dropped))
      end
    end
  end.

Definition rig_cmd (format arg : gostr) (r : TCPRig) : (gostr * option rerr) * TCPRig :=
  cmd_loop 3 (Sprintf_d format arg) [] None r.

(** ** The rig *)
Definition rig_Ping (r : TCPRig) : option rerr * TCPRig :=
  let '((_, err), r) := rig_cmd (str "dump_caps") [] r in (err, r).

(** [Close] leaves the pointer to the connection, which now refuses to write. *)
Definition rig_Close (r : TCPRig) : TCPRig :=
  match r.(rig_conn) with
  | None => r
  | Some c => mkRig r.(rig_addr) (Some (mkRConn [] [Some (RNet (New (str "use of closed network connection")))] c.(rc_out)))
                r.(rig_dials) r.(rig_dropped)
  end.

Definition VFOMode (r : TCPRig) : (rerr + bool) * TCPRig :=
  let '((resp, err), r) := rig_cmd (str "\chk_vfo") [] r in
  (match err with Some e => inl e | None => inr (bool_decide (TrimPrefix resp (str "CHKVFO ") = str "1")) end, r).

(** A VFO is its prefix. *)
Definition CurrentVFO : gostr := [].
Definition VFO_ (prefix : gostr) (r : TCPRig) : (rerr + gostr) * TCPRig :=
  let '(m, r) := VFOMode r in
  (match m with inl e => inl e | inr false => inl ErrNotVFOMode | inr true => inr prefix end, r).
Definition VFOA : TCPRig -> (rerr + gostr) * TCPRig := VFO_ (str "VFOA").
Definition VFOB : TCPRig -> (rerr + gostr) * TCPRig := VFO_ (str "VFOB").

(** The VFO goes after the name of the command. *)
Definition vfo_format (prefix format : gostr) : gostr :=
  if bool_decide (prefix = []) then format
  else match Split 32 format with
       | p0 :: parts => strings_Join (p0 :: prefix :: parts) (str " ")
       | [] => []
       end.

Definition vfo_cmd (prefix format arg : gostr) (r : TCPRig) : (gostr * option rerr) * TCPRig :=
  rig_cmd (vfo_format prefix format) arg r.

Definition GetFreq (v : gostr) (r : TCPRig) : (Z * option rerr) * TCPRig :=
  let '((resp, err), r) := vfo_cmd v (str "\get_freq") [] r in
  match err with
  | Some e => ((-1, Some e), r)
  | None => let '(freq, bad) := Atoi resp in
            if bad : bool then ((-1, Some (ROther (NumError resp))), r) else ((freq, None), r)
  end.

Definition SetFreq (v : gostr) (freq : Z) (r : TCPRig) : option rerr * TCPRig :=
  let '((_, err), r) := vfo_cmd v (str "\set_freq %d") (itoa freq) r in (err, r).

Definition GetPTT (v : gostr) (r : TCPRig) : (bool * option rerr) * TCPRig :=
  let '((resp, err), r) := vfo_cmd v (str "t") [] r in
  match err with
  | Some e => ((false, Some e), r)
  | None =>
    if bool_decide (resp = str "0") then ((false, None), r)
    else if existsb (fun s => bool_decide (resp = s)) [str "1"; str "2"; str "3"] then ((true, None), r)
    else ((false, Some ErrUnexpectedValue), r)
  end.

(** [experimental] is the switch of experimental_ptt.go. *)
Definition rig_SetPTT (experimental : bool) (v : gostr) (on : bool) (r : TCPRig) : option rerr * TCPRig :=
  let bInt := if on then if experimental then 3 else 1 else 0 in
  let '((_, err), r) := vfo_cmd v (str "\set_ptt %d") (itoa bInt) r in (err, r).

(** ** Theorems *)

(** The lines sent to rigctld, over all connections. *)
Definition sent_lines (r : TCPRig) : list gostr :=
  concat (rc_out <$> r.(rig_dropped)) ++ match r.(rig_conn) with Some c => c.(rc_out) | None => [] end.

(** Connections to be dialed have not been written to. *)
Definition fresh_dials (r : TCPRig) : Prop := Forall (fun d => match d with inr c => c.(rc_out) = [] | inl _ => True end) r.(rig_dials).

Lemma doCmd_sent line c : exists k, (k <= 1)%nat /\ (doCmd line c).2.(rc_out) = c.(rc_out) ++ replicate k line.
Proof.
  unfold doCmd. destruct (match rc_wr c with [] => (None, []) | w :: wr => (w, wr) end) as [[e|] wr]; [|exists 1%nat].
  - exists 0%nat. split; [lia|]. by rewrite app_nil_r.
  - split; [lia|]. by destruct (rc_in c) as [|[e|resp] rest].
Qed.

Lemma dial_sent r : r.(rig_conn) = None -> fresh_dials r ->
  sent_lines (dial r).2 = sent_lines r /\ fresh_dials (dial r).2 /\ ((dial r).1 = None -> (dial r).2.(rig_conn) <> None).
Proof.
  intros Hc Hf. unfold dial, fresh_dials, sent_lines in *. rewrite Hc. destruct (rig_dials r) as [|[e|c] ds] eqn:Ed.
  - cbn [fst snd]. rewrite Hc, Ed. done.
  - inversion Hf. cbn [fst snd rig_conn rig_dropped rig_dials]. rewrite ?Hc. done.
  - inversion Hf as [|? ? Hx]; subst. cbn. by rewrite Hx.
Qed.

Lemma cmd_loop_sent n line resp err r : fresh_dials r ->
  exists k, (k <= n)%nat /\ sent_lines (cmd_loop n line resp err r).2 = sent_lines r ++ replicate k line /\
    fresh_dials (cmd_loop n line resp err r).2.
Proof.
  revert resp err r. induction n as [|n IH]; intros resp err r Hf; [exists 0%nat; cbn; by rewrite app_nil_r|]. cbn [cmd_loop].
  assert (D : exists derr r1, match r.(rig_conn) with None => dial r | Some _ => (None, r) end = (derr, r1) /\
      sent_lines r1 = sent_lines r /\ fresh_dials r1).
  { destruct (rig_conn r) eqn:Ec; [by eexists _, _|]. destruct (dial_sent r Ec Hf) as (H1 & H2 & _).
    exists (dial r).1, (dial r).2. split; [apply surjective_pairing|done]. }
  destruct D as (derr & r1 & -> & E1 & F1). destruct derr as [e|]; [exists 0%nat; rewrite app_nil_r; split; [lia|done]|].
  destruct (rig_conn r1) as [c|] eqn:Ec; [|exists 0%nat; rewrite app_nil_r; split; [lia|done]].
  destruct (doCmd_sent line c) as (k & Hk & Eo). destruct (doCmd line c) as [[resp1 err1] c1]. cbn [snd] in Eo.
  assert (S1 : sent_lines r1 = concat (rc_out <$> rig_dropped r1) ++ rc_out c) by (unfold sent_lines; by rewrite Ec).
  assert (Hkeep : forall d, sent_lines (mkRig r1.(rig_addr) (Some c1) d r1.(rig_dropped)) = sent_lines r ++ replicate k line).
  { intros d. rewrite <- E1, S1. unfold sent_lines. cbn [rig_dropped rig_conn]. by rewrite Eo, app_assoc. }
  destruct err1 as [e|]; [|exists k; split; [lia|]; cbn [snd]; by rewrite Hkeep].
  destruct (is_net e).
  - destruct (IH resp1 (Some e) (mkRig r1.(rig_addr) None r1.(rig_dials) (r1.(rig_dropped) ++ [c1])) F1) as (k' & Hk' & E' & F').
    exists (k + k')%nat. split; [lia|]. split; [|exact F']. rewrite E', replicate_add, app_assoc. f_equal. rewrite <- E1, S1.
    unfold sent_lines. cbn [rig_dropped rig_conn]. rewrite fmap_app, concat_app, app_nil_r. cbn. by rewrite app_nil_r, Eo, app_assoc.
  - destruct (IH resp1 (Some e) (mkRig r1.(rig_addr) (Some c1) r1.(rig_dials) r1.(rig_dropped)) F1) as (k' & Hk' & E' & F').
    exists (k + k')%nat. split; [lia|]. split; [|exact F']. by rewrite E', replicate_add, app_assoc, Hkeep.
Qed.

(** C34. A command is sent at most three times, whatever rigctld answers and however
    often the connection is lost, and nothing else is sent. *)
Theorem command_sent_thrice format arg r : fresh_dials r ->
  exists k, (k <= 3)%nat /\ sent_lines (rig_cmd format arg r).2 = sent_lines r ++ replicate k (Sprintf_d format arg).
Proof. intros Hf. destruct (cmd_loop_sent 3 (Sprintf_d format arg) [] None r Hf) as (k & Hk & E & _). eauto. Qed.

Definition refusing_rig : TCPRig := OpenTCP [] [inr (mkRConn [inr (str "RPRT -1"); inr (str "RPRT -1"); inl REOF] [] []); inl refused].

Lemma command_sent_thrice_witness : exists k, (k <= 3)%nat /\
  sent_lines (SetFreq [] 7038500 refusing_rig).2 = replicate k (str "\set_freq 7038500") /\ k = 3%nat.
Proof.
  destruct (command_sent_thrice (str "\set_freq %d") (itoa 7038500) refusing_rig) as (k & Hk & E).
  - by repeat constructor.
  - assert (E' : sent_lines (SetFreq [] 7038500 refusing_rig).2 = replicate k (str "\set_freq 7038500")) by exact E.
    exists k. split; [exact Hk|]. split; [exact E'|]. vm_compute in E'. destruct k as [|[|[|[|k]]]]; try discriminate; done.
Defined.

(** [Ping] asks for the capabilities, which are many lines, and reads one: the
    next command takes the second line for its answer. *)
Theorem ping_leaves_lines addr caps1 caps2 rest out ds old :
  toError caps1 = None -> toError caps2 = None ->
  let r := mkRig addr (Some (mkRConn (inr caps1 :: inr caps2 :: rest) [] out)) ds old in
  (rig_Ping r).1 = None /\
  GetFreq [] (rig_Ping r).2 =
    (if (Atoi caps2).2 then (-1, Some (ROther (NumError caps2))) else ((Atoi caps2).1, None),
     mkRig addr (Some (mkRConn rest [] (out ++ [str "dump_caps"; str "\get_freq"]))) ds old).
Proof.
  intros E1 E2. cbv zeta. assert (E : rig_Ping (mkRig addr (Some (mkRConn (inr caps1 :: inr caps2 :: rest) [] out)) ds old)
    = (None, mkRig addr (Some (mkRConn (inr caps2 :: rest) [] (out ++ [str "dump_caps"]))) ds old)).
  { unfold rig_Ping, rig_cmd. cbn [cmd_loop rig_conn]. unfold doCmd. cbn [rc_wr rc_in rc_out]. rewrite E1. done. }
  rewrite E. split; [done|]. cbn [snd]. unfold GetFreq, vfo_cmd, rig_cmd. cbn [cmd_loop rig_conn]. unfold doCmd. cbn [rc_wr rc_in rc_out].
  rewrite E2. cbn [rig_addr rig_dials rig_dropped]. rewrite <- app_assoc. by destruct (Atoi caps2) as [f [|]].
Qed.

Lemma ping_leaves_lines_witness :
  let r := mkRig [] (Some (mkRConn [inr (str "Caps dump for model: 1"); inr (str "Model name: Dummy"); inr (str "7038500")] [] [])) [] [] in
  (rig_Ping r).1 = None /\
  (GetFreq [] (rig_Ping r).2).1 = (-1, Some (ROther (NumError (str "Model name: Dummy")))).
Proof.
  destruct (ping_leaves_lines [] (str "Caps dump for model: 1") (str "Model name: Dummy") [inr (str "7038500")] [] [] []) as [T1 T2].
  - reflexivity.
  - reflexivity.
  - split; [exact T1|]. rewrite T2. reflexivity.
Defined.
