(* ===== verification/Hamlib.v ===== *)
(** The bindings to the hamlib library: [src/rigcontrol/hamlib/libhamlib.go],
    with [Open] of [common.go].

    The library is a parameter: its functions on a [RIG] structure, which the
    program copies out of the library's memory when the rig has been opened and
    works on from then on.  A state [W] stands for everything outside of the
    structure. *)
From S2P Require Import Prelude Crc GoStr GoFloat Helpers FileSys Transport Rigctld.
From stdpp Require Import gmap.
Open Scope Z_scope.

Definition ErrUnknownModel := New (str "Unknown rig model").

(** What the program reads of a [struct rig_caps]: the strings end at the first
    NUL. *)
Record rig_caps := mkCaps { caps_model : Z; mfg_name : gostr; model_name : gostr }.

(** The library.  The constants are those of its header. *)
Class Hamlib (W RIG : Type) := {
  HAMLIB_FILPATHLEN : nat;
  RIG_PTT_ON : Z; RIG_PTT_OFF : Z; RIG_VFO_CURR : Z; RIG_VFO_A : Z; RIG_VFO_B : Z;
  rigerror : Z -> gostr;
  (* r->state.rigport.parm.serial.rate and r->state.rigport.pathname *)
  serial_rate : RIG -> Z; put_rate : RIG -> Z -> RIG;
  pathname : RIG -> gostr; put_pathname : RIG -> gostr -> RIG;
  rig_init : Z -> W -> option RIG * W;
  rig_open : RIG * W -> Z * (RIG * W);
  rig_close : RIG * W -> Z * (RIG * W);
  rig_set_powerstat : Z -> RIG * W -> Z * (RIG * W);
  rig_set_ptt : Z -> Z -> RIG * W -> Z * (RIG * W);
  rig_get_ptt : Z -> RIG * W -> (Z * Z) * (RIG * W);
  rig_set_freq : Z -> float64 -> RIG * W -> Z * (RIG * W);
  rig_get_freq : Z -> RIG * W -> (Z * float64) * (RIG * W);
  rig_set_mode : Z -> Z -> Z -> RIG * W -> Z * (RIG * W);
  rig_get_mode : Z -> RIG * W -> (Z * Z * Z) * (RIG * W);
  rig_passband_narrow : RIG -> Z -> Z;
  rig_passband_normal : RIG -> Z -> Z;
  rig_passband_wide : RIG -> Z -> Z }.

(** [RIG_OK], the code of success. *)
Definition RIG_OK : Z := 0.

(** ** The list of rigs *)
Definition rigListCb (rigList : list rig_caps) (rc : rig_caps) : list rig_caps := rigList ++ [rc].

(** [init]: the library calls back with each of its rigs. *)
Definition init_rigs (known : list rig_caps) : list rig_caps := foldl rigListCb [] known.

Definition Rigs (rigList : list rig_caps) : gmap Z gostr :=
  foldl (fun list rc => <[rc.(caps_model) := rc.(mfg_name) ++ str " " ++ rc.(model_name)]> list) ∅ rigList.

(** ** C strings *)
Fixpoint C_string (s : gostr) : gostr :=
  match s with [] => [] | c :: s => if c =? 0 then [] else c :: C_string s end.

(** [strncpy(dst, src, n)]: cut off at [n] bytes, filled up with NUL. *)
Definition strncpy (dst src : gostr) (n : nat) : gostr :=
  let s := take n (C_string src) in s ++ replicate (n - length s) 0 ++ drop n dst.

Section hamlib.
Context {W RIG : Type} `{Hamlib W RIG} `{NetURL} `{FloatConv}.

Definition codeToError (code : Z) : option error := if code =? RIG_OK then None else Some (New (rigerror code)).

(** ** Opening *)
Definition OpenSerial (model : Z) (path : gostr) (baudrate : Z) (w : W) : (error + RIG) * W :=
  match rig_init model w with
  | (None, w) => (inl ErrUnknownModel, w)
  | (Some rig, w) =>
      let rig := put_rate rig (i32 baudrate) in (* a C int *)
      let rig := put_pathname rig (strncpy (pathname rig) path (HAMLIB_FILPATHLEN - 1)) in
      let '(code, (rig, w)) := rig_open (rig, w) in
      match codeToError code with
      | Some e => (inl (Wrap (str "Unable to open rig: ") e), w)
      | None => (inr rig, w)
      end
  end.

Definition OpenSerialURI (uri : gostr) (w : W) : (error + RIG) * W :=
  match url_Parse uri with
  | inl _ => (inl (New (str "Invalid address format")), w)
  | inr u =>
      let modelStr := values_Get u.(u_Query) (str "model") in
      if bool_decide (modelStr = []) then (inl (New (str "Missing model parameter")), w)
      else
        let '(model, err) := Atoi modelStr in
        if err then (inl (New (str "Invalid model format")), w)
        else
          let baudStr := values_Get u.(u_Query) (str "baudrate") in
          if bool_decide (baudStr = []) then (inl (New (str "Missing baudrate parameter")), w)
          else
            let '(baudrate, err) := Atoi baudStr in
            if err then (inl (New (str "Invalid baudrate format")), w)
            else OpenSerial model u.(u_Path) baudrate w
  end.

(** A value of the interface [Rig]: it holds a pointer, which may be nil. *)
Inductive Rig := RigTCP (r : TCPRig) | RigSerial (r : option RIG).

Definition Open (network address : gostr) (dials : list (rerr + rconn)) (w : W) : (option Rig * option error) * W :=
  if bool_decide (network = str "tcp") then ((Some (RigTCP (OpenTCP address dials)), None), w)
  else if bool_decide (network = str "serial") then
    match OpenSerialURI address w with
    | (inl e, w) => ((Some (RigSerial None), Some e), w)
    | (inr rig, w) => ((Some (RigSerial (Some rig)), None), w)
    end
  else ((None, Some (New (str "Unknown network"))), w).

(** ** An open rig *)
Definition SerialRig_Close (rw : RIG * W) : option error * (RIG * W) := let '(_, rw) := rig_close rw in (None, rw).

(** The VFOs: a [cVFO] is one of these on the rig. *)
Definition CurrentVFO : Z := RIG_VFO_CURR.
Definition cVFOA : Z := RIG_VFO_A.
Definition cVFOB : Z := RIG_VFO_B.

Definition SetPowerState (pwr : Z) (rw : RIG * W) : option error * (RIG * W) :=
  let '(code, rw) := rig_set_powerstat pwr rw in (codeToError code, rw).

Definition cSetPTT (v : Z) (on : bool) (rw : RIG * W) : option error * (RIG * W) :=
  let ns := if on then RIG_PTT_ON else RIG_PTT_OFF in
  let '(code, rw) := rig_set_ptt v ns rw in (codeToError code, rw).

Definition cGetPTT (v : Z) (rw : RIG * W) : (bool * option error) * (RIG * W) :=
  let '((code, ptt), rw) := rig_get_ptt v rw in ((ptt =? RIG_PTT_ON, codeToError code), rw).

Definition cSetFreq (v freq : Z) (rw : RIG * W) : option error * (RIG * W) :=
  let '(code, rw) := rig_set_freq v (float_of_int freq) rw in (codeToError code, rw).

Definition cGetFreq (v : Z) (rw : RIG * W) : (Z * option error) * (RIG * W) :=
  let '((code, freq), rw) := rig_get_freq v rw in ((int_of_float freq, codeToError code), rw).

Definition SetMode (v m pbw : Z) (rw : RIG * W) : option error * (RIG * W) :=
  let '(code, rw) := rig_set_mode v m pbw rw in (codeToError code, rw).

Definition GetMode (v : Z) (rw : RIG * W) : (Z * Z * option error) * (RIG * W) :=
  let '((code, cm, cpwb), rw) := rig_get_mode v rw in ((cm, cpwb, codeToError code), rw).

Definition PassbandNarrow (r : RIG) (m : Z) : Z := rig_passband_narrow r m.
Definition PassbandNormal (r : RIG) (m : Z) : Z := rig_passband_normal r m.
Definition PassbandWide (r : RIG) (m : Z) : Z := rig_passband_wide r m.
End hamlib.

(** ** Numbers *)
Lemma trunc_abs_exact m e n : -1074 <= e -> Z.pos m * 2 ^ (e + 1074) = n * 2 ^ 1074 -> trunc_abs m e = n.
Proof.
  intros He E. unfold trunc_abs. destruct (Z.leb_spec 0 e).
  - apply (Z.mul_reg_r _ _ (2 ^ 1074)); [apply Z.pow_nonzero; lia|]. by rewrite <- E, <- Z.mul_assoc, <- Z.pow_add_r by lia.
  - symmetry. apply Z.div_unique_exact; [apply Z.pow_nonzero; lia|].
    apply (Z.mul_reg_r _ _ (2 ^ (e + 1074))); [apply Z.pow_nonzero; lia|].
    rewrite E, (Z.mul_comm _ n), <- Z.mul_assoc, <- Z.pow_add_r by lia. do 2 f_equal. lia.
Qed.

(** An integer of at most 53 bits goes through a float64 unchanged. *)
Lemma int_float `{FloatConv} n : - 2 ^ 53 < n < 2 ^ 53 -> int_of_float (float_of_int n) = n.
Proof.
  intros Hn.
  assert (G : forall s p, Z.pos p < 2 ^ 53 -> int_of_float (binary_round 53 1024 s p 0) = cond_Zopp s (Z.pos p)).
  { intros s p Hp. destruct (round_exact s p 0 (digits2_le p 53 ltac:(lia) Hp) ltac:(lia)) as (m' & e' & -> & He & _ & Em & _).
    assert (Ht : trunc_abs m' e' = Z.pos p).
    { apply trunc_abs_exact; [lia|]. rewrite Em, <- Z.mul_assoc, <- Z.pow_add_r by lia. do 2 f_equal. lia. }
    unfold int_of_float. rewrite Ht.
    destruct (Z.leb_spec (- 2 ^ 63) (cond_Zopp s (Z.pos p))), (Z.ltb_spec (cond_Zopp s (Z.pos p)) (2 ^ 63));
      try done; destruct s; cbn [cond_Zopp] in *; lia. }
  unfold float_of_int, binary_normalize. destruct n as [|p|p]; [done|apply (G false); lia|rewrite (G true) by lia; done].
Qed.

(** ** Properties *)
Section properties.
Context {W RIG : Type} `{Hamlib W RIG} `{NetURL} `{FloatConv}.

Lemma codeToError_ok code : codeToError code = None -> code = RIG_OK.
Proof. unfold codeToError. by destruct (Z.eqb_spec code RIG_OK). Qed.

(** A rig is opened from an address exactly when the address has a model and a
    baud rate that are numbers, the library knows the model and opens the rig
    with that rate on that path. *)
Theorem uri_opens uri w rig w' : OpenSerialURI uri w = (inr rig, w') <->
  exists u model baud rig0 w0, url_Parse uri = inr u /\
    Atoi (values_Get u.(u_Query) (str "model")) = (model, false) /\
    Atoi (values_Get u.(u_Query) (str "baudrate")) = (baud, false) /\
    rig_init model w = (Some rig0, w0) /\
    let rig1 := put_rate rig0 (i32 baud) in
    rig_open (put_pathname rig1 (strncpy (pathname rig1) u.(u_Path) (HAMLIB_FILPATHLEN - 1)), w0) = (RIG_OK, (rig, w')).
Proof.
  unfold OpenSerialURI. split.
  - destruct (url_Parse uri) as [e|u]; [done|]. case_bool_decide; [done|].
    destruct (Atoi (values_Get _ (str "model"))) as [model [|]] eqn:Em; [done|]. case_bool_decide; [done|].
    destruct (Atoi (values_Get _ (str "baudrate"))) as [baud [|]] eqn:Eb; [done|]. unfold OpenSerial.
    destruct (rig_init model w) as [[rig0|] w0] eqn:Ei; [|done]. destruct (rig_open _) as [code [rig1 w1]] eqn:Eo.
    destruct (codeToError code) eqn:Ec; [done|]. apply codeToError_ok in Ec as ->. intros [= <- <-].
    eexists u, model, baud, rig0, w0. by split_and!.
  - intros (u & model & baud & rig0 & w0 & -> & Em & Eb & Ei & Eo). cbv zeta in Eo.
    case_bool_decide as C; [by rewrite C in Em|]. rewrite Em. case_bool_decide as C2; [by rewrite C2 in Eb|]. rewrite Eb.
    unfold OpenSerial. by rewrite Ei, Eo.
Qed.
End properties.

Lemma C_string_id s : 0 ∉ s -> C_string s = s.
Proof.
  induction s as [|c s IH]; cbn [C_string]; [done|]. intros [Hc Hs]%not_elem_of_cons.
  destruct (Z.eqb_spec c 0); [done|]. by rewrite IH.
Qed.
Lemma C_string_app s t : 0 ∉ s -> C_string (s ++ 0 :: t) = s.
Proof.
  induction s as [|c s IH]; cbn [C_string app]; [done|]. intros [Hc Hs]%not_elem_of_cons.
  destruct (Z.eqb_spec c 0); [done|]. by rewrite IH.
Qed.

(** The path of the device is copied as a whole when there is room for it and its
    NUL. *)
Lemma strncpy_fits dst s n : 0 ∉ s -> (length s < n)%nat -> C_string (strncpy dst s n) = s.
Proof.
  intros H0 Hn. unfold strncpy. rewrite (C_string_id s H0), (take_ge s n) by lia.
  destruct (n - length s)%nat as [|k] eqn:E; [lia|]. cbn [replicate]. cbn [app]. by apply C_string_app.
Qed.

(** The list of rigs has every rig the library knows; of two with the same
    model number the later one. *)
Theorem Rigs_spec known m :
  Rigs (init_rigs known) !! m = last ((fun rc => rc.(mfg_name) ++ str " " ++ rc.(model_name)) <$> filter (fun rc => rc.(caps_model) = m) known).
Proof.
  assert (E : forall acc, foldl rigListCb acc known = acc ++ known).
  { induction known as [|rc known IH]; intros acc; cbn [foldl]; [by rewrite app_nil_r|]. rewrite IH. unfold rigListCb. by rewrite <- app_assoc. }
  unfold init_rigs. rewrite E. cbn [app]. clear E. unfold Rigs. induction known as [|rc known IH] using rev_ind; [done|].
  rewrite foldl_app, filter_app, fmap_app. cbn [foldl]. destruct (decide (rc.(caps_model) = m)) as [Em|Em].
  - rewrite filter_cons_True by done. rewrite filter_nil. cbn [fmap list_fmap]. rewrite last_snoc, Em. apply lookup_insert_eq.
  - rewrite filter_cons_False by done. rewrite filter_nil, app_nil_r. rewrite lookup_insert_ne by done. exact IH.
Qed.

(** ** A rig that keeps what it is set to

    No real rig has to: the frequency it answers may be rounded to its steps. *)
Definition memory_rig : Hamlib () (Z * gostr * (float64 * Z * (Z * Z))) := {|
  HAMLIB_FILPATHLEN := 512; RIG_PTT_ON := 1; RIG_PTT_OFF := 0; RIG_VFO_CURR := 536870912; RIG_VFO_A := 1; RIG_VFO_B := 2;
  rigerror := fun c => str "error " ++ itoa c;
  serial_rate := fun r => r.1.1; put_rate := fun r x => (x, r.1.2, r.2);
  pathname := fun r => r.1.2; put_pathname := fun r x => (r.1.1, x, r.2);
  rig_init := fun m w => (if m =? 1 then Some (0, replicate 512 0, (f_zero, 0, (0, 0))) else None, w);
  rig_open := fun rw => (0, rw); rig_close := fun rw => (0, rw); rig_set_powerstat := fun _ rw => (0, rw);
  rig_set_ptt := fun _ p '((a, (f, _, m)), w) => (0, ((a, (f, p, m)), w));
  rig_get_ptt := fun _ '((a, (f, p, m)), w) => ((0, p), ((a, (f, p, m)), w));
  rig_set_freq := fun _ f '((a, (_, p, m)), w) => (0, ((a, (f, p, m)), w));
  rig_get_freq := fun _ '((a, (f, p, m)), w) => ((0, f), ((a, (f, p, m)), w));
  rig_set_mode := fun _ m b '((a, (f, p, _)), w) => (0, ((a, (f, p, (m, b))), w));
  rig_get_mode := fun _ '((a, (f, p, m)), w) => ((0, m.1, m.2), ((a, (f, p, m)), w));
  rig_passband_narrow := fun _ _ => 500; rig_passband_normal := fun _ _ => 2400; rig_passband_wide := fun _ _ => 3000 |}.
Definition some_float : FloatConv := {| int_overflow := fun _ => 0 |}.
Definition memory_start : (Z * gostr * (float64 * Z * (Z * Z))) * () := ((9600, str "/dev/ttyS0", (f_zero, 0, (0, 0))), ()).

(** A frequency goes through a float64 and back, which rounds it from 2^53 Hz on. *)
Example frequency_kept :
  (@cGetFreq _ _ memory_rig some_float 1 (@cSetFreq _ _ memory_rig 1 7038500 memory_start).2).1 = (7038500, None).
Proof. vm_compute. reflexivity. Qed.

Example frequency_rounded :
  (@cGetFreq _ _ memory_rig some_float 1 (@cSetFreq _ _ memory_rig 1 (2 ^ 53 + 1) memory_start).2).1 = (2 ^ 53, None).
Proof. vm_compute. reflexivity. Qed.
